(** * Starburst99 (Python edition): the population time-evolution engine

    A shallow embedding of the IMF model ([models/imf.py]), of the two
    track interpolators ([models/stellar_tracks.py],
    [core/galaxy_module.py]) and of the stepping driver
    ([starburst_main.py]), with the properties of the design document
    stated and settled against them.

    Numbers.  A Python/NumPy double is modelled by a real number: sums,
    products, quotients, comparisons, [max] and [min] are the exact ones,
    and rounding is outside the model.  The properties are therefore
    written in the formulas of the code, with its own order of
    operations, so that they say what the code computes; a property that
    holds over the real numbers only says so ("in exact arithmetic").
    [np_pow] and [np_log] are the real power and logarithm; they agree
    with NumPy (up to rounding) on positive arguments, and every statement
    that depends on their value carries the positivity it needs.  Where
    the code can meet a zero or a negative mass, [number] and [float64]
    keep apart a Python float from a NumPy double (the first raises on a
    division by zero, the second gives [inf] or [nan]).

    Exceptions are explicit: a fallible operation returns a [result], and
    the driver is embedded with every call of a turn of its main loop and
    the failures each can raise. *)

From Stdlib Require Import Reals Lra Lia List ZArith String DecimalString Bool.
Import ListNotations.
Local Open Scope R_scope.

(** ** Python and NumPy primitives *)

Module Py.

Inductive exn : Type :=
| ValueError (msg : string)
| IndexError
| ZeroDivisionError
| FileNotFoundError (msg : string)
| TypeError (msg : string)
| AttributeError (msg : string)
| OtherError (msg : string).

Inductive result (A : Type) : Type :=
| Ok (a : A)
| Raise (e : exn).
Arguments Ok {A} a.
Arguments Raise {A} e.

Definition bind {A B : Type} (m : result A) (k : A -> result B) : result B :=
  match m with
  | Ok a => k a
  | Raise e => Raise e
  end.

Definition raises {A : Type} (m : result A) : Prop :=
  exists e, m = Raise e.

(** [str(e)] for the exceptions above. *)
Definition str_exn (e : exn) : string :=
  match e with
  | ValueError msg => msg
  | IndexError => "index out of bounds"
  | ZeroDivisionError => "float division by zero"
  | FileNotFoundError msg => msg
  | TypeError msg => msg
  | AttributeError msg => msg
  | OtherError msg => msg
  end.

(** [str(n)] for an integer. *)
Definition str_int (n : Z) : string := NilZero.string_of_int (Z.to_int n).

(** [a[i]] on a one-dimensional array or list: a negative index counts
    from the end, anything out of range raises [IndexError]. *)
Definition py_index {A : Type} (a : list A) (i : Z) : result A :=
  let n := Z.of_nat (List.length a) in
  let j := if (i <? 0)%Z then (n + i)%Z else i in
  if ((0 <=? j)%Z && (j <? n)%Z)%bool
  then match nth_error a (Z.to_nat j) with
       | Some x => Ok x
       | None => Raise IndexError
       end
  else Raise IndexError.

(** [x / y] on two Python floats. *)
Definition py_div (x y : R) : result R :=
  if Req_dec_T y 0 then Raise ZeroDivisionError else Ok (x / y).

(** [x ** y], [np.log], [np.log10] on NumPy doubles, for a positive [x]:
    no exception.  (NumPy gives 0, [inf] or [nan] for other [x]; see
    [np_power] and [np_log_float] below.) *)
Definition np_pow (x y : R) : R := Rpower x y.
Definition np_log (x : R) : R := ln x.
Definition np_log10 (x : R) : R := ln x / ln 10.

(** [np.diff]: differences of neighbours. *)
Fixpoint np_diff (a : list R) : list R :=
  match a with
  | x :: (y :: _) as tl => (y - x) :: np_diff tl
  | _ => []
  end.

(** [np.all(a > 0)]. *)
Definition np_all_pos (a : list R) : bool :=
  forallb (fun d => if Rlt_dec 0 d then true else false) a.

(** [np.searchsorted(a, v)] (side ['left']) on an array in ascending
    order, as NumPy requires: the number of entries strictly below [v].
    The scan stops at the first entry that is not below [v]; NumPy
    bisects, and finds the same index when the array is sorted. *)
Fixpoint np_searchsorted (a : list R) (v : R) : nat :=
  match a with
  | [] => O
  | x :: tl => if Rlt_dec x v then S (np_searchsorted tl v) else O
  end.

(** [np.searchsorted(a, v, side='right')]: entries below or equal. *)
Fixpoint np_searchsorted_right (a : list R) (v : R) : nat :=
  match a with
  | [] => O
  | x :: tl => if Rle_dec x v then S (np_searchsorted_right tl v) else O
  end.

(** [a.sum()] and [sum(a)]: the entries added from the left. *)
Definition np_sum (a : list R) : R := fold_left Rplus a 0.

(** [np.clip(x, lo, hi)] is [minimum(maximum(x, lo), hi)], also when
    [hi < lo]. *)
Definition np_clip (x lo hi : Z) : Z := Z.min (Z.max x lo) hi.

(** [x ** y] on two Python floats, the base not negative: a zero base
    refuses a negative exponent. *)
Definition py_pow (x y : R) : result R :=
  if Req_dec_T x 0
  then if Rlt_dec y 0 then Raise ZeroDivisionError
       else Ok (if Req_dec_T y 0 then 1 else 0)
  else Ok (Rpower x y).

(** [a[i] = v] on a one-dimensional array, [i] from a [range]: past the
    end it raises [IndexError]. *)
Definition set_item {A : Type} (a : list A) (i : nat) (v : A) : result (list A) :=
  if (i <? List.length a)%nat
  then Ok (firstn i a ++ v :: skipn (S i) a)%list
  else Raise IndexError.

(** [np.finfo(float).eps]. *)
Definition float_eps : R := / 2 ^ 52.












End Py.

Export Py.

Declare Scope py_scope.
Notation "x <- m ;; k" := (bind m (fun x => k))
  (at level 61, m at next level, right associativity) : py_scope.
Local Open Scope py_scope.
Local Open Scope string_scope.

(** Array reads whose index the surrounding code keeps in range. *)
Definition get (a : list R) (i : nat) : R := nth i a 0.

(** [for i in range(n): body], the body fallible. *)
Definition for_range {S : Type} (n : nat) (body : S -> nat -> result S) (s : S)
  : result S :=
  fold_left (fun acc i => s <- acc ;; body s i) (seq 0 n) (Ok s).

(** ** numpy.random, the legacy global generator

    The state of the generator is the sequence of doubles in [0, 1) that
    [random_sample] will deliver from now on.  [np.random.seed] replaces
    it by a sequence that depends on the seed alone; which one is left to
    the parameter [mt19937] of the code that seeds. *)

Module NpRandom.

Definition state : Type := nat -> R.

Definition random_sample (g : state) : R * state :=
  (g O, fun k => g (S k)).

(** [np.random.uniform()] is [low + (high - low) * random_sample()] with
    [low = 0.0] and [high = 1.0]. *)
Definition uniform (g : state) : R * state :=
  let (u, g') := random_sample g in (0 + (1 - 0) * u, g').

Fixpoint cumsum_from (acc : R) (p : list R) : list R :=
  match p with
  | [] => []
  | x :: tl => (acc + x) :: cumsum_from (acc + x) tl
  end.

Definition cumsum (p : list R) : list R := cumsum_from 0 p.

(** [np.random.choice(a, p=p)] for an integer [a] and one draw: the
    arguments are checked, then the index is found in the cumulative
    distribution by one uniform draw.  The check that [p] sums to one is
    exact here, where NumPy allows a rounding tolerance. *)
Definition choice (a : Z) (p : list R) (g : state) : result (nat * state) :=
  if (a <=? 0)%Z then Raise (ValueError "a must be greater than 0")
  else if negb (Z.of_nat (List.length p) =? a)%Z
  then Raise (ValueError "a and p must have same size")
  else if negb (forallb (fun x => if Rle_dec 0 x then true else false) p)
  then Raise (ValueError "probabilities are not non-negative")
  else if Req_dec_T (np_sum p) 1
  then let cdf := cumsum p in
       let cdf := map (fun c => c / last cdf 0) cdf in
       let (u, g') := random_sample g in
       Ok (np_searchsorted_right cdf u, g')
  else Raise (ValueError "probabilities do not sum to 1").

End NpRandom.

(** ** models/imf.py *)

Module IMF.

Record t : Type := mk {
  intervals : Z;
  exponents : list R;
  mass_limits : list R;
  normalizations : list R
}.

Definition _validate_parameters (intervals : Z) (exponents mass_limits : list R)
  : result unit :=
  if negb (Z.of_nat (List.length exponents) =? intervals)%Z
  then Raise (ValueError "Number of exponents must match number of intervals")
  else if negb (Z.of_nat (List.length mass_limits) =? intervals + 1)%Z
  then Raise (ValueError "Number of mass limits must be intervals + 1")
  else if negb (np_all_pos (np_diff mass_limits))
  then Raise (ValueError "Mass limits must be in increasing order")
  else Ok tt.

(** One constant per interval; the validation has made every index of
    the loop a valid one. *)
Definition _calculate_normalizations (intervals : Z) (exponents mass_limits : list R)
  : list R :=
  map (fun i =>
         let e := get exponents i in
         if Req_dec_T e (-1)
         then np_log (get mass_limits (i + 1) / get mass_limits i)
         else (np_pow (get mass_limits (i + 1)) (e + 1)
               - np_pow (get mass_limits i) (e + 1)) / (e + 1))
      (seq 0 (Z.to_nat intervals)).

Definition __init__ (intervals : Z) (exponents mass_limits : list R) : result t :=
  _ <- _validate_parameters intervals exponents mass_limits ;;
  Ok (mk intervals exponents mass_limits
         (_calculate_normalizations intervals exponents mass_limits)).

(** The class body defines [xi] twice; the first definition (exact test
    on the exponent, no [interval] argument) is replaced by the second
    when the class is created, and is kept here only for comparison. *)
Definition xi_shadowed (self : t) (mass : R) : result R :=
  lo <- py_index (mass_limits self) 0 ;;
  hi <- py_index (mass_limits self) (-1) ;;
  if Rlt_dec mass lo then Ok 0
  else if Rlt_dec hi mass then Ok 0
  else
    let interval :=
      np_clip (Z.of_nat (np_searchsorted (mass_limits self) mass) - 1)
              0 (intervals self - 1) in
    alpha <- py_index (exponents self) interval ;;
    if Req_dec_T alpha (-1) then py_div 1 mass
    else Ok (np_pow mass (- alpha)).

(** The value computed once the interval is known (the second half of
    [xi]).  [1.0 / mass] divides two Python floats. *)
Definition xi_at (self : t) (mass : R) (interval : Z) : result R :=
  alpha <- py_index (exponents self) interval ;;
  if Rlt_dec (Rabs (alpha - 1)) 1e-6 then py_div 1 mass
  else if Req_dec_T alpha (-1) then py_div 1 mass
  else Ok (np_pow mass (- alpha)).

(** [xi(mass, interval=None)], the definition in force. *)
Definition xi (self : t) (mass : R) (interval : option Z) : result R :=
  match interval with
  | Some i => xi_at self mass i
  | None =>
      lo <- py_index (mass_limits self) 0 ;;
      hi <- py_index (mass_limits self) (-1) ;;
      if Rlt_dec mass lo then Ok 0
      else if Rlt_dec hi mass then Ok 0
      else xi_at self mass
             (np_clip (Z.of_nat (np_searchsorted (mass_limits self) mass) - 1)
                      0 (intervals self - 1))
  end.

(** The closed form added to [total] for one interval of exponent
    [alpha] that overlaps the range in [int_low, int_high]. *)
Definition segment_term (alpha int_low int_high : R) : R :=
  if Req_dec_T alpha (-1) then np_log (int_high / int_low)
  else if Req_dec_T alpha 1 then np_log (int_high / int_low)
  else (np_pow int_high (- alpha + 1) - np_pow int_low (- alpha + 1))
       / (- alpha + 1).

(** One turn of the loop of [integrate]. *)
Definition integrate_step (self : t) (m_low m_high : R) (total : R) (i : nat) : R :=
  let int_low := Rmax m_low (get (mass_limits self) i) in
  let int_high := Rmin m_high (get (mass_limits self) (i + 1)) in
  if Rlt_dec int_low int_high
  then total + segment_term (get (exponents self) i) int_low int_high
  else total.

Definition integrate (self : t) (m_low m_high : R) : R :=
  let m_low := Rmax m_low (get (mass_limits self) 0) in
  let m_high := Rmin m_high (last (mass_limits self) 0) in
  if Rle_dec m_high m_low then 0
  else fold_left (integrate_step self m_low m_high)
                 (seq 0 (Z.to_nat (intervals self))) 0.

(** *** [integrate] on every accepted IMF

    [integrate] above is the method on an IMF whose masses are positive.
    The definitions below follow the same code without that proviso: the
    two arguments keep their kind, since [max] and [min] hand one of
    their arguments on unchanged and the two logarithmic branches divide
    what they are handed. *)




(** *** The constructor on lists of Python numbers

    An entry of a list handed to [IMF(...)] is a Python int or a Python
    float.  [np.array] gives an array of 64-bit integers when the list is
    not empty and holds ints only (ints that fit 64 bits are meant), and
    an array of doubles otherwise. *)
Inductive item : Type :=
| Int (z : Z)
| Float (r : R).

Definition item_value (x : item) : R :=
  match x with
  | Int z => IZR z
  | Float r => r
  end.

Definition int_dtype (l : list item) : bool :=
  match l with
  | [] => false
  | _ :: _ => forallb (fun x => match x with Int _ => true | Float _ => false end) l
  end.

(** The power of [_calculate_normalizations] for interval [i] is
    computed in integers when both arrays hold integers; NumPy refuses a
    negative integer power of an integer. *)
Definition refused_power (e : item) : bool :=
  match e with
  | Int z => negb (z =? -1)%Z && (z + 1 <? 0)%Z
  | Float _ => false
  end.

(** [IMF(intervals, exponents, mass_limits)] on such lists, for its
    outcome: the exception raised, or [Ok tt] when an IMF is built. *)
Definition construct (intervals : Z) (exponents mass_limits : list item)
  : result unit :=
  _ <- _validate_parameters intervals (map item_value exponents)
                            (map item_value mass_limits) ;;
  if (int_dtype exponents && int_dtype mass_limits
      && existsb refused_power exponents)%bool
  then Raise (ValueError "Integers to negative integer powers are not allowed.")
  else Ok tt.

(** [_integrate_segment(segment, m_low, m_high, alpha)], called with
    Python floats; [segment] is not read. *)
Definition _integrate_segment (self : t) (segment : Z) (m_low m_high alpha : R)
  : result R :=
  if Req_dec_T alpha 1
  then q <- py_div m_high m_low ;; Ok (np_log q)
  else if Req_dec_T alpha (-1)
  then q <- py_div m_high m_low ;; Ok (np_log q)
  else hi <- py_pow m_high (- alpha + 1) ;;
       lo <- py_pow m_low (- alpha + 1) ;;
       py_div (hi - lo) (- alpha + 1).

(** [base ** (1 / d)] as [sample] writes it, [d] a NumPy double.  For
    [d = 0] the exponent is [inf] (NumPy warns, it does not raise), and
    [base ** inf] is 1 for a base of 1 and 0 for a base in [0, 1); a base
    above 1 gives [inf], which the model does not hold. *)
Definition pow_recip (base d : R) : R :=
  if Req_dec_T d 0
  then if Req_dec_T base 1 then 1 else 0
  else np_pow base (1 / d).

(** The mass drawn inside one interval from the uniform draw [u]. *)
Definition draw_mass (alpha m_low m_high u : R) : R :=
  if Req_dec_T alpha (-1)
  then m_low * np_pow (m_high / m_low) u
  else pow_recip (u * (np_pow m_high (- alpha + 1) - np_pow m_low (- alpha + 1))
                  + np_pow m_low (- alpha + 1))
                 (- alpha + 1).

Section Sampling.

(** The stream [np.random.seed(seed)] installs. *)
Variable mt19937 : Z -> NpRandom.state.

(** The loop [for _ in range(n_stars)], [k] turns left. *)
Fixpoint sample_loop (self : t) (interval_probs : list R) (k : nat)
         (masses : list R) (g : NpRandom.state)
  : result (list R * NpRandom.state) :=
  match k with
  | O => Ok (masses, g)
  | S k' =>
      r <- NpRandom.choice (intervals self) interval_probs g ;;
      let (interval, g1) := (r : nat * NpRandom.state) in
      let (u, g2) := NpRandom.uniform g1 in
      let m_low := get (mass_limits self) interval in
      let m_high := get (mass_limits self) (interval + 1) in
      let alpha := get (exponents self) interval in
      sample_loop self interval_probs k'
                  (masses ++ [draw_mass alpha m_low m_high u]) g2
  end.

(** [sample(n_stars, seed)] run on the global generator state [g]:
    the array returned and the state left behind.  The seed is one that
    [np.random.seed] accepts, an integer from 0 to 2^32 - 1; for another
    one the call raises [ValueError] before anything is drawn. *)
Definition sample (self : t) (n_stars : Z) (seed : option Z) (g : NpRandom.state)
  : result (list R * NpRandom.state) :=
  let g := match seed with Some s => mt19937 s | None => g end in
  let interval_probs :=
    map (fun i => integrate self (get (mass_limits self) i)
                            (get (mass_limits self) (i + 1)))
        (seq 0 (Z.to_nat (intervals self))) in
  let total := np_sum interval_probs in
  let interval_probs := map (fun p => p / total) interval_probs in
  sample_loop self interval_probs (Z.to_nat n_stars) [] g.

End Sampling.

End IMF.

(** ** Logging and files

    The [logging] module is a global sink: a method that logs takes the
    records written so far and returns them extended.  The file system is
    read through two observations: whether a path exists, and what
    opening and parsing an existing track file gives. *)

Inductive level : Type := DEBUG | INFO | WARNING | ERROR.

Definition Log : Type := list (level * string).

Definition M (A : Type) : Type := Log -> result A * Log.

Definition ret {A : Type} (a : A) : M A := fun l => (Ok a, l).

Definition throw {A : Type} (e : exn) : M A := fun l => (Raise e, l).

Definition mbind {A B : Type} (m : M A) (k : A -> M B) : M B :=
  fun l => match m l with
           | (Ok a, l') => k a l'
           | (Raise e, l') => (Raise e, l')
           end.

Definition lift {A : Type} (r : result A) : M A := fun l => (r, l).

Definition logger (lv : level) (msg : string) : M unit :=
  fun l => (Ok tt, (l ++ [(lv, msg)])%list).

(** [try: m except Exception as e: h e]. *)
Definition try_except {A : Type} (m : M A) (h : exn -> M A) : M A :=
  fun l => match m l with
           | (Ok a, l') => (Ok a, l')
           | (Raise e, l') => h e l'
           end.

Notation "x <~ m ;; k" := (mbind m (fun x => k))
  (at level 61, m at next level, right associativity) : py_scope.

(** ** models/stellar_tracks.py *)

Module StellarTracks.

(** One mass header of a track file and the rows below it. *)
Record Track : Type := mkTrack {
  time : list R;
  luminosity : list R;
  temperature : list R;
  radius : list R;
  mass_loss_rate : list R;
  stellar_type : list Z
}.

(** The dictionary from initial mass to track, in insertion order; its
    keys are floats, compared with [==]. *)
Definition mass_data : Type := list (R * Track).

(** What the code sees of the disk: whether a path exists, whether an
    existing file opens for reading, and what reading and parsing an
    existing track file gives (the parser is a collaborator). *)
Record FileSystem : Type := mkFS {
  path_exists : string -> bool;
  can_open : string -> bool;
  read_tracks : string -> result mass_data
}.

Record t : Type := mk {
  data_dir : string;
  tracks : list (string * mass_data);
  metallicities : list string
}.

Record Props : Type := mkProps {
  p_luminosity : R;
  p_temperature : R;
  p_radius : R;
  p_mass_loss_rate : R;
  p_stellar_type : Z
}.

Definition keys (d : mass_data) : list R := map fst d.

Fixpoint dict_get (d : mass_data) (k : R) : result Track :=
  match d with
  | [] => Raise (OtherError "KeyError")
  | (k', v) :: tl => if Req_dec_T k' k then Ok v else dict_get tl k
  end.

Fixpoint tracks_get (d : list (string * mass_data)) (k : string) : option mass_data :=
  match d with
  | [] => None
  | (k', v) :: tl => if String.eqb k' k then Some v else tracks_get tl k
  end.

Fixpoint tracks_set (d : list (string * mass_data)) (k : string) (v : mass_data)
  : list (string * mass_data) :=
  match d with
  | [] => [(k, v)]
  | (k', v') :: tl =>
      if String.eqb k' k then (k, v) :: tl else (k', v') :: tracks_set tl k v
  end.

(** [sorted] on a list of floats. *)
Fixpoint insert_sorted (x : R) (l : list R) : list R :=
  match l with
  | [] => [x]
  | y :: tl => if Rle_dec x y then x :: l else y :: insert_sorted x tl
  end.

Definition py_sorted (l : list R) : list R := fold_right insert_sorted [] l.

(** [np.interp(x, xp, fp)] between its end points: the segment
    [xp[j] <= x < xp[j+1]] is looked for from the left; a sample point hit
    exactly gives its own value. *)
Fixpoint interp_scan (x : R) (xp fp : list R) : R :=
  match xp, fp with
  | x0 :: xtl, y0 :: ytl =>
      match xtl, ytl with
      | x1 :: _, y1 :: _ =>
          if Rlt_dec x x1
          then if Req_dec_T x x0 then y0
               else (y1 - y0) / (x1 - x0) * (x - x0) + y0
          else interp_scan x xtl ytl
      | _, _ => y0
      end
  | _, _ => 0
  end.

(** [np.interp(x, xp, fp)] with its default [left] and [right], on
    abscissae in ascending order, as NumPy requires: below [xp[0]] the
    value is [fp[0]], above [xp[-1]] it is [fp[-1]].  (On other abscissae
    NumPy's answer depends on its bisection and is not modelled.) *)
Definition np_interp (x : R) (xp fp : list R) : result R :=
  match xp with
  | [] => Raise (ValueError "array of sample points is empty")
  | x0 :: _ =>
      if negb (List.length fp =? List.length xp)%nat
      then Raise (ValueError "fp and xp are not of the same length.")
      else if Rlt_dec x x0 then Ok (nth 0 fp 0)
      else if Rlt_dec (last xp 0) x then Ok (last fp 0)
      else Ok (interp_scan x xp fp)
  end.

Definition load_tracks (fs : FileSystem) (self : t) (metallicity : string) : M t :=
  let track_file := data_dir self ++ "/" ++ metallicity ++ ".txt" in
  if negb (path_exists fs track_file)
  then _ <~ logger ERROR ("Track file not found: " ++ track_file) ;;
       throw (FileNotFoundError ("Track file not found: " ++ track_file))
  else _ <~ logger INFO ("Loading tracks from: " ++ track_file) ;;
       d <~ lift (read_tracks fs track_file) ;;
       _ <~ logger INFO ("Loaded " ++ str_int (Z.of_nat (List.length d))
                         ++ " mass tracks for " ++ metallicity) ;;
       ret (mk (data_dir self) (tracks_set (tracks self) metallicity d)
               (metallicities self ++ [metallicity])%list).

(** The tail of [interpolate_track], reached with the boundary track. *)
Definition single_track (track : Track) (t : R) : result Props :=
  lum <- np_interp t (time track) (luminosity track) ;;
  temp <- np_interp t (time track) (temperature track) ;;
  rad <- np_interp t (time track) (radius track) ;;
  mdot <- np_interp t (time track) (mass_loss_rate track) ;;
  let t_idx := Z.of_nat (np_searchsorted (time track) t) in
  let t_idx := np_clip t_idx 0 (Z.of_nat (List.length (stellar_type track)) - 1) in
  ty <- py_index (stellar_type track) t_idx ;;
  Ok (mkProps lum temp rad mdot ty).

(** The branch of [interpolate_track] between two tracks. *)
Definition two_tracks (m1 m2 : R) (track1 track2 : Track) (mass t : R)
  : result Props :=
  let w1 := (m2 - mass) / (m2 - m1) in
  let w2 := (mass - m1) / (m2 - m1) in
  let blend (key : Track -> list R) : result R :=
    val1 <- np_interp t (time track1) (key track1) ;;
    val2 <- np_interp t (time track2) (key track2) ;;
    Ok (w1 * val1 + w2 * val2) in
  lum <- blend luminosity ;;
  temp <- blend temperature ;;
  rad <- blend radius ;;
  mdot <- blend mass_loss_rate ;;
  let t1_idx := Z.of_nat (np_searchsorted (time track1) t) in
  let t2_idx := Z.of_nat (np_searchsorted (time track2) t) in
  let t1_idx := np_clip t1_idx 0 (Z.of_nat (List.length (stellar_type track1)) - 1) in
  let t2_idx := np_clip t2_idx 0 (Z.of_nat (List.length (stellar_type track2)) - 1) in
  ty <- (if Rlt_dec 0.5 w1
         then py_index (stellar_type track1) t1_idx
         else py_index (stellar_type track2) t2_idx) ;;
  Ok (mkProps lum temp rad mdot ty).

(** [interpolate_track] once [self.tracks[metallicity]] is at hand. *)
Definition interpolate_in (track_data : mass_data) (mass t : R) : result Props :=
  let masses := py_sorted (keys track_data) in
  m0 <- py_index masses 0 ;;
  if Rle_dec mass m0
  then track <- dict_get track_data m0 ;; single_track track t
  else
    mN <- py_index masses (-1) ;;
    if Rle_dec mN mass
    then track <- dict_get track_data mN ;; single_track track t
    else
      let idx := Z.of_nat (np_searchsorted masses mass) in
      m1 <- py_index masses (idx - 1) ;;
      m2 <- py_index masses idx ;;
      track1 <- dict_get track_data m1 ;;
      track2 <- dict_get track_data m2 ;;
      two_tracks m1 m2 track1 track2 mass t.

Definition interpolate_track (fs : FileSystem) (self : t) (mass t : R)
           (metallicity : string) : M (Props * StellarTracks.t) :=
  self <~ (match tracks_get (tracks self) metallicity with
           | Some _ => ret self
           | None => load_tracks fs self metallicity
           end) ;;
  match tracks_get (tracks self) metallicity with
  | None => throw (OtherError "KeyError")
  | Some track_data =>
      props <~ lift (interpolate_in track_data mass t) ;;
      ret (props, self)
  end.

(** [get_lifetime] once [self.tracks[metallicity]] is at hand. *)
Definition lifetime_in (track_data : mass_data) (mass : R) : result R :=
  let masses := py_sorted (keys track_data) in
  m0 <- py_index masses 0 ;;
  if Rle_dec mass m0
  then track <- dict_get track_data m0 ;; py_index (time track) (-1)
  else
    mN <- py_index masses (-1) ;;
    if Rle_dec mN mass
    then track <- dict_get track_data mN ;; py_index (time track) (-1)
    else
      let idx := Z.of_nat (np_searchsorted masses mass) in
      m1 <- py_index masses (idx - 1) ;;
      m2 <- py_index masses idx ;;
      track1 <- dict_get track_data m1 ;;
      life1 <- py_index (time track1) (-1) ;;
      track2 <- dict_get track_data m2 ;;
      life2 <- py_index (time track2) (-1) ;;
      log_life <- np_interp (np_log10 mass)
                            [np_log10 m1; np_log10 m2]
                            [np_log10 life1; np_log10 life2] ;;
      Ok (np_pow 10 log_life).

Definition get_lifetime (fs : FileSystem) (self : t) (mass : R)
           (metallicity : string) : M (R * StellarTracks.t) :=
  self <~ (match tracks_get (tracks self) metallicity with
           | Some _ => ret self
           | None => load_tracks fs self metallicity
           end) ;;
  match tracks_get (tracks self) metallicity with
  | None => throw (OtherError "KeyError")
  | Some track_data =>
      life <~ lift (lifetime_in track_data mass) ;;
      ret (life, self)
  end.

(** [_linear_interpolate(x, y, xi)]: the class's own interpolation, with
    its tolerance of [1e-10] around the sample points. *)
Definition _linear_interpolate (x y : list R) (xi : R) : result R :=
  let len_x := Z.of_nat (List.length x) in
  if (len_x <? 2)%Z
  then if (0 <? List.length y)%nat then py_index y 0 else Ok 0
  else
    x0 <- py_index x 0 ;;
    if Rle_dec xi x0 then py_index y 0
    else
      xN <- py_index x (-1) ;;
      if Rle_dec xN xi then py_index y (-1)
      else
        let idx := Z.of_nat (np_searchsorted x xi) in
        let idx := if (idx >=? len_x)%Z then (len_x - 1)%Z else idx in
        near_left <- (if (idx >? 0)%Z
                      then xl <- py_index x (idx - 1) ;;
                           Ok (if Rlt_dec (Rabs (xl - xi)) 1e-10 then true else false)
                      else Ok false) ;;
        if (near_left : bool) then py_index y (idx - 1)
        else
          near_right <- (if (idx <? len_x)%Z
                         then xr <- py_index x idx ;;
                              Ok (if Rlt_dec (Rabs (xr - xi)) 1e-10 then true else false)
                         else Ok false) ;;
          if (near_right : bool) then py_index y idx
          else if ((idx >? 0) && (idx <? len_x))%Z%bool
          then
            x1 <- py_index x (idx - 1) ;;
            x2 <- py_index x idx ;;
            y1 <- py_index y (idx - 1) ;;
            y2 <- py_index y idx ;;
            if Rlt_dec (Rabs (x2 - x1)) 1e-10 then Ok ((y1 + y2) / 2)
            else Ok (y1 + (xi - x1) * (y2 - y1) / (x2 - x1))
          else if (idx <? Z.of_nat (List.length y))%Z then py_index y idx
               else py_index y (-1).

End StellarTracks.

(** ** Arrays held by attributes

    An attribute that holds a NumPy array, or [None] before the array is
    allocated.  Reading, measuring or writing through [None] raises
    [TypeError]; an index past the end raises [IndexError]; a slice
    assignment whose right-hand side does not fit raises [ValueError]. *)

Definition none_subscript : exn :=
  TypeError "'NoneType' object is not subscriptable".

Definition none_len : exn :=
  TypeError "object of type 'NoneType' has no len()".

Definition none_assign : exn :=
  TypeError "'NoneType' object does not support item assignment".

(** [a[i]]. *)
Definition subscript {A : Type} (a : option (list A)) (i : Z) : result A :=
  match a with
  | None => Raise none_subscript
  | Some l => py_index l i
  end.

(** [len(a)]. *)
Definition py_len {A : Type} (a : option (list A)) : result nat :=
  match a with
  | None => Raise none_len
  | Some l => Ok (List.length l)
  end.

(** [a[i] = v]. *)
Definition store {A : Type} (a : option (list A)) (i : nat) (v : A)
  : result (option (list A)) :=
  match a with
  | None => Raise none_assign
  | Some l => l' <- set_item l i v ;; Ok (Some l')
  end.

(** [a[i, j]] on a two-dimensional array, held as the list of its rows. *)
Definition subscript2 (a : option (list (list R))) (i j : Z) : result R :=
  row <- subscript a i ;; py_index row j.

(** [a[i, j] = v]. *)
Definition store2 (a : option (list (list R))) (i j : nat) (v : R)
  : result (option (list (list R))) :=
  match a with
  | None => Raise none_assign
  | Some rows =>
      row <- py_index rows (Z.of_nat i) ;;
      row' <- set_item row j v ;;
      rows' <- set_item rows i row' ;;
      Ok (Some rows')
  end.

Definition str_nat (n : nat) : string := str_int (Z.of_nat n).

Definition broadcast_error (n m : nat) : exn :=
  ValueError ("could not broadcast input array from shape (" ++ str_nat n
              ++ ",) into shape (" ++ str_nat m ++ ",)").

(** [l[:len(b)] = b] on a one-dimensional array [l]: the slice holds
    [min(len(b), len(l))] places, and [b] must have as many entries, or
    one entry only (which is then repeated over the slice, here empty). *)
Definition assign_prefix_list (l b : list R) : result (list R) :=
  let n := List.length b in
  let m := Nat.min n (List.length l) in
  if (m =? n)%nat then Ok (b ++ skipn n l)%list
  else if (n =? 1)%nat then Ok l
  else Raise (broadcast_error n m).

(** [a[:len(b)] = b]. *)
Definition assign_prefix (a : option (list R)) (b : list R)
  : result (option (list R)) :=
  match a with
  | None => Raise none_assign
  | Some l => l' <- assign_prefix_list l b ;; Ok (Some l')
  end.

(** [a[i, :len(b)] = b]. *)
Definition assign_row_prefix (a : option (list (list R))) (i : nat) (b : list R)
  : result (option (list (list R))) :=
  match a with
  | None => Raise none_assign
  | Some rows =>
      row <- py_index rows (Z.of_nat i) ;;
      row' <- assign_prefix_list row b ;;
      rows' <- set_item rows i row' ;;
      Ok (Some rows')
  end.

(** [a[:len(b), j] = b]: column [j] must exist, and the rows of the
    slice must be as many as the entries of [b] (or [b] a single entry).
    An array without rows is taken to have column [j]. *)
Definition assign_column_prefix (a : option (list (list R))) (j : nat) (b : list R)
  : result (option (list (list R))) :=
  match a with
  | None => Raise none_assign
  | Some rows =>
      let n := List.length b in
      let m := Nat.min n (List.length rows) in
      if match rows with
         | [] => false
         | row :: _ => (List.length row <=? j)%nat
         end
      then Raise IndexError
      else if (m =? n)%nat
      then for_range n (fun a k => store2 a k j (nth k b 0)) (Some rows)
      else if (n =? 1)%nat then Ok (Some rows)
      else Raise (broadcast_error n m)
  end.

(** [d.get(key, default)] on a dictionary with string keys. *)
Fixpoint dict_get_default (d : list (string * R)) (key : string) (default : R) : R :=
  match d with
  | [] => default
  | (k, v) :: tl => if String.eqb k key then v else dict_get_default tl key default
  end.

(** [a[k] += v] on a local array, [k] in range. *)
Definition add_at (a : list R) (k : nat) (v : R) : list R :=
  (firstn k a ++ (nth k a 0 + v) :: skipn (S k) a)%list.

(** ** core/galaxy_module.py *)

Module ModelParameters.

(** The dataclass [ModelParameters], field by field. *)
Record t : Type := mk {
  name : string;
  sf_mode : Z;
  total_mass : R;
  sf_rate : R;
  num_intervals : Z;
  exponents : list R;
  mass_limits : list R;
  sn_cutoff : R;
  bh_cutoff : R;
  metallicity_id : Z;
  wind_model : Z;
  initial_time : R;
  time_scale : Z;
  time_step : R;
  num_steps : Z;
  max_time : R;
  atmosphere_model : Z;
  hires_metallicity : Z;
  uv_library : Z;
  outputs : list bool;
  rsg_vt : Z;
  rsg_params : Z
}.

(** [ModelParameters()]: the defaults of the dataclass. *)
Definition default : t :=
  mk "default" 0 1 1 1 [2.35] [1; 100] 8 120 0 0 0 0 1 10 100 0 0 1
     (repeat true 15) 0 0.

End ModelParameters.

Module TrackData.

Definition array2 : Type := list (list R).

(** The fields [interpolate_in_time] and [get_mass_index] read; the
    logarithmic copies ([log_init_mass], [log_age], [log_mass]) are left
    out.  [None] is an array that is not allocated. *)
Record t : Type := mk {
  num_masses : Z;
  num_points : Z;
  init_mass : option (list R);
  age : option array2;
  mass : option array2;
  log_lum : option array2;
  log_teff : option array2;
  mdot : option array2;
  h_frac : option array2;
  he_frac : option array2;
  c_frac : option array2;
  n_frac : option array2;
  o_frac : option array2
}.

(** [TrackData()]: the dataclass defaults. *)
Definition new : t :=
  mk 0 0 None None None None None None None None None None None.

Definition np_zeros (n : Z) : list R := repeat 0 (Z.to_nat n).

Definition np_zeros2 (n m : Z) : array2 := repeat (np_zeros m) (Z.to_nat n).

(** [init(num_masses, num_points)]; [np.zeros] refuses a negative size. *)
Definition init (self : t) (num_masses num_points : Z) : result t :=
  if ((num_masses <? 0) || (num_points <? 0))%Z%bool
  then Raise (ValueError "negative dimensions are not allowed")
  else
    let z := Some (np_zeros2 num_masses num_points) in
    Ok (mk num_masses num_points (Some (np_zeros num_masses)) z z z z z z z z z z).

Definition getattr (self : t) (attr : string) : option array2 :=
  if String.eqb attr "mass" then mass self
  else if String.eqb attr "log_lum" then log_lum self
  else if String.eqb attr "log_teff" then log_teff self
  else if String.eqb attr "mdot" then mdot self
  else if String.eqb attr "h_frac" then h_frac self
  else if String.eqb attr "he_frac" then he_frac self
  else if String.eqb attr "c_frac" then c_frac self
  else if String.eqb attr "n_frac" then n_frac self
  else if String.eqb attr "o_frac" then o_frac self
  else None.

Definition attrs : list string :=
  ["mass"; "log_lum"; "log_teff"; "mdot";
   "h_frac"; "he_frac"; "c_frac"; "n_frac"; "o_frac"].

(** [np.argmin] of the distances to [m]: the first index of the least. *)
Fixpoint argmin_from (m : R) (a : list R) (i best : nat) (dbest : R) : nat :=
  match a with
  | [] => best
  | x :: tl =>
      if Rlt_dec (Rabs (x - m)) dbest
      then argmin_from m tl (S i) i (Rabs (x - m))
      else argmin_from m tl (S i) best dbest
  end.

Definition get_mass_index (self : t) (m : R) : result Z :=
  match init_mass self with
  | None => Ok (-1)%Z
  | Some [] => Raise (ValueError "attempt to get argmin of an empty sequence")
  | Some (x :: tl) => Ok (Z.of_nat (argmin_from m tl 1 0 (Rabs (x - m))))
  end.

(** The loop over the attributes of [interpolate_in_time]: the entries
    of the returned dictionary, in the order they are written. *)
Fixpoint interpolate_attrs (self : t) (mass_idx idx : Z) (f : R) (names : list string)
  : result (list (string * R)) :=
  match names with
  | [] => Ok []
  | attr :: tl =>
      match getattr self attr with
      | None => interpolate_attrs self mass_idx idx f tl
      | Some arr =>
          row <- py_index arr mass_idx ;;
          v0 <- py_index row (idx - 1) ;;
          v1 <- py_index row idx ;;
          rest <- interpolate_attrs self mass_idx idx f tl ;;
          Ok ((attr, v0 + f * (v1 - v0)) :: rest)
      end
  end.

Definition interpolate_in_time (self : t) (mass_idx : Z) (time : R)
  : result (list (string * R)) :=
  match age self with
  | None => Ok []
  | Some age =>
      if (mass_idx >=? num_masses self)%Z then Ok []
      else
        ages <- py_index age mass_idx ;;
        let idx := Z.of_nat (np_searchsorted ages time) in
        let idx := if (idx =? 0)%Z then 1%Z
                   else if (idx >=? num_points self)%Z
                        then (num_points self - 1)%Z
                        else idx in
        t0 <- py_index ages (idx - 1) ;;
        t1 <- py_index ages idx ;;
        let f := if Rlt_dec t0 t1 then (time - t0) / (t1 - t0) else 0 in
        interpolate_attrs self mass_idx idx f attrs
  end.

(** [cleanup()]: every array is dropped; the two sizes stay. *)
Definition cleanup (self : t) : t :=
  mk (num_masses self) (num_points self)
     None None None None None None None None None None None.

End TrackData.

Module GalaxyModel.

Definition NMAXINT : Z := 10.
Definition NMAXINT1 : Z := 11.
Definition NP : Z := 860.
Definition NP1 : Z := 1415.
Definition NPGRID : Z := 3000.

(** [np.zeros(n)] and [np.zeros((n, m))]. *)
Definition np_zeros (n : Z) : list R := repeat 0 (Z.to_nat n).

Definition np_zeros2 (n m : Z) : list (list R) := repeat (np_zeros m) (Z.to_nat n).

Arguments np_zeros : simpl never.
Arguments np_zeros2 : simpl never.

(** The attributes of a [GalaxyModel] that the driver reads or writes.
    The fifteen output flags [io1] ... [io15] are the entries of [io];
    an array is [None] until [init_module] allocates it.  ([lmin],
    [lmax], [tdel], [ivt], [irsg], [tinter], [tiempo1], [upma], [doma]
    and [error_message] are touched by no code of the driver and are left
    out.) *)
Record t : Type := mk {
  model_params : ModelParameters.t;
  model_name : string;
  isf : Z;
  toma : R;
  sfr : R;
  ninterv : Z;
  xponent : list R;
  xmaslim : list R;
  sncut : R;
  bhcut : R;
  iz : Z;
  iwind : Z;
  time1 : R;
  jtime : Z;
  tbiv : R;
  itbiv : Z;
  tmax : R;
  jmg : Z;
  iatmos : Z;
  ilib : Z;
  iline : Z;
  io : list Z;
  tvar : R;
  tstep : R;
  iwrt : Z;
  iwrscale : Z;
  xmwr : R;
  critma : R;
  critma_new : R;
  critup : R;
  critup_new : R;
  critma1 : R;
  critma_new1 : R;
  critup1 : R;
  critup_new1 : R;
  cmass : option (list R);
  dens : option (list R);
  wavel : option (list R);
  spectra : option (list (list R));
  wind_power : option (list R);
  sn_rates : option (list R);
  sp_type_counts : option (list R);
  element_yields : option (list R);
  uv_lines : option (list R);
  fuv_lines : option (list R);
  hires_lines : option (list R);
  tracks : list TrackData.t
}.

(** [GalaxyModel()]: the values [__init__] assigns. *)
Definition __init__ : t :=
  mk
     ModelParameters.default "default" 0%Z 1 1 1%Z (repeat 2.35 10)
     (1 :: 100 :: repeat 0 9) 8 120 0%Z 0%Z 0 0%Z 1 10%Z 100 0%Z 0%Z 0%Z 1%Z
     (repeat 1%Z 15) 0 0 0%Z 0%Z 20 8 8 120 120 8 8 120 120 None None None
     None None None None None None None None [].

Definition set_model_params (g : t) (v : ModelParameters.t) : t :=
  mk
     v (model_name g) (isf g) (toma g) (sfr g) (ninterv g) (xponent g)
     (xmaslim g) (sncut g) (bhcut g) (iz g) (iwind g) (time1 g) (jtime g)
     (tbiv g) (itbiv g) (tmax g) (jmg g) (iatmos g) (ilib g) (iline g) (io g)
     (tvar g) (tstep g) (iwrt g) (iwrscale g) (xmwr g) (critma g)
     (critma_new g) (critup g) (critup_new g) (critma1 g) (critma_new1 g)
     (critup1 g) (critup_new1 g) (cmass g) (dens g) (wavel g) (spectra g)
     (wind_power g) (sn_rates g) (sp_type_counts g) (element_yields g)
     (uv_lines g) (fuv_lines g) (hires_lines g) (tracks g).

Definition set_dens (g : t) (v : option (list R)) : t :=
  mk
     (model_params g) (model_name g) (isf g) (toma g) (sfr g) (ninterv g)
     (xponent g) (xmaslim g) (sncut g) (bhcut g) (iz g) (iwind g) (time1 g)
     (jtime g) (tbiv g) (itbiv g) (tmax g) (jmg g) (iatmos g) (ilib g)
     (iline g) (io g) (tvar g) (tstep g) (iwrt g) (iwrscale g) (xmwr g)
     (critma g) (critma_new g) (critup g) (critup_new g) (critma1 g)
     (critma_new1 g) (critup1 g) (critup_new1 g) (cmass g) v (wavel g)
     (spectra g) (wind_power g) (sn_rates g) (sp_type_counts g)
     (element_yields g) (uv_lines g) (fuv_lines g) (hires_lines g) (tracks g).

Definition set_spectra (g : t) (v : option (list (list R))) : t :=
  mk
     (model_params g) (model_name g) (isf g) (toma g) (sfr g) (ninterv g)
     (xponent g) (xmaslim g) (sncut g) (bhcut g) (iz g) (iwind g) (time1 g)
     (jtime g) (tbiv g) (itbiv g) (tmax g) (jmg g) (iatmos g) (ilib g)
     (iline g) (io g) (tvar g) (tstep g) (iwrt g) (iwrscale g) (xmwr g)
     (critma g) (critma_new g) (critup g) (critup_new g) (critma1 g)
     (critma_new1 g) (critup1 g) (critup_new1 g) (cmass g) (dens g) (wavel g)
     v (wind_power g) (sn_rates g) (sp_type_counts g) (element_yields g)
     (uv_lines g) (fuv_lines g) (hires_lines g) (tracks g).

Definition set_wavel (g : t) (v : option (list R)) : t :=
  mk
     (model_params g) (model_name g) (isf g) (toma g) (sfr g) (ninterv g)
     (xponent g) (xmaslim g) (sncut g) (bhcut g) (iz g) (iwind g) (time1 g)
     (jtime g) (tbiv g) (itbiv g) (tmax g) (jmg g) (iatmos g) (ilib g)
     (iline g) (io g) (tvar g) (tstep g) (iwrt g) (iwrscale g) (xmwr g)
     (critma g) (critma_new g) (critup g) (critup_new g) (critma1 g)
     (critma_new1 g) (critup1 g) (critup_new1 g) (cmass g) (dens g) v
     (spectra g) (wind_power g) (sn_rates g) (sp_type_counts g)
     (element_yields g) (uv_lines g) (fuv_lines g) (hires_lines g) (tracks g).

Definition set_wind_power (g : t) (v : option (list R)) : t :=
  mk
     (model_params g) (model_name g) (isf g) (toma g) (sfr g) (ninterv g)
     (xponent g) (xmaslim g) (sncut g) (bhcut g) (iz g) (iwind g) (time1 g)
     (jtime g) (tbiv g) (itbiv g) (tmax g) (jmg g) (iatmos g) (ilib g)
     (iline g) (io g) (tvar g) (tstep g) (iwrt g) (iwrscale g) (xmwr g)
     (critma g) (critma_new g) (critup g) (critup_new g) (critma1 g)
     (critma_new1 g) (critup1 g) (critup_new1 g) (cmass g) (dens g) (wavel g)
     (spectra g) v (sn_rates g) (sp_type_counts g) (element_yields g)
     (uv_lines g) (fuv_lines g) (hires_lines g) (tracks g).

Definition set_sn_rates (g : t) (v : option (list R)) : t :=
  mk
     (model_params g) (model_name g) (isf g) (toma g) (sfr g) (ninterv g)
     (xponent g) (xmaslim g) (sncut g) (bhcut g) (iz g) (iwind g) (time1 g)
     (jtime g) (tbiv g) (itbiv g) (tmax g) (jmg g) (iatmos g) (ilib g)
     (iline g) (io g) (tvar g) (tstep g) (iwrt g) (iwrscale g) (xmwr g)
     (critma g) (critma_new g) (critup g) (critup_new g) (critma1 g)
     (critma_new1 g) (critup1 g) (critup_new1 g) (cmass g) (dens g) (wavel g)
     (spectra g) (wind_power g) v (sp_type_counts g) (element_yields g)
     (uv_lines g) (fuv_lines g) (hires_lines g) (tracks g).

Definition set_sp_type_counts (g : t) (v : option (list R)) : t :=
  mk
     (model_params g) (model_name g) (isf g) (toma g) (sfr g) (ninterv g)
     (xponent g) (xmaslim g) (sncut g) (bhcut g) (iz g) (iwind g) (time1 g)
     (jtime g) (tbiv g) (itbiv g) (tmax g) (jmg g) (iatmos g) (ilib g)
     (iline g) (io g) (tvar g) (tstep g) (iwrt g) (iwrscale g) (xmwr g)
     (critma g) (critma_new g) (critup g) (critup_new g) (critma1 g)
     (critma_new1 g) (critup1 g) (critup_new1 g) (cmass g) (dens g) (wavel g)
     (spectra g) (wind_power g) (sn_rates g) v (element_yields g)
     (uv_lines g) (fuv_lines g) (hires_lines g) (tracks g).

Definition set_element_yields (g : t) (v : option (list R)) : t :=
  mk
     (model_params g) (model_name g) (isf g) (toma g) (sfr g) (ninterv g)
     (xponent g) (xmaslim g) (sncut g) (bhcut g) (iz g) (iwind g) (time1 g)
     (jtime g) (tbiv g) (itbiv g) (tmax g) (jmg g) (iatmos g) (ilib g)
     (iline g) (io g) (tvar g) (tstep g) (iwrt g) (iwrscale g) (xmwr g)
     (critma g) (critma_new g) (critup g) (critup_new g) (critma1 g)
     (critma_new1 g) (critup1 g) (critup_new1 g) (cmass g) (dens g) (wavel g)
     (spectra g) (wind_power g) (sn_rates g) (sp_type_counts g) v
     (uv_lines g) (fuv_lines g) (hires_lines g) (tracks g).

Definition set_uv_lines (g : t) (v : option (list R)) : t :=
  mk
     (model_params g) (model_name g) (isf g) (toma g) (sfr g) (ninterv g)
     (xponent g) (xmaslim g) (sncut g) (bhcut g) (iz g) (iwind g) (time1 g)
     (jtime g) (tbiv g) (itbiv g) (tmax g) (jmg g) (iatmos g) (ilib g)
     (iline g) (io g) (tvar g) (tstep g) (iwrt g) (iwrscale g) (xmwr g)
     (critma g) (critma_new g) (critup g) (critup_new g) (critma1 g)
     (critma_new1 g) (critup1 g) (critup_new1 g) (cmass g) (dens g) (wavel g)
     (spectra g) (wind_power g) (sn_rates g) (sp_type_counts g)
     (element_yields g) v (fuv_lines g) (hires_lines g) (tracks g).

Definition set_fuv_lines (g : t) (v : option (list R)) : t :=
  mk
     (model_params g) (model_name g) (isf g) (toma g) (sfr g) (ninterv g)
     (xponent g) (xmaslim g) (sncut g) (bhcut g) (iz g) (iwind g) (time1 g)
     (jtime g) (tbiv g) (itbiv g) (tmax g) (jmg g) (iatmos g) (ilib g)
     (iline g) (io g) (tvar g) (tstep g) (iwrt g) (iwrscale g) (xmwr g)
     (critma g) (critma_new g) (critup g) (critup_new g) (critma1 g)
     (critma_new1 g) (critup1 g) (critup_new1 g) (cmass g) (dens g) (wavel g)
     (spectra g) (wind_power g) (sn_rates g) (sp_type_counts g)
     (element_yields g) (uv_lines g) v (hires_lines g) (tracks g).

Definition set_hires_lines (g : t) (v : option (list R)) : t :=
  mk
     (model_params g) (model_name g) (isf g) (toma g) (sfr g) (ninterv g)
     (xponent g) (xmaslim g) (sncut g) (bhcut g) (iz g) (iwind g) (time1 g)
     (jtime g) (tbiv g) (itbiv g) (tmax g) (jmg g) (iatmos g) (ilib g)
     (iline g) (io g) (tvar g) (tstep g) (iwrt g) (iwrscale g) (xmwr g)
     (critma g) (critma_new g) (critup g) (critup_new g) (critma1 g)
     (critma_new1 g) (critup1 g) (critup_new1 g) (cmass g) (dens g) (wavel g)
     (spectra g) (wind_power g) (sn_rates g) (sp_type_counts g)
     (element_yields g) (uv_lines g) (fuv_lines g) v (tracks g).

Definition set_tvar (g : t) (v : R) : t :=
  mk
     (model_params g) (model_name g) (isf g) (toma g) (sfr g) (ninterv g)
     (xponent g) (xmaslim g) (sncut g) (bhcut g) (iz g) (iwind g) (time1 g)
     (jtime g) (tbiv g) (itbiv g) (tmax g) (jmg g) (iatmos g) (ilib g)
     (iline g) (io g) v (tstep g) (iwrt g) (iwrscale g) (xmwr g) (critma g)
     (critma_new g) (critup g) (critup_new g) (critma1 g) (critma_new1 g)
     (critup1 g) (critup_new1 g) (cmass g) (dens g) (wavel g) (spectra g)
     (wind_power g) (sn_rates g) (sp_type_counts g) (element_yields g)
     (uv_lines g) (fuv_lines g) (hires_lines g) (tracks g).

Definition set_tracks (g : t) (v : list TrackData.t) : t :=
  mk
     (model_params g) (model_name g) (isf g) (toma g) (sfr g) (ninterv g)
     (xponent g) (xmaslim g) (sncut g) (bhcut g) (iz g) (iwind g) (time1 g)
     (jtime g) (tbiv g) (itbiv g) (tmax g) (jmg g) (iatmos g) (ilib g)
     (iline g) (io g) (tvar g) (tstep g) (iwrt g) (iwrscale g) (xmwr g)
     (critma g) (critma_new g) (critup g) (critup_new g) (critma1 g)
     (critma_new1 g) (critup1 g) (critup_new1 g) (cmass g) (dens g) (wavel g)
     (spectra g) (wind_power g) (sn_rates g) (sp_type_counts g)
     (element_yields g) (uv_lines g) (fuv_lines g) (hires_lines g) v.

(** The arrays of [init_module]. *)
Definition allocate (g : t) : t :=
  mk
     (model_params g) (model_name g) (isf g) (toma g) (sfr g) (ninterv g)
     (xponent g) (xmaslim g) (sncut g) (bhcut g) (iz g) (iwind g) (time1 g)
     (jtime g) (tbiv g) (itbiv g) (tmax g) (jmg g) (iatmos g) (ilib g)
     (iline g) (io g) (tvar g) (tstep g) (iwrt g) (iwrscale g) (xmwr g)
     (critma g) (critma_new g) (critup g) (critup_new g) (critma1 g)
     (critma_new1 g) (critup1 g) (critup_new1 g) (Some (np_zeros NPGRID))
     (Some (np_zeros NPGRID)) (Some (np_zeros (Z.max NP NP1)))
     (Some (np_zeros2 100 (Z.max NP NP1))) (Some (np_zeros 100))
     (Some (np_zeros 100)) (Some (np_zeros 20)) (Some (np_zeros 30))
     (Some (np_zeros 100)) (Some (np_zeros 50)) (Some (np_zeros 200))
     (tracks g).

(** The arrays and the tracks after [cleanup_module]. *)
Definition release (g : t) : t :=
  mk
     (model_params g) (model_name g) (isf g) (toma g) (sfr g) (ninterv g)
     (xponent g) (xmaslim g) (sncut g) (bhcut g) (iz g) (iwind g) (time1 g)
     (jtime g) (tbiv g) (itbiv g) (tmax g) (jmg g) (iatmos g) (ilib g)
     (iline g) (io g) (tvar g) (tstep g) (iwrt g) (iwrscale g) (xmwr g)
     (critma g) (critma_new g) (critup g) (critup_new g) (critma1 g)
     (critma_new1 g) (critup1 g) (critup_new1 g) None None None None None
     None None None None None None [].

(** The eight critical masses as [run] sets them before the main loop. *)
Definition set_critical_masses (g : t) : t :=
  mk
     (model_params g) (model_name g) (isf g) (toma g) (sfr g) (ninterv g)
     (xponent g) (xmaslim g) (sncut g) (bhcut g) (iz g) (iwind g) (time1 g)
     (jtime g) (tbiv g) (itbiv g) (tmax g) (jmg g) (iatmos g) (ilib g)
     (iline g) (io g) (tvar g) (tstep g) (iwrt g) (iwrscale g) (xmwr g) 1e36
     1e36 (-1) (-1) 1e36 1e36 (-1) (-1) (cmass g) (dens g) (wavel g)
     (spectra g) (wind_power g) (sn_rates g) (sp_type_counts g)
     (element_yields g) (uv_lines g) (fuv_lines g) (hires_lines g) (tracks g).

(** The attributes of [galaxy] after [_sync_parameters], the two arrays
    and the flags as computed there. *)
Definition synced (g : t) (params : ModelParameters.t)
           (xponent' xmaslim' : list R) (io' : list Z) : t :=
  mk
     (model_params g) (ModelParameters.name params)
     (ModelParameters.sf_mode params) (ModelParameters.total_mass params)
     (ModelParameters.sf_rate params) (ModelParameters.num_intervals params)
     xponent' xmaslim' (ModelParameters.sn_cutoff params)
     (ModelParameters.bh_cutoff params)
     (ModelParameters.metallicity_id params)
     (ModelParameters.wind_model params)
     (ModelParameters.initial_time params)
     (ModelParameters.time_scale params) (ModelParameters.time_step params)
     (ModelParameters.num_steps params) (ModelParameters.max_time params)
     (jmg g) (ModelParameters.atmosphere_model params)
     (ModelParameters.hires_metallicity params)
     (ModelParameters.uv_library params) io' (tvar g) (tstep g) (iwrt g)
     (iwrscale g) (xmwr g) (critma g) (critma_new g) (critup g)
     (critup_new g) (critma1 g) (critma_new1 g) (critup1 g) (critup_new1 g)
     (cmass g) (dens g) (wavel g) (spectra g) (wind_power g) (sn_rates g)
     (sp_type_counts g) (element_yields g) (uv_lines g) (fuv_lines g)
     (hires_lines g) (tracks g).

Definition init_module (g : t) : M t :=
  _ <~ logger INFO "Initializing GalaxyModel module" ;;
  ret (allocate g).

Definition cleanup_module (g : t) : M t :=
  _ <~ logger INFO "Cleaning up GalaxyModel module" ;;
  ret (release g).

(** The output flags by name. *)
Definition io1 (g : t) : Z := nth 0 (io g) 0%Z.
Definition io4 (g : t) : Z := nth 3 (io g) 0%Z.
Definition io5 (g : t) : Z := nth 4 (io g) 0%Z.
Definition io6 (g : t) : Z := nth 5 (io g) 0%Z.
Definition io7 (g : t) : Z := nth 6 (io g) 0%Z.
Definition io8 (g : t) : Z := nth 7 (io g) 0%Z.
Definition io9 (g : t) : Z := nth 8 (io g) 0%Z.
Definition io12 (g : t) : Z := nth 11 (io g) 0%Z.
Definition io15 (g : t) : Z := nth 14 (io g) 0%Z.

End GalaxyModel.

(** The module-level helpers of [core/galaxy_module.py]
    ([utils/utilities.py] holds the same [exp10] and [linear_interp]). *)

(** [flin(x, x1, x2, y1, y2)] on Python floats. *)
Definition flin (x x1 x2 y1 y2 : R) : result R :=
  if Rlt_dec (Rabs (x2 - x1)) float_eps then Ok y1
  else q <- py_div ((y2 - y1) * (x - x1)) (x2 - x1) ;; Ok (y1 + q).

Definition exp10 (x : R) : R := np_pow 10 x.

(** [linear_interp(x, x_arr, y_arr)]; the arrays are NumPy arrays, so the
    last division does not raise. *)
Definition linear_interp (x : R) (x_arr y_arr : list R) : result R :=
  x0 <- py_index x_arr 0 ;;
  if Rle_dec x x0 then py_index y_arr 0
  else
    xN <- py_index x_arr (-1) ;;
    if Rle_dec xN x then py_index y_arr (-1)
    else
      let idx := (Z.of_nat (np_searchsorted x_arr x) - 1)%Z in
      x1 <- py_index x_arr idx ;;
      x2 <- py_index x_arr (idx + 1) ;;
      y1 <- py_index y_arr idx ;;
      y2 <- py_index y_arr (idx + 1) ;;
      Ok (y1 + (y2 - y1) * (x - x1) / (x2 - x1)).

(** ** file_io/output_writer.py *)

Module OutputWriter.

(** An [OutputWriter] holds its directory.  The class defines
    [write_all_outputs] and the four writers behind it; it has no method
    [write_timestep] and no method [write_final_output]. *)
Record t : Type := mk {
  output_dir : string
}.

(** [OutputWriter(output_dir)]: the directory is created unless it is
    there; [mkdir] is what [Path.mkdir(exist_ok=True)] does on the disk at
    hand. *)
Definition __init__ (mkdir : string -> result unit) (output_dir : option string)
  : result t :=
  let dir := match output_dir with
             | Some d => if String.eqb d "" then "output" else d
             | None => "output"
             end in
  _ <- mkdir dir ;;
  Ok (mk dir).

End OutputWriter.

(** ** file_io/input_parser.py *)

Module InputParser.

(** [get_default_parameters()]: eleven fields are given, the dataclass
    supplies the others. *)
Definition get_default_parameters : ModelParameters.t :=
  ModelParameters.mk "Default Model" 1 1 1 1 [2.35] [1; 100] 8 120 24 0
                     0 0 1 10 100 0 0 1 (repeat true 15) 0 0.

End InputParser.

(** ** starburst_main.py *)

Module Starburst99.

Import StellarTracks.

(** What a run meets outside the program: the disk, the directory
    creation of the output writer, what [InputParser.read_input] makes of
    an input file (the parser is a collaborator), how Python prints a
    float with six decimals, and the two strings that the clock gives
    the closing records. *)
Record Environment : Type := mkEnv {
  disk : FileSystem;
  mkdir : string -> result unit;
  read_input : string -> result ModelParameters.t;
  format_6f : R -> string;
  end_time : string;
  duration : string
}.

(** The driver's own state.  [data_profiles] is the flag
    [is_initialized] of the [DataProfiles] object, whose arrays nothing
    else reads.  [emitted] is not an attribute of the class: it lists the
    arguments [(time, icount)] of the calls of [_output] so far, so that
    the sequence of step times can be stated. *)
Record t : Type := mk {
  galaxy : GalaxyModel.t;
  data_profiles : bool;
  output_writer : option OutputWriter.t;
  input_file : option string;
  start_time : string;
  stellar_tracks : StellarTracks.t;
  stellar_tracks_data : option TrackData.t;
  imf : option IMF.t;
  time : R;
  icount : Z;
  namfi3 : option string;
  nam : option string;
  emitted : list (R * Z)
}.

(** [Starburst99(input_file)], created at [start_time]. *)
Definition __init__ (input_file : option string) (start_time : string) : t :=
  mk GalaxyModel.__init__ false None input_file start_time
     (StellarTracks.mk "data/tracks" [] []) None None 0 1%Z None None [].

Definition with_galaxy (self : t) (g : GalaxyModel.t) : t :=
  mk g (data_profiles self) (output_writer self) (input_file self)
     (start_time self) (stellar_tracks self) (stellar_tracks_data self)
     (imf self) (time self) (icount self) (namfi3 self) (nam self)
     (emitted self).

(** [enumerate(outputs)] written to [io1], [io2], ...: [setattr] creates
    the attributes past [io15]. *)
Definition set_flags (io : list Z) (outputs : list bool) : list Z :=
  (map (fun flag : bool => if flag then 1%Z else 0%Z) outputs
   ++ skipn (List.length outputs) io)%list.

(** The copies into the fixed-size arrays [xponent] and [xmaslim] fail
    past their end; the scalar fields are copied as they are.  [tvar]
    and [tstep] are not assigned. *)
Definition _sync_parameters (self : t) : result t :=
  let g := galaxy self in
  let params := GalaxyModel.model_params g in
  let exponents := ModelParameters.exponents params in
  let mass_limits := ModelParameters.mass_limits params in
  xponent' <- for_range (Z.to_nat (ModelParameters.num_intervals params))
                        (fun a i => if (i <? List.length exponents)%nat
                                    then set_item a i (nth i exponents 0)
                                    else Ok a)
                        (GalaxyModel.xponent g) ;;
  xmaslim' <- for_range (Nat.min (Z.to_nat (ModelParameters.num_intervals params + 1))
                                 (List.length mass_limits))
                        (fun a i => set_item a i (nth i mass_limits 0))
                        (GalaxyModel.xmaslim g) ;;
  let io' := set_flags (GalaxyModel.io g) (ModelParameters.outputs params) in
  Ok (with_galaxy self
        (GalaxyModel.synced g params xponent' xmaslim' io')).

(** The dictionary [track_files]: file stem and suffix for an [iz]. *)
Definition track_files (iz : Z) : option (string * string) :=
  if (iz =? 11)%Z || (iz =? 12)%Z then Some ("Z0020v00", ".txt")
  else if (iz =? 21)%Z || (iz =? 22)%Z then Some ("Z0020v40", ".txt")
  else if (iz =? 13)%Z || (iz =? 14)%Z || (iz =? 15)%Z then Some ("Z0140v00", ".txt")
  else if (iz =? 23)%Z || (iz =? 24)%Z || (iz =? 25)%Z then Some ("Z0140v40", ".txt")
  else if (iz =? 41)%Z then Some ("modp0004", ".dat")
  else if (iz =? 42)%Z then Some ("modp004", ".dat")
  else if (iz =? 43)%Z then Some ("modp008", ".dat")
  else if (iz =? 44)%Z then Some ("modp020", ".dat")
  else if (iz =? 45)%Z then Some ("modp050", ".dat")
  else if (iz =? 51)%Z then Some ("mode001", ".dat")
  else if (iz =? 61)%Z then Some ("modc001", ".dat")
  else if (iz =? 52)%Z then Some ("mode004", ".dat")
  else if (iz =? 62)%Z then Some ("modc004", ".dat")
  else if (iz =? 53)%Z then Some ("mode008", ".dat")
  else if (iz =? 63)%Z then Some ("modc008", ".dat")
  else if (iz =? 54)%Z then Some ("mode020", ".dat")
  else if (iz =? 64)%Z then Some ("modc020", ".dat")
  else if (iz =? 55)%Z then Some ("mode040", ".dat")
  else if (iz =? 65)%Z then Some ("modc040", ".dat")
  else None.

Definition default_track : string * string := ("Z0140v00", ".txt").

Definition track_path (f : string * string) : string :=
  "data/tracks/" ++ fst f ++ snd f.

(** [TrackData()] followed by [init(1, 100)]. *)
Definition dummy_track_data : result TrackData.t :=
  TrackData.init TrackData.new 1 100.

Definition set_tracks (self : t) (st : StellarTracks.t)
           (data : option TrackData.t) (tr : list TrackData.t) : t :=
  mk (GalaxyModel.set_tracks (galaxy self) tr)
     (data_profiles self) (output_writer self) (input_file self)
     (start_time self) st data (imf self) (time self) (icount self)
     (namfi3 self) (nam self) (emitted self).

Definition _read_tracks (fs : FileSystem) (self : t) : M t :=
  let file := match track_files (GalaxyModel.iz (galaxy self)) with
              | Some f => f
              | None => default_track
              end in
  file <~ (if negb (path_exists fs (track_path file))
           then _ <~ logger WARNING
                       ("Track file not found: " ++ track_path file
                        ++ ", using default") ;;
                ret default_track
           else ret file) ;;
  if negb (path_exists fs (track_path file))
  then throw (FileNotFoundError ("Track file not found: " ++ track_path file))
  else
    try_except
      (st <~ load_tracks fs (stellar_tracks self) (fst file) ;;
       track_data <~ lift dummy_track_data ;;
       ret (set_tracks self st (Some track_data) [track_data]))
      (fun e =>
         _ <~ logger ERROR ("Error reading tracks: " ++ str_exn e) ;;
         track_data <~ lift dummy_track_data ;;
         ret (set_tracks self (stellar_tracks self) (stellar_tracks_data self)
                         [track_data])).

Definition _set_metallicity_string (self : t) : t :=
  let z_id := GalaxyModel.iz (galaxy self) in
  let mem (l : list Z) := existsb (Z.eqb z_id) l in
  let names := if mem [11; 21; 31; 41; 51; 61]%Z then ("m13", "001")
               else if mem [12; 22; 32; 42; 52; 62]%Z then ("m07", "004")
               else if mem [13; 23; 33; 43; 53; 63]%Z then ("m04", "008")
               else if mem [14; 24; 34; 44; 54; 64]%Z then ("p00", "020")
               else if mem [15; 25; 35; 45; 55; 65]%Z then ("p03", "040")
               else ("p00", "020") in
  let nam' := if (GalaxyModel.iwrscale (galaxy self) <? 0)%Z then "020"
              else snd names in
  mk (galaxy self) (data_profiles self) (output_writer self) (input_file self)
     (start_time self) (stellar_tracks self) (stellar_tracks_data self)
     (imf self) (time self) (icount self) (Some (fst names)) (Some nam')
     (emitted self).

Definition _read_atmosphere_data (fs : FileSystem) (self : t) : M unit :=
  let atm_file := "data/lejeune/lcb97_"
                  ++ match namfi3 self with Some s => s | None => "None" end
                  ++ ".flu" in
  if negb (path_exists fs atm_file)
  then _ <~ logger ERROR ("Cannot find Lejeune atmosphere file: " ++ atm_file) ;;
       throw (FileNotFoundError ("Atmosphere file not found: " ++ atm_file))
  else if can_open fs atm_file
  then logger INFO ("Successfully loaded atmosphere data: " ++ atm_file)
  else _ <~ logger ERROR "Error reading atmosphere file: OSError" ;;
       throw (OtherError "OSError").

(** *** The calculators of one turn

    Each works on the arrays of [galaxy].  The debug records that
    [_windpower] and [_supernova] write are below the level that
    [basicConfig] sets and reach no handler; the running totals that feed
    only them are left out. *)

(** The value [_density] stores for one interval; [scale] is
    [sfr * dt] for continuous star formation and [toma * 1e6] for a burst. *)
Definition density_value (scale lower upper exp_val : R) : R :=
  if Req_dec_T exp_val (-1)
  then scale * np_log (upper / lower)
  else scale * (np_pow upper (exp_val + 1) - np_pow lower (exp_val + 1))
       / (exp_val + 1).

(** One turn of the loop [for i in range(ninterv)] of [_density]. *)
Definition _density_step (scale : R) (g : GalaxyModel.t) (i : nat)
  : result GalaxyModel.t :=
  lower <- py_index (GalaxyModel.xmaslim g) (Z.of_nat i) ;;
  upper <- py_index (GalaxyModel.xmaslim g) (Z.of_nat i + 1) ;;
  exp_val <- py_index (GalaxyModel.xponent g) (Z.of_nat i) ;;
  d <- store (GalaxyModel.dens g) i (density_value scale lower upper exp_val) ;;
  Ok (GalaxyModel.set_dens g d).

(** [_density()]; the two branches of the source run the same loop with
    their own factor. *)
Definition _density (g : GalaxyModel.t) : result GalaxyModel.t :=
  let scale :=
    if (GalaxyModel.isf g >? 0)%Z
    then GalaxyModel.sfr g
         * (if (GalaxyModel.jtime g =? 0)%Z then GalaxyModel.tbiv g
            else GalaxyModel.tvar g)
    else GalaxyModel.toma g * 1e6 in
  for_range (Z.to_nat (GalaxyModel.ninterv g)) (_density_step scale) g.

(** One grid point of [_starpara]. *)
Definition _starpara_step (track : TrackData.t) (time : R) (g : GalaxyModel.t)
           (i : nat) : result GalaxyModel.t :=
  mass <- subscript (GalaxyModel.cmass g) (Z.of_nat i) ;;
  if Rle_dec mass 0 then Ok g
  else
    mass_idx <- TrackData.get_mass_index track mass ;;
    params <- TrackData.interpolate_in_time track mass_idx time ;;
    match params with
    | [] => Ok g
    | _ :: _ =>
        s <- store2 (GalaxyModel.spectra g) i 0
                    (dict_get_default params "log_lum" 0) ;;
        s <- store2 s i 1 (dict_get_default params "log_teff" 0) ;;
        s <- store2 s i 2 (dict_get_default params "mass" mass) ;;
        Ok (GalaxyModel.set_spectra g s)
    end.

Definition _starpara (time : R) (g : GalaxyModel.t) : result GalaxyModel.t :=
  match GalaxyModel.tracks g with
  | [] => Ok g
  | track :: _ =>
      n <- py_len (GalaxyModel.cmass g) ;;
      for_range n (_starpara_step track time) g
  end.

(** One track of [_starpara_iso]: the three lists of the isochrone so
    far, as triples (mass, luminosity, temperature). *)
Definition _starpara_iso_step (track : TrackData.t) (time : R)
           (iso : list (R * R * R)) (mass_idx : nat) : result (list (R * R * R)) :=
  params <- TrackData.interpolate_in_time track (Z.of_nat mass_idx) time ;;
  match params with
  | [] => Ok iso
  | _ :: _ =>
      if Rlt_dec 0 (dict_get_default params "mass" 0)
      then Ok (iso ++ [(dict_get_default params "mass" 0,
                        dict_get_default params "log_lum" 0,
                        dict_get_default params "log_teff" 0)])%list
      else Ok iso
  end.

Definition _starpara_iso (time : R) (g : GalaxyModel.t) : result GalaxyModel.t :=
  match GalaxyModel.tracks g with
  | [] => Ok g
  | track :: _ =>
      iso <- for_range (Z.to_nat (TrackData.num_masses track))
                       (_starpara_iso_step track time) [] ;;
      match iso with
      | [] => Ok g
      | _ :: _ =>
          s <- assign_column_prefix (GalaxyModel.spectra g) 0
                                    (map (fun p => snd (fst p)) iso) ;;
          s <- assign_column_prefix s 1 (map snd iso) ;;
          s <- assign_column_prefix s 2 (map (fun p => fst (fst p)) iso) ;;
          Ok (GalaxyModel.set_spectra g s)
      end
  end.

Definition _temp_adjust_step (g : GalaxyModel.t) (i : nat) : result GalaxyModel.t :=
  mass <- subscript (GalaxyModel.cmass g) (Z.of_nat i) ;;
  if Rle_dec (GalaxyModel.xmwr g) mass
  then
    let temp_factor := 1 + 0.1 * IZR (GalaxyModel.iwrt g) in
    v <- subscript2 (GalaxyModel.spectra g) (Z.of_nat i) 1 ;;
    s <- store2 (GalaxyModel.spectra g) i 1 (v * temp_factor) ;;
    Ok (GalaxyModel.set_spectra g s)
  else Ok g.

Definition _temp_adjust (g : GalaxyModel.t) : result GalaxyModel.t :=
  if (GalaxyModel.iwrt g =? 0)%Z then Ok g
  else
    n <- py_len (GalaxyModel.cmass g) ;;
    for_range n _temp_adjust_step g.

Definition _windpower_step (g : GalaxyModel.t) (i : nat) : result GalaxyModel.t :=
  d <- subscript (GalaxyModel.dens g) (Z.of_nat i) ;;
  if Rlt_dec 0 d
  then
    m <- subscript (GalaxyModel.cmass g) (Z.of_nat i) ;;
    let mass_loss := 1e-7 * m ^ 2 in
    let wind_speed := 1000 in
    let power := 0.5 * mass_loss * wind_speed ^ 2 in
    w <- store (GalaxyModel.wind_power g) i (power * d) ;;
    Ok (GalaxyModel.set_wind_power g w)
  else Ok g.

(** [_windpower(time, icount)]; neither argument reaches an array. *)
Definition _windpower (g : GalaxyModel.t) : result GalaxyModel.t :=
  n <- py_len (GalaxyModel.cmass g) ;;
  for_range n _windpower_step g.

(** One grid point of [_supernova].  For a mass that is not positive,
    [mass ** (-2.5)] is [inf] or [nan] and the test [time > lifetime]
    fails. *)
Definition _supernova_step (time : R) (g : GalaxyModel.t) (i : nat)
  : result GalaxyModel.t :=
  mass <- subscript (GalaxyModel.cmass g) (Z.of_nat i) ;;
  if Rle_dec (GalaxyModel.sncut g) mass
  then if Rle_dec mass (GalaxyModel.bhcut g)
       then if Rlt_dec 0 mass
            then
              let lifetime := 1e10 * np_pow mass (-2.5) in
              if Rlt_dec lifetime time
              then
                d <- subscript (GalaxyModel.dens g) (Z.of_nat i) ;;
                s <- store (GalaxyModel.sn_rates g) i (d / lifetime) ;;
                Ok (GalaxyModel.set_sn_rates g s)
              else Ok g
            else Ok g
       else Ok g
  else Ok g.

Definition _supernova (time : R) (g : GalaxyModel.t) : result GalaxyModel.t :=
  n <- py_len (GalaxyModel.cmass g) ;;
  for_range n (_supernova_step time) g.

(** The bin of [_spectype] for an effective temperature. *)
Definition sp_bin (teff : R) : nat :=
  if Rlt_dec 30000 teff then 0
  else if Rlt_dec 10000 teff then 1
  else if Rlt_dec 7500 teff then 2
  else if Rlt_dec 6000 teff then 3
  else if Rlt_dec 5200 teff then 4
  else if Rlt_dec 3700 teff then 5
  else 6.

(** One grid point of [_spectype]; [sp_types] is the local array of 20
    bins. *)
Definition _spectype_step (g : GalaxyModel.t) (sp_types : list R) (i : nat)
  : result (list R) :=
  d <- subscript (GalaxyModel.dens g) (Z.of_nat i) ;;
  if Rlt_dec 0 d
  then
    log_teff <- subscript2 (GalaxyModel.spectra g) (Z.of_nat i) 1 ;;
    let teff := if Rlt_dec 0 log_teff then np_pow 10 log_teff else 3000 in
    Ok (add_at sp_types (sp_bin teff) d)
  else Ok sp_types.

(** [_spectype(time, icount)]; neither argument is read. *)
Definition _spectype (g : GalaxyModel.t) : result GalaxyModel.t :=
  n <- py_len (GalaxyModel.cmass g) ;;
  sp_types <- for_range n (_spectype_step g) (GalaxyModel.np_zeros 20) ;;
  c <- assign_prefix (GalaxyModel.sp_type_counts g) sp_types ;;
  Ok (GalaxyModel.set_sp_type_counts g c).

Definition _nucleo_step (g : GalaxyModel.t) (yields : list R) (i : nat)
  : result (list R) :=
  mass <- subscript (GalaxyModel.cmass g) (Z.of_nat i) ;;
  d <- subscript (GalaxyModel.dens g) (Z.of_nat i) ;;
  if Rlt_dec 0 d
  then if Rlt_dec (GalaxyModel.sncut g) mass
       then
         let yields := add_at yields 0 (0.1 * mass * d) in
         let yields := add_at yields 1 (0.3 * mass * d) in
         let yields := add_at yields 5 (0.01 * mass * d) in
         let yields := add_at yields 6 (0.005 * mass * d) in
         let yields := add_at yields 7 (0.02 * mass * d) in
         Ok yields
       else Ok yields
  else Ok yields.

Definition _nucleo (g : GalaxyModel.t) : result GalaxyModel.t :=
  n <- py_len (GalaxyModel.cmass g) ;;
  yields <- for_range n (_nucleo_step g) (GalaxyModel.np_zeros 30) ;;
  y <- assign_prefix (GalaxyModel.element_yields g) yields ;;
  Ok (GalaxyModel.set_element_yields g y).

Definition H_PLANCK : R := 6.62607015e-27.
Definition C_LIGHT : R := 2.99792458e10.
Definition K_BOLTZ : R := 1.380649e-16.

(** [np.logspace(start, stop, num)], [num] at least 2: the powers of
    ten of [num] evenly spaced exponents. *)
Definition np_logspace (start stop : R) (num : nat) : list R :=
  map (fun i => np_pow 10 (start + INR i * ((stop - start) / INR (num - 1))))
      (seq 0 num).

(** [_blackbody(wavelength, temperature, luminosity)] on an array of
    wavelengths. *)
Definition _blackbody (wavelength : list R) (temperature luminosity : R) : list R :=
  map (fun w =>
         let lam := w * 1e-8 in
         let exponent := H_PLANCK * C_LIGHT / (lam * K_BOLTZ * temperature) in
         let exponent := Rmin exponent 100 in
         let planck := 2 * H_PLANCK * C_LIGHT ^ 2 / lam ^ 5 / (exp exponent - 1) in
         planck * luminosity / (4 * PI))
      wavelength.

(** [spectrum += bb_flux * d], entry by entry. *)
Definition add_scaled (spectrum bb_flux : list R) (d : R) : list R :=
  map (fun p => fst p + snd p * d) (combine spectrum bb_flux).

Definition _specsyn_step (g : GalaxyModel.t) (wavelengths spectrum : list R) (i : nat)
  : result (list R) :=
  d <- subscript (GalaxyModel.dens g) (Z.of_nat i) ;;
  if Rlt_dec 0 d
  then
    log_teff <- subscript2 (GalaxyModel.spectra g) (Z.of_nat i) 1 ;;
    if Rlt_dec 0 log_teff
    then
      let teff := np_pow 10 log_teff in
      log_lum <- subscript2 (GalaxyModel.spectra g) (Z.of_nat i) 0 ;;
      let lum := np_pow 10 log_lum in
      let bb_flux := _blackbody wavelengths teff lum in
      Ok (add_scaled spectrum bb_flux d)
    else Ok spectrum
  else Ok spectrum.

Definition _specsyn (g : GalaxyModel.t) : result GalaxyModel.t :=
  let wavelengths := np_logspace 1 5 1000 in
  n <- py_len (GalaxyModel.cmass g) ;;
  spectrum <- for_range n (_specsyn_step g wavelengths)
                        (GalaxyModel.np_zeros 1000) ;;
  w <- assign_prefix (GalaxyModel.wavel g) wavelengths ;;
  let g := GalaxyModel.set_wavel g w in
  s <- assign_row_prefix (GalaxyModel.spectra g) 0 spectrum ;;
  Ok (GalaxyModel.set_spectra g s).

(** The inner loop [for j in range(n): lines[j] += d * weight(j)]. *)
Definition add_lines (lines : list R) (n : nat) (d : R) (weight : nat -> R)
  : list R :=
  fold_left (fun a j => add_at a j (d * weight j)) (seq 0 n) lines.

Definition _linesyn_step (g : GalaxyModel.t) (uv_lines : list R) (i : nat)
  : result (list R) :=
  d <- subscript (GalaxyModel.dens g) (Z.of_nat i) ;;
  if Rlt_dec 0 d
  then
    log_teff <- subscript2 (GalaxyModel.spectra g) (Z.of_nat i) 1 ;;
    if Rlt_dec 3.7 log_teff
    then Ok (add_lines uv_lines 10 d (fun j => exp (- INR j)))
    else Ok uv_lines
  else Ok uv_lines.

Definition _linesyn (g : GalaxyModel.t) : result GalaxyModel.t :=
  n <- py_len (GalaxyModel.cmass g) ;;
  uv_lines <- for_range n (_linesyn_step g) (GalaxyModel.np_zeros 100) ;;
  u <- assign_prefix (GalaxyModel.uv_lines g) uv_lines ;;
  Ok (GalaxyModel.set_uv_lines g u).

Definition _fusesyn_step (g : GalaxyModel.t) (fuse_spectrum : list R) (i : nat)
  : result (list R) :=
  d <- subscript (GalaxyModel.dens g) (Z.of_nat i) ;;
  if Rlt_dec 0 d
  then
    log_teff <- subscript2 (GalaxyModel.spectra g) (Z.of_nat i) 1 ;;
    if Rlt_dec 4 log_teff
    then Ok (add_lines fuse_spectrum 10 (d * 0.5) (fun j => exp (- INR j / 2)))
    else Ok fuse_spectrum
  else Ok fuse_spectrum.

Definition _fusesyn (g : GalaxyModel.t) : result GalaxyModel.t :=
  n <- py_len (GalaxyModel.cmass g) ;;
  fuse_spectrum <- for_range n (_fusesyn_step g) (GalaxyModel.np_zeros 50) ;;
  f <- assign_prefix (GalaxyModel.fuv_lines g) fuse_spectrum ;;
  Ok (GalaxyModel.set_fuv_lines g f).

Definition _hires_step (g : GalaxyModel.t) (hires_spectrum : list R) (i : nat)
  : result (list R) :=
  d <- subscript (GalaxyModel.dens g) (Z.of_nat i) ;;
  if Rlt_dec 0 d
  then Ok (add_lines hires_spectrum 50 d (fun j => sin (INR j * 0.1)))
  else Ok hires_spectrum.

Definition _hires (g : GalaxyModel.t) : result GalaxyModel.t :=
  n <- py_len (GalaxyModel.cmass g) ;;
  hires_spectrum <- for_range n (_hires_step g) (GalaxyModel.np_zeros 200) ;;
  h <- assign_prefix (GalaxyModel.hires_lines g) hires_spectrum ;;
  Ok (GalaxyModel.set_hires_lines g h).

Definition _ifa_spectrum (g : GalaxyModel.t) : result GalaxyModel.t :=
  _linesyn g.

(** [_output(time, icount)]: with an output writer at hand it asks it
    for [write_timestep], which [OutputWriter] does not have. *)
Definition _output (self : t) (time : R) (icount : Z) : result t :=
  match output_writer self with
  | Some _ =>
      Raise (AttributeError "'OutputWriter' object has no attribute 'write_timestep'")
  | None =>
      Ok (mk (galaxy self) (data_profiles self) (output_writer self)
             (input_file self) (start_time self) (stellar_tracks self)
             (stellar_tracks_data self) (imf self) (Starburst99.time self)
             (Starburst99.icount self) (namfi3 self) (nam self)
             (emitted self ++ [(time, icount)])%list)
  end.

(** [_write_output()]: the same with [write_final_output]. *)
Definition _write_output (self : t) : result unit :=
  match output_writer self with
  | Some _ =>
      Raise (AttributeError
               "'OutputWriter' object has no attribute 'write_final_output'")
  | None => Ok tt
  end.

(** The calculators of one turn, in the order of the loop body. *)
Definition calculators (time : R) (g : GalaxyModel.t) : result GalaxyModel.t :=
  g <- _density g ;;
  g <- (if (GalaxyModel.jmg g =? 0)%Z || (GalaxyModel.jmg g =? 1)%Z
        then _starpara time g
        else _starpara_iso time g) ;;
  g <- (if negb (GalaxyModel.iwrt g =? 0)%Z then _temp_adjust g else Ok g) ;;
  g <- (if (GalaxyModel.io4 g >=? 1)%Z then _windpower g else Ok g) ;;
  g <- (if (GalaxyModel.io5 g >=? 1)%Z then _supernova time g else Ok g) ;;
  g <- (if (GalaxyModel.io6 g >=? 1)%Z then _spectype g else Ok g) ;;
  g <- (if (GalaxyModel.io7 g >=? 1)%Z then _nucleo g else Ok g) ;;
  g <- (if (GalaxyModel.io1 g >=? 1)%Z then _specsyn g else Ok g) ;;
  g <- (if (GalaxyModel.io8 g >=? 1)%Z then _linesyn g else Ok g) ;;
  g <- (if (GalaxyModel.io12 g >=? 1)%Z then _fusesyn g else Ok g) ;;
  g <- (if (GalaxyModel.io9 g >=? 1)%Z then _hires g else Ok g) ;;
  if (GalaxyModel.io15 g >=? 1)%Z then _ifa_spectrum g else Ok g.

(** The end of a turn: the clock, the test that ends the run, the step
    counter.  The Boolean is [continue_evolution]. *)
Definition advance (self : t) : t * bool :=
  let g := galaxy self in
  let jtime := GalaxyModel.jtime g in
  let tvar' := if (jtime =? 0)%Z then GalaxyModel.tvar g
               else if (icount self =? 1)%Z then GalaxyModel.time1 g
               else GalaxyModel.tvar g * GalaxyModel.tstep g in
  let time' := if (jtime =? 0)%Z then time self + GalaxyModel.tbiv g else tvar' in
  let continue_evolution :=
    if (jtime =? 0)%Z
    then if Rlt_dec (GalaxyModel.tmax g) time' then false else true
    else if (icount self >=? GalaxyModel.itbiv g)%Z then false else true in
  (mk (GalaxyModel.set_tvar g tvar') (data_profiles self) (output_writer self)
      (input_file self) (start_time self) (stellar_tracks self)
      (stellar_tracks_data self) (imf self) time' (icount self + 1)%Z
      (namfi3 self) (nam self) (emitted self),
   continue_evolution).

(** One turn of the main loop, after the progress record. *)
Definition turn (self : t) : result (t * bool) :=
  g <- calculators (time self) (galaxy self) ;;
  self <- _output (with_galaxy self g) (time self) (icount self) ;;
  Ok (advance self).

(** [while continue_evolution: ...], at most [fuel] turns; [None] when
    the loop is still running after them. *)
Fixpoint main_loop (env : Environment) (fuel : nat) (step_count : Z) (self : t)
  : M (option t) :=
  match fuel with
  | O => ret None
  | S fuel' =>
      let step_count := (step_count + 1)%Z in
      _ <~ (if (step_count mod 10 =? 0)%Z
            then logger INFO ("Step " ++ str_int step_count ++ ", t = "
                              ++ format_6f env (time self / 1.0e6) ++ " Myr")
            else ret tt) ;;
      r <~ lift (turn self) ;;
      let (self', continue_evolution) := (r : t * bool) in
      if continue_evolution then main_loop env fuel' step_count self'
      else _ <~ logger INFO ("Evolution completed. Total steps: "
                             ++ str_int step_count) ;;
           ret (Some self')
  end.

Definition _main_calculation_loop (env : Environment) (fuel : nat) (self : t)
  : M (option t) :=
  _ <~ logger INFO "Beginning stellar population evolution..." ;;
  main_loop env fuel 0 self.

Inductive outcome : Type :=
| Completed (self : t)
| SysExit (status : Z)
| Running.

(** The four records written before [try]. *)
Definition banner (self : t) : Log :=
  [(INFO, "GALAXY - Stellar Population Synthesis Code (Python Edition)");
   (INFO, "========================================================");
   (INFO, "Run started at: " ++ start_time self);
   (INFO, "")].

(** The parameters of a run: those of the input file when one is
    named, the default ones otherwise. *)
Definition read_parameters (env : Environment) (self : t)
  : result ModelParameters.t :=
  match input_file self with
  | Some file => if String.eqb file ""
                 then Ok InputParser.get_default_parameters
                 else read_input env file
  | None => Ok InputParser.get_default_parameters
  end.

(** Everything between [try] and [except] in [run()]. *)
Definition run_body (env : Environment) (fuel : nat) (self : t) : M (option t) :=
  _ <~ logger INFO "Initializing modules..." ;;
  g <~ GalaxyModel.init_module (galaxy self) ;;
  let self := mk g true (output_writer self) (input_file self) (start_time self)
                 (stellar_tracks self) (stellar_tracks_data self) (imf self)
                 (time self) (icount self) (namfi3 self) (nam self)
                 (emitted self) in
  _ <~ logger INFO "Reading input parameters..." ;;
  params <~ lift (read_parameters env self) ;;
  let self := with_galaxy self (GalaxyModel.set_model_params (galaxy self) params) in
  self <~ lift (_sync_parameters self) ;;
  writer <~ lift (OutputWriter.__init__ (mkdir env) (Some "output")) ;;
  let self := mk (galaxy self) (data_profiles self) (Some writer)
                 (input_file self) (start_time self) (stellar_tracks self)
                 (stellar_tracks_data self) (imf self) (time self) (icount self)
                 (namfi3 self) (nam self) (emitted self) in
  let params := GalaxyModel.model_params (galaxy self) in
  new_imf <~ lift (IMF.__init__ (ModelParameters.num_intervals params)
                            (ModelParameters.exponents params)
                            (ModelParameters.mass_limits params)) ;;
  let self := mk (galaxy self) (data_profiles self) (output_writer self)
                 (input_file self) (start_time self) (stellar_tracks self)
                 (stellar_tracks_data self) (Some new_imf) (time self) (icount self)
                 (namfi3 self) (nam self) (emitted self) in
  _ <~ logger INFO "Reading evolutionary tracks..." ;;
  self <~ _read_tracks (disk env) self ;;
  let self := _set_metallicity_string self in
  _ <~ logger INFO "Reading atmospheric and opacity data..." ;;
  _ <~ _read_atmosphere_data (disk env) self ;;
  let self := with_galaxy self (GalaxyModel.set_critical_masses (galaxy self)) in
  _ <~ logger INFO "Starting main calculations..." ;;
  r <~ _main_calculation_loop env fuel self ;;
  match r with
  | None => ret None
  | Some self =>
      _ <~ logger INFO "Writing output files..." ;;
      _ <~ lift (_write_output self) ;;
      _ <~ logger INFO "Cleaning up..." ;;
      g <~ GalaxyModel.cleanup_module (galaxy self) ;;
      let self := mk g (data_profiles self) (output_writer self)
                     (input_file self) (start_time self) (stellar_tracks self)
                     (option_map TrackData.cleanup (stellar_tracks_data self))
                     (imf self) (time self) (icount self) (namfi3 self)
                     (nam self) (emitted self) in
      _ <~ logger INFO ("Run completed at: " ++ end_time env) ;;
      _ <~ logger INFO ("Total runtime: " ++ duration env) ;;
      ret (Some self)
  end.

(** [run()]: the banner, the body, and the handler that logs the error
    and exits with status 1.  The table that [cleanup_module] empties is
    the object [_read_tracks] has left in [stellar_tracks.data]. *)
Definition run (env : Environment) (fuel : nat) (self : t) : Log -> outcome * Log :=
  fun l =>
    match run_body env fuel self (l ++ banner self)%list with
    | (Ok (Some self), l') => (Completed self, l')
    | (Ok None, l') => (Running, l')
    | (Raise e, l') =>
        (SysExit 1,
         (l' ++ [(ERROR, ("Error during execution: " ++ str_exn e)%string)])%list)
    end.

End Starburst99.

(** ** Vocabulary of the properties *)

(** Strictly increasing, entry by entry. *)
Definition increasing (a : list R) : Prop :=
  forall i : nat, (S i < List.length a)%nat -> nth i a 0 < nth (S i) a 0.

(** In ascending order, ties allowed. *)
Definition ascending (a : list R) : Prop :=
  forall i j : nat, (i <= j)%nat -> (j < List.length a)%nat ->
                    nth i a 0 <= nth j a 0.

(** A track as [load_tracks] builds it, with at least one row: the six
    columns have the same length. *)
Definition track_ok (tr : StellarTracks.Track) : Prop :=
  StellarTracks.time tr <> [] /\
  List.length (StellarTracks.luminosity tr) = List.length (StellarTracks.time tr) /\
  List.length (StellarTracks.temperature tr) = List.length (StellarTracks.time tr) /\
  List.length (StellarTracks.radius tr) = List.length (StellarTracks.time tr) /\
  List.length (StellarTracks.mass_loss_rate tr) = List.length (StellarTracks.time tr) /\
  List.length (StellarTracks.stellar_type tr) = List.length (StellarTracks.time tr).

(** Row [j] of a track, as an interpolated state. *)
Definition point_at (tr : StellarTracks.Track) (j : nat) : StellarTracks.Props :=
  StellarTracks.mkProps (nth j (StellarTracks.luminosity tr) 0)
                        (nth j (StellarTracks.temperature tr) 0)
                        (nth j (StellarTracks.radius tr) 0)
                        (nth j (StellarTracks.mass_loss_rate tr) 0)
                        (nth j (StellarTracks.stellar_type tr) 0%Z).

Definition last_row (tr : StellarTracks.Track) : nat :=
  (List.length (StellarTracks.time tr) - 1)%nat.

(** Two states blended with the weights of [interpolate_track]; the
    stellar type is that of the first state when its weight is above
    one half. *)
Definition blend (w1 : R) (p1 : StellarTracks.Props) (w2 : R) (p2 : StellarTracks.Props)
  : StellarTracks.Props :=
  StellarTracks.mkProps
    (w1 * StellarTracks.p_luminosity p1 + w2 * StellarTracks.p_luminosity p2)
    (w1 * StellarTracks.p_temperature p1 + w2 * StellarTracks.p_temperature p2)
    (w1 * StellarTracks.p_radius p1 + w2 * StellarTracks.p_radius p2)
    (w1 * StellarTracks.p_mass_loss_rate p1 + w2 * StellarTracks.p_mass_loss_rate p2)
    (if Rlt_dec 0.5 w1 then StellarTracks.p_stellar_type p1
     else StellarTracks.p_stellar_type p2).

(** The two ends of a track. *)
Inductive side := Below | Above.

(** The age [t] lies outside the track, on the given side: the track
    has a row, its columns have one length, its ages increase strictly,
    and [t] is before the first age or after the last one. *)
Definition outside (s : side) (tr : StellarTracks.Track) (t : R) : Prop :=
  track_ok tr /\ increasing (StellarTracks.time tr)
  /\ match s with
     | Below => t < nth 0 (StellarTracks.time tr) 0
     | Above => last (StellarTracks.time tr) 0 < t
     end.

(** The row at that end. *)
Definition end_row (s : side) (tr : StellarTracks.Track) : nat :=
  match s with Below => 0%nat | Above => last_row tr end.

(** The value at [x] of the line through [(x0, y0)] and [(x1, y1)], as
    [interpolate_in_time] writes it. *)
Definition line_through (x0 x1 y0 y1 x : R) : R :=
  y0 + (x - x0) / (x1 - x0) * (y1 - y0).

(** The temperature [_spectype] takes for grid point [i]:
    [10 ** spectra[i, 1]] when the logarithm stored there is positive,
    3000 otherwise. *)
Definition star_teff (s : list (list R)) (i : nat) : R :=
  if Rlt_dec 0 (nth 1 (nth i s []) 0) then np_pow 10 (nth 1 (nth i s []) 0)
  else 3000.

(** What [_spectype] has put in bin [b] after the first [k] grid points:
    the positive densities whose temperature falls in the bin, added in
    grid order starting from 0. *)
Definition bin_count (d : list R) (s : list (list R)) (b k : nat) : R :=
  fold_left (fun acc i =>
               if Rlt_dec 0 (nth i d 0)
               then if (Starburst99.sp_bin (star_teff s i) =? b)%nat
                    then acc + nth i d 0
                    else acc
               else acc)
            (seq 0 k) 0.

(** Row [mass_idx] of a [TrackData] holds [n] points in every array
    that is set. *)
Definition row_ok (td : TrackData.t) (mass_idx : Z) (n : nat) : Prop :=
  TrackData.num_points td = Z.of_nat n /\
  (mass_idx < TrackData.num_masses td)%Z /\
  forall attr arr, TrackData.getattr td attr = Some arr ->
                   exists row, py_index arr mass_idx = Ok row /\ List.length row = n.

(** An attribute holds an array of [n] entries. *)
Definition sized (a : option (list R)) (n : Z) : Prop :=
  exists l, a = Some l /\ Z.of_nat (List.length l) = n.

(** A [galaxy] on which a turn of the main loop can run: the arrays
    have the sizes [init_module] gives them, the mass grid holds no star
    (nothing in the driver fills it), no density is stored past the ten
    IMF intervals, and [jmg] and [iwrt] have the value 0 that
    [GalaxyModel()] gives them. *)
Record ready (g : GalaxyModel.t) : Prop := mkReady {
  ready_cmass : GalaxyModel.cmass g = Some (GalaxyModel.np_zeros GalaxyModel.NPGRID);
  ready_dens : exists d, GalaxyModel.dens g = Some d
                         /\ Z.of_nat (List.length d) = GalaxyModel.NPGRID
                         /\ forall i, (10 <= i)%nat -> nth i d 0 = 0;
  ready_wavel : sized (GalaxyModel.wavel g) 1415;
  ready_spectra : exists s, GalaxyModel.spectra g = Some s
                            /\ Z.of_nat (List.length s) = 100%Z
                            /\ forall i, (i < 100)%nat ->
                                         Z.of_nat (List.length (nth i s [])) = 1415%Z;
  ready_wind_power : sized (GalaxyModel.wind_power g) 100;
  ready_sn_rates : sized (GalaxyModel.sn_rates g) 100;
  ready_sp_type_counts : sized (GalaxyModel.sp_type_counts g) 20;
  ready_element_yields : sized (GalaxyModel.element_yields g) 30;
  ready_uv_lines : sized (GalaxyModel.uv_lines g) 100;
  ready_fuv_lines : sized (GalaxyModel.fuv_lines g) 50;
  ready_hires_lines : sized (GalaxyModel.hires_lines g) 200;
  ready_xponent : Z.of_nat (List.length (GalaxyModel.xponent g)) = 10%Z;
  ready_xmaslim : Z.of_nat (List.length (GalaxyModel.xmaslim g)) = 11%Z;
  ready_ninterv : (GalaxyModel.ninterv g <= 10)%Z;
  ready_jmg : GalaxyModel.jmg g = 0%Z;
  ready_iwrt : GalaxyModel.iwrt g = 0%Z
}.

(** The fields of [galaxy] that the clock of the main loop reads. *)
Definition clock_fields (g : GalaxyModel.t) : Z * R * R * Z * R * R * R :=
  (GalaxyModel.jtime g, GalaxyModel.time1 g, GalaxyModel.tbiv g,
   GalaxyModel.itbiv g, GalaxyModel.tmax g, GalaxyModel.tvar g,
   GalaxyModel.tstep g).

(** A calculator that runs to its end on a [ready] galaxy, leaves it
    [ready] and does not touch the clock. *)
Definition keeps (c : GalaxyModel.t -> result GalaxyModel.t) : Prop :=
  forall g, ready g ->
            exists g', c g = Ok g' /\ ready g' /\ clock_fields g' = clock_fields g.

(** A driver on which the main loop can run: its galaxy is [ready] and
    it has no output writer. *)
Definition steady (self : Starburst99.t) : Prop :=
  ready (Starburst99.galaxy self) /\ Starburst99.output_writer self = None.

(** What a turn of the main loop does to the clock: the record of the
    call of [_output], then the update of [tvar], [time] and [icount],
    and the test that ends the loop. *)
Record clock : Type := mkClock {
  c_jtime : Z;
  c_time1 : R;
  c_tbiv : R;
  c_itbiv : Z;
  c_tmax : R;
  c_tvar : R;
  c_tstep : R;
  c_time : R;
  c_icount : Z;
  c_emitted : list (R * Z)
}.

Definition clock_of (self : Starburst99.t) : clock :=
  let g := Starburst99.galaxy self in
  mkClock (GalaxyModel.jtime g) (GalaxyModel.time1 g) (GalaxyModel.tbiv g)
          (GalaxyModel.itbiv g) (GalaxyModel.tmax g) (GalaxyModel.tvar g)
          (GalaxyModel.tstep g) (Starburst99.time self) (Starburst99.icount self)
          (Starburst99.emitted self).

Definition tick (c : clock) : clock * bool :=
  let tvar' := if (c_jtime c =? 0)%Z then c_tvar c
               else if (c_icount c =? 1)%Z then c_time1 c
               else c_tvar c * c_tstep c in
  let time' := if (c_jtime c =? 0)%Z then c_time c + c_tbiv c else tvar' in
  let continue_evolution :=
    if (c_jtime c =? 0)%Z
    then if Rlt_dec (c_tmax c) time' then false else true
    else if (c_icount c >=? c_itbiv c)%Z then false else true in
  (mkClock (c_jtime c) (c_time1 c) (c_tbiv c) (c_itbiv c) (c_tmax c) tvar'
           (c_tstep c) time' (c_icount c + 1)%Z
           (c_emitted c ++ [(c_time c, c_icount c)])%list,
   continue_evolution).

(** [k] turns, whatever [continue_evolution] says. *)
Fixpoint ticks (k : nat) (c : clock) : clock :=
  match k with
  | O => c
  | S k' => ticks k' (fst (tick c))
  end.

(** The linear clock after [k] steps: [step] added [k] times to [t],
    one addition at a time, as the loop does. *)
Fixpoint running (k : nat) (t step : R) : R :=
  match k with
  | O => t
  | S k' => running k' (t + step) step
  end.

(** The steps that [k] turns on the linear clock hand to the output,
    from the time [t] and the step number [c] on. *)
Definition linear_outputs (k : nat) (t step : R) (c : Z) : list (R * Z) :=
  map (fun j => (running j t step, (c + Z.of_nat j)%Z)) (seq 0 k).

(** The log after the progress record that opens turn number [c]. *)
Definition step_record (env : Starburst99.Environment) (c : Z) (self : Starburst99.t)
           (l : Log) : Log :=
  if (c mod 10 =? 0)%Z
  then (l ++ [(INFO, ("Step " ++ str_int c ++ ", t = "
                      ++ Starburst99.format_6f env (Starburst99.time self / 1.0e6)
                      ++ " Myr")%string)])%list
  else l.

(** The driver as [run] has it when it calls [_sync_parameters]. *)
Definition entering (self : Starburst99.t) (params : ModelParameters.t)
  : Starburst99.t :=
  Starburst99.mk
    (GalaxyModel.set_model_params
       (GalaxyModel.allocate (Starburst99.galaxy self)) params)
    true (Starburst99.output_writer self) (Starburst99.input_file self)
    (Starburst99.start_time self) (Starburst99.stellar_tracks self)
    (Starburst99.stellar_tracks_data self) (Starburst99.imf self)
    (Starburst99.time self) (Starburst99.icount self) (Starburst99.namfi3 self)
    (Starburst99.nam self) (Starburst99.emitted self).

(** The log when [run] reaches [_sync_parameters]. *)
Definition opening (self : Starburst99.t) (l : Log) : Log :=
  (l ++ Starburst99.banner self
     ++ [(INFO, "Initializing modules...");
         (INFO, "Initializing GalaxyModel module");
         (INFO, "Reading input parameters...")])%list.

(** The outcome of [run] when the exception [e] reaches its handler with
    the log [l]. *)
Definition exits (l : Log) (e : exn) : Starburst99.outcome * Log :=
  (Starburst99.SysExit 1,
   (l ++ [(ERROR, ("Error during execution: " ++ str_exn e)%string)])%list).

(** ** Tables and parameters used as examples *)

(** One track of three points, at ages 1, 2, 3, losing mass. *)
Definition track_data_three : TrackData.t :=
  let z := Some [[0; 0; 0]] in
  TrackData.mk 1 3 (Some [20]) (Some [[1; 2; 3]]) (Some [[20; 19; 17]])
               z z z z z z z z.

(** Three rows of one point each, of initial masses 10, 30 and 5. *)
Definition track_data_masses : TrackData.t :=
  let z := Some [[0]; [0]; [0]] in
  TrackData.mk 3 1 (Some [10; 30; 5]) z z z z z z z z z z.

(** One track of a single point, at age 5. *)
Definition track_data_one : TrackData.t :=
  let z := Some [[0]] in
  TrackData.mk 1 1 (Some [20]) (Some [[5]]) (Some [[20]]) z z z z z z z z.

(** [IMF(2, [2.35, 1.0], [1.0, 10.0, 100.0])]. *)
Definition imf_two : IMF.t :=
  IMF.mk 2 [2.35; 1] [1; 10; 100]
         (IMF._calculate_normalizations 2 [2.35; 1] [1; 10; 100]).



(** [IMF(1, [1.0], [2.0, 10.0])]. *)
Definition imf_alpha_one : IMF.t :=
  IMF.mk 1 [1] [2; 10] (IMF._calculate_normalizations 1 [1] [2; 10]).

(** Two tracks, of masses 1 and 10, whose last ages are 1e8 and 1e7. *)
Definition track_m1 : StellarTracks.Track :=
  StellarTracks.mkTrack [0; 100000000] [1; 2] [3; 4] [5; 6] [7; 8] [1; 2]%Z.

Definition track_m10 : StellarTracks.Track :=
  StellarTracks.mkTrack [0; 10000000] [10; 20] [30; 40] [50; 60] [70; 80] [3; 4]%Z.

Definition table_two : StellarTracks.mass_data := [(10, track_m10); (1, track_m1)].

(** A third track, of mass 3, whose last age is 3e7, and the table of
    the three. *)
Definition track_m3 : StellarTracks.Track :=
  StellarTracks.mkTrack [0; 30000000] [4; 5] [6; 7] [8; 9] [2; 3] [1; 2]%Z.

Definition table_three : StellarTracks.mass_data :=
  [(10, track_m10); (1, track_m1); (3, track_m3)].

Definition tracks_three : StellarTracks.t :=
  StellarTracks.mk "data/tracks" [("Z0140v00", table_three)] ["Z0140v00"].

Definition tracks_two : StellarTracks.t :=
  StellarTracks.mk "data/tracks" [("Z0140v00", table_two)] ["Z0140v00"].

(** [ModelParameters()] with the clock fields replaced. *)
Definition with_clock (p : ModelParameters.t) (time_scale : Z)
           (initial_time time_step : R) (num_steps : Z) (max_time : R)
  : ModelParameters.t :=
  ModelParameters.mk
    (ModelParameters.name p) (ModelParameters.sf_mode p)
    (ModelParameters.total_mass p) (ModelParameters.sf_rate p)
    (ModelParameters.num_intervals p) (ModelParameters.exponents p)
    (ModelParameters.mass_limits p) (ModelParameters.sn_cutoff p)
    (ModelParameters.bh_cutoff p) (ModelParameters.metallicity_id p)
    (ModelParameters.wind_model p) initial_time time_scale time_step num_steps
    max_time (ModelParameters.atmosphere_model p)
    (ModelParameters.hires_metallicity p) (ModelParameters.uv_library p)
    (ModelParameters.outputs p) (ModelParameters.rsg_vt p)
    (ModelParameters.rsg_params p).

(** [ModelParameters()] with the IMF fields replaced. *)
Definition with_imf (p : ModelParameters.t) (num_intervals : Z)
           (exponents mass_limits : list R) : ModelParameters.t :=
  ModelParameters.mk
    (ModelParameters.name p) (ModelParameters.sf_mode p)
    (ModelParameters.total_mass p) (ModelParameters.sf_rate p)
    num_intervals exponents mass_limits (ModelParameters.sn_cutoff p)
    (ModelParameters.bh_cutoff p) (ModelParameters.metallicity_id p)
    (ModelParameters.wind_model p) (ModelParameters.initial_time p)
    (ModelParameters.time_scale p) (ModelParameters.time_step p)
    (ModelParameters.num_steps p) (ModelParameters.max_time p)
    (ModelParameters.atmosphere_model p) (ModelParameters.hires_metallicity p)
    (ModelParameters.uv_library p) (ModelParameters.outputs p)
    (ModelParameters.rsg_vt p) (ModelParameters.rsg_params p).

(** [ModelParameters(time_scale=1, initial_time=1.0, max_time=1000.0,
    num_steps=3)]: a logarithmic clock from 1 to 1000 in three steps. *)
Definition log_clock_parameters : ModelParameters.t :=
  with_clock ModelParameters.default 1 1 1 3 1000.

(** [ModelParameters(time_scale=0, initial_time=5.0, time_step=0.5,
    max_time=1.0)]: a linear clock in steps of 0.5 up to 1. *)
Definition half_steps_parameters : ModelParameters.t :=
  with_clock ModelParameters.default 0 5 0.5 10 1.

(** [ModelParameters(time_scale=0, time_step=0.0)]: a linear clock that
    does not move. *)
Definition zero_step_parameters : ModelParameters.t :=
  with_clock ModelParameters.default 0 0 0 10 100.

(** The galaxy after [init_module()], with 3 stars at grid point 0 and
    5 at grid point 1. *)
Definition galaxy_two_stars : GalaxyModel.t :=
  GalaxyModel.set_dens (GalaxyModel.allocate GalaxyModel.__init__)
                       (Some (3 :: 5 :: repeat 0 2998)).

(** A driver created without an input file. *)
Definition fresh : Starburst99.t := Starburst99.__init__ None "start".

(** [s = Starburst99(); s.galaxy.init_module();
    s.galaxy.model_params = params]: the driver as the tests prepare it,
    before [s._sync_parameters()].  No output writer is attached. *)
Definition prepared (params : ModelParameters.t) : Starburst99.t :=
  Starburst99.with_galaxy
    fresh
    (GalaxyModel.set_model_params (GalaxyModel.allocate GalaxyModel.__init__) params).

(** An environment whose disk is empty, where the output directory can
    be made, and whose parser reads two intervals with a single
    exponent from any input file. *)
Definition env_bad_input : Starburst99.Environment :=
  Starburst99.mkEnv
    (StellarTracks.mkFS (fun _ => false) (fun _ => false)
                        (fun _ => Raise (OtherError "unreadable")))
    (fun _ => Ok tt)
    (fun _ => Ok (with_imf ModelParameters.default 2 [2.35] [1; 10; 100]))
    (fun _ => "") "end" "0:00:00".

(** A disk where every path exists and every file opens, and where no
    track file can be parsed. *)
Definition fs_unreadable : StellarTracks.FileSystem :=
  StellarTracks.mkFS (fun _ => true) (fun _ => true)
                     (fun _ => Raise (OtherError "unreadable")).

(** A disk with no file on it. *)
Definition fs_empty : StellarTracks.FileSystem :=
  StellarTracks.mkFS (fun _ => false) (fun _ => false)
                     (fun _ => Raise (OtherError "unreadable")).

(** An empty disk on which the output directory can be made; the parser
    finds no input file. *)
Definition env_empty : Starburst99.Environment :=
  Starburst99.mkEnv fs_empty (fun _ => Ok tt)
                    (fun file => Raise (FileNotFoundError
                                          ("Input file not found: " ++ file)))
                    (fun _ => "") "end" "0:00:00".

(** The same on a disk where every path exists and every file opens. *)
Definition env_unreadable : Starburst99.Environment :=
  Starburst99.mkEnv fs_unreadable (fun _ => Ok tt)
                    (fun file => Raise (FileNotFoundError
                                          ("Input file not found: " ++ file)))
                    (fun _ => "") "end" "0:00:00".

(** What [TrackData().init(1, 100)] builds. *)
Definition zero_track_data : TrackData.t :=
  let z := Some [repeat 0 100] in
  TrackData.mk 1 100 (Some [0]) z z z z z z z z z z.


(** * Properties *)

(** ** IMF construction *)

Lemma np_diff_increasing (a : list R) :
  np_all_pos (np_diff a) = true <-> increasing a.
Proof.
  unfold increasing.
  induction a as [|x [|y tl] IH].
  - split; [intros _ i Hi; simpl in Hi; lia | reflexivity].
  - split; [intros _ i Hi; simpl in Hi; lia | reflexivity].
  - change (np_diff (x :: y :: tl)) with ((y - x) :: np_diff (y :: tl)).
    unfold np_all_pos in *. cbn [forallb].
    rewrite andb_true_iff, IH. split.
    + intros [Hxy Htl] [|i] Hi.
      * cbn. destruct (Rlt_dec 0 (y - x)); [lra | discriminate].
      * apply (Htl i). cbn [List.length] in *. lia.
    + intros H. split.
      * specialize (H O). cbn in H.
        destruct (Rlt_dec 0 (y - x)) as [|n]; [reflexivity|].
        exfalso. apply n. assert (x < y) by (apply H; lia). lra.
      * intros i Hi. apply (H (S i)). cbn [List.length] in *. lia.
Qed.

Lemma validate_ok_iff (n : Z) (exps lims : list R) :
  IMF._validate_parameters n exps lims = Ok tt <->
  Z.of_nat (List.length exps) = n /\
  Z.of_nat (List.length lims) = (n + 1)%Z /\
  increasing lims.
Proof.
  unfold IMF._validate_parameters.
  destruct (Z.eqb_spec (Z.of_nat (List.length exps)) n) as [He|He]; cbn [negb].
  2:{ split; [discriminate | tauto]. }
  destruct (Z.eqb_spec (Z.of_nat (List.length lims)) (n + 1)) as [Hl|Hl]; cbn [negb].
  2:{ split; [discriminate | tauto]. }
  destruct (np_all_pos (np_diff lims)) eqn:Hd; cbn [negb].
  - apply np_diff_increasing in Hd. tauto.
  - split; [discriminate|]. intros (_ & _ & Hi).
    apply np_diff_increasing in Hi. congruence.
Qed.

Lemma validate_raises_value_error (n : Z) (exps lims : list R) (e : exn) :
  IMF._validate_parameters n exps lims = Raise e -> exists msg, e = ValueError msg.
Proof.
  unfold IMF._validate_parameters.
  repeat match goal with
         | |- context [if ?b then _ else _] => destruct b
         end; intros H; inversion H; eauto.
Qed.

Lemma init_ok_iff (n : Z) (exps lims : list R) :
  (exists self, IMF.__init__ n exps lims = Ok self) <->
  IMF._validate_parameters n exps lims = Ok tt.
Proof.
  unfold IMF.__init__.
  destruct (IMF._validate_parameters n exps lims) as [[]|e]; cbn.
  - split; eauto.
  - split; [intros [? H]; discriminate | discriminate].
Qed.

Lemma init_ok_fields (n : Z) (exps lims : list R) (self : IMF.t) :
  IMF.__init__ n exps lims = Ok self ->
  IMF.intervals self = n /\ IMF.exponents self = exps /\
  IMF.mass_limits self = lims /\
  Z.of_nat (List.length exps) = n /\
  Z.of_nat (List.length lims) = (n + 1)%Z /\
  increasing lims.
Proof.
  intros H.
  assert (Hv : IMF._validate_parameters n exps lims = Ok tt)
    by (apply init_ok_iff; eauto).
  unfold IMF.__init__ in H. rewrite Hv in H. cbn in H. inversion H; subst; cbn.
  apply validate_ok_iff in Hv. tauto.
Qed.

Lemma init_raises_iff (n : Z) (exps lims : list R) :
  raises (IMF.__init__ n exps lims) <->
  IMF._validate_parameters n exps lims <> Ok tt.
Proof.
  unfold raises, IMF.__init__.
  destruct (IMF._validate_parameters n exps lims) as [[]|e]; cbn.
  - split; [intros [? H]; discriminate | congruence].
  - split; [discriminate | eauto].
Qed.




(** ** Arrays: indexing and searching *)

(** Decisions on reals that the context settles. *)
Ltac rabs :=
  repeat match goal with
         | H : context [Rabs ?x] |- _ => unfold Rabs in H; destruct (Rcase_abs x)
         | |- context [Rabs ?x] => unfold Rabs; destruct (Rcase_abs x)
         end.

Ltac rsolve := solve [lra | rabs; lra].

Ltac rdec :=
  repeat match goal with
         | |- context [Rlt_dec ?a ?b] =>
             destruct (Rlt_dec a b); try (exfalso; rsolve)
         | |- context [Rle_dec ?a ?b] =>
             destruct (Rle_dec a b); try (exfalso; rsolve)
         | |- context [Req_dec_T ?a ?b] =>
             destruct (Req_dec_T a b); try (exfalso; rsolve)
         end.

(** Evaluation of the code on given numbers. *)
Ltac pyeval := repeat (progress (cbn; rdec)).

Lemma py_index_nat {A : Type} (a : list A) (i : nat) (d : A) :
  (i < List.length a)%nat -> py_index a (Z.of_nat i) = Ok (nth i a d).
Proof.
  intros Hi. unfold py_index.
  destruct (Z.ltb_spec (Z.of_nat i) 0); [lia|].
  destruct (Z.leb_spec 0 (Z.of_nat i)); [|lia].
  destruct (Z.ltb_spec (Z.of_nat i) (Z.of_nat (List.length a))); [|lia].
  cbn [andb]. rewrite Nat2Z.id.
  destruct (nth_error a i) eqn:E.
  - f_equal. symmetry. apply nth_error_nth. exact E.
  - apply nth_error_None in E. lia.
Qed.

Lemma py_index_first {A : Type} (a : list A) (d : A) :
  a <> [] -> py_index a 0 = Ok (nth 0 a d).
Proof.
  intros Ha. apply (py_index_nat a 0 d).
  destruct a; [congruence | cbn; lia].
Qed.

Lemma last_nth {A : Type} (a : list A) (d : A) :
  last a d = nth (List.length a - 1) a d.
Proof.
  induction a as [|x [|y tl] IH]; try reflexivity.
  change (last (x :: y :: tl) d) with (last (y :: tl) d). rewrite IH.
  cbn [List.length]. replace (S (S (List.length tl)) - 1)%nat
    with (S (S (List.length tl) - 1))%nat by lia.
  reflexivity.
Qed.

Lemma py_index_last {A : Type} (a : list A) (d : A) :
  a <> [] -> py_index a (-1) = Ok (last a d).
Proof.
  intros Ha.
  assert (Hlen : (0 < List.length a)%nat)
    by (destruct a; [congruence | cbn; lia]).
  unfold py_index. cbn [Z.ltb Z.compare].
  destruct (Z.leb_spec 0 (Z.of_nat (List.length a) + -1)); [|lia].
  destruct (Z.ltb_spec (Z.of_nat (List.length a) + -1) (Z.of_nat (List.length a)));
    [|lia].
  cbn [andb].
  replace (Z.to_nat (Z.of_nat (List.length a) + -1)) with (List.length a - 1)%nat
    by lia.
  destruct (nth_error a (List.length a - 1)) eqn:E.
  - f_equal. rewrite last_nth. symmetry. apply nth_error_nth. exact E.
  - apply nth_error_None in E. lia.
Qed.

Lemma py_index_in_range {A : Type} (a : list A) (i : Z) :
  (0 <= i < Z.of_nat (List.length a))%Z -> exists x, py_index a i = Ok x.
Proof.
  intros Hi. destruct a as [|d tl]; [cbn in Hi; lia|].
  exists (nth (Z.to_nat i) (d :: tl) d).
  rewrite <- (Z2Nat.id i) at 1 by lia. apply py_index_nat. lia.
Qed.

Lemma searchsorted_le_length (a : list R) (v : R) :
  (np_searchsorted a v <= List.length a)%nat.
Proof.
  induction a as [|x tl IH]; cbn; [lia|].
  destruct (Rlt_dec x v); lia.
Qed.

(** Every entry before the index found is below the value... *)
Lemma searchsorted_below (a : list R) (v : R) (j : nat) :
  (j < np_searchsorted a v)%nat -> nth j a 0 < v.
Proof.
  revert j. induction a as [|x tl IH]; cbn; intros j Hj; [lia|].
  destruct (Rlt_dec x v); [|lia].
  destruct j; [assumption|]. apply IH. lia.
Qed.

(** ... and the entry at the index found is not. *)
Lemma searchsorted_at (a : list R) (v : R) :
  (np_searchsorted a v < List.length a)%nat ->
  v <= nth (np_searchsorted a v) a 0.
Proof.
  induction a as [|x tl IH]; cbn; intros H; [lia|].
  destruct (Rlt_dec x v); [apply IH; lia | lra].
Qed.

Lemma increasing_tail (x : R) (a : list R) :
  increasing (x :: a) -> increasing a.
Proof.
  intros H i Hi. apply (H (S i)). cbn [List.length]. lia.
Qed.

Lemma increasing_lt (a : list R) (i j : nat) :
  increasing a -> (i < j)%nat -> (j < List.length a)%nat ->
  nth i a 0 < nth j a 0.
Proof.
  intros Ha Hij Hj. induction j as [|j IH]; [lia|].
  destruct (Nat.eq_dec i j) as [->|Hne].
  - apply Ha. exact Hj.
  - apply Rlt_trans with (nth j a 0); [apply IH; lia | apply Ha; exact Hj].
Qed.

Lemma increasing_le (a : list R) (i j : nat) :
  increasing a -> (i <= j)%nat -> (j < List.length a)%nat ->
  nth i a 0 <= nth j a 0.
Proof.
  intros Ha Hij Hj. destruct (Nat.eq_dec i j) as [->|Hne]; [lra|].
  left. apply increasing_lt; [assumption | lia | assumption].
Qed.

Lemma increasing_two (x y : R) : x < y -> increasing [x; y].
Proof.
  intros H [|i] Hi; cbn in *; [exact H | lia].
Qed.

(** ** The density [xi] *)





(** ** The integral *)

Lemma fold_left_unchanged {A B : Type} (f : A -> B -> A) (l : list B) (a : A) :
  (forall j, In j l -> forall t, f t j = t) -> fold_left f l a = a.
Proof.
  revert a. induction l as [|x tl IH]; intros a H; cbn; [reflexivity|].
  rewrite H by (left; reflexivity). apply IH. intros j Hj. apply H. right. exact Hj.
Qed.

Lemma fold_left_agree {A B : Type} (f g : A -> B -> A) (l : list B) (a : A) :
  (forall j, In j l -> forall t, f t j = g t j) ->
  fold_left f l a = fold_left g l a.
Proof.
  revert a. induction l as [|x tl IH]; intros a H; cbn; [reflexivity|].
  rewrite H by (left; reflexivity). apply IH. intros j Hj. apply H. right. exact Hj.
Qed.


Section Integrate.

Variables (n : Z) (exps lims : list R) (self : IMF.t).
Hypothesis Hinit : IMF.__init__ n exps lims = Ok self.

Local Abbreviation N := (Z.to_nat n).
Local Abbreviation L i := (nth i lims 0).

Lemma imf_shape :
  IMF.intervals self = n /\ IMF.exponents self = exps /\
  IMF.mass_limits self = lims /\ List.length lims = S N /\ increasing lims /\
  last lims 0 = L N.
Proof.
  destruct (init_ok_fields _ _ _ _ Hinit) as (Hi & He & Hl & Hle & Hll & Hinc).
  assert (List.length lims = S N) by lia.
  repeat split; try assumption.
  rewrite last_nth. f_equal. lia.
Qed.

Lemma limits_le (i j : nat) : (i <= j)%nat -> (j <= N)%nat -> L i <= L j.
Proof.
  destruct imf_shape as (_ & _ & _ & Hlen & Hinc & _).
  intros. apply increasing_le; [assumption | assumption | lia].
Qed.

Lemma limits_lt (i j : nat) : (i < j)%nat -> (j <= N)%nat -> L i < L j.
Proof.
  destruct imf_shape as (_ & _ & _ & Hlen & Hinc & _).
  intros. apply increasing_lt; [assumption | assumption | lia].
Qed.

(** Over one interval [integrate] is the closed form of that interval:
    no other interval overlaps it in more than a point. *)
Lemma integrate_segment (i : nat) :
  (i < N)%nat ->
  IMF.integrate self (L i) (L (S i)) = IMF.segment_term (nth i exps 0) (L i) (L (S i)).
Proof.
  intros Hi.
  destruct imf_shape as (Hn & He & Hl & Hlen & Hinc & Hlast).
  unfold IMF.integrate. rewrite Hl, Hn, Hlast. unfold get.
  assert (H0 : L 0%nat <= L i) by (apply limits_le; lia).
  assert (H1 : L (S i) <= L N) by (apply limits_le; lia).
  assert (H2 : L i < L (S i)) by (apply limits_lt; lia).
  rewrite (Rmax_left (L i) (L 0%nat)) by assumption.
  rewrite (Rmin_left (L (S i)) (L N)) by assumption.
  destruct (Rle_dec (L (S i)) (L i)); [lra|].
  replace (seq 0 N) with (seq 0 i ++ i :: seq (S i) (N - S i))%list.
  2:{ change (i :: seq (S i) (N - S i)) with (seq i (S (N - S i))).
      rewrite <- seq_app. f_equal. lia. }
  rewrite fold_left_app. cbn [fold_left].
  rewrite (fold_left_unchanged _ (seq 0 i)).
  2:{ intros j Hj t. apply in_seq in Hj. unfold IMF.integrate_step, get.
      rewrite Hl.
      assert (L (j + 1)%nat <= L i) by (apply limits_le; lia).
      assert (Rmin (L (S i)) (L (j + 1)%nat) <= L (j + 1)%nat) by apply Rmin_r.
      assert (L i <= Rmax (L i) (L j)) by apply Rmax_l.
      destruct (Rlt_dec _ _); [lra | reflexivity]. }
  rewrite fold_left_unchanged.
  2:{ intros j Hj t. apply in_seq in Hj. unfold IMF.integrate_step, get.
      rewrite Hl.
      assert (L (S i) <= L j) by (apply limits_le; lia).
      assert (Rmin (L (S i)) (L (j + 1)%nat) <= L (S i)) by apply Rmin_l.
      assert (L j <= Rmax (L i) (L j)) by apply Rmax_r.
      destruct (Rlt_dec _ _); [lra | reflexivity]. }
  unfold IMF.integrate_step, get. rewrite Hl, He.
  replace (i + 1)%nat with (S i) by lia.
  rewrite (Rmax_left (L i) (L i)) by lra.
  rewrite (Rmin_left (L (S i)) (L (S i))) by lra.
  destruct (Rlt_dec _ _); [lra | lra].
Qed.


End Integrate.

(** *** [integrate] with and without positive masses *)









Lemma imf_two_init : IMF.__init__ 2 [2.35; 1] [1; 10; 100] = Ok imf_two.
Proof.
  unfold IMF.__init__, IMF._validate_parameters. pyeval. reflexivity.
Qed.



(** Each closed form is positive on a range of positive masses,
    whatever the exponent. *)
Lemma segment_term_pos (alpha lo hi : R) :
  0 < lo -> lo < hi -> 0 < IMF.segment_term alpha lo hi.
Proof.
  intros Hlo Hlt. unfold IMF.segment_term, np_log, np_pow.
  assert (Hln : 0 < ln (hi / lo)).
  { rewrite <- ln_1. apply ln_increasing; [lra|].
    apply Rmult_lt_reg_r with lo; [assumption|].
    unfold Rdiv. rewrite Rmult_assoc, Rinv_l by lra. lra. }
  destruct (Req_dec_T alpha (-1)); [assumption|].
  destruct (Req_dec_T alpha 1); [assumption|].
  set (p := - alpha + 1). assert (Hp : p <> 0) by (unfold p; lra).
  destruct (Rlt_dec 0 p) as [Hpos|Hneg].
  - assert (Rpower lo p < Rpower hi p) by (apply Rlt_Rpower_l; lra).
    apply Rdiv_lt_0_compat; lra.
  - assert (Hq : 0 < - p) by lra.
    assert (Hqq : Rpower lo (- p) < Rpower hi (- p)) by (apply Rlt_Rpower_l; lra).
    assert (Rpower hi p < Rpower lo p).
    { replace p with (- (- p)) by lra.
      rewrite (Rpower_Ropp hi (- p)), (Rpower_Ropp lo (- p)).
      apply Rinv_0_lt_contravar; [apply exp_pos | exact Hqq]. }
    replace ((Rpower hi p - Rpower lo p) / p)
      with ((Rpower lo p - Rpower hi p) / (- p)) by (field; assumption).
    apply Rdiv_lt_0_compat; lra.
Qed.





(** ** Sampling *)

(** With a seed, [sample] does not depend on the state the global
    generator was in. *)
Lemma sample_seeded_ignores_state (mt19937 : Z -> NpRandom.state) (self : IMF.t)
      (n_stars seed : Z) (g1 g2 : NpRandom.state) :
  IMF.sample mt19937 self n_stars (Some seed) g1
  = IMF.sample mt19937 self n_stars (Some seed) g2.
Proof. reflexivity. Qed.

Lemma sample_loop_length (self : IMF.t) (probs : list R) (k : nat) :
  forall masses g out g',
    IMF.sample_loop self probs k masses g = Ok (out, g') ->
    List.length out = (List.length masses + k)%nat.
Proof.
  induction k as [|k IH]; intros masses g out g' H; cbn in H.
  - inversion H; subst. lia.
  - destruct (NpRandom.choice _ _ _) as [[interval g1]|e]; cbn in H; [|discriminate].
    apply IH in H. rewrite length_app in H. cbn in H. lia.
Qed.

(** When [sample] returns, it returns [n_stars] masses, none for
    [n_stars = 0]. *)
Lemma sample_length (mt19937 : Z -> NpRandom.state) (self : IMF.t)
      (n_stars : Z) (seed : option Z) (g : NpRandom.state) (out : list R)
      (g' : NpRandom.state) :
  IMF.sample mt19937 self n_stars seed g = Ok (out, g') ->
  List.length out = Z.to_nat n_stars.
Proof.
  unfold IMF.sample. intros H. apply sample_loop_length in H. exact H.
Qed.

(** For [n_stars = 0] the loop is not entered. *)
Lemma sample_zero (mt19937 : Z -> NpRandom.state) (self : IMF.t)
      (seed : option Z) (g : NpRandom.state) :
  exists g', IMF.sample mt19937 self 0 seed g = Ok ([], g').
Proof. unfold IMF.sample. cbn [Z.to_nat IMF.sample_loop]. eauto. Qed.

Lemma Rpower_inverse (m p : R) : 0 < m -> p <> 0 -> Rpower (Rpower m p) (1 / p) = m.
Proof.
  intros Hm Hp. rewrite Rpower_mult.
  replace (p * (1 / p)) with 1 by (field; assumption).
  apply Rpower_1. exact Hm.
Qed.

Lemma Rpower_antitone (a b c : R) :
  0 < a -> a <= b -> c <= 0 -> Rpower b c <= Rpower a c.
Proof.
  intros Ha Hab Hc.
  replace c with (- (- c)) by lra. rewrite !(Rpower_Ropp _ (- c)).
  apply Rinv_le_contravar; [apply exp_pos|].
  apply Rle_Rpower_l; lra.
Qed.

(** Away from exponent 1 the inverse of the cumulative distribution
    stays inside its interval: the defect of [sample] is the case
    [alpha = 1] alone. *)
Lemma draw_mass_in_range (alpha m_low m_high u : R) :
  0 < m_low -> m_low < m_high -> 0 <= u < 1 -> alpha <> 1 ->
  m_low <= IMF.draw_mass alpha m_low m_high u <= m_high.
Proof.
  intros Hl Hlt [Hu0 Hu1] Ha. unfold IMF.draw_mass, IMF.pow_recip, np_pow.
  destruct (Req_dec_T alpha (-1)) as [_|_].
  - assert (Hq : 1 < m_high / m_low).
    { apply Rmult_lt_reg_r with m_low; [assumption|].
      unfold Rdiv. rewrite Rmult_assoc, Rinv_l by lra. lra. }
    assert (H0 : Rpower (m_high / m_low) 0 <= Rpower (m_high / m_low) u)
      by (apply Rle_Rpower; lra).
    assert (H1 : Rpower (m_high / m_low) u <= Rpower (m_high / m_low) 1)
      by (apply Rle_Rpower; lra).
    rewrite Rpower_O in H0 by lra. rewrite Rpower_1 in H1 by lra.
    assert (m_low * (m_high / m_low) = m_high) by (field; lra).
    split; nra.
  - set (p := - alpha + 1). assert (Hp : p <> 0) by (unfold p; lra).
    destruct (Req_dec_T p 0) as [|_]; [contradiction|].
    set (lo := Rpower m_low p). set (hi := Rpower m_high p).
    assert (Hlo : 0 < lo) by apply exp_pos.
    assert (Hhi : 0 < hi) by apply exp_pos.
    rewrite <- (Rpower_inverse m_low p) at 1 by assumption.
    rewrite <- (Rpower_inverse m_high p) at 1 by lra.
    fold lo hi.
    destruct (Rlt_dec 0 p) as [Hpos|Hneg].
    + assert (lo < hi) by (apply Rlt_Rpower_l; lra).
      assert (0 <= 1 / p) by (apply Rlt_le, Rdiv_lt_0_compat; lra).
      split; apply Rle_Rpower_l; try assumption; split; nra.
    + assert (hi <= lo).
      { apply Rpower_antitone; lra. }
      assert (1 / p <= 0).
      { assert (0 < 1 / (- p)) by (apply Rdiv_lt_0_compat; lra).
        replace (1 / p) with (- (1 / (- p))) by (field; assumption). lra. }
      split; apply Rpower_antitone; try assumption; nra.
Qed.

Lemma imf_alpha_one_init : IMF.__init__ 1 [1] [2; 10] = Ok imf_alpha_one.
Proof.
  unfold IMF.__init__, IMF._validate_parameters. pyeval. reflexivity.
Qed.

(** For exponent 1 the mass drawn is 1, whatever the interval and the
    draw: both powers are [m ** 0.0]. *)
Lemma draw_mass_alpha_one (m_low m_high u : R) :
  0 < m_low -> 0 < m_high -> IMF.draw_mass 1 m_low m_high u = 1.
Proof.
  intros Hl Hh. unfold IMF.draw_mass, IMF.pow_recip, np_pow.
  replace (- (1) + 1) with 0 by lra.
  rewrite !Rpower_O by assumption.
  rdec. reflexivity.
Qed.

Lemma sample_loop_alpha_one (k : nat) :
  forall masses g,
    (forall i, 0 <= g i < 1) ->
    exists g',
      IMF.sample_loop imf_alpha_one [1] k masses g
      = Ok ((masses ++ repeat 1 k)%list, g').
Proof.
  induction k as [|k IH]; intros masses g Hg.
  - exists g. cbn. rewrite app_nil_r. reflexivity.
  - cbn [IMF.sample_loop]. unfold NpRandom.choice, NpRandom.random_sample.
    cbn [imf_alpha_one IMF.intervals Z.leb Z.compare List.length Z.of_nat
         Pos.of_succ_nat Z.eqb Pos.eqb negb forallb andb].
    destruct (Rle_dec 0 1); [|lra]. cbn [negb andb].
    unfold np_sum. cbn [fold_left].
    destruct (Req_dec_T (0 + 1) 1); [|lra].
    unfold NpRandom.cumsum. cbn [NpRandom.cumsum_from last map np_searchsorted_right].
    destruct (Rle_dec ((0 + 1) / (0 + 1)) (g 0%nat)) as [Hge|_].
    { exfalso. specialize (Hg 0%nat). replace ((0 + 1) / (0 + 1)) with 1 in Hge
        by (field; lra). lra. }
    cbn [bind]. unfold NpRandom.uniform, NpRandom.random_sample, get.
    cbn [nth Nat.add].
    destruct (IH (masses ++ [1])%list (fun k0 => g (S (S k0)))) as [g' Hg'].
    { intros i. apply Hg. }
    exists g'. change (nth 0 (IMF.exponents imf_alpha_one) 0) with 1.
    rewrite draw_mass_alpha_one by (cbn; lra).
    rewrite Hg'. rewrite <- app_assoc. reflexivity.
Qed.

(** C5, the failing case.  [IMF(1, [1.0], [2.0, 10.0])] is accepted, and
    for any seed [sample] returns [n_stars] masses that are all 1.0,
    below [mass_limits[0] = 2.0]: the branch for [alpha != -1] has no
    case for [alpha = 1], where [integrate] switches to the logarithm. *)
Theorem sample_alpha_one_outside_limits (mt19937 : Z -> NpRandom.state)
        (n_stars seed : Z) (g : NpRandom.state) :
  (forall s i, 0 <= mt19937 s i < 1) ->
  IMF.__init__ 1 [1] [2; 10] = Ok imf_alpha_one
  /\ (exists g',
        IMF.sample mt19937 imf_alpha_one n_stars (Some seed) g
        = Ok (repeat 1 (Z.to_nat n_stars), g'))
  /\ 1 < get (IMF.mass_limits imf_alpha_one) 0.
Proof.
  intros Hmt. split; [exact imf_alpha_one_init|]. split; [|cbn; lra].
  unfold IMF.sample.
  assert (Hprobs :
            map (fun p => p / np_sum
                   (map (fun i => IMF.integrate imf_alpha_one
                                   (get (IMF.mass_limits imf_alpha_one) i)
                                   (get (IMF.mass_limits imf_alpha_one) (i + 1)))
                        (seq 0 (Z.to_nat (IMF.intervals imf_alpha_one)))))
                (map (fun i => IMF.integrate imf_alpha_one
                                (get (IMF.mass_limits imf_alpha_one) i)
                                (get (IMF.mass_limits imf_alpha_one) (i + 1)))
                     (seq 0 (Z.to_nat (IMF.intervals imf_alpha_one))))
            = [1]).
  { change (seq 0 (Z.to_nat (IMF.intervals imf_alpha_one))) with [0%nat].
    cbn [map]. unfold np_sum. cbn [fold_left].
    change (get (IMF.mass_limits imf_alpha_one) 0) with (nth 0 [2; 10] 0).
    change (get (IMF.mass_limits imf_alpha_one) (0 + 1)) with (nth 1 [2; 10] 0).
    rewrite (integrate_segment 1 [1] [2; 10] imf_alpha_one imf_alpha_one_init 0)
      by (cbn; lia).
    pose proof (segment_term_pos (nth 0 [1] 0) (nth 0 [2; 10] 0) (nth 1 [2; 10] 0))
      as Hpos.
    cbn [nth] in *. f_equal. field. assert (0 < IMF.segment_term 1 2 10)
      by (apply Hpos; lra). lra. }
  rewrite Hprobs.
  destruct (sample_loop_alpha_one (Z.to_nat n_stars) [] (mt19937 seed)) as [g' Hg'].
  { intros i. apply Hmt. }
  exists g'. exact Hg'.
Qed.

Lemma sample_alpha_one_witness :
  exists g',
    IMF.sample (fun _ _ => 0.5) imf_alpha_one 3 (Some 42%Z) (fun _ => 0)
    = Ok ([1; 1; 1], g').
Proof.
  refine (proj1 (proj2 (sample_alpha_one_outside_limits
                          (fun _ _ => 0.5) 3 42 (fun _ => 0) _))).
  intros s i. lra.
Defined.

(** ** Sampling away from exponent 1 *)

Lemma fold_plus_scaled (l : list R) (a t : R) :
  fold_left Rplus (map (fun p => p / t) l) (a / t) = fold_left Rplus l a / t.
Proof.
  revert a. induction l as [|x tl IH]; intros a; cbn; [reflexivity|].
  replace (a / t + x / t) with ((a + x) / t) by (unfold Rdiv; ring).
  apply IH.
Qed.

Lemma np_sum_scaled (l : list R) (t : R) :
  np_sum (map (fun p => p / t) l) = np_sum l / t.
Proof.
  unfold np_sum. rewrite <- fold_plus_scaled. f_equal. unfold Rdiv. ring.
Qed.

Lemma fold_plus_pos (l : list R) (a : R) :
  Forall (fun p => 0 < p) l -> 0 <= a -> l <> [] -> 0 < fold_left Rplus l a.
Proof.
  revert a. induction l as [|x tl IH]; intros a Hall Ha Hne; [congruence|].
  inversion Hall as [|? ? Hx Htl]; subst. cbn.
  destruct tl as [|y tl'].
  - cbn. lra.
  - apply IH; [assumption | lra | discriminate].
Qed.

Lemma cumsum_from_length (p : list R) (a : R) :
  List.length (NpRandom.cumsum_from a p) = List.length p.
Proof.
  revert a. induction p as [|x tl IH]; intros a; cbn; [reflexivity|].
  rewrite IH. reflexivity.
Qed.

(** The last entry of the cumulative sums is the sum. *)
Lemma cumsum_from_last (p : list R) (a : R) :
  p <> [] -> last (NpRandom.cumsum_from a p) 0 = fold_left Rplus p a.
Proof.
  revert a. induction p as [|x tl IH]; intros a Hne; [congruence|].
  destruct tl as [|y tl'].
  - reflexivity.
  - change (NpRandom.cumsum_from a (x :: y :: tl'))
      with ((a + x) :: NpRandom.cumsum_from (a + x) (y :: tl')).
    change (fold_left Rplus (x :: y :: tl') a)
      with (fold_left Rplus (y :: tl') (a + x)).
    rewrite <- IH by discriminate.
    cbn [NpRandom.cumsum_from]. reflexivity.
Qed.

(** A draw below the last entry is placed before the end. *)
Lemma searchsorted_right_inside (a : list R) (u : R) :
  a <> [] -> u < last a 0 -> (np_searchsorted_right a u < List.length a)%nat.
Proof.
  induction a as [|x tl IH]; intros Hne Hu; [congruence|].
  cbn [np_searchsorted_right List.length].
  destruct (Rle_dec x u); [|lia].
  destruct tl as [|y tl']; [cbn in Hu; lra|].
  apply -> Nat.succ_lt_mono. apply IH; [discriminate | exact Hu].
Qed.

Lemma last_map_scaled (l : list R) (t : R) :
  l <> [] -> last (map (fun c => c / t) l) 0 = last l 0 / t.
Proof.
  induction l as [|x tl IH]; intros Hne; [congruence|].
  destruct tl as [|y tl']; [reflexivity|].
  change (last (map (fun c => c / t) (x :: y :: tl')) 0)
    with (last (map (fun c => c / t) (y :: tl')) 0).
  rewrite IH by discriminate. reflexivity.
Qed.

(** With probabilities that are positive and sum to one, and a draw in
    [0, 1), [choice] returns an index below [a]. *)
Lemma choice_in_range (a : Z) (p : list R) (g : NpRandom.state) :
  (0 < a)%Z -> Z.of_nat (List.length p) = a ->
  Forall (fun x => 0 < x) p -> np_sum p = 1 -> 0 <= g 0%nat < 1 ->
  exists i, NpRandom.choice a p g = Ok (i, fun k => g (S k))
            /\ (i < List.length p)%nat.
Proof.
  intros Ha Hlen Hpos Hsum Hg. unfold NpRandom.choice.
  destruct (Z.leb_spec a 0); [lia|].
  rewrite Hlen, Z.eqb_refl. cbn [negb].
  assert (Hnn : forallb (fun x => if Rle_dec 0 x then true else false) p = true).
  { apply forallb_forall. intros x Hx.
    rewrite Forall_forall in Hpos. specialize (Hpos x Hx).
    destruct (Rle_dec 0 x); [reflexivity | lra]. }
  rewrite Hnn. cbn [negb].
  destruct (Req_dec_T (np_sum p) 1); [|contradiction].
  unfold NpRandom.random_sample.
  assert (Hne : p <> []) by (intros E; rewrite E in Hlen; cbn in Hlen; lia).
  assert (Hcne : NpRandom.cumsum p <> []).
  { unfold NpRandom.cumsum. destruct p; [congruence | discriminate]. }
  eexists. split; [reflexivity|].
  rewrite <- (cumsum_from_length p 0). fold (NpRandom.cumsum p).
  rewrite <- (length_map (fun c => c / last (NpRandom.cumsum p) 0)).
  apply searchsorted_right_inside.
  - destruct (NpRandom.cumsum p); [congruence | discriminate].
  - rewrite last_map_scaled by assumption.
    unfold NpRandom.cumsum at 1 2. rewrite cumsum_from_last by assumption.
    fold (np_sum p). rewrite Hsum. lra.
Qed.

Section SampleInRange.

Variables (n : Z) (exps lims : list R) (self : IMF.t).
Hypothesis Hinit : IMF.__init__ n exps lims = Ok self.
Hypothesis Hn : (1 <= n)%Z.
Hypothesis Hpos : 0 < nth 0 lims 0.
Hypothesis Hexp : forall i, (i < Z.to_nat n)%nat -> nth i exps 0 <> 1.

Local Abbreviation N := (Z.to_nat n).
Local Abbreviation in_domain := (fun m : R => nth 0 lims 0 <= m <= last lims 0).

Lemma interval_probs_positive :
  Forall (fun p => 0 < p)
         (map (fun i => IMF.integrate self (get (IMF.mass_limits self) i)
                                      (get (IMF.mass_limits self) (i + 1)))
              (seq 0 N)).
Proof.
  destruct (imf_shape n exps lims self Hinit) as (_ & _ & Hl & _).
  apply Forall_forall. intros p Hp. apply in_map_iff in Hp.
  destruct Hp as (i & <- & Hi). apply in_seq in Hi.
  rewrite Hl. unfold get. replace (i + 1)%nat with (S i) by lia.
  rewrite (integrate_segment n exps lims self Hinit i) by lia.
  apply segment_term_pos.
  - apply Rlt_le_trans with (nth 0 lims 0); [exact Hpos|].
    apply (limits_le n exps lims self Hinit); lia.
  - apply (limits_lt n exps lims self Hinit); lia.
Qed.

Lemma sample_loop_in_range (probs : list R) (k : nat) :
  List.length probs = N -> Forall (fun p => 0 < p) probs -> np_sum probs = 1 ->
  forall masses g,
    (forall i, 0 <= g i < 1) -> Forall in_domain masses ->
    exists out g',
      IMF.sample_loop self probs k masses g = Ok (out, g')
      /\ Forall in_domain out.
Proof.
  intros Hlen Hp Hsum.
  destruct (imf_shape n exps lims self Hinit) as (Hi & He & Hl & Hll & Hinc & Hlast).
  induction k as [|k IH]; intros masses g Hg Hm.
  - exists masses, g. split; [reflexivity | exact Hm].
  - cbn [IMF.sample_loop].
    destruct (choice_in_range (IMF.intervals self) probs g) as (i & Hc & Hlt);
      try assumption; [lia | lia | apply Hg |].
    rewrite Hc. cbn [bind]. unfold NpRandom.uniform, NpRandom.random_sample.
    rewrite Hl, He. unfold get. replace (i + 1)%nat with (S i) by lia.
    apply IH; [intros j; apply Hg|].
    apply Forall_app. split; [exact Hm|]. constructor; [|constructor].
    assert (H0 : nth 0 lims 0 <= nth i lims 0)
      by (apply (limits_le n exps lims self Hinit); lia).
    assert (H1 : nth (S i) lims 0 <= last lims 0)
      by (rewrite Hlast; apply (limits_le n exps lims self Hinit); lia).
    assert (H2 : nth i lims 0 < nth (S i) lims 0)
      by (apply (limits_lt n exps lims self Hinit); lia).
    pose proof (Hg 1%nat) as Hu.
    pose proof (draw_mass_in_range (nth i exps 0) (nth i lims 0) (nth (S i) lims 0)
                                   (0 + (1 - 0) * g 1%nat)) as Hd.
    destruct Hd; [lra | lra | lra | apply Hexp; lia |]. lra.
Qed.

(** Where no exponent is 1 and the masses are positive, [sample] with a
    seed returns [n_stars] masses inside the domain. *)
Lemma sample_in_range (mt19937 : Z -> NpRandom.state) (n_stars seed : Z)
      (g : NpRandom.state) :
  (forall s i, 0 <= mt19937 s i < 1) ->
  exists out g',
    IMF.sample mt19937 self n_stars (Some seed) g = Ok (out, g')
    /\ List.length out = Z.to_nat n_stars
    /\ Forall in_domain out.
Proof.
  intros Hmt. unfold IMF.sample.
  destruct (imf_shape n exps lims self Hinit) as (Hi & _).
  rewrite Hi.
  set (raw := map (fun i => IMF.integrate self (get (IMF.mass_limits self) i)
                                          (get (IMF.mass_limits self) (i + 1)))
                  (seq 0 N)).
  pose proof interval_probs_positive as Hraw. fold raw in Hraw.
  assert (Hlen : List.length raw = N)
    by (unfold raw; rewrite length_map, length_seq; reflexivity).
  assert (Htotal : 0 < np_sum raw).
  { unfold np_sum. apply fold_plus_pos; [exact Hraw | lra|].
    intros E. rewrite E in Hlen. cbn in Hlen. lia. }
  destruct (sample_loop_in_range (map (fun p => p / np_sum raw) raw)
                                 (Z.to_nat n_stars)) with (masses := @nil R)
                                                          (g := mt19937 seed)
    as (out & g' & Hout & Hdom).
  - rewrite length_map. exact Hlen.
  - apply Forall_forall. intros p Hp. apply in_map_iff in Hp.
    destruct Hp as (q & <- & Hq). rewrite Forall_forall in Hraw.
    apply Rdiv_lt_0_compat; [apply Hraw; exact Hq | exact Htotal].
  - rewrite np_sum_scaled. field. lra.
  - intros i. apply Hmt.
  - constructor.
  - exists out, g'. split; [exact Hout|]. split; [|exact Hdom].
    apply sample_loop_length in Hout. exact Hout.
Qed.

End SampleInRange.


(** ** Arrays written in place *)

Lemma set_item_ok {A : Type} (a : list A) (i : nat) (v : A) :
  (i < List.length a)%nat ->
  set_item a i v = Ok (firstn i a ++ v :: skipn (S i) a)%list.
Proof.
  intros Hi. unfold set_item.
  destruct (Nat.ltb_spec i (List.length a)); [reflexivity | lia].
Qed.

Lemma set_item_nth {A : Type} (a a' : list A) (i : nat) (v d : A) :
  set_item a i v = Ok a' ->
  List.length a' = List.length a
  /\ nth i a' d = v
  /\ forall j, j <> i -> nth j a' d = nth j a d.
Proof.
  intros H.
  assert (Hi : (i < List.length a)%nat).
  { unfold set_item in H.
    destruct (Nat.ltb_spec i (List.length a)); [assumption | discriminate]. }
  rewrite set_item_ok in H by exact Hi.
  assert (Ha : a' = (firstn i a ++ v :: skipn (S i) a)%list) by congruence.
  subst a'. clear H.
  assert (Hf : List.length (firstn i a) = i) by (rewrite length_firstn; lia).
  split; [|split].
  - rewrite length_app. cbn [List.length]. rewrite Hf, length_skipn. lia.
  - rewrite app_nth2 by lia. rewrite Hf, Nat.sub_diag. reflexivity.
  - intros j Hj. destruct (Nat.lt_ge_cases j i) as [Hlt|Hge].
    + rewrite app_nth1 by lia. rewrite nth_firstn.
      destruct (Nat.ltb_spec j i); [reflexivity | lia].
    + rewrite app_nth2 by lia. rewrite Hf.
      destruct (j - i)%nat as [|m] eqn:E; [lia|]. cbn [nth].
      rewrite nth_skipn. f_equal. lia.
Qed.

Lemma fold_plus_acc (l : list R) (a : R) :
  fold_left Rplus l a = a + fold_left Rplus l 0.
Proof.
  revert a. induction l as [|x tl IH]; intros a; cbn [fold_left]; [ring|].
  rewrite (IH (a + x)), (IH (0 + x)). ring.
Qed.

Lemma np_sum_cons (x : R) (l : list R) : np_sum (x :: l) = x + np_sum l.
Proof.
  unfold np_sum. cbn [fold_left]. rewrite fold_plus_acc. ring.
Qed.

Lemma for_range_succ {S : Type} (n : nat) (body : S -> nat -> result S) (s : S) :
  for_range (Datatypes.S n) body s
  = (s' <- for_range n body s ;; body s' n).
Proof.
  unfold for_range. rewrite seq_S, fold_left_app. reflexivity.
Qed.

(** ** One turn of the main loop *)

Lemma np_zeros_length (n : Z) :
  List.length (GalaxyModel.np_zeros n) = Z.to_nat n.
Proof. unfold GalaxyModel.np_zeros. apply repeat_length. Qed.

Lemma np_zeros_nth (n : Z) (i : nat) : nth i (GalaxyModel.np_zeros n) 0 = 0.
Proof. unfold GalaxyModel.np_zeros. apply nth_repeat. Qed.

Lemma py_index_ok (a : list R) (i : nat) :
  (i < List.length a)%nat -> py_index a (Z.of_nat i) = Ok (nth i a 0).
Proof. intros H. apply py_index_nat. exact H. Qed.

Lemma for_range_inv {S : Type} (P : S -> Prop) (n : nat)
      (body : S -> nat -> result S) (s : S) :
  P s ->
  (forall i s0, (i < n)%nat -> P s0 -> exists s1, body s0 i = Ok s1 /\ P s1) ->
  exists s', for_range n body s = Ok s' /\ P s'.
Proof.
  intros Hs Hbody. induction n as [|n IH].
  - exists s. split; [reflexivity | exact Hs].
  - destruct IH as (s1 & H1 & P1).
    { intros i s0 Hi. apply Hbody. lia. }
    rewrite for_range_succ, H1. cbn [bind]. apply Hbody; [lia | exact P1].
Qed.

Lemma add_at_length (a : list R) (k : nat) (v : R) :
  (k < List.length a)%nat -> List.length (add_at a k v) = List.length a.
Proof.
  intros Hk. unfold add_at. rewrite length_app. cbn [List.length].
  rewrite length_firstn, length_skipn. lia.
Qed.

Lemma add_at_keeps (n : Z) (a : list R) (k : nat) (v : R) :
  Z.of_nat (List.length a) = n -> (Z.of_nat k < n)%Z ->
  Z.of_nat (List.length (add_at a k v)) = n.
Proof. intros Ha Hk. rewrite add_at_length; lia. Qed.

Lemma add_lines_length (n : nat) (d : R) (w : nat -> R) :
  forall a : list R,
    (n <= List.length a)%nat -> List.length (Starburst99.add_lines a n d w) = List.length a.
Proof.
  unfold Starburst99.add_lines. induction n as [|n IH]; intros a Hn; [reflexivity|].
  rewrite seq_S, fold_left_app. cbn [fold_left Nat.add].
  rewrite add_at_length; rewrite IH; lia.
Qed.

Lemma assign_prefix_fits (a : option (list R)) (b : list R) (n : Z) :
  sized a n -> (Z.of_nat (List.length b) <= n)%Z ->
  exists a', assign_prefix a b = Ok (Some a') /\ Z.of_nat (List.length a') = n.
Proof.
  intros (l & -> & Hl) Hb. unfold assign_prefix, assign_prefix_list.
  rewrite Nat.min_l by lia. rewrite Nat.eqb_refl. cbn [bind].
  eexists. split; [reflexivity|].
  rewrite length_app, length_skipn. lia.
Qed.

(** The first ten densities are the only ones that can be positive. *)
Lemma ready_dens_index (g : GalaxyModel.t) (i : nat) :
  ready g -> (i < 3000)%nat ->
  exists d, subscript (GalaxyModel.dens g) (Z.of_nat i) = Ok d
            /\ (0 < d -> (i < 10)%nat).
Proof.
  intros Hg Hi. destruct (ready_dens g Hg) as (d & Hd & Hlen & Htail).
  unfold GalaxyModel.NPGRID in Hlen.
  rewrite Hd. cbn [subscript]. rewrite py_index_ok by lia.
  eexists. split; [reflexivity|]. intros Hpos.
  destruct (Nat.lt_ge_cases i 10) as [|Hge]; [assumption|].
  rewrite (Htail i Hge) in Hpos. lra.
Qed.

Lemma ready_cmass_index (g : GalaxyModel.t) (i : nat) :
  ready g -> (i < 3000)%nat ->
  subscript (GalaxyModel.cmass g) (Z.of_nat i) = Ok 0.
Proof.
  intros Hg Hi. rewrite (ready_cmass g Hg). cbn [subscript].
  rewrite py_index_ok by (rewrite np_zeros_length; unfold GalaxyModel.NPGRID; lia).
  rewrite np_zeros_nth. reflexivity.
Qed.

Lemma ready_cmass_len (g : GalaxyModel.t) :
  ready g -> py_len (GalaxyModel.cmass g) = Ok 3000%nat.
Proof.
  intros Hg. rewrite (ready_cmass g Hg). cbn [py_len].
  rewrite np_zeros_length. reflexivity.
Qed.

Lemma ready_spectra_index (g : GalaxyModel.t) (i : nat) (j : Z) :
  ready g -> (i < 100)%nat -> (0 <= j < 1415)%Z ->
  exists v, subscript2 (GalaxyModel.spectra g) (Z.of_nat i) j = Ok v.
Proof.
  intros Hg Hi Hj. destruct (ready_spectra g Hg) as (s & Hs & Hlen & Hrows).
  unfold subscript2. rewrite Hs. cbn [subscript].
  rewrite (py_index_nat s i []) by lia. cbn [bind].
  apply py_index_in_range. rewrite (Hrows i Hi). exact Hj.
Qed.

Lemma ready_set_dens (g : GalaxyModel.t) (d : list R) :
  ready g -> Z.of_nat (List.length d) = GalaxyModel.NPGRID ->
  (forall i, (10 <= i)%nat -> nth i d 0 = 0) ->
  ready (GalaxyModel.set_dens g (Some d)).
Proof.
  intros Hg Hlen Htail. destruct Hg. constructor; cbn; try assumption.
  exists d. auto.
Qed.

Lemma ready_set_wind_power (g : GalaxyModel.t) (v : list R) :
  ready g -> Z.of_nat (List.length v) = 100%Z ->
  ready (GalaxyModel.set_wind_power g (Some v)).
Proof.
  intros Hg Hv. destruct Hg. constructor; cbn; try assumption. exists v. auto.
Qed.

Lemma ready_set_sp_type_counts (g : GalaxyModel.t) (v : list R) :
  ready g -> Z.of_nat (List.length v) = 20%Z ->
  ready (GalaxyModel.set_sp_type_counts g (Some v)).
Proof.
  intros Hg Hv. destruct Hg. constructor; cbn; try assumption. exists v. auto.
Qed.

Lemma ready_set_element_yields (g : GalaxyModel.t) (v : list R) :
  ready g -> Z.of_nat (List.length v) = 30%Z ->
  ready (GalaxyModel.set_element_yields g (Some v)).
Proof.
  intros Hg Hv. destruct Hg. constructor; cbn; try assumption. exists v. auto.
Qed.

Lemma ready_set_uv_lines (g : GalaxyModel.t) (v : list R) :
  ready g -> Z.of_nat (List.length v) = 100%Z ->
  ready (GalaxyModel.set_uv_lines g (Some v)).
Proof.
  intros Hg Hv. destruct Hg. constructor; cbn; try assumption. exists v. auto.
Qed.

Lemma ready_set_fuv_lines (g : GalaxyModel.t) (v : list R) :
  ready g -> Z.of_nat (List.length v) = 50%Z ->
  ready (GalaxyModel.set_fuv_lines g (Some v)).
Proof.
  intros Hg Hv. destruct Hg. constructor; cbn; try assumption. exists v. auto.
Qed.

Lemma ready_set_hires_lines (g : GalaxyModel.t) (v : list R) :
  ready g -> Z.of_nat (List.length v) = 200%Z ->
  ready (GalaxyModel.set_hires_lines g (Some v)).
Proof.
  intros Hg Hv. destruct Hg. constructor; cbn; try assumption. exists v. auto.
Qed.

Lemma ready_set_wavel (g : GalaxyModel.t) (v : list R) :
  ready g -> Z.of_nat (List.length v) = 1415%Z ->
  ready (GalaxyModel.set_wavel g (Some v)).
Proof.
  intros Hg Hv. destruct Hg. constructor; cbn; try assumption. exists v. auto.
Qed.

Lemma ready_set_spectra (g : GalaxyModel.t) (s : list (list R)) :
  ready g -> Z.of_nat (List.length s) = 100%Z ->
  (forall i, (i < 100)%nat -> Z.of_nat (List.length (nth i s [])) = 1415%Z) ->
  ready (GalaxyModel.set_spectra g (Some s)).
Proof.
  intros Hg Hlen Hrows. destruct Hg. constructor; cbn; try assumption.
  exists s. auto.
Qed.

Lemma keeps_density : keeps Starburst99._density.
Proof.
  intros g Hg. unfold Starburst99._density.
  set (scale := if (GalaxyModel.isf g >? 0)%Z then _ else _). clearbody scale.
  pose proof (ready_ninterv g Hg) as Hn.
  apply (for_range_inv (fun g' => ready g' /\ clock_fields g' = clock_fields g)).
  { split; [exact Hg | reflexivity]. }
  intros i g0 Hi [H0 Hc].
  unfold Starburst99._density_step.
  pose proof (ready_xmaslim g0 H0) as Hl. pose proof (ready_xponent g0 H0) as He.
  destruct (ready_dens g0 H0) as (d & Hd & Hlen & Htail).
  unfold GalaxyModel.NPGRID in Hlen.
  rewrite py_index_ok by lia. cbn [bind].
  replace (Z.of_nat i + 1)%Z with (Z.of_nat (S i)) by lia.
  rewrite py_index_ok by lia. cbn [bind].
  rewrite py_index_ok by lia. cbn [bind].
  rewrite Hd. cbn [store]. rewrite set_item_ok by lia. cbn [bind].
  eexists. split; [reflexivity|]. split; [|exact Hc].
  match goal with
  | |- ready (GalaxyModel.set_dens _ (Some ?d')) =>
      destruct (set_item_nth d d' i
                  (Starburst99.density_value scale (nth i (GalaxyModel.xmaslim g0) 0)
                     (nth (S i) (GalaxyModel.xmaslim g0) 0)
                     (nth i (GalaxyModel.xponent g0) 0)) 0)
        as (Hlen' & _ & Hother); [apply set_item_ok; lia|]
  end.
  apply ready_set_dens; [exact H0 | unfold GalaxyModel.NPGRID; lia |].
  intros j Hj. rewrite Hother by lia. apply Htail. exact Hj.
Qed.

Lemma keeps_starpara (time : R) : keeps (Starburst99._starpara time).
Proof.
  intros g Hg. unfold Starburst99._starpara.
  destruct (GalaxyModel.tracks g) as [|track tl].
  { exists g. auto. }
  rewrite (ready_cmass_len g Hg). cbn [bind].
  destruct (for_range_inv (fun g' => g' = g) 3000
              (Starburst99._starpara_step track time) g eq_refl)
    as (g' & Hrun & ->).
  - intros i g0 Hi ->. unfold Starburst99._starpara_step.
    rewrite (ready_cmass_index g i Hg Hi). cbn [bind].
    destruct (Rle_dec 0 0); [|lra]. exists g. auto.
  - exists g. auto.
Qed.

Lemma keeps_stellar_parameters (time : R) :
  keeps (fun g => if ((GalaxyModel.jmg g =? 0)%Z || (GalaxyModel.jmg g =? 1)%Z)%bool
                  then Starburst99._starpara time g
                  else Starburst99._starpara_iso time g).
Proof.
  intros g Hg. rewrite (ready_jmg g Hg). cbn [Z.eqb orb].
  apply keeps_starpara. exact Hg.
Qed.

Lemma keeps_temp_adjust :
  keeps (fun g => if negb (GalaxyModel.iwrt g =? 0)%Z
                  then Starburst99._temp_adjust g else Ok g).
Proof.
  intros g Hg. rewrite (ready_iwrt g Hg). cbn [Z.eqb negb]. exists g. auto.
Qed.

Lemma keeps_windpower : keeps Starburst99._windpower.
Proof.
  intros g Hg. unfold Starburst99._windpower.
  rewrite (ready_cmass_len g Hg). cbn [bind].
  apply (for_range_inv (fun g' => ready g' /\ clock_fields g' = clock_fields g)).
  { split; [exact Hg | reflexivity]. }
  intros i g0 Hi [H0 Hc]. unfold Starburst99._windpower_step.
  destruct (ready_dens_index g0 i H0 Hi) as (d & -> & Hd). cbn [bind].
  destruct (Rlt_dec 0 d) as [Hpos|]; [|exists g0; auto].
  specialize (Hd Hpos).
  rewrite (ready_cmass_index g0 i H0 Hi). cbn [bind].
  destruct (ready_wind_power g0 H0) as (w & Hw & Hlen). rewrite Hw. cbn [store].
  rewrite set_item_ok by lia. cbn [bind].
  eexists. split; [reflexivity|]. split; [|exact Hc].
  apply ready_set_wind_power; [exact H0|].
  rewrite length_app. cbn [List.length]. rewrite length_firstn, length_skipn. lia.
Qed.

Lemma keeps_supernova (time : R) : keeps (Starburst99._supernova time).
Proof.
  intros g Hg. unfold Starburst99._supernova.
  rewrite (ready_cmass_len g Hg). cbn [bind].
  destruct (for_range_inv (fun g' => g' = g) 3000
              (Starburst99._supernova_step time) g eq_refl)
    as (g' & Hrun & ->).
  - intros i g0 Hi ->. unfold Starburst99._supernova_step.
    rewrite (ready_cmass_index g i Hg Hi). cbn [bind].
    destruct (Rlt_dec 0 0); [lra|].
    destruct (Rle_dec _ _); [destruct (Rle_dec _ _)|]; exists g; auto.
  - exists g. auto.
Qed.

Lemma sp_bin_range (teff : R) : (Starburst99.sp_bin teff < 7)%nat.
Proof.
  unfold Starburst99.sp_bin.
  repeat match goal with
         | |- context [Rlt_dec ?a ?b] => destruct (Rlt_dec a b)
         end; lia.
Qed.

(** A loop over the mass grid that gathers its result in a local array
    of fixed length, and then writes it over the front of an attribute. *)
Lemma gathered (g : GalaxyModel.t) (n : Z)
      (step : list R -> nat -> result (list R)) :
  (forall i acc, (i < 3000)%nat -> Z.of_nat (List.length acc) = n ->
                 exists acc', step acc i = Ok acc'
                              /\ Z.of_nat (List.length acc') = n) ->
  (0 <= n)%Z ->
  exists acc, for_range 3000 step (GalaxyModel.np_zeros n) = Ok acc
              /\ Z.of_nat (List.length acc) = n.
Proof.
  intros Hstep Hn.
  apply (for_range_inv (fun acc => Z.of_nat (List.length acc) = n)).
  - rewrite np_zeros_length. lia.
  - intros i acc Hi Hacc. apply Hstep; assumption.
Qed.

Lemma keeps_spectype : keeps Starburst99._spectype.
Proof.
  intros g Hg. unfold Starburst99._spectype.
  rewrite (ready_cmass_len g Hg). cbn [bind].
  destruct (gathered g 20 (Starburst99._spectype_step g)) as (acc & -> & Hacc); [|lia|].
  { intros i acc Hi Hacc. unfold Starburst99._spectype_step.
    destruct (ready_dens_index g i Hg Hi) as (d & -> & Hd). cbn [bind].
    destruct (Rlt_dec 0 d) as [Hpos|]; [|exists acc; auto].
    specialize (Hd Hpos).
    destruct (ready_spectra_index g i 1 Hg) as (v & ->); [lia | lia|]. cbn [bind].
    eexists. split; [reflexivity|].
    rewrite add_at_length; [exact Hacc|].
    match goal with |- (Starburst99.sp_bin ?t < _)%nat =>
      pose proof (sp_bin_range t) end. lia. }
  cbn [bind].
  destruct (assign_prefix_fits _ acc 20 (ready_sp_type_counts g Hg)) as (c & -> & Hc);
    [lia|]. cbn [bind].
  eexists. split; [reflexivity|]. split; [|reflexivity].
  apply ready_set_sp_type_counts; assumption.
Qed.

Lemma keeps_nucleo : keeps Starburst99._nucleo.
Proof.
  intros g Hg. unfold Starburst99._nucleo.
  rewrite (ready_cmass_len g Hg). cbn [bind].
  destruct (gathered g 30 (Starburst99._nucleo_step g)) as (acc & -> & Hacc); [|lia|].
  { intros i acc Hi Hacc. unfold Starburst99._nucleo_step.
    rewrite (ready_cmass_index g i Hg Hi). cbn [bind].
    destruct (ready_dens_index g i Hg Hi) as (d & -> & Hd). cbn [bind].
    destruct (Rlt_dec 0 d) as [Hpos|]; [|exists acc; auto].
    destruct (Rlt_dec _ _); [|exists acc; auto].
    eexists. split; [reflexivity|].
    repeat (apply add_at_keeps; [|lia]). exact Hacc. }
  cbn [bind].
  destruct (assign_prefix_fits _ acc 30 (ready_element_yields g Hg)) as (c & -> & Hc);
    [lia|]. cbn [bind].
  eexists. split; [reflexivity|]. split; [|reflexivity].
  apply ready_set_element_yields; assumption.
Qed.

Lemma np_logspace_length (a b : R) (n : nat) :
  List.length (Starburst99.np_logspace a b n) = n.
Proof. unfold Starburst99.np_logspace. rewrite length_map, length_seq. reflexivity. Qed.

Lemma add_scaled_length (s b : list R) (d : R) :
  List.length b = List.length s ->
  List.length (Starburst99.add_scaled s b d) = List.length s.
Proof.
  intros H. unfold Starburst99.add_scaled.
  rewrite length_map, length_combine. lia.
Qed.

Lemma keeps_specsyn : keeps Starburst99._specsyn.
Proof.
  intros g Hg. unfold Starburst99._specsyn.
  rewrite (ready_cmass_len g Hg). cbn [bind].
  destruct (gathered g 1000
              (Starburst99._specsyn_step g (Starburst99.np_logspace 1 5 1000)))
    as (acc & -> & Hacc); [|lia|].
  { intros i acc Hi Hacc. unfold Starburst99._specsyn_step.
    destruct (ready_dens_index g i Hg Hi) as (d & -> & Hd). cbn [bind].
    destruct (Rlt_dec 0 d) as [Hpos|]; [|exists acc; auto].
    specialize (Hd Hpos).
    destruct (ready_spectra_index g i 1 Hg) as (v & ->); [lia | lia|]. cbn [bind].
    destruct (Rlt_dec 0 v); [|exists acc; auto].
    destruct (ready_spectra_index g i 0 Hg) as (v0 & ->); [lia | lia|]. cbn [bind].
    eexists. split; [reflexivity|].
    rewrite add_scaled_length; [exact Hacc|].
    unfold Starburst99._blackbody. rewrite length_map, np_logspace_length. lia. }
  cbn [bind].
  destruct (assign_prefix_fits _ (Starburst99.np_logspace 1 5 1000) 1415
              (ready_wavel g Hg)) as (w & -> & Hw);
    [rewrite np_logspace_length; lia|]. cbn [bind].
  destruct (ready_spectra g Hg) as (s & Hs & Hlen & Hrows).
  unfold assign_row_prefix. cbn [GalaxyModel.spectra GalaxyModel.set_wavel].
  rewrite Hs. change 0%Z with (Z.of_nat 0).
  rewrite (py_index_nat s 0 []) by lia. cbn [bind].
  pose proof (Hrows 0%nat ltac:(lia)) as Hrow0.
  unfold assign_prefix_list. rewrite Nat.min_l by lia. rewrite Nat.eqb_refl.
  cbn [bind]. rewrite set_item_ok by lia. cbn [bind].
  eexists. split; [reflexivity|]. split; [|reflexivity].
  match goal with
  | |- ready (GalaxyModel.set_spectra _ (Some ?s')) =>
      destruct (set_item_nth s s' 0 (acc ++ skipn (List.length acc) (nth 0 s []))%list [])
        as (Hlen' & Hat & Hother); [apply set_item_ok; lia|]
  end.
  apply ready_set_spectra.
  - apply ready_set_wavel; assumption.
  - lia.
  - intros i Hi. destruct (Nat.eq_dec i 0) as [->|Hne].
    + rewrite Hat. rewrite length_app, length_skipn. lia.
    + rewrite Hother by exact Hne. apply Hrows. exact Hi.
Qed.

Lemma keeps_linesyn : keeps Starburst99._linesyn.
Proof.
  intros g Hg. unfold Starburst99._linesyn.
  rewrite (ready_cmass_len g Hg). cbn [bind].
  destruct (gathered g 100 (Starburst99._linesyn_step g)) as (acc & -> & Hacc); [|lia|].
  { intros i acc Hi Hacc. unfold Starburst99._linesyn_step.
    destruct (ready_dens_index g i Hg Hi) as (d & -> & Hd). cbn [bind].
    destruct (Rlt_dec 0 d) as [Hpos|]; [|exists acc; auto].
    specialize (Hd Hpos).
    destruct (ready_spectra_index g i 1 Hg) as (v & ->); [lia | lia|]. cbn [bind].
    destruct (Rlt_dec 3.7 v); [|exists acc; auto].
    eexists. split; [reflexivity|]. rewrite add_lines_length; [exact Hacc | lia]. }
  cbn [bind].
  destruct (assign_prefix_fits _ acc 100 (ready_uv_lines g Hg)) as (c & -> & Hc);
    [lia|]. cbn [bind].
  eexists. split; [reflexivity|]. split; [|reflexivity].
  apply ready_set_uv_lines; assumption.
Qed.

Lemma keeps_fusesyn : keeps Starburst99._fusesyn.
Proof.
  intros g Hg. unfold Starburst99._fusesyn.
  rewrite (ready_cmass_len g Hg). cbn [bind].
  destruct (gathered g 50 (Starburst99._fusesyn_step g)) as (acc & -> & Hacc); [|lia|].
  { intros i acc Hi Hacc. unfold Starburst99._fusesyn_step.
    destruct (ready_dens_index g i Hg Hi) as (d & -> & Hd). cbn [bind].
    destruct (Rlt_dec 0 d) as [Hpos|]; [|exists acc; auto].
    specialize (Hd Hpos).
    destruct (ready_spectra_index g i 1 Hg) as (v & ->); [lia | lia|]. cbn [bind].
    destruct (Rlt_dec 4 v); [|exists acc; auto].
    eexists. split; [reflexivity|]. rewrite add_lines_length; [exact Hacc | lia]. }
  cbn [bind].
  destruct (assign_prefix_fits _ acc 50 (ready_fuv_lines g Hg)) as (c & -> & Hc);
    [lia|]. cbn [bind].
  eexists. split; [reflexivity|]. split; [|reflexivity].
  apply ready_set_fuv_lines; assumption.
Qed.

Lemma keeps_hires : keeps Starburst99._hires.
Proof.
  intros g Hg. unfold Starburst99._hires.
  rewrite (ready_cmass_len g Hg). cbn [bind].
  destruct (gathered g 200 (Starburst99._hires_step g)) as (acc & -> & Hacc); [|lia|].
  { intros i acc Hi Hacc. unfold Starburst99._hires_step.
    destruct (ready_dens_index g i Hg Hi) as (d & -> & Hd). cbn [bind].
    destruct (Rlt_dec 0 d) as [Hpos|]; [|exists acc; auto].
    eexists. split; [reflexivity|]. rewrite add_lines_length; [exact Hacc | lia]. }
  cbn [bind].
  destruct (assign_prefix_fits _ acc 200 (ready_hires_lines g Hg)) as (c & -> & Hc);
    [lia|]. cbn [bind].
  eexists. split; [reflexivity|]. split; [|reflexivity].
  apply ready_set_hires_lines; assumption.
Qed.

Lemma keeps_when (f : GalaxyModel.t -> bool)
      (c : GalaxyModel.t -> result GalaxyModel.t) :
  keeps c -> keeps (fun g => if f g then c g else Ok g).
Proof.
  intros Hc g Hg. destruct (f g); [apply Hc; exact Hg | exists g; auto].
Qed.

Lemma keeps_then (c1 c2 : GalaxyModel.t -> result GalaxyModel.t) :
  keeps c1 -> keeps c2 -> keeps (fun g => g1 <- c1 g ;; c2 g1).
Proof.
  intros H1 H2 g Hg.
  destruct (H1 g Hg) as (g1 & -> & Hg1 & Hc1). cbn [bind].
  destruct (H2 g1 Hg1) as (g2 & -> & Hg2 & Hc2).
  exists g2. split; [reflexivity|]. split; [exact Hg2 | congruence].
Qed.

(** On a [ready] galaxy the calculators of a turn run to their end,
    leave the galaxy [ready] and the clock as it was. *)
Lemma keeps_calculators (time : R) : keeps (Starburst99.calculators time).
Proof.
  unfold Starburst99.calculators.
  apply keeps_then; [exact keeps_density|].
  apply keeps_then; [exact (keeps_stellar_parameters time)|].
  apply keeps_then; [exact keeps_temp_adjust|].
  apply keeps_then; [apply (keeps_when _ _ keeps_windpower)|].
  apply keeps_then; [apply (keeps_when _ _ (keeps_supernova time))|].
  apply keeps_then; [apply (keeps_when _ _ keeps_spectype)|].
  apply keeps_then; [apply (keeps_when _ _ keeps_nucleo)|].
  apply keeps_then; [apply (keeps_when _ _ keeps_specsyn)|].
  apply keeps_then; [apply (keeps_when _ _ keeps_linesyn)|].
  apply keeps_then; [apply (keeps_when _ _ keeps_fusesyn)|].
  apply keeps_then; [apply (keeps_when _ _ keeps_hires)|].
  apply (keeps_when _ _ keeps_linesyn).
Qed.


Lemma ready_set_tvar (g : GalaxyModel.t) (v : R) :
  ready g -> ready (GalaxyModel.set_tvar g v).
Proof. intros Hg. destruct Hg. constructor; cbn; assumption. Qed.

(** A turn on a [steady] driver: the calculators return, [_output]
    records the step, and the clock moves as [tick] says. *)
Lemma turn_steady (self : Starburst99.t) :
  steady self ->
  exists self',
    Starburst99.turn self = Ok (self', snd (tick (clock_of self)))
    /\ clock_of self' = fst (tick (clock_of self))
    /\ steady self'.
Proof.
  intros [Hg Hw]. unfold Starburst99.turn.
  destruct (keeps_calculators (Starburst99.time self) (Starburst99.galaxy self) Hg)
    as (g' & -> & Hg' & Hc).
  cbn [bind]. unfold Starburst99._output.
  cbn [Starburst99.output_writer Starburst99.with_galaxy]. rewrite Hw. cbn [bind].
  unfold clock_fields in Hc.
  inversion Hc as [[E1 E2 E3 E4 E5 E6 E7]].
  match goal with
  | |- exists _, Ok (Starburst99.advance ?s) = _ /\ _ => set (s1 := s)
  end.
  exists (fst (Starburst99.advance s1)). split; [|split].
  - rewrite (surjective_pairing (Starburst99.advance s1)) at 1. repeat f_equal.
    unfold Starburst99.advance, tick, clock_of, s1. cbn.
    rewrite ?E1, ?E2, ?E3, ?E4, ?E5, ?E6, ?E7. reflexivity.
  - unfold Starburst99.advance, tick, clock_of, s1. cbn.
    rewrite ?E1, ?E2, ?E3, ?E4, ?E5, ?E6, ?E7. reflexivity.
  - split; [|unfold Starburst99.advance, s1; cbn; first [exact Hw | reflexivity]].
    unfold Starburst99.advance, s1.
    cbn [fst Starburst99.galaxy Starburst99.with_galaxy].
    apply ready_set_tvar. exact Hg'.
Qed.

(** A turn with an output writer at hand raises: whatever the
    calculators do, [_output] asks the writer for a method it lacks. *)
Lemma turn_with_writer (self : Starburst99.t) (w : OutputWriter.t) :
  Starburst99.output_writer self = Some w ->
  exists e, Starburst99.turn self = Raise e.
Proof.
  intros Hw. unfold Starburst99.turn.
  destruct (Starburst99.calculators _ _) as [g|e]; cbn [bind]; [|eauto].
  unfold Starburst99._output. cbn [Starburst99.output_writer Starburst99.with_galaxy].
  rewrite Hw. cbn [bind]. eauto.
Qed.

Lemma ticks_succ (k : nat) (c : clock) : ticks (S k) c = ticks k (fst (tick c)).
Proof. reflexivity. Qed.

(** What no turn changes, and what every turn counts. *)
Lemma ticks_frame (k : nat) :
  forall c : clock,
    c_jtime (ticks k c) = c_jtime c
    /\ c_time1 (ticks k c) = c_time1 c
    /\ c_tbiv (ticks k c) = c_tbiv c
    /\ c_itbiv (ticks k c) = c_itbiv c
    /\ c_tmax (ticks k c) = c_tmax c
    /\ c_tstep (ticks k c) = c_tstep c
    /\ c_icount (ticks k c) = (c_icount c + Z.of_nat k)%Z
    /\ List.length (c_emitted (ticks k c)) = (List.length (c_emitted c) + k)%nat.
Proof.
  induction k as [|k IH]; intros c.
  - cbn [ticks]. repeat split; try reflexivity; lia.
  - rewrite ticks_succ.
    destruct (IH (fst (tick c))) as (H1 & H2 & H3 & H4 & H5 & H6 & H7 & H8).
    rewrite H1, H2, H3, H4, H5, H6, H7, H8.
    cbn [fst tick c_jtime c_time1 c_tbiv c_itbiv c_tmax c_tstep c_icount c_emitted].
    rewrite length_app. cbn [List.length].
    repeat split; try reflexivity; lia.
Qed.

(** The loop stops at the first turn whose test fails: with enough
    fuel it returns the state after that turn. *)
Lemma main_loop_stops (env : Starburst99.Environment) (K : nat) :
  forall (fuel : nat) (c : Z) (s : Starburst99.t) (l : Log),
    steady s ->
    (forall j, (j < K)%nat -> snd (tick (ticks j (clock_of s))) = true) ->
    snd (tick (ticks K (clock_of s))) = false ->
    (K < fuel)%nat ->
    exists s' l',
      Starburst99.main_loop env fuel c s l = (Ok (Some s'), l')
      /\ clock_of s' = ticks (S K) (clock_of s)
      /\ steady s'
      /\ last l' (INFO, "")
         = (INFO, "Evolution completed. Total steps: " ++ str_int (c + Z.of_nat (S K))).
Proof.
  induction K as [|K IH]; intros fuel c s l Hs Hrun Hstop Hfuel;
    (destruct fuel as [|fuel]; [lia|]); cbn [Starburst99.main_loop];
    destruct (turn_steady s Hs) as (s1 & Hturn & Hclock & Hs1).
  - cbn [ticks] in Hstop. rewrite Hstop in Hturn.
    unfold mbind, logger, ret, lift. rewrite Hturn.
    exists s1. destruct ((c + 1) mod 10 =? 0)%Z; eexists;
      (split; [reflexivity|]); (split; [exact Hclock|]); (split; [exact Hs1|]);
      rewrite last_last; repeat f_equal; lia.
  - pose proof (Hrun 0%nat ltac:(lia)) as H0. cbn [ticks] in H0.
    rewrite H0 in Hturn.
    destruct (IH fuel (c + 1)%Z s1 (step_record env (c + 1) s l) Hs1)
      as (s' & l' & Hl' & Hc' & Hs' & Hlast).
    + intros j Hj. rewrite Hclock, <- ticks_succ. apply Hrun. lia.
    + rewrite Hclock, <- ticks_succ. exact Hstop.
    + lia.
    + exists s', l'. split; [|split; [|split]].
      * rewrite <- Hl'. unfold mbind, logger, ret, lift, step_record. rewrite Hturn.
        destruct ((c + 1) mod 10 =? 0)%Z; reflexivity.
      * rewrite Hc', Hclock. reflexivity.
      * exact Hs'.
      * replace (c + Z.of_nat (S (S K)))%Z with (c + 1 + Z.of_nat (S K))%Z by lia.
        exact Hlast.
Qed.

(** While the test holds the loop goes on: no amount of fuel ends it. *)
Lemma main_loop_runs_on (env : Starburst99.Environment) (fuel : nat) :
  forall (c : Z) (s : Starburst99.t) (l : Log),
    steady s ->
    (forall j, (j < fuel)%nat -> snd (tick (ticks j (clock_of s))) = true) ->
    exists l', Starburst99.main_loop env fuel c s l = (Ok None, l').
Proof.
  induction fuel as [|fuel IH]; intros c s l Hs Hrun; cbn [Starburst99.main_loop].
  - eexists. reflexivity.
  - destruct (turn_steady s Hs) as (s1 & Hturn & Hclock & Hs1).
    pose proof (Hrun 0%nat ltac:(lia)) as H0. cbn [ticks] in H0.
    rewrite H0 in Hturn.
    destruct (IH (c + 1)%Z s1 (step_record env (c + 1) s l) Hs1) as [l' Hl'].
    + intros j Hj. rewrite Hclock, <- ticks_succ. apply Hrun. lia.
    + exists l'. rewrite <- Hl'. unfold mbind, logger, ret, lift, step_record.
      rewrite Hturn. destruct ((c + 1) mod 10 =? 0)%Z; reflexivity.
Qed.

Lemma main_calculation_loop_unfold (env : Starburst99.Environment) (fuel : nat)
      (s : Starburst99.t) (l : Log) :
  Starburst99._main_calculation_loop env fuel s l
  = Starburst99.main_loop env fuel 0 s
      (l ++ [(INFO, "Beginning stellar population evolution...")])%list.
Proof. reflexivity. Qed.

(** *** From [Starburst99()] to the loop *)

Lemma nth_repeat_lt {A : Type} (x d : A) (n i : nat) :
  (i < n)%nat -> nth i (repeat x n) d = x.
Proof.
  intros Hi. rewrite (nth_indep _ d x) by (rewrite repeat_length; exact Hi).
  apply nth_repeat.
Qed.

(** The arrays of [init_module] make a [GalaxyModel()] [ready]. *)
Lemma allocate_ready : ready (GalaxyModel.allocate GalaxyModel.__init__).
Proof.
  constructor; cbn [GalaxyModel.allocate GalaxyModel.__init__ GalaxyModel.cmass
    GalaxyModel.dens GalaxyModel.wavel GalaxyModel.spectra GalaxyModel.wind_power
    GalaxyModel.sn_rates GalaxyModel.sp_type_counts GalaxyModel.element_yields
    GalaxyModel.uv_lines GalaxyModel.fuv_lines GalaxyModel.hires_lines
    GalaxyModel.xponent GalaxyModel.xmaslim GalaxyModel.ninterv GalaxyModel.jmg
    GalaxyModel.iwrt]; unfold sized;
    try (eexists; split; [reflexivity|]; rewrite np_zeros_length;
         unfold GalaxyModel.NP, GalaxyModel.NP1; lia);
    try reflexivity; try lia.
  - eexists. split; [reflexivity|]. split.
    + rewrite np_zeros_length. unfold GalaxyModel.NPGRID. lia.
    + intros i _. apply np_zeros_nth.
  - eexists. split; [reflexivity|]. unfold GalaxyModel.np_zeros2. split.
    + rewrite repeat_length. lia.
    + intros i Hi. rewrite nth_repeat_lt by lia. rewrite np_zeros_length.
      unfold GalaxyModel.NP, GalaxyModel.NP1. lia.
Qed.

Lemma ready_set_model_params (g : GalaxyModel.t) (p : ModelParameters.t) :
  ready g -> ready (GalaxyModel.set_model_params g p).
Proof. intros Hg. destruct Hg. constructor; cbn; assumption. Qed.

Lemma prepared_steady (params : ModelParameters.t) : steady (prepared params).
Proof.
  split; [|reflexivity].
  unfold prepared. cbn [Starburst99.galaxy Starburst99.with_galaxy].
  apply ready_set_model_params. exact allocate_ready.
Qed.

(** The two copy loops of [_sync_parameters] keep the length of the
    array they write. *)
Lemma copy_loop (source : list R) (n : nat) (guard : nat -> bool) (a : list R) :
  (forall i, (i < n)%nat -> guard i = true -> (i < List.length a)%nat) ->
  exists a',
    for_range n (fun a i => if guard i then set_item a i (nth i source 0) else Ok a) a
    = Ok a'
    /\ List.length a' = List.length a.
Proof.
  intros Hn.
  apply (for_range_inv (fun a' => List.length a' = List.length a)); [reflexivity|].
  intros i a0 Hi Ha0. destruct (guard i) eqn:Hg; [|exists a0; auto].
  rewrite set_item_ok by (rewrite Ha0; apply Hn; assumption).
  eexists. split; [reflexivity|].
  rewrite length_app. cbn [List.length]. rewrite length_firstn, length_skipn.
  specialize (Hn i Hi Hg). lia.
Qed.

(** On a [steady] driver whose parameters name at most ten intervals,
    [_sync_parameters] returns; the driver stays [steady], and the clock
    fields are those of the parameters, with [tvar] and [tstep] as they
    were. *)
Lemma sync_steady (self : Starburst99.t) :
  let params := GalaxyModel.model_params (Starburst99.galaxy self) in
  steady self ->
  (ModelParameters.num_intervals params <= 10)%Z ->
  exists self',
    Starburst99._sync_parameters self = Ok self'
    /\ steady self'
    /\ clock_of self'
       = mkClock (ModelParameters.time_scale params)
                 (ModelParameters.initial_time params)
                 (ModelParameters.time_step params)
                 (ModelParameters.num_steps params)
                 (ModelParameters.max_time params)
                 (GalaxyModel.tvar (Starburst99.galaxy self))
                 (GalaxyModel.tstep (Starburst99.galaxy self))
                 (Starburst99.time self) (Starburst99.icount self)
                 (Starburst99.emitted self).
Proof.
  intros params [Hg Hw] Hn. unfold Starburst99._sync_parameters. fold params.
  pose proof (ready_xponent _ Hg) as Hx. pose proof (ready_xmaslim _ Hg) as Hm.
  destruct (copy_loop (ModelParameters.exponents params)
              (Z.to_nat (ModelParameters.num_intervals params))
              (fun i => (i <? List.length (ModelParameters.exponents params))%nat)
              (GalaxyModel.xponent (Starburst99.galaxy self)))
    as (xp & -> & Hxp); [intros; lia|]. cbn [bind].
  destruct (copy_loop (ModelParameters.mass_limits params)
              (Nat.min (Z.to_nat (ModelParameters.num_intervals params + 1))
                       (List.length (ModelParameters.mass_limits params)))
              (fun _ => true)
              (GalaxyModel.xmaslim (Starburst99.galaxy self)))
    as (xm & Hrun & Hxm); [intros; lia|].
  cbv beta iota in Hrun. rewrite Hrun. cbn [bind].
  eexists. split; [reflexivity|]. split; [|reflexivity].
  split; [|exact Hw].
  cbn [Starburst99.galaxy Starburst99.with_galaxy].
  destruct Hg. constructor; cbn; try assumption; lia.
Qed.


(** ** The clock *)

(** [_sync_parameters] assigns neither [tvar] nor [tstep]. *)
Lemma sync_keeps_tstep (self self' : Starburst99.t) :
  Starburst99._sync_parameters self = Ok self' ->
  GalaxyModel.tstep (Starburst99.galaxy self')
  = GalaxyModel.tstep (Starburst99.galaxy self)
  /\ GalaxyModel.tvar (Starburst99.galaxy self')
     = GalaxyModel.tvar (Starburst99.galaxy self).
Proof.
  unfold Starburst99._sync_parameters.
  destruct (for_range _ _ (GalaxyModel.xponent _)) as [xp|]; cbn [bind]; [|discriminate].
  destruct (for_range _ _ (GalaxyModel.xmaslim _)) as [xm|]; cbn [bind]; [|discriminate].
  intros H. inversion H. split; reflexivity.
Qed.

(** C2, the failing case.  A driver is prepared as the tests do
    ([init_module()], no output writer) with the logarithmic clock
    [start = 1], [end = 1000], [num_steps = 3].  [_sync_parameters] leaves
    the ratio [tstep] at the 0.0 of [GalaxyModel()], as it does for every
    parameter set: no code derives it from the parameters.  The main loop
    then runs its three turns without raising, and hands the output the
    times 0, 1 and 0; the clock ends at 0.  The sequence is not
    1, 31.62..., 1000. *)
Theorem log_clock_collapses (env : Starburst99.Environment) :
  (forall params : ModelParameters.t,
      match Starburst99._sync_parameters (prepared params) with
      | Ok self' => GalaxyModel.tstep (Starburst99.galaxy self') = 0
      | Raise _ => True
      end)
  /\ exists self0 self1 l1,
       Starburst99._sync_parameters (prepared log_clock_parameters) = Ok self0
       /\ GalaxyModel.tstep (Starburst99.galaxy self0) = 0
       /\ Starburst99._main_calculation_loop env 3 self0 [] = (Ok (Some self1), l1)
       /\ map snd (Starburst99.emitted self1) = [1; 2; 3]%Z
       /\ map fst (Starburst99.emitted self1) = [0; 1; 0]
       /\ Starburst99.time self1 = 0.
Proof.
  split.
  { intros params.
    destruct (Starburst99._sync_parameters (prepared params)) as [self'|] eqn:E;
      [|exact I].
    destruct (sync_keeps_tstep _ _ E) as [-> _]. reflexivity. }
  assert (Hten : (ModelParameters.num_intervals
                    (GalaxyModel.model_params
                       (Starburst99.galaxy (prepared log_clock_parameters))) <= 10)%Z)
    by (cbn; lia).
  destruct (sync_steady (prepared log_clock_parameters)
              (prepared_steady log_clock_parameters) Hten)
    as (self0 & Hsync & Hsteady & Hclock).
  cbn in Hclock.
  destruct (main_loop_stops env 2 3 0 self0
              [(INFO, "Beginning stellar population evolution...")] Hsteady)
    as (self1 & l1 & Hloop & Hc1 & _ & _).
  - intros j Hj. rewrite Hclock.
    destruct j as [|[|j]]; [reflexivity | reflexivity | lia].
  - rewrite Hclock. reflexivity.
  - lia.
  - exists self0, self1, l1.
    split; [exact Hsync|].
    split; [destruct (sync_keeps_tstep _ _ Hsync) as [-> _]; reflexivity|].
    split; [exact Hloop|].
    rewrite Hclock in Hc1.
    pose proof (f_equal c_emitted Hc1) as He.
    pose proof (f_equal c_time Hc1) as Ht.
    cbn in He, Ht. rewrite He, Ht. cbn [map fst snd].
    split; [reflexivity|]. split; [|lra].
    repeat f_equal; lra.
Qed.



(** ** The track table after a failed read *)

Lemma dummy_is_zero : Starburst99.dummy_track_data = Ok zero_track_data.
Proof. reflexivity. Qed.

Lemma py_index_zeros (n : nat) (i : Z) :
  (0 <= i < Z.of_nat n)%Z -> py_index (repeat 0 n) i = Ok 0.
Proof.
  intros Hi. rewrite <- (Z2Nat.id i) by lia.
  rewrite (py_index_nat (repeat 0 n) (Z.to_nat i) 0) by (rewrite repeat_length; lia).
  rewrite nth_repeat. reflexivity.
Qed.

Lemma searchsorted_zeros (n : nat) (t : R) :
  np_searchsorted (repeat 0 n) t = if Rlt_dec 0 t then n else 0%nat.
Proof.
  induction n as [|n IH]; cbn.
  - destruct (Rlt_dec 0 t); reflexivity.
  - rewrite IH. destruct (Rlt_dec 0 t); reflexivity.
Qed.

Lemma getattr_zero (a : string) :
  In a TrackData.attrs -> TrackData.getattr zero_track_data a = Some [repeat 0 100].
Proof.
  intros H. cbn in H.
  repeat (destruct H as [<-|H]; [reflexivity|]). contradiction.
Qed.

Lemma interpolate_attrs_zero (idx : Z) (f : R) (names : list string) :
  (1 <= idx < 100)%Z ->
  (forall a, In a names -> In a TrackData.attrs) ->
  exists r,
    TrackData.interpolate_attrs zero_track_data 0 idx f names = Ok r
    /\ map fst r = names
    /\ Forall (fun kv => snd kv = 0) r.
Proof.
  intros Hidx. induction names as [|a tl IH]; intros Hin.
  - exists []. cbn. auto.
  - destruct IH as (r & Hr & Hfst & Hall).
    { intros b Hb. apply Hin. right. exact Hb. }
    cbn [TrackData.interpolate_attrs].
    rewrite getattr_zero by (apply Hin; left; reflexivity).
    rewrite (py_index_first [repeat 0 100] []) by discriminate.
    cbn [nth bind].
    rewrite !py_index_zeros by (cbn; lia). cbn [bind].
    rewrite Hr. cbn [bind].
    eexists. split; [reflexivity|]. cbn [map fst]. split; [congruence|].
    constructor; [cbn; lra | exact Hall].
Qed.

(** On the table of [TrackData().init(1, 100)] every mass finds row 0,
    and every age interpolates every quantity to zero. *)
Lemma zero_track_contribution (m t : R) :
  TrackData.get_mass_index zero_track_data m = Ok 0%Z
  /\ exists r,
       TrackData.interpolate_in_time zero_track_data 0 t = Ok r
       /\ map fst r = TrackData.attrs
       /\ Forall (fun kv => snd kv = 0) r.
Proof.
  split; [reflexivity|].
  unfold TrackData.interpolate_in_time.
  cbn [zero_track_data TrackData.age TrackData.num_masses TrackData.num_points Z.geb
       Z.compare].
  rewrite (py_index_first [repeat 0 100] []) by discriminate. cbn [nth bind].
  rewrite searchsorted_zeros.
  destruct (Rlt_dec 0 t).
  - cbn [Z.of_nat Pos.of_succ_nat Pos.succ Z.eqb Z.geb Z.compare Pos.compare
         Pos.compare_cont Z.sub Z.add Z.opp Z.pos_sub Pos.pred_double].
    rewrite !py_index_zeros by (cbn; lia). cbn [bind].
    apply interpolate_attrs_zero; [lia | auto].
  - cbn [Z.of_nat Z.eqb Z.sub Z.add Z.opp Z.pos_sub].
    rewrite !py_index_zeros by (cbn; lia). cbn [bind].
    apply interpolate_attrs_zero; [lia | auto].
Qed.

(** [load_tracks] only adds records to the log. *)
Lemma load_tracks_log_grows (fs : StellarTracks.FileSystem) (st : StellarTracks.t)
      (metallicity : string) (l0 l1 : Log) (r : result StellarTracks.t) :
  StellarTracks.load_tracks fs st metallicity l0 = (r, l1) ->
  forall x, In x l0 -> In x l1.
Proof.
  unfold StellarTracks.load_tracks.
  destruct (negb _); unfold mbind, logger, throw, lift, ret; cbv beta iota.
  - intros H x Hx. inversion H; subst. rewrite in_app_iff. tauto.
  - destruct (StellarTracks.read_tracks fs _); cbv beta iota;
      intros H x Hx; inversion H; subst; rewrite !in_app_iff; tauto.
Qed.

(** ** A run up to the construction of the IMF *)

(** [_sync_parameters] returns when the two copy loops stay inside
    their arrays. *)
Lemma sync_result (self : Starburst99.t) :
  let g := Starburst99.galaxy self in
  let params := GalaxyModel.model_params g in
  (Nat.min (Z.to_nat (ModelParameters.num_intervals params))
           (List.length (ModelParameters.exponents params))
   <= List.length (GalaxyModel.xponent g))%nat ->
  (Nat.min (Z.to_nat (ModelParameters.num_intervals params + 1))
           (List.length (ModelParameters.mass_limits params))
   <= List.length (GalaxyModel.xmaslim g))%nat ->
  exists xp xm,
    Starburst99._sync_parameters self
    = Ok (Starburst99.with_galaxy self
            (GalaxyModel.synced g params xp xm
               (Starburst99.set_flags (GalaxyModel.io g)
                                      (ModelParameters.outputs params))))
    /\ List.length xp = List.length (GalaxyModel.xponent g)
    /\ List.length xm = List.length (GalaxyModel.xmaslim g).
Proof.
  intros g params Hx Hm. unfold Starburst99._sync_parameters. fold g params.
  destruct (copy_loop (ModelParameters.exponents params)
              (Z.to_nat (ModelParameters.num_intervals params))
              (fun i => (i <? List.length (ModelParameters.exponents params))%nat)
              (GalaxyModel.xponent g))
    as (xp & -> & Hxp).
  { intros i Hi Hg. apply Nat.ltb_lt in Hg. lia. }
  cbn [bind].
  destruct (copy_loop (ModelParameters.mass_limits params)
              (Nat.min (Z.to_nat (ModelParameters.num_intervals params + 1))
                       (List.length (ModelParameters.mass_limits params)))
              (fun _ => true) (GalaxyModel.xmaslim g))
    as (xm & Hrun & Hxm); [intros; lia|].
  cbv beta iota in Hrun. rewrite Hrun. cbn [bind].
  exists xp, xm. auto.
Qed.

(** A run whose parameters the IMF refuses ends in the handler, with
    the error of the first stage that fails. *)
Lemma run_imf_refused (env : Starburst99.Environment) (fuel : nat)
      (self : Starburst99.t) (l : Log) (params : ModelParameters.t) (e : exn) :
  Starburst99.read_parameters env self = Ok params ->
  IMF.__init__ (ModelParameters.num_intervals params)
               (ModelParameters.exponents params)
               (ModelParameters.mass_limits params) = Raise e ->
  exists e',
    Starburst99.run env fuel self l = exits (opening self l) e'
    /\ (forall self',
           Starburst99._sync_parameters (entering self params) = Ok self' ->
           Starburst99.mkdir env "output" = Ok tt -> e' = e).
Proof.
  intros Hread Himf.
  unfold Starburst99.run, Starburst99.run_body, mbind, logger, lift, ret,
    GalaxyModel.init_module, exits, opening.
  cbv beta iota. cbn [Starburst99.input_file Starburst99.galaxy].
  unfold mbind, logger, ret. cbv beta iota.
  assert (Hread' : Starburst99.read_parameters env
             (Starburst99.mk (GalaxyModel.allocate (Starburst99.galaxy self)) true
                (Starburst99.output_writer self) (Starburst99.input_file self)
                (Starburst99.start_time self) (Starburst99.stellar_tracks self)
                (Starburst99.stellar_tracks_data self) (Starburst99.imf self)
                (Starburst99.time self) (Starburst99.icount self)
                (Starburst99.namfi3 self) (Starburst99.nam self)
                (Starburst99.emitted self)) = Ok params) by exact Hread.
  rewrite Hread'. cbv beta iota.
  match goal with
  | |- context [Starburst99._sync_parameters ?x] =>
      change x with (entering self params)
  end.
  rewrite <- !app_assoc. cbn [app].
  destruct (Starburst99._sync_parameters (entering self params)) as [self1|e1] eqn:Hsync.
  2:{ exists e1. split; [reflexivity|]. intros self' H. discriminate. }
  cbv beta iota. unfold OutputWriter.__init__. cbn [String.eqb Ascii.eqb Bool.eqb].
  destruct (Starburst99.mkdir env "output") as [[]|e2] eqn:Hmk; cbn [bind].
  2:{ exists e2. split; [reflexivity|]. intros self' _ H. discriminate. }
  cbv beta iota. cbn [Starburst99.galaxy].
  assert (Hp : GalaxyModel.model_params (Starburst99.galaxy self1) = params).
  { unfold Starburst99._sync_parameters in Hsync.
    destruct (for_range _ _ (GalaxyModel.xponent _)) as [xp|]; cbn [bind] in Hsync;
      [|discriminate].
    destruct (for_range _ _ (GalaxyModel.xmaslim _)) as [xm|]; cbn [bind] in Hsync;
      [|discriminate].
    inversion Hsync. reflexivity. }
  rewrite Hp, Himf.
  exists e. split; [reflexivity|]. auto.
Qed.

(** ** IMF construction, and what a run makes of its failure *)

Lemma construct_floats (n : Z) (exps lims : list R) :
  IMF.construct n (map IMF.Float exps) (map IMF.Float lims) = Ok tt
  <-> exists self, IMF.__init__ n exps lims = Ok self.
Proof.
  unfold IMF.construct, IMF.__init__. rewrite !map_map. cbn [IMF.item_value].
  rewrite !map_id.
  assert (Hd : IMF.int_dtype (map IMF.Float exps) = false)
    by (destruct exps; reflexivity).
  rewrite Hd. cbn [andb].
  destruct (IMF._validate_parameters n exps lims) as [[]|e]; cbn [bind].
  - split; eauto.
  - split; [discriminate | intros [? H]; discriminate].
Qed.

(** C6, as amended.  On lists of floats,
    [IMF(intervals, exponents, mass_limits)] raises exactly when the
    number of exponents is not [intervals], or the number of mass limits
    is not [intervals + 1], or the mass limits are not strictly
    increasing; what it raises is a [ValueError], at construction.  A run
    does not recover from it: started on a new driver whose parameters
    the IMF refuses, [run] exits with status 1 after the banner and three
    records, with an error record as the last one; no track is read and
    no step is taken.  When there are at most ten intervals and the
    output directory can be made, the error logged is the IMF's. *)
Theorem imf_construction_fails_iff (n : Z) (exps lims : list R) :
  (raises (IMF.__init__ n exps lims) <->
   Z.of_nat (List.length exps) <> n \/
   Z.of_nat (List.length lims) <> (n + 1)%Z \/
   ~ increasing lims)
  /\ (forall e, IMF.__init__ n exps lims = Raise e -> exists msg, e = ValueError msg)
  /\ (IMF.construct n (map IMF.Float exps) (map IMF.Float lims) = Ok tt
      <-> exists self, IMF.__init__ n exps lims = Ok self)
  /\ (forall (e : exn) (env : Starburst99.Environment) (fuel : nat)
             (input_file : option string) (start_time : string)
             (params : ModelParameters.t) (l : Log),
         let self := Starburst99.__init__ input_file start_time in
         IMF.__init__ n exps lims = Raise e ->
         Starburst99.read_parameters env self = Ok params ->
         ModelParameters.num_intervals params = n ->
         ModelParameters.exponents params = exps ->
         ModelParameters.mass_limits params = lims ->
         exists e',
           Starburst99.run env fuel self l = exits (opening self l) e'
           /\ ((n <= 10)%Z -> Starburst99.mkdir env "output" = Ok tt -> e' = e)).
Proof.
  split; [|split; [|split]].
  - rewrite init_raises_iff, validate_ok_iff.
    destruct (Z.eq_dec (Z.of_nat (List.length exps)) n);
      destruct (Z.eq_dec (Z.of_nat (List.length lims)) (n + 1)); try tauto.
  - intros e H. unfold IMF.__init__ in H.
    destruct (IMF._validate_parameters n exps lims) as [[]|e'] eqn:Hv;
      cbn in H; [discriminate|].
    inversion H; subst. eapply validate_raises_value_error; eauto.
  - apply construct_floats.
  - intros e env fuel input_file start_time params l self He Hread Hn Hexps Hlims.
    subst n exps lims.
    destruct (run_imf_refused env fuel self l params e Hread He) as (e' & Hrun & He').
    exists e'. split; [exact Hrun|].
    intros Hten Hmk.
    destruct (sync_result (entering self params)) as (xp & xm & Hsync & _).
    + cbn [entering Starburst99.galaxy GalaxyModel.set_model_params
           GalaxyModel.model_params GalaxyModel.xponent GalaxyModel.allocate
           self Starburst99.__init__ GalaxyModel.__init__].
      rewrite repeat_length. lia.
    + cbn [entering Starburst99.galaxy GalaxyModel.set_model_params
           GalaxyModel.model_params GalaxyModel.xmaslim GalaxyModel.allocate
           self Starburst99.__init__ GalaxyModel.__init__].
      cbn [List.length]. rewrite repeat_length. lia.
    + eapply He'; eassumption.
Qed.

Lemma imf_construction_fails_witness :
  Starburst99.run env_bad_input 1 (Starburst99.__init__ (Some "bad.json") "start") []
  = exits (opening (Starburst99.__init__ (Some "bad.json") "start") [])
          (ValueError "Number of exponents must match number of intervals").
Proof.
  destruct (proj2 (proj2 (proj2 (imf_construction_fails_iff 2 [2.35] [1; 10; 100])))
              (ValueError "Number of exponents must match number of intervals")
              env_bad_input 1%nat (Some "bad.json") "start"
              (with_imf ModelParameters.default 2 [2.35] [1; 10; 100]) []
              eq_refl eq_refl eq_refl eq_refl eq_refl)
    as (e' & Hrun & He').
  assert (Hten : (2 <= 10)%Z) by lia.
  rewrite Hrun, (He' Hten eq_refl). reflexivity.
Defined.

(** C6 as stated fails on lists of integers: for
    [IMF(1, [-3], [1, 100])] the counts match and the limits increase,
    and the constructor raises all the same, when NumPy is asked for
    [100 ** -2] in integers. *)
Lemma imf_integer_lists_counterexample :
  IMF.construct 1 [IMF.Int (-3)] [IMF.Int 1; IMF.Int 100]
  = Raise (ValueError "Integers to negative integer powers are not allowed.")
  /\ Z.of_nat (List.length [IMF.Int (-3)]) = 1%Z
  /\ Z.of_nat (List.length [IMF.Int 1; IMF.Int 100]) = (1 + 1)%Z
  /\ increasing (map IMF.item_value [IMF.Int 1; IMF.Int 100]).
Proof.
  split; [|split; [reflexivity|split; [reflexivity|]]].
  - unfold IMF.construct, IMF._validate_parameters. pyeval. reflexivity.
  - apply increasing_two. cbn. lra.
Qed.


(** C3, as amended.  [selected] is the file of the metallicity id, or the
    default file when the id has none.  When it is missing, a warning is
    logged and the default file is taken instead.  When the file taken
    is missing too, [_read_tracks] raises [FileNotFoundError].  When it
    exists, [_read_tracks] returns, whatever [load_tracks] does: if
    [load_tracks] returns, its table is kept in [stellar_tracks] while
    [stellar_tracks.data] and [galaxy.tracks] hold the all-zero table of
    [TrackData().init(1, 100)]; if [load_tracks] raises, an error record
    (not a warning) is added to the log, and [galaxy.tracks] is that
    all-zero table alone.  On that table every mass finds row 0 and every
    quantity interpolates to 0 at every age. *)
Theorem read_tracks_fallback (fs : StellarTracks.FileSystem)
        (self : Starburst99.t) (l : Log) :
  let selected :=
    match Starburst99.track_files (GalaxyModel.iz (Starburst99.galaxy self)) with
    | Some f => f
    | None => Starburst99.default_track
    end in
  let missing := negb (StellarTracks.path_exists fs (Starburst99.track_path selected)) in
  let taken := if missing then Starburst99.default_track else selected in
  let warning :=
    (WARNING, "Track file not found: " ++ Starburst99.track_path selected
              ++ ", using default") in
  let l0 := if missing then (l ++ [warning])%list else l in
  (StellarTracks.path_exists fs (Starburst99.track_path taken) = false ->
   Starburst99._read_tracks fs self l
   = (Raise (FileNotFoundError
               ("Track file not found: " ++ Starburst99.track_path taken)),
      l0))
  /\ (StellarTracks.path_exists fs (Starburst99.track_path taken) = true ->
      forall st l1,
        StellarTracks.load_tracks fs (Starburst99.stellar_tracks self) (fst taken) l0
        = (Ok st, l1) ->
        Starburst99._read_tracks fs self l
        = (Ok (Starburst99.set_tracks self st (Some zero_track_data)
                                      [zero_track_data]),
           l1))
  /\ (StellarTracks.path_exists fs (Starburst99.track_path taken) = true ->
      forall e l1,
        StellarTracks.load_tracks fs (Starburst99.stellar_tracks self) (fst taken) l0
        = (Raise e, l1) ->
        Starburst99._read_tracks fs self l
        = (Ok (Starburst99.set_tracks self (Starburst99.stellar_tracks self)
                                      (Starburst99.stellar_tracks_data self)
                                      [zero_track_data]),
           (l1 ++ [(ERROR, ("Error reading tracks: " ++ str_exn e)%string)])%list))
  /\ (forall r l1,
        StellarTracks.load_tracks fs (Starburst99.stellar_tracks self) (fst taken) l0
        = (r, l1) ->
        forall x, In x l0 -> In x l1)
  /\ (forall m t,
        TrackData.get_mass_index zero_track_data m = Ok 0%Z
        /\ exists r,
             TrackData.interpolate_in_time zero_track_data 0 t = Ok r
             /\ map fst r = TrackData.attrs
             /\ Forall (fun kv => snd kv = 0) r).
Proof.
  intros selected missing taken warning l0.
  assert (Hshape : forall b : bool,
             b = negb (StellarTracks.path_exists fs (Starburst99.track_path taken)) ->
             Starburst99._read_tracks fs self l
             = if b
               then (Raise (FileNotFoundError
                              ("Track file not found: " ++ Starburst99.track_path taken)),
                     l0)
               else
                 try_except
                   (st <~ StellarTracks.load_tracks fs (Starburst99.stellar_tracks self)
                                                    (fst taken) ;;
                    track_data <~ lift Starburst99.dummy_track_data ;;
                    ret (Starburst99.set_tracks self st (Some track_data) [track_data]))
                   (fun e =>
                      _ <~ logger ERROR ("Error reading tracks: " ++ str_exn e) ;;
                      track_data <~ lift Starburst99.dummy_track_data ;;
                      ret (Starburst99.set_tracks self (Starburst99.stellar_tracks self)
                             (Starburst99.stellar_tracks_data self) [track_data]))
                   l0).
  { intros b ->. unfold Starburst99._read_tracks. fold selected.
    unfold mbind at 1. fold missing. unfold taken, l0.
    destruct missing; cbv beta iota delta [mbind logger ret throw];
      destruct (negb _); reflexivity. }
  split; [|split; [|split; [|split]]].
  - intros Hno. rewrite (Hshape true) by (rewrite Hno; reflexivity). reflexivity.
  - intros Hyes st l1 Hload.
    rewrite (Hshape false) by (rewrite Hyes; reflexivity).
    unfold try_except, mbind. rewrite Hload, dummy_is_zero. reflexivity.
  - intros Hyes e l1 Hload.
    rewrite (Hshape false) by (rewrite Hyes; reflexivity).
    unfold try_except, mbind. rewrite Hload, dummy_is_zero. reflexivity.
  - intros r l1 Hload x Hx. eapply load_tracks_log_grows; eassumption.
  - exact zero_track_contribution.
Qed.

(** The file for metallicity 0 is there, and reading it fails: the
    driver goes on with the all-zero table, and the log ends with the
    error record. *)
Lemma read_tracks_fallback_witness :
  exists l1,
    Starburst99._read_tracks fs_unreadable fresh []
    = (Ok (Starburst99.set_tracks fresh (Starburst99.stellar_tracks fresh)
                                  (Starburst99.stellar_tracks_data fresh)
                                  [zero_track_data]),
       (l1 ++ [(ERROR, "Error reading tracks: unreadable")])%list).
Proof.
  exists [(INFO, "Loading tracks from: data/tracks/Z0140v00.txt")].
  apply (proj1 (proj2 (proj2 (read_tracks_fallback fs_unreadable fresh []))) eq_refl
               (OtherError "unreadable")).
  reflexivity.
Defined.

(** C3 as stated fails when neither the selected file nor the default
    file exists: [_read_tracks] raises after the warning, and a run
    started without an input file (the default parameters select
    [Z0140v40.txt]) ends in the handler with that error, before any
    step. *)
Lemma read_tracks_abort_counterexample :
  Starburst99._read_tracks fs_empty fresh []
  = (Raise (FileNotFoundError "Track file not found: data/tracks/Z0140v00.txt"),
     [(WARNING, "Track file not found: data/tracks/Z0140v00.txt, using default")])
  /\ exists l',
       Starburst99.run env_empty 100 fresh [] = (Starburst99.SysExit 1, l')
       /\ last l' (INFO, "")
          = (ERROR, "Error during execution: Track file not found: data/tracks/Z0140v00.txt").
Proof.
  split; [reflexivity|].
  unfold Starburst99.run, Starburst99.run_body, mbind, logger, lift, ret,
    GalaxyModel.init_module.
  cbv beta iota. unfold mbind, logger, ret. cbv beta iota.
  change (Starburst99.read_parameters env_empty _)
    with (Ok InputParser.get_default_parameters).
  cbv beta iota.
  match goal with
  | |- context [Starburst99._sync_parameters ?x] =>
      change x with (entering fresh InputParser.get_default_parameters)
  end.
  destruct (sync_result (entering fresh InputParser.get_default_parameters))
    as (xp & xm & -> & _).
  { cbn. lia. }
  { cbn. lia. }
  cbv beta iota.
  change (OutputWriter.__init__ (Starburst99.mkdir env_empty) (Some "output"))
    with (Ok (OutputWriter.mk "output")).
  cbv beta iota.
  cbn [Starburst99.galaxy Starburst99.with_galaxy GalaxyModel.model_params
       GalaxyModel.synced entering GalaxyModel.set_model_params GalaxyModel.allocate
       InputParser.get_default_parameters ModelParameters.num_intervals
       ModelParameters.exponents ModelParameters.mass_limits].
  assert (Hi : IMF.__init__ 1 [2.35] [1; 100]
               = Ok (IMF.mk 1 [2.35] [1; 100]
                       (IMF._calculate_normalizations 1 [2.35] [1; 100]))).
  { unfold IMF.__init__, IMF._validate_parameters. pyeval. reflexivity. }
  rewrite Hi. cbv beta iota.
  unfold Starburst99._read_tracks, mbind, logger, ret, throw.
  cbn [Starburst99.galaxy GalaxyModel.iz GalaxyModel.synced
       InputParser.get_default_parameters ModelParameters.metallicity_id].
  change (Starburst99.track_files 24) with (Some ("Z0140v40", ".txt")).
  cbv beta iota.
  cbn [Starburst99.disk env_empty StellarTracks.path_exists fs_empty negb].
  cbv beta iota.
  eexists. split; [reflexivity|].
  rewrite last_last. reflexivity.
Qed.



(** ** Sorted arrays *)

Lemma insert_sorted_in (x z : R) (l : list R) :
  In z (StellarTracks.insert_sorted x l) <-> z = x \/ In z l.
Proof.
  induction l as [|y tl IH]; cbn.
  - intuition.
  - destruct (Rle_dec x y); cbn; [intuition | rewrite IH; intuition].
Qed.

Lemma py_sorted_in (z : R) (l : list R) :
  In z (StellarTracks.py_sorted l) <-> In z l.
Proof.
  induction l as [|x tl IH]; cbn; [tauto|].
  rewrite insert_sorted_in, IH. intuition.
Qed.

Lemma ascending_cons (x : R) (l : list R) :
  (forall z, In z l -> x <= z) -> ascending l -> ascending (x :: l).
Proof.
  intros Hx Hl i j Hij Hj. destruct j as [|j].
  - replace i with 0%nat by lia. lra.
  - cbn [List.length] in Hj. destruct i as [|i]; cbn [nth].
    + apply Hx. apply nth_In. lia.
    + apply Hl; lia.
Qed.

Lemma ascending_tail (x : R) (l : list R) : ascending (x :: l) -> ascending l.
Proof.
  intros H i j Hij Hj. apply (H (S i) (S j)); cbn [List.length]; lia.
Qed.

Lemma ascending_head (x : R) (l : list R) :
  ascending (x :: l) -> forall z, In z l -> x <= z.
Proof.
  intros H z Hz. destruct (In_nth l z 0 Hz) as (k & Hk & <-).
  apply (H 0%nat (S k)); cbn [List.length]; lia.
Qed.

Lemma insert_sorted_ascending (x : R) (l : list R) :
  ascending l -> ascending (StellarTracks.insert_sorted x l).
Proof.
  induction l as [|y tl IH]; intros Hl; cbn.
  - intros i j Hij Hj. cbn in Hj. replace j with 0%nat by lia.
    replace i with 0%nat by lia. lra.
  - destruct (Rle_dec x y) as [Hxy|Hxy].
    + apply ascending_cons; [|exact Hl].
      intros z [<-|Hz]; [exact Hxy|].
      pose proof (ascending_head y tl Hl z Hz). lra.
    + apply ascending_cons; [|apply IH; eapply ascending_tail; exact Hl].
      intros z Hz. apply insert_sorted_in in Hz. destruct Hz as [->|Hz]; [lra|].
      apply (ascending_head y tl Hl z Hz).
Qed.

Lemma py_sorted_ascending (l : list R) : ascending (StellarTracks.py_sorted l).
Proof.
  induction l as [|x tl IH]; cbn.
  - intros i j Hij Hj. cbn in Hj. lia.
  - apply insert_sorted_ascending. exact IH.
Qed.

Lemma increasing_ascending (a : list R) : increasing a -> ascending a.
Proof.
  intros H i j Hij Hj. apply increasing_le; assumption.
Qed.

(** In an ascending array that holds [v], the index found holds [v]. *)
Lemma searchsorted_finds (a : list R) (v : R) :
  ascending a -> In v a ->
  (np_searchsorted a v < List.length a)%nat /\ nth (np_searchsorted a v) a 0 = v.
Proof.
  intros Hasc Hin. destruct (In_nth a v 0 Hin) as (p & Hp & Hv).
  set (k := np_searchsorted a v).
  assert (Hkp : (k <= p)%nat).
  { destruct (le_lt_dec k p) as [|Hlt]; [assumption|].
    pose proof (searchsorted_below a v p Hlt). lra. }
  assert (Hk : (k < List.length a)%nat) by lia.
  split; [exact Hk|].
  pose proof (searchsorted_at a v Hk). fold k in H.
  pose proof (Hasc k p Hkp Hp). lra.
Qed.

(** Between two neighbours of an ascending array, the index found is
    that of the upper one. *)
Lemma searchsorted_between (a : list R) (v : R) (i : nat) :
  ascending a -> (S i < List.length a)%nat ->
  nth i a 0 < v -> v <= nth (S i) a 0 ->
  np_searchsorted a v = S i.
Proof.
  intros Hasc Hi Hlo Hhi.
  pose proof (searchsorted_le_length a v) as Hlen.
  set (k := np_searchsorted a v) in *.
  destruct (lt_eq_lt_dec k (S i)) as [[Hlt|Heq]|Hgt]; [|exact Heq|].
  - assert (Hk : (k < List.length a)%nat) by lia.
    pose proof (searchsorted_at a v Hk). fold k in H.
    assert (nth k a 0 <= nth i a 0) by (apply Hasc; lia). lra.
  - assert (nth (S i) a 0 < v) by (apply searchsorted_below; fold k; lia). lra.
Qed.

(** Above every entry of an ascending array, the index found is its
    length; at or below the first entry it is 0. *)
Lemma searchsorted_above (a : list R) (v : R) :
  ascending a -> last a 0 < v -> a <> [] ->
  np_searchsorted a v = List.length a.
Proof.
  intros Hasc Hv Hne.
  pose proof (searchsorted_le_length a v) as Hlen.
  destruct (Nat.eq_dec (np_searchsorted a v) (List.length a)) as [|Hneq];
    [assumption|].
  assert (Hk : (np_searchsorted a v < List.length a)%nat) by lia.
  pose proof (searchsorted_at a v Hk).
  rewrite last_nth in Hv.
  assert (nth (np_searchsorted a v) a 0 <= nth (List.length a - 1) a 0)
    by (apply Hasc; lia).
  lra.
Qed.

Lemma searchsorted_first (a : list R) (v : R) :
  v <= nth 0 a 0 -> a <> [] -> np_searchsorted a v = 0%nat.
Proof.
  intros Hv Hne. destruct a as [|x tl]; [congruence|]. cbn in *.
  destruct (Rlt_dec x v); [lra | reflexivity].
Qed.

Lemma searchsorted_index (a : list R) (j : nat) :
  increasing a -> (j < List.length a)%nat -> np_searchsorted a (nth j a 0) = j.
Proof.
  intros Hinc Hj.
  destruct (searchsorted_finds a (nth j a 0)) as [Hk Hv];
    [apply increasing_ascending; exact Hinc | apply nth_In; exact Hj |].
  set (k := np_searchsorted a (nth j a 0)) in *.
  destruct (lt_eq_lt_dec k j) as [[Hlt|Heq]|Hgt]; [|exact Heq|].
  - pose proof (increasing_lt a k j Hinc Hlt Hj). lra.
  - pose proof (increasing_lt a j k Hinc Hgt Hk). lra.
Qed.

(** ** [np.interp] *)

Lemma np_interp_total (x : R) (xp fp : list R) :
  xp <> [] -> List.length fp = List.length xp ->
  exists v, StellarTracks.np_interp x xp fp = Ok v.
Proof.
  intros Hne Hlen. unfold StellarTracks.np_interp.
  destruct xp as [|x0 tl]; [congruence|].
  rewrite Hlen, Nat.eqb_refl. cbn [negb].
  destruct (Rlt_dec x x0); [eauto|].
  destruct (Rlt_dec _ x); eauto.
Qed.

Lemma np_interp_below (x : R) (xp fp : list R) :
  xp <> [] -> List.length fp = List.length xp -> x < nth 0 xp 0 ->
  StellarTracks.np_interp x xp fp = Ok (nth 0 fp 0).
Proof.
  intros Hne Hlen Hx. unfold StellarTracks.np_interp.
  destruct xp as [|x0 tl]; [congruence|].
  rewrite Hlen, Nat.eqb_refl. cbn [negb]. cbn [nth] in Hx.
  destruct (Rlt_dec x x0); [reflexivity | lra].
Qed.

Lemma np_interp_above (x : R) (xp fp : list R) :
  ascending xp -> xp <> [] -> List.length fp = List.length xp -> last xp 0 < x ->
  StellarTracks.np_interp x xp fp = Ok (nth (List.length xp - 1) fp 0).
Proof.
  intros Hasc Hne Hlen Hx. unfold StellarTracks.np_interp.
  destruct xp as [|x0 tl] eqn:E; [congruence|]. rewrite <- E in *.
  rewrite Hlen, Nat.eqb_refl. cbn [negb].
  assert (x0 <= last xp 0).
  { rewrite last_nth. replace x0 with (nth 0 xp 0) by (rewrite E; reflexivity).
    apply Hasc; rewrite E; cbn [List.length]; lia. }
  destruct (Rlt_dec x x0); [lra|].
  destruct (Rlt_dec (last xp 0) x); [|lra].
  rewrite last_nth, Hlen. reflexivity.
Qed.

Lemma interp_scan_step (x x0 x1 y0 y1 : R) (xtl ytl : list R) :
  StellarTracks.interp_scan x (x0 :: x1 :: xtl) (y0 :: y1 :: ytl)
  = if Rlt_dec x x1
    then if Req_dec_T x x0 then y0 else (y1 - y0) / (x1 - x0) * (x - x0) + y0
    else StellarTracks.interp_scan x (x1 :: xtl) (y1 :: ytl).
Proof. reflexivity. Qed.

Lemma interp_scan_at (xp : list R) :
  forall (fp : list R) (j : nat),
    increasing xp -> List.length fp = List.length xp -> (j < List.length xp)%nat ->
    StellarTracks.interp_scan (nth j xp 0) xp fp = nth j fp 0.
Proof.
  induction xp as [|x0 xtl IH]; intros fp j Hinc Hlen Hj; [cbn in Hj; lia|].
  destruct fp as [|y0 ytl]; [discriminate|].
  destruct xtl as [|x1 xtl'].
  - cbn in Hj. replace j with 0%nat by lia. reflexivity.
  - destruct ytl as [|y1 ytl']; [discriminate|].
    rewrite interp_scan_step.
    destruct j as [|j].
    + cbn [nth]. assert (x0 < x1) by (apply (Hinc 0%nat); cbn; lia).
      destruct (Rlt_dec x0 x1); [|lra].
      destruct (Req_dec_T x0 x0); [reflexivity | congruence].
    + change (nth (S j) (x0 :: x1 :: xtl') 0) with (nth j (x1 :: xtl') 0).
      change (nth (S j) (y0 :: y1 :: ytl') 0) with (nth j (y1 :: ytl') 0).
      assert (x1 <= nth j (x1 :: xtl') 0).
      { apply (increasing_le (x1 :: xtl') 0 j);
          [eapply increasing_tail; exact Hinc | lia | cbn in Hj |- *; lia]. }
      destruct (Rlt_dec (nth j (x1 :: xtl') 0) x1); [lra|].
      apply IH; [eapply increasing_tail; exact Hinc | cbn in Hlen |- *; lia
                | cbn in Hj |- *; lia].
Qed.

(** At a sample point of a strictly increasing abscissa, [np.interp]
    returns the sample. *)
Lemma np_interp_at (xp fp : list R) (j : nat) :
  increasing xp -> List.length fp = List.length xp -> (j < List.length xp)%nat ->
  StellarTracks.np_interp (nth j xp 0) xp fp = Ok (nth j fp 0).
Proof.
  intros Hinc Hlen Hj. unfold StellarTracks.np_interp.
  destruct xp as [|x0 tl] eqn:E; [cbn in Hj; lia|]. rewrite <- E in *.
  rewrite Hlen, Nat.eqb_refl. cbn [negb].
  assert (x0 <= nth j xp 0).
  { replace x0 with (nth 0 xp 0) by (rewrite E; reflexivity).
    apply increasing_le; [assumption | lia | assumption]. }
  assert (nth j xp 0 <= last xp 0).
  { rewrite last_nth. apply increasing_le; [assumption | lia | lia]. }
  destruct (Rlt_dec (nth j xp 0) x0); [lra|].
  destruct (Rlt_dec (last xp 0) (nth j xp 0)); [lra|].
  rewrite interp_scan_at by assumption. reflexivity.
Qed.

(** ** One track *)

Lemma clip_inside (k n : nat) :
  (k < n)%nat -> np_clip (Z.of_nat k) 0 (Z.of_nat n - 1) = Z.of_nat k.
Proof. intros H. unfold np_clip. lia. Qed.

Lemma clip_above (n : nat) :
  (0 < n)%nat -> np_clip (Z.of_nat n) 0 (Z.of_nat n - 1) = Z.of_nat (n - 1).
Proof. intros H. unfold np_clip. lia. Qed.

Lemma track_ok_length (tr : StellarTracks.Track) :
  track_ok tr -> (0 < List.length (StellarTracks.time tr))%nat.
Proof.
  intros (Hne & _). destruct (StellarTracks.time tr); [congruence | cbn; lia].
Qed.

(** Below the first age of the track: the first row. *)
Lemma single_track_below (tr : StellarTracks.Track) (t : R) :
  track_ok tr -> t < nth 0 (StellarTracks.time tr) 0 ->
  StellarTracks.single_track tr t = Ok (point_at tr 0).
Proof.
  intros Hok Ht. pose proof (track_ok_length tr Hok) as Hpos.
  destruct Hok as (Hne & H1 & H2 & H3 & H4 & H5).
  unfold StellarTracks.single_track.
  rewrite !np_interp_below by assumption. cbn [bind].
  rewrite searchsorted_first by (assumption || lra).
  rewrite H5, (clip_inside 0) by lia.
  rewrite (py_index_nat _ 0 0%Z) by lia. reflexivity.
Qed.

(** Above the last age of the track: the last row. *)
Lemma single_track_above (tr : StellarTracks.Track) (t : R) :
  track_ok tr -> ascending (StellarTracks.time tr) ->
  last (StellarTracks.time tr) 0 < t ->
  StellarTracks.single_track tr t = Ok (point_at tr (last_row tr)).
Proof.
  intros Hok Hasc Ht. pose proof (track_ok_length tr Hok) as Hpos.
  destruct Hok as (Hne & H1 & H2 & H3 & H4 & H5).
  unfold StellarTracks.single_track.
  rewrite !np_interp_above by assumption. cbn [bind].
  rewrite searchsorted_above by assumption.
  rewrite H5, clip_above by lia.
  rewrite (py_index_nat _ _ 0%Z) by lia. reflexivity.
Qed.

(** At a tabulated age of the track: that row. *)
Lemma single_track_at (tr : StellarTracks.Track) (j : nat) :
  track_ok tr -> increasing (StellarTracks.time tr) ->
  (j < List.length (StellarTracks.time tr))%nat ->
  StellarTracks.single_track tr (nth j (StellarTracks.time tr) 0)
  = Ok (point_at tr j).
Proof.
  intros Hok Hinc Hj.
  destruct Hok as (Hne & H1 & H2 & H3 & H4 & H5).
  unfold StellarTracks.single_track.
  rewrite !np_interp_at by assumption. cbn [bind].
  rewrite searchsorted_index by assumption.
  rewrite H5, clip_inside by lia.
  rewrite (py_index_nat _ _ 0%Z) by lia. reflexivity.
Qed.

(** ** Two tracks *)

Lemma two_tracks_below (m1 m2 : R) (tr1 tr2 : StellarTracks.Track) (mass t : R) :
  track_ok tr1 -> track_ok tr2 ->
  t < nth 0 (StellarTracks.time tr1) 0 -> t < nth 0 (StellarTracks.time tr2) 0 ->
  StellarTracks.two_tracks m1 m2 tr1 tr2 mass t
  = Ok (blend ((m2 - mass) / (m2 - m1)) (point_at tr1 0)
              ((mass - m1) / (m2 - m1)) (point_at tr2 0)).
Proof.
  intros Hok1 Hok2 Ht1 Ht2.
  pose proof (track_ok_length tr1 Hok1). pose proof (track_ok_length tr2 Hok2).
  destruct Hok1 as (Hne1 & A1 & A2 & A3 & A4 & A5).
  destruct Hok2 as (Hne2 & B1 & B2 & B3 & B4 & B5).
  unfold StellarTracks.two_tracks.
  rewrite !np_interp_below by assumption. cbn [bind].
  rewrite !searchsorted_first by (assumption || lra).
  rewrite A5, B5, !(clip_inside 0) by lia.
  rewrite !(py_index_nat _ 0 0%Z) by lia.
  unfold blend, point_at. cbn [StellarTracks.p_stellar_type].
  destruct (Rlt_dec 0.5 _); reflexivity.
Qed.

Lemma two_tracks_above (m1 m2 : R) (tr1 tr2 : StellarTracks.Track) (mass t : R) :
  track_ok tr1 -> track_ok tr2 ->
  ascending (StellarTracks.time tr1) -> ascending (StellarTracks.time tr2) ->
  last (StellarTracks.time tr1) 0 < t -> last (StellarTracks.time tr2) 0 < t ->
  StellarTracks.two_tracks m1 m2 tr1 tr2 mass t
  = Ok (blend ((m2 - mass) / (m2 - m1)) (point_at tr1 (last_row tr1))
              ((mass - m1) / (m2 - m1)) (point_at tr2 (last_row tr2))).
Proof.
  intros Hok1 Hok2 Ha1 Ha2 Ht1 Ht2.
  pose proof (track_ok_length tr1 Hok1). pose proof (track_ok_length tr2 Hok2).
  destruct Hok1 as (Hne1 & A1 & A2 & A3 & A4 & A5).
  destruct Hok2 as (Hne2 & B1 & B2 & B3 & B4 & B5).
  unfold StellarTracks.two_tracks.
  rewrite !np_interp_above by assumption. cbn [bind].
  rewrite !searchsorted_above by assumption.
  rewrite A5, B5, !clip_above by lia.
  rewrite !(py_index_nat _ _ 0%Z) by lia.
  unfold blend, point_at, last_row. cbn [StellarTracks.p_stellar_type].
  destruct (Rlt_dec 0.5 _); reflexivity.
Qed.

(** At the upper bracket mass and one of its tabulated ages the lower
    track has weight 0. *)
Lemma two_tracks_at (m1 m2 : R) (tr1 tr2 : StellarTracks.Track) (j : nat) :
  track_ok tr1 -> track_ok tr2 -> increasing (StellarTracks.time tr2) ->
  (j < List.length (StellarTracks.time tr2))%nat -> m1 < m2 ->
  StellarTracks.two_tracks m1 m2 tr1 tr2 m2 (nth j (StellarTracks.time tr2) 0)
  = Ok (point_at tr2 j).
Proof.
  intros Hok1 Hok2 Hinc Hj Hm.
  destruct Hok1 as (Hne1 & A1 & A2 & A3 & A4 & A5).
  destruct Hok2 as (Hne2 & B1 & B2 & B3 & B4 & B5).
  unfold StellarTracks.two_tracks.
  set (t := nth j (StellarTracks.time tr2) 0).
  destruct (np_interp_total t _ _ Hne1 A1) as [v1 ->].
  destruct (np_interp_total t _ _ Hne1 A2) as [v2 ->].
  destruct (np_interp_total t _ _ Hne1 A3) as [v3 ->].
  destruct (np_interp_total t _ _ Hne1 A4) as [v4 ->].
  unfold t. rewrite !np_interp_at by assumption. cbn [bind].
  replace ((m2 - m2) / (m2 - m1)) with 0 by (field; lra).
  replace ((m2 - m1) / (m2 - m1)) with 1 by (field; lra).
  destruct (Rlt_dec 0.5 0); [lra|].
  rewrite searchsorted_index by assumption.
  rewrite B5, clip_inside by lia.
  rewrite (py_index_nat _ _ 0%Z) by lia. cbn [bind].
  unfold point_at. f_equal. f_equal; ring.
Qed.

(** ** The table *)

Lemma dict_get_in_keys (d : StellarTracks.mass_data) (k : R) :
  In k (StellarTracks.keys d) -> exists tr, StellarTracks.dict_get d k = Ok tr.
Proof.
  induction d as [|[k' v] tl IH]; cbn; [contradiction|].
  intros [->|H].
  - destruct (Req_dec_T k k); [eauto | congruence].
  - destruct (Req_dec_T k' k); [eauto | apply IH; exact H].
Qed.

Lemma dict_get_key (d : StellarTracks.mass_data) (k : R) (tr : StellarTracks.Track) :
  StellarTracks.dict_get d k = Ok tr -> In k (StellarTracks.keys d).
Proof.
  induction d as [|[k' v] tl IH]; cbn; [discriminate|].
  destruct (Req_dec_T k' k); [left; assumption | right; apply IH; assumption].
Qed.

(** The round trip on the table itself. *)
Lemma interpolate_in_at (d : StellarTracks.mass_data) (mass : R)
      (tr : StellarTracks.Track) (j : nat) :
  (forall k tr', StellarTracks.dict_get d k = Ok tr' -> track_ok tr') ->
  StellarTracks.dict_get d mass = Ok tr ->
  increasing (StellarTracks.time tr) ->
  (j < List.length (StellarTracks.time tr))%nat ->
  StellarTracks.interpolate_in d mass (nth j (StellarTracks.time tr) 0)
  = Ok (point_at tr j).
Proof.
  intros Hall Hget Hinc Hj.
  pose proof (Hall _ _ Hget) as Hok.
  unfold StellarTracks.interpolate_in.
  set (masses := StellarTracks.py_sorted (StellarTracks.keys d)).
  assert (Hasc : ascending masses) by apply py_sorted_ascending.
  assert (Hin : In mass masses)
    by (apply py_sorted_in; eapply dict_get_key; exact Hget).
  assert (Hne : masses <> []) by (intros E; rewrite E in Hin; contradiction).
  destruct (searchsorted_finds masses mass Hasc Hin) as [Hk Hv].
  destruct (In_nth masses mass 0 Hin) as (p & Hp & Hpv).
  rewrite (py_index_first masses 0 Hne). cbn [bind].
  assert (Hlow : nth 0 masses 0 <= mass).
  { rewrite <- Hpv. apply Hasc; lia. }
  assert (Hhigh : mass <= last masses 0).
  { rewrite last_nth, <- Hpv. apply Hasc; lia. }
  destruct (Rle_dec mass (nth 0 masses 0)) as [Hle|Hgt].
  { replace (nth 0 masses 0) with mass by lra. rewrite Hget. cbn [bind].
    apply single_track_at; assumption. }
  rewrite (py_index_last masses 0 Hne). cbn [bind].
  destruct (Rle_dec (last masses 0) mass) as [Hge|Hlt].
  { replace (last masses 0) with mass by lra. rewrite Hget. cbn [bind].
    apply single_track_at; assumption. }
  set (k := np_searchsorted masses mass) in *.
  assert (Hk0 : (0 < k)%nat).
  { destruct (Nat.eq_dec k 0) as [E|E]; [|lia]. rewrite E in Hv. lra. }
  replace (Z.of_nat k - 1)%Z with (Z.of_nat (k - 1)) by lia.
  rewrite (py_index_nat masses (k - 1) 0) by lia.
  rewrite (py_index_nat masses k 0) by lia. cbn [bind]. rewrite Hv.
  assert (Hm1 : nth (k - 1) masses 0 < mass)
    by (apply searchsorted_below; fold k; lia).
  destruct (dict_get_in_keys d (nth (k - 1) masses 0)) as [tr1 Htr1].
  { apply py_sorted_in. apply nth_In. fold masses. lia. }
  rewrite Htr1, Hget. cbn [bind].
  apply two_tracks_at; try assumption. eapply Hall; exact Htr1.
Qed.

(** C9.  On a loaded table whose tracks each have at least one row, for
    a tabulated mass whose ages increase strictly and any of its tabulated
    ages, [interpolate_track] returns that row: the four continuous
    quantities and the stellar type, unchanged; the object and the log
    are left as they were. *)
Theorem interpolate_round_trip (fs : StellarTracks.FileSystem)
        (self : StellarTracks.t) (metallicity : string)
        (d : StellarTracks.mass_data) (mass : R) (tr : StellarTracks.Track)
        (j : nat) (l : Log) :
  StellarTracks.tracks_get (StellarTracks.tracks self) metallicity = Some d ->
  (forall k tr', StellarTracks.dict_get d k = Ok tr' -> track_ok tr') ->
  StellarTracks.dict_get d mass = Ok tr ->
  increasing (StellarTracks.time tr) ->
  (j < List.length (StellarTracks.time tr))%nat ->
  StellarTracks.interpolate_track fs self mass (nth j (StellarTracks.time tr) 0)
                                  metallicity l
  = (Ok (point_at tr j, self), l).
Proof.
  intros Hd Hall Hget Hinc Hj.
  unfold StellarTracks.interpolate_track, mbind. rewrite Hd. cbn [ret].
  rewrite Hd. unfold lift.
  rewrite (interpolate_in_at d mass tr j Hall Hget Hinc Hj). reflexivity.
Qed.

Lemma table_two_ok (k : R) (tr : StellarTracks.Track) :
  StellarTracks.dict_get table_two k = Ok tr -> track_ok tr.
Proof.
  unfold table_two. cbn [StellarTracks.dict_get].
  destruct (Req_dec_T 10 k); [|destruct (Req_dec_T 1 k); [|discriminate]];
    intros H; inversion H; subst; unfold track_ok; cbn;
    repeat split; discriminate.
Qed.

Lemma table_two_sorted : StellarTracks.py_sorted (StellarTracks.keys table_two) = [1; 10].
Proof. cbn. rdec. reflexivity. Qed.


Lemma interpolate_round_trip_witness :
  StellarTracks.interpolate_track fs_empty tracks_two 10 10000000 "Z0140v00" []
  = (Ok (point_at track_m10 1, tracks_two), []).
Proof.
  refine (interpolate_round_trip fs_empty tracks_two "Z0140v00" table_two 10
                                 track_m10 1 [] _ table_two_ok _ _ _).
  - reflexivity.
  - cbn. rdec. reflexivity.
  - apply increasing_two. lra.
  - cbn. lia.
Defined.

(** ** Lifetimes *)

Lemma log10_increasing (x y : R) : 0 < x -> x < y -> np_log10 x < np_log10 y.
Proof.
  intros Hx Hxy. unfold np_log10.
  assert (0 < ln 10) by (rewrite <- ln_1; apply ln_increasing; lra).
  apply Rmult_lt_compat_r; [apply Rinv_0_lt_compat; assumption|].
  apply ln_increasing; assumption.
Qed.

(** C7.  For a mass strictly between two neighbouring tabulated masses,
    both positive, whose tracks have rows and positive last ages,
    [get_lifetime] returns 10 to the power of the value at [log10(mass)]
    of the line through [(log10(m1), log10(life1))] and
    [(log10(m2), log10(life2))]: a linear interpolation of the logarithm
    of the last age in the logarithm of the mass. *)
Theorem get_lifetime_log_log (fs : StellarTracks.FileSystem)
        (self : StellarTracks.t) (metallicity : string)
        (d : StellarTracks.mass_data) (mass : R)
        (tr1 tr2 : StellarTracks.Track) (i : nat) (l : Log) :
  let masses := StellarTracks.py_sorted (StellarTracks.keys d) in
  let m1 := nth i masses 0 in
  let m2 := nth (S i) masses 0 in
  let life1 := last (StellarTracks.time tr1) 0 in
  let life2 := last (StellarTracks.time tr2) 0 in
  StellarTracks.tracks_get (StellarTracks.tracks self) metallicity = Some d ->
  (S i < List.length masses)%nat ->
  0 < m1 -> m1 < mass -> mass < m2 ->
  StellarTracks.dict_get d m1 = Ok tr1 ->
  StellarTracks.dict_get d m2 = Ok tr2 ->
  StellarTracks.time tr1 <> [] -> StellarTracks.time tr2 <> [] ->
  0 < life1 -> 0 < life2 ->
  StellarTracks.get_lifetime fs self mass metallicity l
  = (Ok (Rpower 10 ((np_log10 life2 - np_log10 life1)
                    / (np_log10 m2 - np_log10 m1)
                    * (np_log10 mass - np_log10 m1)
                    + np_log10 life1),
         self), l).
Proof.
  intros masses m1 m2 life1 life2 Hd Hi Hpos Hlo Hhi Hg1 Hg2 Hne1 Hne2 Hl1 Hl2.
  unfold StellarTracks.get_lifetime, mbind. rewrite Hd. cbn [ret].
  rewrite Hd. unfold lift.
  assert (Hasc : ascending masses) by apply py_sorted_ascending.
  assert (Hne : masses <> []) by (intros E; rewrite E in Hi; cbn in Hi; lia).
  assert (H0 : nth 0 masses 0 <= m1) by (apply Hasc; lia).
  assert (HN : m2 <= last masses 0) by (rewrite last_nth; apply Hasc; lia).
  assert (Hlife : StellarTracks.lifetime_in d mass
                  = Ok (Rpower 10 ((np_log10 life2 - np_log10 life1)
                                   / (np_log10 m2 - np_log10 m1)
                                   * (np_log10 mass - np_log10 m1)
                                   + np_log10 life1))).
  { unfold StellarTracks.lifetime_in. fold masses.
    rewrite (py_index_first masses 0 Hne). cbn [bind].
    destruct (Rle_dec mass (nth 0 masses 0)); [lra|].
    rewrite (py_index_last masses 0 Hne). cbn [bind].
    destruct (Rle_dec (last masses 0) mass); [lra|].
    rewrite (searchsorted_between masses mass i Hasc Hi) by (fold m1 m2; lra).
    replace (Z.of_nat (S i) - 1)%Z with (Z.of_nat i) by lia.
    rewrite (py_index_nat masses i 0) by lia.
    rewrite (py_index_nat masses (S i) 0) by lia. cbn [bind].
    fold m1 m2. rewrite Hg1. cbn [bind].
    rewrite (py_index_last _ 0 Hne1). cbn [bind].
    rewrite Hg2. cbn [bind].
    rewrite (py_index_last _ 0 Hne2). cbn [bind].
    fold life1 life2.
    assert (np_log10 m1 < np_log10 mass) by (apply log10_increasing; lra).
    assert (np_log10 mass < np_log10 m2) by (apply log10_increasing; lra).
    unfold StellarTracks.np_interp. cbn [List.length Nat.eqb negb last].
    destruct (Rlt_dec (np_log10 mass) (np_log10 m1)); [lra|].
    destruct (Rlt_dec (np_log10 m2) (np_log10 mass)); [lra|].
    cbn [bind]. rewrite interp_scan_step.
    destruct (Rlt_dec (np_log10 mass) (np_log10 m2)); [|lra].
    destruct (Req_dec_T (np_log10 mass) (np_log10 m1)); [lra|].
    reflexivity. }
  rewrite Hlife. reflexivity.
Qed.

Lemma sqrt10_bounds : 1 < sqrt 10 < 10.
Proof.
  pose proof (sqrt_sqrt 10) as H. pose proof (sqrt_pos 10). nra.
Qed.

Lemma ln10_pos : 0 < ln 10.
Proof. rewrite <- ln_1. apply ln_increasing; lra. Qed.

Lemma log10_values :
  np_log10 1 = 0 /\ np_log10 10 = 1 /\ np_log10 (sqrt 10) = 0.5
  /\ np_log10 10000000 = 7 /\ np_log10 100000000 = 8.
Proof.
  pose proof ln10_pos. pose proof sqrt10_bounds. unfold np_log10.
  assert (H2 : ln (sqrt 10) = ln 10 / 2).
  { assert (ln (sqrt 10 * sqrt 10) = ln (sqrt 10) + ln (sqrt 10))
      by (apply ln_mult; lra).
    rewrite sqrt_sqrt in H1 by lra. lra. }
  assert (H7 : ln 10000000 = 7 * ln 10).
  { replace 10000000 with (10 ^ 7) by lra. rewrite ln_pow by lra. simpl INR. lra. }
  assert (H8 : ln 100000000 = 8 * ln 10).
  { replace 100000000 with (10 ^ 8) by lra. rewrite ln_pow by lra. simpl INR. lra. }
  assert (Hdiv : forall x c, x = c * ln 10 -> x / ln 10 = c)
    by (intros x c ->; field; lra).
  repeat split; apply Hdiv; rewrite ?ln_1; lra.
Qed.

(** For tracks at masses 1 and 10 with last ages 1e8 and 1e7, the
    lifetime at mass sqrt(10) is 10 ** 7.5. *)
Lemma get_lifetime_log_log_witness :
  StellarTracks.get_lifetime fs_empty tracks_two (sqrt 10) "Z0140v00" []
  = (Ok (Rpower 10 7.5, tracks_two), []).
Proof.
  pose proof (get_lifetime_log_log fs_empty tracks_two "Z0140v00" table_two
                                   (sqrt 10) track_m1 track_m10 0 []) as H.
  cbv zeta in H. rewrite table_two_sorted in H.
  cbn [nth last track_m1 track_m10 StellarTracks.time List.length] in H.
  destruct log10_values as (L1 & L10 & Ls & L7 & L8).
  rewrite L1, L10, Ls, L7, L8 in H.
  pose proof sqrt10_bounds.
  replace 7.5 with ((7 - 8) / (1 - 0) * (0.5 - 0) + 8) by lra.
  apply H; try reflexivity; try lra; try discriminate.
  - cbn. lia.
  - cbn. rdec. reflexivity.
  - cbn. rdec. reflexivity.
Defined.

(** ** The lifetime of the example is not the linear one *)

Lemma rpower_10_7_5 : Rpower 10 7.5 = 10000000 * sqrt 10.
Proof.
  replace 7.5 with (INR 7 + / 2) by (simpl INR; lra).
  rewrite Rpower_plus, Rpower_pow, Rpower_sqrt by lra.
  f_equal. lra.
Qed.

(** Plain linear interpolation between (1, 1e8) and (10, 1e7) would
    give about 7.8e7 at mass sqrt(10), where [get_lifetime] gives
    10 ** 7.5, about 3.2e7. *)
Lemma lifetime_example_not_linear :
  Rpower 10 7.5 <> line_through 1 10 100000000 10000000 (sqrt 10).
Proof.
  rewrite rpower_10_7_5. unfold line_through.
  pose proof (sqrt_sqrt 10) as Hs. pose proof sqrt10_bounds as Hb.
  intros E.
  assert (E' : 10000000 * sqrt 10 = 10000000 * (11 - sqrt 10))
    by (rewrite E; field).
  nra.
Qed.

(** ** Ages outside a track *)

Lemma interpolate_attrs_lines (td : TrackData.t) (mass_idx : Z) (n k : nat) (f : R)
      (names : list string) :
  row_ok td mass_idx n -> (1 <= k < n)%nat ->
  exists r,
    TrackData.interpolate_attrs td mass_idx (Z.of_nat k) f names = Ok r
    /\ forall attr arr row,
         In attr names -> TrackData.getattr td attr = Some arr ->
         py_index arr mass_idx = Ok row ->
         In (attr, nth (k - 1) row 0 + f * (nth k row 0 - nth (k - 1) row 0)) r.
Proof.
  intros (Hn & Hm & Hrows) Hk.
  induction names as [|a tl (r & Hr & Hin)].
  - exists []. split; [reflexivity | intros ? ? ? []].
  - cbn [TrackData.interpolate_attrs].
    destruct (TrackData.getattr td a) as [arr|] eqn:Ha.
    + destruct (Hrows a arr Ha) as (row & Hrow & Hlen).
      rewrite Hrow. cbn [bind].
      replace (Z.of_nat k - 1)%Z with (Z.of_nat (k - 1)) by lia.
      rewrite (py_index_nat row (k - 1) 0), (py_index_nat row k 0) by lia.
      cbn [bind]. rewrite Hr. cbn [bind].
      eexists. split; [reflexivity|].
      intros attr arr' row' [<-|Hattr] Hg Hp.
      * left. rewrite Ha in Hg. inversion Hg; subst arr'.
        rewrite Hrow in Hp. inversion Hp; subst row'. reflexivity.
      * right. eapply Hin; eassumption.
    + exists r. split; [exact Hr|].
      intros attr arr' row' [<-|Hattr] Hg Hp; [congruence|].
      eapply Hin; eassumption.
Qed.

(** [interpolate_in_time] below the first age and above the last age
    of a row of at least two strictly increasing ages: every quantity
    lies on the line through its first two, respectively last two,
    points. *)
Lemma interpolate_in_time_outside (td : TrackData.t) (mass_idx : Z)
      (ages2 : TrackData.array2) (ages : list R) (n : nat) (t : R) :
  TrackData.age td = Some ages2 -> py_index ages2 mass_idx = Ok ages ->
  List.length ages = n -> (2 <= n)%nat -> increasing ages ->
  row_ok td mass_idx n ->
  (t < nth 0 ages 0 ->
   exists r,
     TrackData.interpolate_in_time td mass_idx t = Ok r
     /\ forall attr arr row,
          In attr TrackData.attrs -> TrackData.getattr td attr = Some arr ->
          py_index arr mass_idx = Ok row ->
          In (attr, line_through (nth 0 ages 0) (nth 1 ages 0)
                                 (nth 0 row 0) (nth 1 row 0) t) r)
  /\ (last ages 0 < t ->
      exists r,
        TrackData.interpolate_in_time td mass_idx t = Ok r
        /\ forall attr arr row,
             In attr TrackData.attrs -> TrackData.getattr td attr = Some arr ->
             py_index arr mass_idx = Ok row ->
             In (attr, line_through (nth (n - 2) ages 0) (nth (n - 1) ages 0)
                                    (nth (n - 2) row 0) (nth (n - 1) row 0) t) r).
Proof.
  intros Hage Hrow Hlen Hn Hinc Hok.
  assert (Hne : ages <> []) by (intros E; rewrite E in Hlen; cbn in Hlen; lia).
  pose proof Hok as (Hnp & Hm & _).
  unfold TrackData.interpolate_in_time. rewrite Hage.
  destruct (Z.geb_spec mass_idx (TrackData.num_masses td)); [lia|].
  rewrite Hrow. cbn [bind]. split; intros Ht.
  - rewrite searchsorted_first by (assumption || lra).
    cbv zeta. change (Z.of_nat 0 =? 0)%Z with true. cbv iota.
    change (1 - 1)%Z with (Z.of_nat 0). change (py_index ages 1)
      with (py_index ages (Z.of_nat 1)).
    rewrite (py_index_nat ages 0 0), (py_index_nat ages 1 0) by lia. cbn [bind].
    assert (nth 0 ages 0 < nth 1 ages 0) by (apply Hinc; lia).
    destruct (Rlt_dec (nth 0 ages 0) (nth 1 ages 0)) as [_|]; [|lra].
    destruct (interpolate_attrs_lines td mass_idx n 1
                ((t - nth 0 ages 0) / (nth 1 ages 0 - nth 0 ages 0))
                TrackData.attrs Hok) as (r & Hr & Hin); [lia|].
    exists r. split; [exact Hr|]. intros attr arr row Ha Hg Hp.
    apply (Hin attr arr row Ha Hg Hp).
  - rewrite searchsorted_above by (try apply increasing_ascending; assumption).
    rewrite Hlen, Hnp.
    destruct (Z.eqb_spec (Z.of_nat n) 0); [lia|].
    destruct (Z.geb_spec (Z.of_nat n) (Z.of_nat n)); [|lia].
    replace (Z.of_nat n - 1)%Z with (Z.of_nat (n - 1)) by lia.
    replace (Z.of_nat (n - 1) - 1)%Z with (Z.of_nat (n - 2)) by lia.
    rewrite (py_index_nat ages (n - 2) 0), (py_index_nat ages (n - 1) 0) by lia.
    cbn [bind].
    assert (nth (n - 2) ages 0 < nth (n - 1) ages 0)
      by (apply increasing_lt; [assumption | lia | lia]).
    destruct (Rlt_dec (nth (n - 2) ages 0) (nth (n - 1) ages 0)) as [_|]; [|lra].
    destruct (interpolate_attrs_lines td mass_idx n (n - 1)
                ((t - nth (n - 2) ages 0) / (nth (n - 1) ages 0 - nth (n - 2) ages 0))
                TrackData.attrs Hok) as (r & Hr & Hin); [lia|].
    exists r. split; [exact Hr|]. intros attr arr row Ha Hg Hp.
    replace (n - 1 - 1)%nat with (n - 2)%nat in Hin by lia.
    apply (Hin attr arr row Ha Hg Hp).
Qed.

Lemma clip_in_range (x : Z) (n : nat) :
  (0 < n)%nat -> (0 <= np_clip x 0 (Z.of_nat n - 1) < Z.of_nat n)%Z.
Proof. intros H. unfold np_clip. lia. Qed.

Lemma single_track_total (tr : StellarTracks.Track) (t : R) :
  track_ok tr -> exists p, StellarTracks.single_track tr t = Ok p.
Proof.
  intros Hok. pose proof (track_ok_length tr Hok) as Hpos.
  destruct Hok as (Hne & H1 & H2 & H3 & H4 & H5).
  unfold StellarTracks.single_track.
  destruct (np_interp_total t _ _ Hne H1) as [v1 ->].
  destruct (np_interp_total t _ _ Hne H2) as [v2 ->].
  destruct (np_interp_total t _ _ Hne H3) as [v3 ->].
  destruct (np_interp_total t _ _ Hne H4) as [v4 ->]. cbn [bind].
  destruct (py_index_in_range (StellarTracks.stellar_type tr)
              (np_clip (Z.of_nat (np_searchsorted (StellarTracks.time tr) t)) 0
                       (Z.of_nat (List.length (StellarTracks.stellar_type tr)) - 1)))
    as [ty ->]; [apply clip_in_range; lia|].
  cbn [bind]. eauto.
Qed.

Lemma two_tracks_total (m1 m2 : R) (tr1 tr2 : StellarTracks.Track) (mass t : R) :
  track_ok tr1 -> track_ok tr2 ->
  exists p, StellarTracks.two_tracks m1 m2 tr1 tr2 mass t = Ok p.
Proof.
  intros Hok1 Hok2.
  pose proof (track_ok_length tr1 Hok1). pose proof (track_ok_length tr2 Hok2).
  destruct Hok1 as (Hne1 & A1 & A2 & A3 & A4 & A5).
  destruct Hok2 as (Hne2 & B1 & B2 & B3 & B4 & B5).
  unfold StellarTracks.two_tracks.
  destruct (np_interp_total t _ _ Hne1 A1) as [a1 ->].
  destruct (np_interp_total t _ _ Hne1 A2) as [a2 ->].
  destruct (np_interp_total t _ _ Hne1 A3) as [a3 ->].
  destruct (np_interp_total t _ _ Hne1 A4) as [a4 ->].
  destruct (np_interp_total t _ _ Hne2 B1) as [b1 ->].
  destruct (np_interp_total t _ _ Hne2 B2) as [b2 ->].
  destruct (np_interp_total t _ _ Hne2 B3) as [b3 ->].
  destruct (np_interp_total t _ _ Hne2 B4) as [b4 ->]. cbn [bind].
  destruct (py_index_in_range (StellarTracks.stellar_type tr1)
              (np_clip (Z.of_nat (np_searchsorted (StellarTracks.time tr1) t)) 0
                       (Z.of_nat (List.length (StellarTracks.stellar_type tr1)) - 1)))
    as [ty1 ->]; [apply clip_in_range; lia|].
  destruct (py_index_in_range (StellarTracks.stellar_type tr2)
              (np_clip (Z.of_nat (np_searchsorted (StellarTracks.time tr2) t)) 0
                       (Z.of_nat (List.length (StellarTracks.stellar_type tr2)) - 1)))
    as [ty2 ->]; [apply clip_in_range; lia|].
  destruct (Rlt_dec 0.5 _); cbn [bind]; eauto.
Qed.

(** On a table that is not empty and whose tracks have rows,
    [interpolate_track] returns a state for every mass and age. *)
Lemma interpolate_in_total (d : StellarTracks.mass_data) (mass t : R) :
  d <> [] ->
  (forall k tr, StellarTracks.dict_get d k = Ok tr -> track_ok tr) ->
  exists p, StellarTracks.interpolate_in d mass t = Ok p.
Proof.
  intros Hd Hall. unfold StellarTracks.interpolate_in.
  set (masses := StellarTracks.py_sorted (StellarTracks.keys d)).
  assert (Hkeys : forall i, (i < List.length masses)%nat ->
                            exists tr, StellarTracks.dict_get d (nth i masses 0) = Ok tr
                                       /\ track_ok tr).
  { intros i Hi. destruct (dict_get_in_keys d (nth i masses 0)) as [tr Htr].
    - apply py_sorted_in. apply nth_In. exact Hi.
    - exists tr. split; [exact Htr | eapply Hall; exact Htr]. }
  assert (Hne : masses <> []).
  { destruct d as [|[k v] tl]; [congruence|]. intros E.
    assert (In k masses) by (apply py_sorted_in; left; reflexivity).
    rewrite E in H. contradiction. }
  assert (Hlen : (0 < List.length masses)%nat)
    by (destruct masses; [congruence | cbn; lia]).
  rewrite (py_index_first masses 0 Hne). cbn [bind].
  destruct (Rle_dec mass (nth 0 masses 0)).
  { destruct (Hkeys 0%nat Hlen) as (tr & -> & Hok). cbn [bind].
    apply single_track_total. exact Hok. }
  rewrite (py_index_last masses 0 Hne). cbn [bind].
  destruct (Rle_dec (last masses 0) mass) as [|Hbelow].
  { rewrite last_nth. destruct (Hkeys (List.length masses - 1)%nat) as (tr & -> & Hok);
      [lia|]. cbn [bind]. apply single_track_total. exact Hok. }
  pose proof (searchsorted_le_length masses mass) as Hk.
  set (k := np_searchsorted masses mass) in *.
  assert (Hk1 : (k < List.length masses)%nat).
  { destruct (Nat.eq_dec k (List.length masses)) as [E|E]; [|lia].
    assert (nth (List.length masses - 1) masses 0 < mass)
      by (apply searchsorted_below; fold k; lia).
    rewrite last_nth in Hbelow. lra. }
  assert (Hk0 : (0 < k)%nat).
  { destruct (Nat.eq_dec k 0) as [E|E]; [|lia].
    pose proof (searchsorted_at masses mass) as Hat. fold k in Hat.
    rewrite E in Hat. specialize (Hat Hlen). lra. }
  replace (Z.of_nat k - 1)%Z with (Z.of_nat (k - 1)) by lia.
  rewrite (py_index_nat masses (k - 1) 0), (py_index_nat masses k 0) by lia.
  cbn [bind].
  destruct (Hkeys (k - 1)%nat) as (tr1 & -> & Hok1); [lia|].
  destruct (Hkeys k Hk1) as (tr2 & -> & Hok2). cbn [bind].
  apply two_tracks_total; assumption.
Qed.

(** A query of [interpolate_track] at an age outside the tracks it
    reads, on side [s]: the end row of the boundary track, or the blend
    of the end rows of the two bracketing tracks. *)
Lemma single_track_outside (s : side) (tr : StellarTracks.Track) (t : R) :
  outside s tr t ->
  StellarTracks.single_track tr t = Ok (point_at tr (end_row s tr)).
Proof.
  intros (Hok & Hinc & Ht). destruct s; cbn [end_row].
  - apply single_track_below; assumption.
  - apply single_track_above; [assumption | apply increasing_ascending | ]; assumption.
Qed.

Lemma two_tracks_outside (s : side) (m1 m2 : R) (tr1 tr2 : StellarTracks.Track)
      (mass t : R) :
  outside s tr1 t -> outside s tr2 t ->
  StellarTracks.two_tracks m1 m2 tr1 tr2 mass t
  = Ok (blend ((m2 - mass) / (m2 - m1)) (point_at tr1 (end_row s tr1))
              ((mass - m1) / (m2 - m1)) (point_at tr2 (end_row s tr2))).
Proof.
  intros (Hok1 & Hinc1 & Ht1) (Hok2 & Hinc2 & Ht2). destruct s; cbn [end_row].
  - apply two_tracks_below; assumption.
  - apply two_tracks_above; try apply increasing_ascending; assumption.
Qed.

Lemma masses_not_empty (d : StellarTracks.mass_data) :
  d <> [] -> StellarTracks.py_sorted (StellarTracks.keys d) <> [].
Proof.
  intros Hd. destruct d as [|[k v] tl]; [congruence|]. intros E.
  assert (Hin : In k (StellarTracks.py_sorted (StellarTracks.keys ((k, v) :: tl))))
    by (apply py_sorted_in; left; reflexivity).
  rewrite E in Hin. contradiction.
Qed.

(** C1, as amended.  The two interpolators treat an age outside a track
    each in its own way, the same way at both ends.

    [interpolate_track] (through [np.interp]) clamps, on tracks with at
    least one row whose ages increase strictly.  For a mass at or below
    the lowest tabulated mass, or at or above the highest, it reads the
    track of that mass: below its first age it returns its first row,
    above its last age its last row.  For a mass between two neighbouring
    tabulated masses [m1 < mass <= m2] (and below the highest) it reads
    these two tracks: below the first age of both it returns the blend of
    their first rows, above the last age of both the blend of their last
    rows, with weights [(m2 - mass) / (m2 - m1)] and
    [(mass - m1) / (m2 - m1)].  Nothing is extrapolated.

    [interpolate_in_time] extrapolates: on a row of at least two strictly
    increasing ages, every quantity lies on the line through its first
    two points below the first age, and on the line through its last two
    points above the last age. *)
Theorem track_age_out_of_range :
  (forall (s : side) (d : StellarTracks.mass_data) (mass t : R),
      let masses := StellarTracks.py_sorted (StellarTracks.keys d) in
      d <> [] ->
      (forall tr,
          mass <= nth 0 masses 0 ->
          StellarTracks.dict_get d (nth 0 masses 0) = Ok tr ->
          outside s tr t ->
          StellarTracks.interpolate_in d mass t = Ok (point_at tr (end_row s tr)))
      /\ (forall tr,
             last masses 0 <= mass ->
             StellarTracks.dict_get d (last masses 0) = Ok tr ->
             outside s tr t ->
             StellarTracks.interpolate_in d mass t = Ok (point_at tr (end_row s tr)))
      /\ (forall (i : nat) tr1 tr2,
             (S i < List.length masses)%nat ->
             nth i masses 0 < mass -> mass <= nth (S i) masses 0 ->
             mass < last masses 0 ->
             StellarTracks.dict_get d (nth i masses 0) = Ok tr1 ->
             StellarTracks.dict_get d (nth (S i) masses 0) = Ok tr2 ->
             outside s tr1 t -> outside s tr2 t ->
             StellarTracks.interpolate_in d mass t
             = Ok (blend ((nth (S i) masses 0 - mass)
                          / (nth (S i) masses 0 - nth i masses 0))
                         (point_at tr1 (end_row s tr1))
                         ((mass - nth i masses 0)
                          / (nth (S i) masses 0 - nth i masses 0))
                         (point_at tr2 (end_row s tr2)))))
  /\ (forall td mass_idx ages2 ages n t,
         TrackData.age td = Some ages2 -> py_index ages2 mass_idx = Ok ages ->
         List.length ages = n -> (2 <= n)%nat -> increasing ages ->
         row_ok td mass_idx n ->
         (t < nth 0 ages 0 ->
          exists r,
            TrackData.interpolate_in_time td mass_idx t = Ok r
            /\ forall attr arr row,
                 In attr TrackData.attrs -> TrackData.getattr td attr = Some arr ->
                 py_index arr mass_idx = Ok row ->
                 In (attr, line_through (nth 0 ages 0) (nth 1 ages 0)
                                        (nth 0 row 0) (nth 1 row 0) t) r)
         /\ (last ages 0 < t ->
             exists r,
               TrackData.interpolate_in_time td mass_idx t = Ok r
               /\ forall attr arr row,
                    In attr TrackData.attrs -> TrackData.getattr td attr = Some arr ->
                    py_index arr mass_idx = Ok row ->
                    In (attr, line_through (nth (n - 2) ages 0) (nth (n - 1) ages 0)
                                           (nth (n - 2) row 0) (nth (n - 1) row 0) t)
                       r)).
Proof.
  split; [|exact interpolate_in_time_outside].
  intros s d mass t masses Hd.
  assert (Hasc : ascending masses) by apply py_sorted_ascending.
  assert (Hne : masses <> []) by (apply masses_not_empty; exact Hd).
  assert (Hlen : (0 < List.length masses)%nat)
    by (destruct masses; [congruence | cbn; lia]).
  assert (H0N : nth 0 masses 0 <= last masses 0)
    by (rewrite last_nth; apply Hasc; lia).
  unfold StellarTracks.interpolate_in. fold masses.
  rewrite (py_index_first masses 0 Hne), (py_index_last masses 0 Hne). cbn [bind].
  split; [|split].
  - intros tr Hm Hg Hout.
    destruct (Rle_dec mass (nth 0 masses 0)); [|lra].
    rewrite Hg. cbn [bind]. apply single_track_outside. exact Hout.
  - intros tr Hm Hg Hout.
    destruct (Rle_dec mass (nth 0 masses 0)) as [Hle|Hgt].
    + replace (nth 0 masses 0) with (last masses 0) by lra.
      rewrite Hg. cbn [bind]. apply single_track_outside. exact Hout.
    + destruct (Rle_dec (last masses 0) mass); [|lra].
      rewrite Hg. cbn [bind]. apply single_track_outside. exact Hout.
  - intros i tr1 tr2 Hi Hlo Hhi Hlast Hg1 Hg2 Hout1 Hout2.
    assert (nth 0 masses 0 <= nth i masses 0) by (apply Hasc; lia).
    destruct (Rle_dec mass (nth 0 masses 0)); [lra|].
    destruct (Rle_dec (last masses 0) mass); [lra|].
    rewrite (searchsorted_between masses mass i) by assumption.
    replace (Z.of_nat (S i) - 1)%Z with (Z.of_nat i) by lia.
    rewrite (py_index_nat masses i 0), (py_index_nat masses (S i) 0) by lia.
    cbn [bind]. rewrite Hg1, Hg2. cbn [bind].
    apply two_tracks_outside; assumption.
Qed.

Lemma track_m1_outside (s : side) (t : R) :
  match s with Below => t < 0 | Above => 100000000 < t end -> outside s track_m1 t.
Proof.
  intros H. split; [|split].
  - unfold track_ok; cbn; repeat split; discriminate.
  - apply increasing_two. lra.
  - destruct s; exact H.
Qed.

Lemma track_m10_outside (s : side) (t : R) :
  match s with Below => t < 0 | Above => 10000000 < t end -> outside s track_m10 t.
Proof.
  intros H. split; [|split].
  - unfold track_ok; cbn; repeat split; discriminate.
  - apply increasing_two. lra.
  - destruct s; exact H.
Qed.

Lemma track_data_three_rows : row_ok track_data_three 0 3.
Proof.
  split; [reflexivity|]. split; [reflexivity|].
  intros attr arr. unfold TrackData.getattr.
  repeat match goal with
         | |- context [String.eqb ?a ?b] => destruct (String.eqb a b)
         end;
    intros H; inversion H; subst; eexists; split; reflexivity.
Qed.

(** On the table of masses 1 and 10: mass 10 at age 2e7, past the last
    age 1e7 of its track, gets the last row of that track; mass 5.5 at
    age -1, before both tracks start, gets the blend of their first rows
    with weights 0.5 and 0.5.  On the three ages 1, 2, 3 of
    [track_data_three], age 4 gets an answer that holds the mass 15 on
    the line through (2, 19) and (3, 17). *)
Lemma track_age_out_of_range_witness :
  StellarTracks.interpolate_in table_two 10 20000000
  = Ok (point_at track_m10 (last_row track_m10))
  /\ StellarTracks.interpolate_in table_two 5.5 (-1)
     = Ok (blend ((10 - 5.5) / (10 - 1)) (point_at track_m1 0)
                 ((5.5 - 1) / (10 - 1)) (point_at track_m10 0))
  /\ exists r,
       TrackData.interpolate_in_time track_data_three 0 4 = Ok r
       /\ In ("mass", line_through 2 3 19 17 4) r.
Proof.
  assert (Hd : table_two <> []) by discriminate.
  split; [|split].
  - apply (proj1 (proj2 (proj1 track_age_out_of_range Above table_two
                           10 20000000 Hd))).
    + rewrite table_two_sorted. cbn. lra.
    + rewrite table_two_sorted. cbn. rdec. reflexivity.
    + apply (track_m10_outside Above). lra.
  - pose proof (proj2 (proj2 (proj1 track_age_out_of_range Below table_two
                                     5.5 (-1) Hd)) 0%nat track_m1 track_m10) as H.
    rewrite table_two_sorted in H. cbn [nth last List.length end_row] in H.
    apply H.
    + lia.
    + lra.
    + lra.
    + lra.
    + cbn. rdec. reflexivity.
    + cbn. rdec. reflexivity.
    + apply (track_m1_outside Below). lra.
    + apply (track_m10_outside Below). lra.
  - destruct (proj2 track_age_out_of_range track_data_three 0%Z [[1; 2; 3]]
                    [1; 2; 3] 3%nat 4 eq_refl eq_refl eq_refl) as [_ Habove].
    + lia.
    + intros [|[|i]] Hi; cbn in *; try lra; lia.
    + exact track_data_three_rows.
    + destruct Habove as (r & Hr & Hin); [cbn; lra|].
      exists r. split; [exact Hr|].
      apply (Hin "mass" [[20; 19; 17]] [20; 19; 17]); [left|..]; reflexivity.
Defined.

(** C1 as stated fails on each interpolator, at one end each.  Above
    the last age [interpolate_track] returns the last row (luminosity 20
    at age 2e7 for the track of mass 10), not the value 30 on the line
    through the last two points.  Below the first age
    [interpolate_in_time] returns the value on the line through the first
    two points (mass 21 at age 0), not the first point's value 20. *)
Lemma track_age_counterexample :
  (exists p,
     StellarTracks.interpolate_in table_two 10 20000000 = Ok p
     /\ StellarTracks.p_luminosity p = 20
     /\ StellarTracks.p_luminosity p <> line_through 0 10000000 10 20 20000000)
  /\ (exists r v,
        TrackData.interpolate_in_time track_data_three 0 0 = Ok r
        /\ In ("mass", v) r /\ v = 21
        /\ v <> nth 0 [20; 19; 17] 0).
Proof.
  split.
  - exists (point_at track_m10 (last_row track_m10)).
    split; [|split]; [|reflexivity|cbn; unfold line_through; intros E; field_simplify in E; lra].
    unfold StellarTracks.interpolate_in. rewrite table_two_sorted.
    rewrite (py_index_first [1; 10] 0) by discriminate. cbn [bind nth].
    destruct (Rle_dec 10 1); [lra|].
    rewrite (py_index_last [1; 10] 0) by discriminate. cbn [bind last].
    destruct (Rle_dec 10 10); [|lra].
    assert (Hg : StellarTracks.dict_get table_two 10 = Ok track_m10).
    { cbn. rdec. reflexivity. }
    rewrite Hg. cbn [bind].
    apply single_track_above.
    + eapply table_two_ok; exact Hg.
    + apply increasing_ascending. apply increasing_two. lra.
    + cbn. lra.
  - destruct (interpolate_in_time_outside track_data_three 0 [[1; 2; 3]] [1; 2; 3]
                3 0) as [Hbelow _];
      try reflexivity; try lia; try exact track_data_three_rows.
    { intros [|[|i]] Hi; cbn in *; try lra; lia. }
    destruct Hbelow as (r & Hr & Hin); [cbn; lra|].
    exists r, (line_through 1 2 20 19 0).
    split; [exact Hr|].
    assert (Hv : line_through 1 2 20 19 0 = 21) by (unfold line_through; field).
    split; [|split]; [| exact Hv | rewrite Hv; cbn; lra].
    apply (Hin "mass" [[20; 19; 17]] [20; 19; 17]).
    + left. reflexivity.
    + reflexivity.
    + reflexivity.
Qed.

(** * Further properties of the code *)

(** ** The integral as a measure *)

Lemma ln_quot (x y : R) : 0 < x -> 0 < y -> ln (x / y) = ln x - ln y.
Proof.
  intros Hx Hy. unfold Rdiv.
  rewrite ln_mult by (try assumption; apply Rinv_0_lt_compat; assumption).
  rewrite ln_Rinv by assumption. ring.
Qed.

Lemma segment_term_additive (alpha p q r : R) :
  0 < p -> p < q -> q < r ->
  IMF.segment_term alpha p r
  = IMF.segment_term alpha p q + IMF.segment_term alpha q r.
Proof.
  intros Hp Hpq Hqr. unfold IMF.segment_term, np_log, np_pow.
  assert (Hlog : ln (r / p) = ln (q / p) + ln (r / q)).
  { rewrite !ln_quot by lra. ring. }
  destruct (Req_dec_T alpha (-1)); [exact Hlog|].
  destruct (Req_dec_T alpha 1); [exact Hlog|].
  unfold Rdiv. ring.
Qed.

Lemma integrate_step_total (self : IMF.t) (x y t : R) (i : nat) :
  IMF.integrate_step self x y t i = t + IMF.integrate_step self x y 0 i.
Proof.
  unfold IMF.integrate_step. destruct (Rlt_dec _ _); lra.
Qed.

Section IntegrateMeasure.

Variables (n : Z) (exps lims : list R) (self : IMF.t).
Hypothesis Hinit : IMF.__init__ n exps lims = Ok self.

Local Abbreviation N := (Z.to_nat n).
Local Abbreviation L i := (nth i lims 0).

(** The clamping of the two bounds to the domain changes no term of the
    loop: every interval lies inside the domain. *)
Lemma integrate_step_clamp (x y t : R) (i : nat) :
  (i < N)%nat ->
  IMF.integrate_step self (Rmax x (L 0%nat)) (Rmin y (L N)) t i
  = IMF.integrate_step self x y t i.
Proof.
  intros Hi.
  destruct (imf_shape n exps lims self Hinit) as (Hn & He & Hl & Hlen & Hinc & Hlast).
  unfold IMF.integrate_step, get. rewrite Hl.
  assert (H0 : L 0%nat <= L i) by (apply (limits_le n exps lims self Hinit); lia).
  assert (H1 : L (i + 1)%nat <= L N) by (apply (limits_le n exps lims self Hinit); lia).
  replace (Rmax (Rmax x (L 0%nat)) (L i)) with (Rmax x (L i)).
  2:{ unfold Rmax. repeat destruct (Rle_dec _ _); lra. }
  replace (Rmin (Rmin y (L N)) (L (i + 1)%nat)) with (Rmin y (L (i + 1)%nat)).
  2:{ unfold Rmin. repeat destruct (Rle_dec _ _); lra. }
  reflexivity.
Qed.

(** [integrate] is the loop over the intervals, run on the bounds as
    they were given. *)
Lemma integrate_unclamped (x y : R) :
  IMF.integrate self x y
  = fold_left (IMF.integrate_step self x y) (seq 0 N) 0.
Proof.
  destruct (imf_shape n exps lims self Hinit) as (Hn & He & Hl & Hlen & Hinc & Hlast).
  unfold IMF.integrate. rewrite Hl, Hn, Hlast. unfold get.
  destruct (Rle_dec _ _) as [Hle|Hgt].
  - symmetry. apply fold_left_unchanged. intros j Hj t. apply in_seq in Hj.
    rewrite <- integrate_step_clamp by lia.
    unfold IMF.integrate_step, get. rewrite Hl.
    assert (L 0%nat <= L j) by (apply (limits_le n exps lims self Hinit); lia).
    assert (L (j + 1)%nat <= L N) by (apply (limits_le n exps lims self Hinit); lia).
    destruct (Rlt_dec _ _) as [Hlt|]; [|reflexivity].
    exfalso. revert Hlt Hle. unfold Rmax, Rmin.
    repeat destruct (Rle_dec _ _); lra.
  - apply fold_left_agree. intros j Hj t. apply in_seq in Hj.
    apply integrate_step_clamp. lia.
Qed.

Hypothesis Hpos : 0 < nth 0 lims 0.

Lemma integrate_step_additive (a b c : R) (i : nat) :
  (i < N)%nat -> a <= b -> b <= c ->
  IMF.integrate_step self a c 0 i
  = IMF.integrate_step self a b 0 i + IMF.integrate_step self b c 0 i.
Proof.
  intros Hi Hab Hbc.
  destruct (imf_shape n exps lims self Hinit) as (Hn & He & Hl & Hlen & Hinc & Hlast).
  unfold IMF.integrate_step, get. rewrite Hl.
  assert (H0 : L 0%nat <= L i) by (apply (limits_le n exps lims self Hinit); lia).
  assert (H2 : L i < L (i + 1)%nat) by (apply (limits_lt n exps lims self Hinit); lia).
  set (lo := L i) in *. set (hi := L (i + 1)%nat) in *.
  set (e := nth i (IMF.exponents self) 0).
  destruct (Rle_dec b lo) as [Hlo|Hlo]; [|destruct (Rle_dec hi b) as [Hhi|Hhi]].
  - rewrite (Rmax_right a lo), (Rmax_right b lo), (Rmin_left b hi) by lra.
    destruct (Rlt_dec lo b); [lra|].
    destruct (Rlt_dec lo (Rmin c hi)); lra.
  - rewrite (Rmin_right b hi), (Rmin_right c hi), (Rmax_left b lo) by lra.
    destruct (Rlt_dec b hi); [lra|].
    destruct (Rlt_dec (Rmax a lo) hi); lra.
  - rewrite (Rmax_left b lo), (Rmin_left b hi) by lra.
    assert (Hp : lo <= Rmax a lo) by apply Rmax_r.
    assert (Hpb : Rmax a lo <= b) by (apply Rmax_lub; lra).
    assert (Hbq : b <= Rmin c hi) by (apply Rmin_glb; lra).
    set (p := Rmax a lo) in *. set (q := Rmin c hi) in *.
    destruct (Rlt_dec p b) as [H1|H1]; destruct (Rlt_dec b q) as [H3|H3];
      destruct (Rlt_dec p q) as [H4|H4]; try lra.
    + rewrite (segment_term_additive e p b q) by lra. lra.
    + replace q with b by lra. lra.
    + replace p with b by lra. lra.
Qed.

Lemma integrate_fold_additive (a b c : R) (l : list nat) :
  a <= b -> b <= c -> (forall i, In i l -> (i < N)%nat) ->
  forall x y,
    fold_left (IMF.integrate_step self a c) l (x + y)
    = fold_left (IMF.integrate_step self a b) l x
      + fold_left (IMF.integrate_step self b c) l y.
Proof.
  intros Hab Hbc. induction l as [|i tl IH]; intros Hl x y; cbn [fold_left];
    [reflexivity|].
  rewrite <- IH by (intros j Hj; apply Hl; right; exact Hj).
  f_equal.
  rewrite (integrate_step_total self a c), (integrate_step_total self a b),
    (integrate_step_total self b c y).
  rewrite (integrate_step_additive a b c i) by (try assumption; apply Hl; left; reflexivity).
  ring.
Qed.

Lemma integrate_additive_in (a b c : R) :
  a <= b -> b <= c ->
  IMF.integrate self a c = IMF.integrate self a b + IMF.integrate self b c.
Proof.
  intros Hab Hbc. rewrite !integrate_unclamped.
  replace 0 with (0 + 0) at 1 by lra.
  apply integrate_fold_additive; try assumption.
  intros i Hi. apply in_seq in Hi. lia.
Qed.




End IntegrateMeasure.

(** X1.  In exact arithmetic, that is for the closed form of
    [integrate] read over the real numbers (on doubles the two sides
    agree up to rounding only): for an IMF that [IMF(...)] has accepted
    and whose lowest mass limit is positive, [integrate] is additive; for
    any three masses [a <= b <= c], inside the domain or not, the integral
    over [a, c] is the sum of the integrals over [a, b] and over
    [b, c]. *)
Theorem integrate_additive (n : Z) (exps lims : list R) (self : IMF.t) (a b c : R) :
  IMF.__init__ n exps lims = Ok self ->
  0 < nth 0 lims 0 ->
  a <= b -> b <= c ->
  IMF.integrate self a c = IMF.integrate self a b + IMF.integrate self b c.
Proof.
  intros Hinit Hpos Hab Hbc. exact (integrate_additive_in n exps lims self Hinit Hpos a b c Hab Hbc).
Qed.

Lemma integrate_additive_witness :
  IMF.integrate imf_two 2 50 = IMF.integrate imf_two 2 10 + IMF.integrate imf_two 10 50.
Proof.
  apply (integrate_additive 2 [2.35; 1] [1; 10; 100] imf_two 2 10 50 imf_two_init).
  - cbn. lra.
  - lra.
  - lra.
Defined.



(** ** One interval at a time *)

(** Inside one interval the loop of [integrate] adds the closed form
    of that interval and nothing else. *)
Lemma integrate_in_segment (n : Z) (exps lims : list R) (self : IMF.t)
      (i : nat) (a b : R) :
  IMF.__init__ n exps lims = Ok self ->
  (i < Z.to_nat n)%nat ->
  nth i lims 0 <= a -> a < b -> b <= nth (S i) lims 0 ->
  IMF.integrate self a b = IMF.segment_term (nth i exps 0) a b.
Proof.
  intros Hinit Hi Ha Hab Hb.
  destruct (imf_shape n exps lims self Hinit) as (Hn & He & Hl & Hlen & Hinc & Hlast).
  rewrite (integrate_unclamped n exps lims self Hinit).
  replace (seq 0 (Z.to_nat n))
    with (seq 0 i ++ i :: seq (S i) (Z.to_nat n - S i))%list.
  2:{ change (i :: seq (S i) (Z.to_nat n - S i)) with (seq i (S (Z.to_nat n - S i))).
      rewrite <- seq_app. f_equal. lia. }
  rewrite fold_left_app. cbn [fold_left].
  rewrite (fold_left_unchanged _ (seq 0 i)).
  2:{ intros j Hj t. apply in_seq in Hj. unfold IMF.integrate_step, get.
      rewrite Hl.
      assert (nth (j + 1) lims 0 <= nth i lims 0)
        by (apply (limits_le n exps lims self Hinit); lia).
      assert (Rmin b (nth (j + 1) lims 0) <= nth (j + 1) lims 0) by apply Rmin_r.
      assert (a <= Rmax a (nth j lims 0)) by apply Rmax_l.
      destruct (Rlt_dec _ _); [lra | reflexivity]. }
  rewrite fold_left_unchanged.
  2:{ intros j Hj t. apply in_seq in Hj. unfold IMF.integrate_step, get.
      rewrite Hl.
      assert (nth (S i) lims 0 <= nth j lims 0)
        by (apply (limits_le n exps lims self Hinit); lia).
      assert (Rmin b (nth (j + 1) lims 0) <= b) by apply Rmin_l.
      assert (nth j lims 0 <= Rmax a (nth j lims 0)) by apply Rmax_r.
      destruct (Rlt_dec _ _); [lra | reflexivity]. }
  unfold IMF.integrate_step, get. rewrite Hl, He.
  replace (i + 1)%nat with (S i) by lia.
  rewrite (Rmax_left a (nth i lims 0)), (Rmin_left b (nth (S i) lims 0)) by lra.
  destruct (Rlt_dec a b); [lra | lra].
Qed.

(** X3.  For an IMF that [IMF(...)] has accepted and whose lowest mass
    limit is positive, and a range [a < b] inside interval [i]:
    [_integrate_segment(i, a, b, exponents[i])] returns without raising,
    and its value is [integrate(a, b)]; the loop of [integrate] adds
    nothing for the other intervals. *)
Theorem integrate_within_segment (n : Z) (exps lims : list R) (self : IMF.t)
        (i : nat) (a b : R) :
  IMF.__init__ n exps lims = Ok self ->
  0 < nth 0 lims 0 ->
  (i < Z.to_nat n)%nat ->
  nth i lims 0 <= a -> a < b -> b <= nth (S i) lims 0 ->
  IMF._integrate_segment self (Z.of_nat i) a b (nth i exps 0)
  = Ok (IMF.integrate self a b).
Proof.
  intros Hinit Hpos Hi Ha Hab Hb.
  assert (H0 : nth 0 lims 0 <= nth i lims 0)
    by (apply (limits_le n exps lims self Hinit); lia).
  rewrite (integrate_in_segment n exps lims self i a b Hinit Hi Ha Hab Hb).
  unfold IMF._integrate_segment, IMF.segment_term, py_div, py_pow, np_pow.
  destruct (Req_dec_T a 0); [lra|]. destruct (Req_dec_T b 0); [lra|].
  destruct (Req_dec_T (nth i exps 0) 1) as [E1|E1];
    destruct (Req_dec_T (nth i exps 0) (-1)) as [E2|E2]; cbn [bind];
      try (f_equal; lra).
  destruct (Req_dec_T (- nth i exps 0 + 1) 0); [lra|]. f_equal.
Qed.

Lemma integrate_within_segment_witness :
  IMF._integrate_segment imf_two 0 2 5 2.35 = Ok (IMF.integrate imf_two 2 5).
Proof.
  apply (integrate_within_segment 2 [2.35; 1] [1; 10; 100] imf_two 0 2 5 imf_two_init).
  - cbn. lra.
  - cbn. lia.
  - cbn. lra.
  - lra.
  - cbn. lra.
Defined.

(** X4.  The constants of [_calculate_normalizations] follow the sign
    convention opposite to that of [integrate]: for an accepted IMF with
    a positive lowest mass limit and no exponent equal to 1,
    [normalizations[i]] is the integral over interval [i] of the IMF that
    has every exponent negated. *)
Theorem normalizations_negated_exponents (n : Z) (exps lims : list R) (self : IMF.t) :
  IMF.__init__ n exps lims = Ok self ->
  0 < nth 0 lims 0 ->
  (forall i, (i < Z.to_nat n)%nat -> nth i exps 0 <> 1) ->
  exists negated,
    IMF.__init__ n (map Ropp exps) lims = Ok negated
    /\ IMF.normalizations self
       = map (fun i => IMF.integrate negated (nth i lims 0) (nth (S i) lims 0))
             (seq 0 (Z.to_nat n)).
Proof.
  intros Hinit Hpos Hexp.
  destruct (init_ok_fields _ _ _ _ Hinit) as (Hi & He & Hl & Hle & Hll & Hinc).
  assert (Hneg : exists negated, IMF.__init__ n (map Ropp exps) lims = Ok negated).
  { apply init_ok_iff, validate_ok_iff. rewrite length_map. tauto. }
  destruct Hneg as [negated Hneg]. exists negated. split; [exact Hneg|].
  unfold IMF.__init__ in Hinit.
  destruct (IMF._validate_parameters n exps lims); [|discriminate].
  cbn [bind] in Hinit. inversion Hinit as [Hself]. cbn [IMF.normalizations].
  unfold IMF._calculate_normalizations.
  apply map_ext_in. intros i Hin. apply in_seq in Hin.
  rewrite (integrate_segment n (map Ropp exps) lims negated Hneg i) by lia.
  unfold get. replace (i + 1)%nat with (S i) by lia.
  assert (Hnth : nth i (map Ropp exps) 0 = - nth i exps 0).
  { rewrite <- Ropp_0 at 1. apply map_nth. }
  rewrite Hnth. unfold IMF.segment_term, np_pow, np_log.
  pose proof (Hexp i ltac:(lia)) as Hne.
  destruct (Req_dec_T (nth i exps 0) (-1)) as [E|E].
  - destruct (Req_dec_T (- nth i exps 0) (-1)); [lra|].
    destruct (Req_dec_T (- nth i exps 0) 1); [reflexivity | lra].
  - destruct (Req_dec_T (- nth i exps 0) (-1)); [lra|].
    destruct (Req_dec_T (- nth i exps 0) 1); [lra|].
    replace (- - nth i exps 0 + 1) with (nth i exps 0 + 1) by lra. reflexivity.
Qed.

Lemma normalizations_negated_exponents_witness :
  exists negated,
    IMF.__init__ 1 (map Ropp [2.35]) [1; 100] = Ok negated
    /\ IMF.normalizations (IMF.mk 1 [2.35] [1; 100]
                                  (IMF._calculate_normalizations 1 [2.35] [1; 100]))
       = map (fun i => IMF.integrate negated (nth i [1; 100] 0) (nth (S i) [1; 100] 0))
             (seq 0 (Z.to_nat 1)).
Proof.
  apply (normalizations_negated_exponents 1 [2.35] [1; 100]).
  - unfold IMF.__init__, IMF._validate_parameters. pyeval. reflexivity.
  - cbn. lra.
  - intros [|i] Hi; [cbn; lra | cbn in Hi; lia].
Defined.

(** ** Sampling with or without a seed *)

(** X5.  In exact arithmetic, that is for the formulas of [sample]
    read over the real numbers (on doubles a mass drawn at the edge of its
    interval can fall one rounding step outside): for an accepted IMF
    with at least one interval, a positive lowest mass limit and no
    exponent equal to 1, and for a seed that [np.random.seed] accepts
    (none, or an integer from 0 to 2^32 - 1), [sample] returns [n_stars]
    masses, each inside [mass_limits[0], mass_limits[-1]], whether it is
    seeded or draws from the generator as it stands. *)
Theorem sample_masses_in_domain (mt19937 : Z -> NpRandom.state) (n : Z)
        (exps lims : list R) (self : IMF.t) (n_stars : Z) (seed : option Z)
        (g : NpRandom.state) :
  IMF.__init__ n exps lims = Ok self ->
  (1 <= n)%Z ->
  0 < nth 0 lims 0 ->
  (forall i, (i < Z.to_nat n)%nat -> nth i exps 0 <> 1) ->
  match seed with Some s => (0 <= s < 2 ^ 32)%Z | None => True end ->
  (forall s i, 0 <= mt19937 s i < 1) ->
  (forall i, 0 <= g i < 1) ->
  exists out g',
    IMF.sample mt19937 self n_stars seed g = Ok (out, g')
    /\ List.length out = Z.to_nat n_stars
    /\ Forall (fun m => nth 0 lims 0 <= m <= last lims 0) out.
Proof.
  intros Hinit Hn Hpos Hexp Hseed Hmt Hg. unfold IMF.sample.
  destruct (imf_shape n exps lims self Hinit) as (Hi & _).
  rewrite Hi.
  set (raw := map (fun i => IMF.integrate self (get (IMF.mass_limits self) i)
                                          (get (IMF.mass_limits self) (i + 1)))
                  (seq 0 (Z.to_nat n))).
  pose proof (interval_probs_positive n exps lims self Hinit Hpos) as Hraw.
  fold raw in Hraw.
  assert (Hlen : List.length raw = Z.to_nat n)
    by (unfold raw; rewrite length_map, length_seq; reflexivity).
  assert (Htotal : 0 < np_sum raw).
  { unfold np_sum. apply fold_plus_pos; [exact Hraw | lra|].
    intros E. rewrite E in Hlen. cbn in Hlen. lia. }
  destruct (sample_loop_in_range n exps lims self Hinit Hn Hpos Hexp
                                 (map (fun p => p / np_sum raw) raw)
                                 (Z.to_nat n_stars))
    with (masses := @nil R)
         (g := match seed with Some s => mt19937 s | None => g end)
    as (out & g' & Hout & Hdom).
  - rewrite length_map. exact Hlen.
  - apply Forall_forall. intros p Hp. apply in_map_iff in Hp.
    destruct Hp as (q & <- & Hq). rewrite Forall_forall in Hraw.
    apply Rdiv_lt_0_compat; [apply Hraw; exact Hq | exact Htotal].
  - rewrite np_sum_scaled. field. lra.
  - intros i. destruct seed; [apply Hmt | apply Hg].
  - constructor.
  - exists out, g'. split; [exact Hout|]. split; [|exact Hdom].
    apply sample_loop_length in Hout. exact Hout.
Qed.

Lemma sample_masses_in_domain_witness :
  exists out g',
    IMF.sample (fun _ _ => 0)
               (IMF.mk 1 [2.35] [1; 100] (IMF._calculate_normalizations 1 [2.35] [1; 100]))
               3 (Some 42%Z) (fun _ => 0.5) = Ok (out, g')
    /\ List.length out = Z.to_nat 3
    /\ Forall (fun m => nth 0 [1; 100] 0 <= m <= last [1; 100] 0) out.
Proof.
  apply (sample_masses_in_domain (fun _ _ => 0) 1 [2.35] [1; 100]).
  - unfold IMF.__init__, IMF._validate_parameters. pyeval. reflexivity.
  - lia.
  - cbn. lra.
  - intros [|i] Hi; [cbn; lra | cbn in Hi; lia].
  - lia.
  - intros s i. lra.
  - intros i. lra.
Defined.

(** ** The hand-written interpolators *)

(** Strictly inside a segment [np.interp] is on its chord. *)
Lemma interp_scan_inside (xp : list R) :
  forall (fp : list R) (k : nat) (x : R),
    increasing xp -> List.length fp = List.length xp -> (S k < List.length xp)%nat ->
    nth k xp 0 < x -> x < nth (S k) xp 0 ->
    StellarTracks.interp_scan x xp fp
    = (nth (S k) fp 0 - nth k fp 0) / (nth (S k) xp 0 - nth k xp 0) * (x - nth k xp 0)
      + nth k fp 0.
Proof.
  induction xp as [|x0 xtl IH]; intros fp k x Hinc Hlen Hk Hlo Hhi;
    [cbn in Hk; lia|].
  destruct xtl as [|x1 xtl]; [cbn in Hk; lia|].
  destruct fp as [|y0 [|y1 ytl]]; try (cbn in Hlen; lia).
  rewrite interp_scan_step.
  destruct k as [|k].
  - cbn [nth] in *. destruct (Rlt_dec x x1); [|lra].
    destruct (Req_dec_T x x0); [lra | reflexivity].
  - assert (Hx1 : x1 <= nth (S k) (x0 :: x1 :: xtl) 0).
    { apply (increasing_le (x0 :: x1 :: xtl) 1 (S k)); [exact Hinc | lia|].
      cbn [List.length] in *. lia. }
    destruct (Rlt_dec x x1); [lra|].
    change (nth (S (S k)) (x0 :: x1 :: xtl) 0) with (nth (S k) (x1 :: xtl) 0) in *.
    change (nth (S k) (x0 :: x1 :: xtl) 0) with (nth k (x1 :: xtl) 0) in *.
    change (nth (S (S k)) (y0 :: y1 :: ytl) 0) with (nth (S k) (y1 :: ytl) 0).
    change (nth (S k) (y0 :: y1 :: ytl) 0) with (nth k (y1 :: ytl) 0).
    apply IH; try assumption.
    + eapply increasing_tail; exact Hinc.
    + cbn [List.length] in *. lia.
    + cbn [List.length] in *. lia.
Qed.

(** X6.  On a strictly increasing, non-empty abscissa with as many
    ordinates, [linear_interp] does not raise.  At or below the first
    abscissa it returns the first ordinate; at or above the last one the
    last ordinate; and for [x_arr[k] < x <= x_arr[k+1]], below the last
    abscissa, the value [y1 + (y2 - y1) * (x - x1) / (x2 - x1)] of its own
    formula on the segment from [(x1, y1) = (x_arr[k], y_arr[k])] to
    [(x2, y2) = (x_arr[k+1], y_arr[k+1])]. *)
Theorem linear_interp_piecewise (x : R) (x_arr y_arr : list R) :
  increasing x_arr -> x_arr <> [] -> List.length y_arr = List.length x_arr ->
  (x <= nth 0 x_arr 0 -> linear_interp x x_arr y_arr = Ok (nth 0 y_arr 0))
  /\ (nth 0 x_arr 0 < x -> last x_arr 0 <= x ->
      linear_interp x x_arr y_arr = Ok (last y_arr 0))
  /\ (forall k : nat,
         (S k < List.length x_arr)%nat ->
         nth k x_arr 0 < x -> x <= nth (S k) x_arr 0 -> x < last x_arr 0 ->
         linear_interp x x_arr y_arr
         = Ok (nth k y_arr 0
               + (nth (S k) y_arr 0 - nth k y_arr 0) * (x - nth k x_arr 0)
                 / (nth (S k) x_arr 0 - nth k x_arr 0))).
Proof.
  intros Hinc Hne Hlen.
  assert (Hyne : y_arr <> []).
  { intros E. rewrite E in Hlen. destruct x_arr; [congruence | discriminate]. }
  assert (Hpos : (0 < List.length x_arr)%nat)
    by (destruct x_arr; [congruence | cbn; lia]).
  unfold linear_interp.
  rewrite (py_index_first x_arr 0) by assumption. cbn [bind].
  split; [|split].
  - intros Hle. destruct (Rle_dec x (nth 0 x_arr 0)); [|lra].
    apply py_index_first. assumption.
  - intros Hgt Hge. destruct (Rle_dec x (nth 0 x_arr 0)); [lra|].
    rewrite (py_index_last x_arr 0) by assumption. cbn [bind].
    destruct (Rle_dec (last x_arr 0) x); [|lra].
    apply py_index_last. assumption.
  - intros k Hk Hlo Hhi Hlast.
    assert (nth 0 x_arr 0 <= nth k x_arr 0)
      by (apply increasing_le; [assumption | lia | lia]).
    destruct (Rle_dec x (nth 0 x_arr 0)); [lra|].
    rewrite (py_index_last x_arr 0) by assumption. cbn [bind].
    destruct (Rle_dec (last x_arr 0) x); [lra|].
    rewrite (searchsorted_between x_arr x k)
      by (try apply increasing_ascending; assumption).
    replace (Z.of_nat (S k) - 1)%Z with (Z.of_nat k) by lia.
    replace (Z.of_nat k + 1)%Z with (Z.of_nat (S k)) by lia.
    rewrite (py_index_nat x_arr k 0), (py_index_nat x_arr (S k) 0),
      (py_index_nat y_arr k 0), (py_index_nat y_arr (S k) 0) by lia.
    reflexivity.
Qed.

Lemma linear_interp_piecewise_witness :
  linear_interp 1.5 [0; 1; 2; 3] [0; 2; 4; 6]
  = Ok (2 + (4 - 2) * (1.5 - 1) / (2 - 1)).
Proof.
  refine (proj2 (proj2 (linear_interp_piecewise 1.5 [0; 1; 2; 3] [0; 2; 4; 6]
                          _ _ _)) 1%nat _ _ _ _).
  - intros [|[|[|i]]] Hi; cbn in *; try lra; lia.
  - discriminate.
  - reflexivity.
  - cbn. lia.
  - cbn. lra.
  - cbn. lra.
  - cbn. lra.
Defined.

(** X7.  On an abscissa of at least two points that increases by at
    least the tolerance [1e-10] from each point to the next, with as many
    ordinates, [_linear_interpolate] at a sample point returns that
    sample: first, last or inner. *)
Theorem linear_interpolate_round_trip (x y : list R) (j : nat) :
  (2 <= List.length x)%nat -> List.length y = List.length x ->
  (forall i, (S i < List.length x)%nat -> 1e-10 <= nth (S i) x 0 - nth i x 0) ->
  (j < List.length x)%nat ->
  StellarTracks._linear_interpolate x y (nth j x 0) = Ok (nth j y 0).
Proof.
  intros Hlen2 Hlen Hgap Hj.
  assert (Hinc : increasing x) by (intros i Hi; specialize (Hgap i Hi); lra).
  assert (Hne : x <> []) by (intros E; rewrite E in Hlen2; cbn in Hlen2; lia).
  assert (Hyne : y <> []) by (intros E; rewrite E in Hlen; cbn in Hlen; lia).
  unfold StellarTracks._linear_interpolate.
  destruct (Z.of_nat (List.length x) <? 2)%Z eqn:E2; [apply Z.ltb_lt in E2; lia|].
  rewrite (py_index_first x 0) by assumption. cbn [bind].
  destruct (Rle_dec (nth j x 0) (nth 0 x 0)) as [Hle|Hgt].
  - destruct j as [|j]; [apply py_index_first; assumption|].
    pose proof (increasing_lt x 0 (S j) Hinc ltac:(lia) Hj). lra.
  - rewrite (py_index_last x 0) by assumption. cbn [bind].
    destruct (Rle_dec (last x 0) (nth j x 0)) as [Hge|Hlt].
    + rewrite last_nth in Hge.
      destruct (Nat.eq_dec j (List.length x - 1)) as [->|Hj'].
      * rewrite (py_index_last y 0), last_nth, Hlen by assumption. reflexivity.
      * pose proof (increasing_lt x j (List.length x - 1) Hinc ltac:(lia) ltac:(lia)).
        lra.
    + rewrite searchsorted_index by assumption.
      assert (Hj0 : (1 <= j)%nat) by (destruct j; [lra | lia]).
      destruct (Z.of_nat j >=? Z.of_nat (List.length x))%Z eqn:E3;
        [apply Z.geb_le in E3; lia|].
      destruct (Z.of_nat j >? 0)%Z eqn:E4; [|rewrite Z.gtb_ltb in E4; apply Z.ltb_ge in E4; lia].
      replace (Z.of_nat j - 1)%Z with (Z.of_nat (j - 1)) by lia.
      rewrite (py_index_nat x (j - 1) 0) by lia. cbn [bind].
      pose proof (Hgap (j - 1)%nat) as Hg. replace (S (j - 1)) with j in Hg by lia.
      specialize (Hg Hj).
      destruct (Rlt_dec (Rabs (nth (j - 1) x 0 - nth j x 0)) 1e-10) as [Hn|_];
        [exfalso; revert Hn; unfold Rabs; destruct (Rcase_abs _); lra|].
      destruct (Z.of_nat j <? Z.of_nat (List.length x))%Z eqn:E5;
        [|apply Z.ltb_ge in E5; lia].
      rewrite (py_index_nat x j 0) by lia. cbn [bind].
      destruct (Rlt_dec (Rabs (nth j x 0 - nth j x 0)) 1e-10) as [_|Hn].
      * apply py_index_nat. lia.
      * exfalso. apply Hn. replace (nth j x 0 - nth j x 0) with 0 by lra.
        rewrite Rabs_R0. lra.
Qed.

Lemma linear_interpolate_round_trip_witness :
  StellarTracks._linear_interpolate [0; 1; 2] [5; 7; 4] (nth 1 [0; 1; 2] 0)
  = Ok (nth 1 [5; 7; 4] 0).
Proof.
  apply linear_interpolate_round_trip.
  - cbn. lia.
  - reflexivity.
  - intros [|[|i]] Hi; cbn in *; try lra; lia.
  - cbn. lia.
Defined.

(** X8.  On a strictly increasing abscissa of at least two points with
    as many ordinates, at a point [xi] that is at least [1e-10] away from
    every sample point, [_linear_interpolate] returns the first ordinate
    below the first abscissa, the last ordinate above the last one, and
    for [x[k] < xi < x[k+1]] the value
    [y1 + (xi - x1) * (y2 - y1) / (x2 - x1)] of its own formula on the
    segment from [(x1, y1) = (x[k], y[k])] to
    [(x2, y2) = (x[k+1], y[k+1])]. *)
Theorem linear_interpolate_away_from_samples (x y : list R) (xi : R) :
  increasing x -> (2 <= List.length x)%nat -> List.length y = List.length x ->
  (forall j, (j < List.length x)%nat -> 1e-10 <= Rabs (nth j x 0 - xi)) ->
  (xi < nth 0 x 0 -> StellarTracks._linear_interpolate x y xi = Ok (nth 0 y 0))
  /\ (last x 0 < xi -> StellarTracks._linear_interpolate x y xi = Ok (last y 0))
  /\ (forall k : nat,
         (S k < List.length x)%nat -> nth k x 0 < xi -> xi < nth (S k) x 0 ->
         StellarTracks._linear_interpolate x y xi
         = Ok (nth k y 0
               + (xi - nth k x 0) * (nth (S k) y 0 - nth k y 0)
                 / (nth (S k) x 0 - nth k x 0))).
Proof.
  intros Hinc Hlen2 Hlen Hfar.
  assert (Hne : x <> []) by (intros E; rewrite E in Hlen2; cbn in Hlen2; lia).
  assert (Hyne : y <> []) by (intros E; rewrite E in Hlen; cbn in Hlen; lia).
  assert (H0N : nth 0 x 0 <= last x 0).
  { rewrite last_nth. apply increasing_le; [assumption | lia | lia]. }
  unfold StellarTracks._linear_interpolate.
  destruct (Z.of_nat (List.length x) <? 2)%Z eqn:E2; [apply Z.ltb_lt in E2; lia|].
  rewrite (py_index_first x 0) by assumption. cbn [bind].
  split; [|split].
  - intros Hlt. destruct (Rle_dec xi (nth 0 x 0)); [|lra].
    apply py_index_first. assumption.
  - intros Hgt. destruct (Rle_dec xi (nth 0 x 0)); [lra|].
    rewrite (py_index_last x 0) by assumption. cbn [bind].
    destruct (Rle_dec (last x 0) xi); [|lra].
    apply py_index_last. assumption.
  - intros k Hk Hlo Hhi.
    assert (nth 0 x 0 <= nth k x 0)
      by (apply increasing_le; [assumption | lia | lia]).
    assert (nth (S k) x 0 <= last x 0)
      by (rewrite last_nth; apply increasing_le; [assumption | lia | lia]).
    destruct (Rle_dec xi (nth 0 x 0)); [lra|].
    rewrite (py_index_last x 0) by assumption. cbn [bind].
    destruct (Rle_dec (last x 0) xi); [lra|].
    rewrite (searchsorted_between x xi k)
      by (try apply increasing_ascending; try assumption; lra).
    destruct (Z.of_nat (S k) >=? Z.of_nat (List.length x))%Z eqn:E3;
      [apply Z.geb_le in E3; lia|].
    destruct (Z.of_nat (S k) >? 0)%Z eqn:E4;
      [|rewrite Z.gtb_ltb in E4; apply Z.ltb_ge in E4; lia].
    destruct (Z.of_nat (S k) <? Z.of_nat (List.length x))%Z eqn:E5;
      [|apply Z.ltb_ge in E5; lia].
    replace (Z.of_nat (S k) - 1)%Z with (Z.of_nat k) by lia.
    rewrite (py_index_nat x k 0), (py_index_nat x (S k) 0),
      (py_index_nat y k 0), (py_index_nat y (S k) 0) by lia.
    cbn [bind andb].
    pose proof (Hfar k ltac:(lia)) as Hl.
    pose proof (Hfar (S k) Hk) as Hr.
    assert (Hl' : 1e-10 <= xi - nth k x 0)
      by (revert Hl; unfold Rabs; destruct (Rcase_abs _); lra).
    assert (Hr' : 1e-10 <= nth (S k) x 0 - xi)
      by (revert Hr; unfold Rabs; destruct (Rcase_abs _); lra).
    destruct (Rlt_dec (Rabs (nth k x 0 - xi)) 1e-10); [lra|].
    destruct (Rlt_dec (Rabs (nth (S k) x 0 - xi)) 1e-10); [lra|].
    destruct (Rlt_dec (Rabs (nth (S k) x 0 - nth k x 0)) 1e-10) as [Hn|_];
      [exfalso; revert Hn; unfold Rabs; destruct (Rcase_abs _); lra|].
    reflexivity.
Qed.

Lemma linear_interpolate_away_from_samples_witness :
  StellarTracks._linear_interpolate [0; 1; 2] [5; 7; 4] 0.5
  = Ok (5 + (0.5 - 0) * (7 - 5) / (1 - 0)).
Proof.
  refine (proj2 (proj2 (linear_interpolate_away_from_samples
                          [0; 1; 2] [5; 7; 4] 0.5 _ _ _ _)) 0%nat _ _ _).
  - intros [|[|i]] Hi; cbn in *; try lra; lia.
  - cbn. lia.
  - reflexivity.
  - intros [|[|[|j]]] Hj; cbn in *; try lia;
      unfold Rabs; destruct (Rcase_abs _); lra.
  - cbn. lia.
  - cbn. lra.
  - cbn. lra.
Defined.

Lemma float_eps_pos : 0 < float_eps.
Proof. unfold float_eps. apply Rinv_0_lt_compat, pow_lt. lra. Qed.

(** X9.  [flin] never raises, whatever its five arguments.  When the
    two abscissae are closer than the machine epsilon it returns [y1]
    instead of dividing; otherwise it returns the value
    [y1 + (y2 - y1) * (x - x1) / (x2 - x1)] of its formula, the divisor
    being other than zero, and that value is [y1] at [x = x1]. *)
Theorem flin_total (x x1 x2 y1 y2 : R) :
  exists v,
    flin x x1 x2 y1 y2 = Ok v
    /\ (Rabs (x2 - x1) < float_eps -> v = y1)
    /\ (float_eps <= Rabs (x2 - x1) ->
        x2 - x1 <> 0 /\ v = y1 + (y2 - y1) * (x - x1) / (x2 - x1))
    /\ (x = x1 -> v = y1).
Proof.
  pose proof float_eps_pos as Heps.
  unfold flin. destruct (Rlt_dec (Rabs (x2 - x1)) float_eps) as [Hclose|Hfar].
  - exists y1. split; [reflexivity|]. split; [reflexivity|]. split; [lra|].
    reflexivity.
  - assert (Hne : x2 - x1 <> 0).
    { intros E. apply Hfar. rewrite E, Rabs_R0. exact Heps. }
    unfold py_div. destruct (Req_dec_T (x2 - x1) 0); [contradiction|].
    cbn [bind]. eexists. split; [reflexivity|]. split; [|split].
    + intros Hc. contradiction.
    + intros _. split; [exact Hne | reflexivity].
    + intros ->. replace (x1 - x1) with 0 by lra. unfold Rdiv. ring.
Qed.

(** ** The nearest tabulated mass *)

(** The scan of [np.argmin] over the distances to [m]: [pre] is the
    part of the array already seen, [best] the first index of its least
    distance. *)
Lemma argmin_from_spec (m : R) (a : list R) :
  forall (pre : list R) (best : nat),
    (best < List.length pre)%nat ->
    (forall k, (k < List.length pre)%nat ->
               Rabs (nth best pre 0 - m) <= Rabs (nth k pre 0 - m)) ->
    (forall k, (k < best)%nat ->
               Rabs (nth best pre 0 - m) < Rabs (nth k pre 0 - m)) ->
    let r := TrackData.argmin_from m a (List.length pre) best
                                   (Rabs (nth best pre 0 - m)) in
    let full := (pre ++ a)%list in
    (r < List.length full)%nat
    /\ (forall k, (k < List.length full)%nat ->
                  Rabs (nth r full 0 - m) <= Rabs (nth k full 0 - m))
    /\ (forall k, (k < r)%nat ->
                  Rabs (nth r full 0 - m) < Rabs (nth k full 0 - m)).
Proof.
  induction a as [|x tl IH]; intros pre best Hb Hmin Hfirst.
  - cbn [TrackData.argmin_from]. rewrite app_nil_r.
    split; [exact Hb|]. split; assumption.
  - cbn [TrackData.argmin_from].
    assert (Hfull : ((pre ++ [x]) ++ tl = pre ++ x :: tl)%list)
      by (rewrite <- app_assoc; reflexivity).
    assert (Hlen : List.length (pre ++ [x])%list = S (List.length pre))
      by (rewrite length_app; cbn; lia).
    assert (Hx : nth (List.length pre) (pre ++ [x])%list 0 = x)
      by (rewrite app_nth2 by lia; rewrite Nat.sub_diag; reflexivity).
    destruct (Rlt_dec (Rabs (x - m)) (Rabs (nth best pre 0 - m))) as [Hlt|Hge].
    + specialize (IH (pre ++ [x])%list (List.length pre)).
      rewrite Hlen, Hx, Hfull in IH. apply IH.
      * lia.
      * intros k Hk. destruct (Nat.eq_dec k (List.length pre)) as [->|Hne].
        -- rewrite Hx. lra.
        -- rewrite app_nth1 by lia. specialize (Hmin k ltac:(lia)). lra.
      * intros k Hk. rewrite app_nth1 by lia. specialize (Hmin k Hk). lra.
    + specialize (IH (pre ++ [x])%list best).
      rewrite Hlen, Hfull in IH. rewrite (app_nth1 pre [x] 0 Hb) in IH. apply IH.
      * lia.
      * intros k Hk. destruct (Nat.eq_dec k (List.length pre)) as [->|Hne].
        -- rewrite Hx. lra.
        -- rewrite (app_nth1 pre [x] 0) by lia. apply Hmin. lia.
      * intros k Hk. rewrite (app_nth1 pre [x] 0) by lia. apply Hfirst. exact Hk.
Qed.

(** X10.  On a table that holds at least one initial mass,
    [get_mass_index] returns a valid row index of a mass nearest to the
    one asked for: no tabulated mass is closer, and every row before it is
    strictly farther (of several nearest masses the first row wins). *)
Theorem get_mass_index_nearest (self : TrackData.t) (a : list R) (m : R) :
  TrackData.init_mass self = Some a -> a <> [] ->
  exists i : nat,
    TrackData.get_mass_index self m = Ok (Z.of_nat i)
    /\ (i < List.length a)%nat
    /\ (forall k, (k < List.length a)%nat ->
                  Rabs (nth i a 0 - m) <= Rabs (nth k a 0 - m))
    /\ (forall k, (k < i)%nat -> Rabs (nth i a 0 - m) < Rabs (nth k a 0 - m)).
Proof.
  intros Hinit Hne. unfold TrackData.get_mass_index. rewrite Hinit.
  destruct a as [|x tl]; [congruence|].
  eexists. split; [reflexivity|].
  apply (argmin_from_spec m tl [x] 0%nat).
  - cbn. lia.
  - intros [|k] Hk; [lra | cbn in Hk; lia].
  - intros k Hk. lia.
Qed.

(** Rows of masses 10, 30 and 5, asked for mass 20: rows 0 and 1 are
    both 10 away, row 2 is 15 away, and row 0 is the answer. *)
Lemma get_mass_index_nearest_witness :
  TrackData.get_mass_index track_data_masses 20 = Ok 0%Z.
Proof.
  destruct (get_mass_index_nearest track_data_masses [10; 30; 5] 20 eq_refl)
    as (i & Hi & Hlt & Hmin & Hfirst).
  - discriminate.
  - rewrite Hi. f_equal.
    destruct i as [|[|[|i]]]; [reflexivity | exfalso | exfalso | cbn in Hlt; lia].
    + specialize (Hfirst 0%nat ltac:(lia)). cbn [nth] in Hfirst.
      revert Hfirst. unfold Rabs. repeat destruct (Rcase_abs _); lra.
    + specialize (Hmin 0%nat ltac:(cbn; lia)). cbn [nth] in Hmin.
      revert Hmin. unfold Rabs. repeat destruct (Rcase_abs _); lra.
Defined.

(** ** Ages inside a track *)

Lemma line_through_between (x0 x1 y0 y1 x : R) :
  x0 < x1 -> x0 <= x <= x1 ->
  Rmin y0 y1 <= line_through x0 x1 y0 y1 x <= Rmax y0 y1.
Proof.
  intros Hlt Hx. unfold line_through.
  set (f := (x - x0) / (x1 - x0)).
  assert (Hf : 0 <= f <= 1).
  { unfold f. assert (0 < x1 - x0) by lra. split.
    - apply Rmult_le_reg_r with (x1 - x0); [assumption|].
      unfold Rdiv. rewrite Rmult_assoc, Rinv_l by lra. lra.
    - apply Rmult_le_reg_r with (x1 - x0); [assumption|].
      unfold Rdiv. rewrite Rmult_assoc, Rinv_l by lra. lra. }
  unfold Rmin, Rmax. destruct (Rle_dec y0 y1); split; nra.
Qed.

(** The two points [interpolate_in_time] takes for an age that
    [np.searchsorted] places at [s]: rows [k - 1] and [k], where [k] is
    [s] moved into [1 .. n - 1]. *)
Lemma interpolate_in_time_rows (td : TrackData.t) (mass_idx : Z)
      (ages2 : TrackData.array2) (ages : list R) (n k : nat) (t : R) :
  TrackData.age td = Some ages2 -> py_index ages2 mass_idx = Ok ages ->
  List.length ages = n -> increasing ages -> row_ok td mass_idx n ->
  (1 <= k < n)%nat ->
  np_searchsorted ages t = k \/ (np_searchsorted ages t = 0%nat /\ k = 1%nat) ->
  exists r,
    TrackData.interpolate_in_time td mass_idx t = Ok r
    /\ forall attr arr row,
         In attr TrackData.attrs -> TrackData.getattr td attr = Some arr ->
         py_index arr mass_idx = Ok row ->
         In (attr, line_through (nth (k - 1) ages 0) (nth k ages 0)
                                (nth (k - 1) row 0) (nth k row 0) t) r.
Proof.
  intros Hage Hrow Hlen Hinc Hok Hk Hs.
  pose proof Hok as (Hnp & Hm & _).
  unfold TrackData.interpolate_in_time. rewrite Hage.
  destruct (Z.geb_spec mass_idx (TrackData.num_masses td)); [lia|].
  rewrite Hrow. cbn [bind]. cbv zeta.
  assert (Hidx : (if (Z.of_nat (np_searchsorted ages t) =? 0)%Z then 1%Z
                  else if (Z.of_nat (np_searchsorted ages t)
                           >=? TrackData.num_points td)%Z
                       then (TrackData.num_points td - 1)%Z
                       else Z.of_nat (np_searchsorted ages t)) = Z.of_nat k).
  { destruct Hs as [Hs|[Hs Hk1]]; rewrite Hs.
    - destruct (Z.eqb_spec (Z.of_nat k) 0); [lia|].
      rewrite Hnp. destruct (Z.geb_spec (Z.of_nat k) (Z.of_nat n)); [lia | reflexivity].
    - subst k. reflexivity. }
  rewrite Hidx.
  replace (Z.of_nat k - 1)%Z with (Z.of_nat (k - 1)) by lia.
  rewrite (py_index_nat ages (k - 1) 0), (py_index_nat ages k 0) by lia.
  cbn [bind].
  assert (nth (k - 1) ages 0 < nth k ages 0)
    by (apply increasing_lt; [assumption | lia | lia]).
  destruct (Rlt_dec (nth (k - 1) ages 0) (nth k ages 0)) as [_|]; [|lra].
  destruct (interpolate_attrs_lines td mass_idx n k
              ((t - nth (k - 1) ages 0) / (nth k ages 0 - nth (k - 1) ages 0))
              TrackData.attrs Hok) as (r & Hr & Hin); [lia|].
  exists r. split; [exact Hr|]. intros attr arr row Ha Hg Hp.
  apply (Hin attr arr row Ha Hg Hp).
Qed.

(** X11.  On a row of at least two strictly increasing ages,
    [interpolate_in_time] at a tabulated age returns, for every quantity
    that is set: at the first age, factor [f = 0], the first tabulated
    value [v0]; at a later age, factor [f = 1], the value
    [v0 + 1 * (v1 - v0)] of its formula, where [v1] is the tabulated value
    at that age and [v0] the one before.  (Over the real numbers the
    latter is [v1]; on doubles it can differ from [v1] by a rounding
    step.) *)
Theorem interpolate_in_time_at_tabulated_age (td : TrackData.t) (mass_idx : Z)
        (ages2 : TrackData.array2) (ages : list R) (n j : nat) :
  TrackData.age td = Some ages2 -> py_index ages2 mass_idx = Ok ages ->
  List.length ages = n -> (2 <= n)%nat -> increasing ages ->
  row_ok td mass_idx n -> (j < n)%nat ->
  exists r,
    TrackData.interpolate_in_time td mass_idx (nth j ages 0) = Ok r
    /\ forall attr arr row,
         In attr TrackData.attrs -> TrackData.getattr td attr = Some arr ->
         py_index arr mass_idx = Ok row ->
         In (attr, match j with
                   | O => nth 0 row 0
                   | S i => nth i row 0 + 1 * (nth (S i) row 0 - nth i row 0)
                   end) r.
Proof.
  intros Hage Hrow Hlen Hn Hinc Hok Hj.
  assert (Hs : np_searchsorted ages (nth j ages 0) = j)
    by (apply searchsorted_index; [assumption | lia]).
  destruct j as [|j].
  - destruct (interpolate_in_time_rows td mass_idx ages2 ages n 1 (nth 0 ages 0))
      as (r & Hr & Hin); try assumption; [lia | right; split; [exact Hs | reflexivity] |].
    exists r. split; [exact Hr|]. intros attr arr row Ha Hg Hp.
    specialize (Hin attr arr row Ha Hg Hp). cbn [Nat.sub] in Hin.
    replace (line_through (nth 0 ages 0) (nth 1 ages 0) (nth 0 row 0) (nth 1 row 0)
                          (nth 0 ages 0)) with (nth 0 row 0) in Hin; [exact Hin|].
    unfold line_through. replace (nth 0 ages 0 - nth 0 ages 0) with 0 by lra.
    unfold Rdiv. ring.
  - destruct (interpolate_in_time_rows td mass_idx ages2 ages n (S j)
                                       (nth (S j) ages 0))
      as (r & Hr & Hin); try assumption; [lia | left; exact Hs |].
    exists r. split; [exact Hr|]. intros attr arr row Ha Hg Hp.
    specialize (Hin attr arr row Ha Hg Hp).
    replace (S j - 1)%nat with j in Hin by lia.
    assert (Hlt : nth j ages 0 < nth (S j) ages 0) by (apply Hinc; lia).
    replace (line_through (nth j ages 0) (nth (S j) ages 0) (nth j row 0)
                          (nth (S j) row 0) (nth (S j) ages 0))
      with (nth j row 0 + 1 * (nth (S j) row 0 - nth j row 0)) in Hin; [exact Hin|].
    unfold line_through. field. lra.
Qed.

Lemma track_data_three_increasing : increasing [1; 2; 3].
Proof. intros [|[|i]] Hi; cbn in *; try lra; lia. Qed.

(** At age 2, the second of the ages 1, 2, 3, the mass returned is
    [20 + 1 * (19 - 20)]. *)
Lemma interpolate_in_time_at_tabulated_age_witness :
  exists r,
    TrackData.interpolate_in_time track_data_three 0 2 = Ok r
    /\ In ("mass", 20 + 1 * (19 - 20)) r.
Proof.
  destruct (interpolate_in_time_at_tabulated_age
              track_data_three 0 [[1; 2; 3]] [1; 2; 3] 3 1 eq_refl eq_refl eq_refl)
    as (r & Hr & Hin).
  - lia.
  - exact track_data_three_increasing.
  - exact track_data_three_rows.
  - lia.
  - exists r. split; [exact Hr|].
    apply (Hin "mass" [[20; 19; 17]] [20; 19; 17]); [left|..]; reflexivity.
Defined.

(** X12.  On a row of at least two strictly increasing ages, for an age
    between the first and the last of them, [interpolate_in_time] takes
    two neighbouring tabulated ages [t0 <= t <= t1] that enclose it; its
    factor [f = (t - t0) / (t1 - t0)] lies between 0 and 1, and every
    quantity it returns is [v0 + f * (v1 - v0)] for the two tabulated
    values at those ages: inside the table the factor never leaves
    [0, 1]. *)
Theorem interpolate_in_time_between (td : TrackData.t) (mass_idx : Z)
        (ages2 : TrackData.array2) (ages : list R) (n : nat) (t : R) :
  TrackData.age td = Some ages2 -> py_index ages2 mass_idx = Ok ages ->
  List.length ages = n -> (2 <= n)%nat -> increasing ages ->
  row_ok td mass_idx n ->
  nth 0 ages 0 <= t -> t <= last ages 0 ->
  exists (k : nat) r,
    (1 <= k < n)%nat
    /\ nth (k - 1) ages 0 <= t <= nth k ages 0
    /\ 0 <= (t - nth (k - 1) ages 0) / (nth k ages 0 - nth (k - 1) ages 0) <= 1
    /\ TrackData.interpolate_in_time td mass_idx t = Ok r
    /\ forall attr arr row,
         In attr TrackData.attrs -> TrackData.getattr td attr = Some arr ->
         py_index arr mass_idx = Ok row ->
         In (attr,
             nth (k - 1) row 0
             + (t - nth (k - 1) ages 0) / (nth k ages 0 - nth (k - 1) ages 0)
               * (nth k row 0 - nth (k - 1) row 0)) r.
Proof.
  intros Hage Hrow Hlen Hn Hinc Hok Hlo Hhi.
  assert (Hne : ages <> []) by (intros E; rewrite E in Hlen; cbn in Hlen; lia).
  assert (Hf : forall x0 x1, x0 < x1 -> x0 <= t <= x1 -> 0 <= (t - x0) / (x1 - x0) <= 1).
  { intros x0 x1 Hlt Hx. assert (0 < x1 - x0) by lra. split.
    - apply Rmult_le_reg_r with (x1 - x0); [assumption|].
      unfold Rdiv. rewrite Rmult_assoc, Rinv_l by lra. lra.
    - apply Rmult_le_reg_r with (x1 - x0); [assumption|].
      unfold Rdiv. rewrite Rmult_assoc, Rinv_l by lra. lra. }
  set (s := np_searchsorted ages t).
  assert (Hs : (s < n)%nat).
  { pose proof (searchsorted_le_length ages t) as Hle. fold s in Hle.
    destruct (Nat.eq_dec s n) as [E|E]; [|lia].
    exfalso.
    assert (Hl : nth (n - 1) ages 0 < t) by (apply searchsorted_below; fold s; lia).
    rewrite last_nth, Hlen in Hhi. lra. }
  assert (Hat : t <= nth s ages 0) by (apply searchsorted_at; fold s; lia).
  destruct (Nat.eq_dec s 0) as [E0|E0].
  - rewrite E0 in Hat.
    assert (H01 : nth 0 ages 0 < nth 1 ages 0) by (apply Hinc; lia).
    destruct (interpolate_in_time_rows td mass_idx ages2 ages n 1 t)
      as (r & Hr & Hin); try assumption; [lia | right; split; [exact E0 | reflexivity] |].
    exists 1%nat, r. split; [lia|]. cbn [Nat.sub]. split; [lra|].
    split; [apply Hf; lra|].
    split; [exact Hr|]. intros attr arr row Ha Hg Hp.
    exact (Hin attr arr row Ha Hg Hp).
  - assert (Hbelow : nth (s - 1) ages 0 < t) by (apply searchsorted_below; fold s; lia).
    destruct (interpolate_in_time_rows td mass_idx ages2 ages n s t)
      as (r & Hr & Hin); try assumption; [lia | left; reflexivity |].
    exists s, r. split; [lia|]. split; [lra|].
    split; [apply Hf; lra|].
    split; [exact Hr|]. intros attr arr row Ha Hg Hp.
    exact (Hin attr arr row Ha Hg Hp).
Qed.

(** At age 2.5, between the ages 2 and 3, the mass returned is
    [19 + (2.5 - 2) / (3 - 2) * (17 - 19)]. *)
Lemma interpolate_in_time_between_witness :
  exists r,
    TrackData.interpolate_in_time track_data_three 0 2.5 = Ok r
    /\ In ("mass", 19 + (2.5 - 2) / (3 - 2) * (17 - 19)) r.
Proof.
  destruct (interpolate_in_time_between track_data_three 0 [[1; 2; 3]] [1; 2; 3]
                                        3 2.5 eq_refl eq_refl eq_refl)
    as (k & r & Hk & Ht & Hf & Hr & Hin).
  - lia.
  - exact track_data_three_increasing.
  - exact track_data_three_rows.
  - cbn. lra.
  - cbn. lra.
  - exists r. split; [exact Hr|].
    assert (Ek : k = 2%nat).
    { destruct k as [|[|[|k]]]; try lia; cbn in Ht; lra. }
    subst k.
    apply (Hin "mass" [[20; 19; 17]] [20; 19; 17]); [left|..]; reflexivity.
Defined.

(** ** Lifetimes at and between the tabulated masses *)

Lemma exp10_log10 (x : R) : 0 < x -> exp10 (np_log10 x) = x.
Proof.
  intros Hx. pose proof ln10_pos. unfold exp10, np_pow, np_log10, Rpower.
  replace (ln x / ln 10 * ln 10) with (ln x) by (field; lra).
  apply exp_ln. exact Hx.
Qed.

Lemma lifetime_in_tabulated (d : StellarTracks.mass_data) (mass : R)
      (tr : StellarTracks.Track) :
  let masses := StellarTracks.py_sorted (StellarTracks.keys d) in
  (forall k tr', StellarTracks.dict_get d k = Ok tr' -> StellarTracks.time tr' <> []) ->
  (forall k, In k (StellarTracks.keys d) -> 0 < k) ->
  StellarTracks.dict_get d mass = Ok tr ->
  StellarTracks.lifetime_in d mass
  = Ok (if Rle_dec mass (nth 0 masses 0) then last (StellarTracks.time tr) 0
        else if Rle_dec (last masses 0) mass then last (StellarTracks.time tr) 0
             else np_pow 10 (np_log10 (last (StellarTracks.time tr) 0))).
Proof.
  intros masses Hrows Hkeys Hget.
  pose proof (Hrows _ _ Hget) as Hne_tr.
  unfold StellarTracks.lifetime_in. fold masses.
  assert (Hasc : ascending masses) by apply py_sorted_ascending.
  assert (Hin : In mass masses)
    by (apply py_sorted_in; eapply dict_get_key; exact Hget).
  assert (Hne : masses <> []) by (intros E; rewrite E in Hin; contradiction).
  destruct (searchsorted_finds masses mass Hasc Hin) as [Hk Hv].
  destruct (In_nth masses mass 0 Hin) as (p & Hp & Hpv).
  rewrite (py_index_first masses 0 Hne). cbn [bind].
  assert (Hlow : nth 0 masses 0 <= mass).
  { rewrite <- Hpv. apply Hasc; lia. }
  assert (Hhigh : mass <= last masses 0).
  { rewrite last_nth, <- Hpv. apply Hasc; lia. }
  destruct (Rle_dec mass (nth 0 masses 0)) as [Hle|Hgt].
  { replace (nth 0 masses 0) with mass by lra. rewrite Hget. cbn [bind].
    apply py_index_last. exact Hne_tr. }
  rewrite (py_index_last masses 0 Hne). cbn [bind].
  destruct (Rle_dec (last masses 0) mass) as [Hge|Hlt].
  { replace (last masses 0) with mass by lra. rewrite Hget. cbn [bind].
    apply py_index_last. exact Hne_tr. }
  set (k := np_searchsorted masses mass) in *.
  assert (Hk0 : (0 < k)%nat).
  { destruct (Nat.eq_dec k 0) as [E|E]; [|lia]. rewrite E in Hv. lra. }
  replace (Z.of_nat k - 1)%Z with (Z.of_nat (k - 1)) by lia.
  rewrite (py_index_nat masses (k - 1) 0) by lia.
  rewrite (py_index_nat masses k 0) by lia. cbn [bind]. rewrite Hv.
  assert (Hm1 : nth (k - 1) masses 0 < mass)
    by (apply searchsorted_below; fold k; lia).
  assert (Hin1 : In (nth (k - 1) masses 0) (StellarTracks.keys d)).
  { apply py_sorted_in. apply nth_In. fold masses. lia. }
  destruct (dict_get_in_keys d (nth (k - 1) masses 0) Hin1) as [tr1 Htr1].
  rewrite Htr1. cbn [bind].
  rewrite (py_index_last _ 0 (Hrows _ _ Htr1)). cbn [bind].
  rewrite Hget. cbn [bind].
  rewrite (py_index_last _ 0 Hne_tr). cbn [bind].
  assert (Hlog : np_log10 (nth (k - 1) masses 0) < np_log10 mass)
    by (apply log10_increasing; [apply Hkeys; exact Hin1 | exact Hm1]).
  unfold StellarTracks.np_interp. cbn [List.length Nat.eqb negb last].
  destruct (Rlt_dec (np_log10 mass) (np_log10 (nth (k - 1) masses 0))); [lra|].
  destruct (Rlt_dec (np_log10 mass) (np_log10 mass)); [lra|].
  cbn [bind]. rewrite interp_scan_step.
  destruct (Rlt_dec (np_log10 mass) (np_log10 mass)); [lra|].
  reflexivity.
Qed.

(** X13.  On a loaded table of positive masses whose tracks each have a
    row, [get_lifetime] at a tabulated mass whose track ends at a positive
    age [life]: at the lowest and at the highest tabulated mass it returns
    [life] itself; at a tabulated mass in between, where the interpolation
    in the logarithms ends on the upper bracket, it returns
    [10 ** log10(life)] (which is [life] over the real numbers, and can
    differ from it by a rounding step on doubles).  The object and the
    log are left as they were. *)
Theorem get_lifetime_at_tabulated_mass (fs : StellarTracks.FileSystem)
        (self : StellarTracks.t) (metallicity : string)
        (d : StellarTracks.mass_data) (mass : R) (tr : StellarTracks.Track)
        (l : Log) :
  let masses := StellarTracks.py_sorted (StellarTracks.keys d) in
  let life := last (StellarTracks.time tr) 0 in
  StellarTracks.tracks_get (StellarTracks.tracks self) metallicity = Some d ->
  (forall k tr', StellarTracks.dict_get d k = Ok tr' -> StellarTracks.time tr' <> []) ->
  (forall k, In k (StellarTracks.keys d) -> 0 < k) ->
  StellarTracks.dict_get d mass = Ok tr ->
  0 < life ->
  (mass = nth 0 masses 0 \/ mass = last masses 0 ->
   StellarTracks.get_lifetime fs self mass metallicity l = (Ok (life, self), l))
  /\ (nth 0 masses 0 < mass -> mass < last masses 0 ->
      StellarTracks.get_lifetime fs self mass metallicity l
      = (Ok (np_pow 10 (np_log10 life), self), l)).
Proof.
  intros masses life Hd Hrows Hkeys Hget Hlife.
  unfold StellarTracks.get_lifetime, mbind. rewrite Hd. cbn [ret].
  rewrite Hd. unfold lift.
  rewrite (lifetime_in_tabulated d mass tr Hrows Hkeys Hget).
  fold masses life.
  split.
  - intros [E|E].
    + destruct (Rle_dec mass (nth 0 masses 0)); [reflexivity | lra].
    + destruct (Rle_dec mass (nth 0 masses 0)); [reflexivity|].
      destruct (Rle_dec (last masses 0) mass); [reflexivity | lra].
  - intros Hlo Hhi.
    destruct (Rle_dec mass (nth 0 masses 0)); [lra|].
    destruct (Rle_dec (last masses 0) mass); [lra | reflexivity].
Qed.

Lemma table_two_get_10 : StellarTracks.dict_get table_two 10 = Ok track_m10.
Proof. cbn. rdec. reflexivity. Qed.

Lemma table_three_sorted :
  StellarTracks.py_sorted (StellarTracks.keys table_three) = [1; 3; 10].
Proof. pyeval. reflexivity. Qed.

(** Mass 3 lies between the masses 1 and 10 of [table_three]: the
    lifetime returned is [10 ** log10(3e7)]. *)
Lemma get_lifetime_at_tabulated_mass_witness :
  StellarTracks.get_lifetime fs_empty tracks_three 3 "Z0140v00" []
  = (Ok (np_pow 10 (np_log10 30000000), tracks_three), []).
Proof.
  pose proof (get_lifetime_at_tabulated_mass fs_empty tracks_three "Z0140v00"
                table_three 3 track_m3 [] eq_refl) as H.
  rewrite table_three_sorted in H. cbn [nth last StellarTracks.time track_m3] in H.
  apply H.
  - intros k tr. cbn [table_three StellarTracks.dict_get].
    destruct (Req_dec_T 10 k);
      [|destruct (Req_dec_T 1 k); [|destruct (Req_dec_T 3 k); [|discriminate]]];
      intros E; inversion E; subst; discriminate.
  - cbn. intros k [<-|[<-|[<-|[]]]]; lra.
  - cbn. rdec. reflexivity.
  - lra.
  - lra.
  - lra.
Defined.

(** The lifetime between two neighbouring tabulated masses, as
    [lifetime_in] computes it. *)
Lemma lifetime_in_interior (d : StellarTracks.mass_data) (mass : R)
      (tr1 tr2 : StellarTracks.Track) (i : nat) :
  let masses := StellarTracks.py_sorted (StellarTracks.keys d) in
  let m1 := nth i masses 0 in
  let m2 := nth (S i) masses 0 in
  let life1 := last (StellarTracks.time tr1) 0 in
  let life2 := last (StellarTracks.time tr2) 0 in
  (S i < List.length masses)%nat ->
  0 < m1 -> m1 < mass -> mass < m2 ->
  StellarTracks.dict_get d m1 = Ok tr1 ->
  StellarTracks.dict_get d m2 = Ok tr2 ->
  StellarTracks.time tr1 <> [] -> StellarTracks.time tr2 <> [] ->
  StellarTracks.lifetime_in d mass
  = Ok (exp10 ((np_log10 life2 - np_log10 life1) / (np_log10 m2 - np_log10 m1)
               * (np_log10 mass - np_log10 m1) + np_log10 life1)).
Proof.
  intros masses m1 m2 life1 life2 Hi Hm1 Hlo Hhi Hg1 Hg2 Hne1 Hne2.
  assert (Hasc : ascending masses) by apply py_sorted_ascending.
  assert (Hne : masses <> []) by (intros E; rewrite E in Hi; cbn in Hi; lia).
  assert (H0 : nth 0 masses 0 <= m1) by (apply Hasc; lia).
  assert (HN : m2 <= last masses 0) by (rewrite last_nth; apply Hasc; lia).
  unfold StellarTracks.lifetime_in. fold masses.
  rewrite (py_index_first masses 0 Hne). cbn [bind].
  destruct (Rle_dec mass (nth 0 masses 0)); [lra|].
  rewrite (py_index_last masses 0 Hne). cbn [bind].
  destruct (Rle_dec (last masses 0) mass); [lra|].
  rewrite (searchsorted_between masses mass i Hasc Hi) by (fold m1 m2; lra).
  replace (Z.of_nat (S i) - 1)%Z with (Z.of_nat i) by lia.
  rewrite (py_index_nat masses i 0) by lia.
  rewrite (py_index_nat masses (S i) 0) by lia. cbn [bind].
  fold m1 m2. rewrite Hg1. cbn [bind].
  rewrite (py_index_last _ 0 Hne1). cbn [bind].
  rewrite Hg2. cbn [bind].
  rewrite (py_index_last _ 0 Hne2). cbn [bind].
  fold life1 life2.
  assert (np_log10 m1 < np_log10 mass) by (apply log10_increasing; lra).
  assert (np_log10 mass < np_log10 m2) by (apply log10_increasing; lra).
  unfold StellarTracks.np_interp. cbn [List.length Nat.eqb negb last].
  destruct (Rlt_dec (np_log10 mass) (np_log10 m1)); [lra|].
  destruct (Rlt_dec (np_log10 m2) (np_log10 mass)); [lra|].
  cbn [bind]. rewrite interp_scan_step.
  destruct (Rlt_dec (np_log10 mass) (np_log10 m2)); [|lra].
  destruct (Req_dec_T (np_log10 mass) (np_log10 m1)); [lra|].
  reflexivity.
Qed.

Lemma exp10_monotone (x y : R) : x <= y -> exp10 x <= exp10 y.
Proof. intros H. unfold exp10, np_pow. apply Rle_Rpower; lra. Qed.

(** X14.  In exact arithmetic, that is for the formula of
    [get_lifetime] read over the real numbers (on doubles the value can
    leave the interval by a rounding step): between two neighbouring
    tabulated masses, both positive, whose tracks end at positive ages,
    the lifetime [get_lifetime] returns lies between the two tabulated
    lifetimes. *)
Theorem get_lifetime_between (fs : StellarTracks.FileSystem)
        (self : StellarTracks.t) (metallicity : string)
        (d : StellarTracks.mass_data) (mass : R)
        (tr1 tr2 : StellarTracks.Track) (i : nat) (l : Log) :
  let masses := StellarTracks.py_sorted (StellarTracks.keys d) in
  let m1 := nth i masses 0 in
  let m2 := nth (S i) masses 0 in
  let life1 := last (StellarTracks.time tr1) 0 in
  let life2 := last (StellarTracks.time tr2) 0 in
  StellarTracks.tracks_get (StellarTracks.tracks self) metallicity = Some d ->
  (S i < List.length masses)%nat ->
  0 < m1 -> m1 < mass -> mass < m2 ->
  StellarTracks.dict_get d m1 = Ok tr1 ->
  StellarTracks.dict_get d m2 = Ok tr2 ->
  StellarTracks.time tr1 <> [] -> StellarTracks.time tr2 <> [] ->
  0 < life1 -> 0 < life2 ->
  exists life,
    StellarTracks.get_lifetime fs self mass metallicity l = (Ok (life, self), l)
    /\ Rmin life1 life2 <= life <= Rmax life1 life2.
Proof.
  intros masses m1 m2 life1 life2 Hd Hi Hm1 Hlo Hhi Hg1 Hg2 Hne1 Hne2 Hl1 Hl2.
  unfold StellarTracks.get_lifetime, mbind. rewrite Hd. cbn [ret].
  rewrite Hd. unfold lift.
  rewrite (lifetime_in_interior d mass tr1 tr2 i Hi Hm1 Hlo Hhi Hg1 Hg2 Hne1 Hne2).
  fold masses m1 m2 life1 life2.
  eexists. split; [reflexivity|].
  assert (Hx1 : np_log10 m1 < np_log10 mass) by (apply log10_increasing; lra).
  assert (Hx2 : np_log10 mass < np_log10 m2) by (apply log10_increasing; lra).
  set (x1 := np_log10 m1) in *. set (x2 := np_log10 m2) in *.
  set (x := np_log10 mass) in *.
  set (y1 := np_log10 life1). set (y2 := np_log10 life2).
  set (y := (y2 - y1) / (x2 - x1) * (x - x1) + y1).
  assert (Hy : Rmin y1 y2 <= y <= Rmax y1 y2).
  { pose proof (line_through_between x1 x2 y1 y2 x ltac:(lra) ltac:(lra)) as Hb.
    unfold line_through in Hb.
    replace y with (y1 + (x - x1) / (x2 - x1) * (y2 - y1))
      by (unfold y; field; lra).
    exact Hb. }
  rewrite <- (exp10_log10 life1 Hl1), <- (exp10_log10 life2 Hl2).
  fold y1 y2.
  revert Hy. unfold Rmin, Rmax.
  pose proof (exp10_monotone y1 y2). pose proof (exp10_monotone y2 y1).
  pose proof (exp10_monotone y1 y). pose proof (exp10_monotone y y1).
  pose proof (exp10_monotone y2 y). pose proof (exp10_monotone y y2).
  destruct (Rle_dec y1 y2); destruct (Rle_dec (exp10 y1) (exp10 y2)); intros Hy;
    split; lra.
Qed.

Lemma table_two_get_1 : StellarTracks.dict_get table_two 1 = Ok track_m1.
Proof. cbn. rdec. reflexivity. Qed.

Lemma get_lifetime_between_witness :
  exists life,
    StellarTracks.get_lifetime fs_empty tracks_two 5 "Z0140v00" []
    = (Ok (life, tracks_two), [])
    /\ Rmin (last (StellarTracks.time track_m1) 0) (last (StellarTracks.time track_m10) 0)
       <= life
       <= Rmax (last (StellarTracks.time track_m1) 0)
               (last (StellarTracks.time track_m10) 0).
Proof.
  refine (get_lifetime_between fs_empty tracks_two "Z0140v00" table_two 5
                               track_m1 track_m10 0 [] _ _ _ _ _ _ _ _ _ _ _).
  - reflexivity.
  - rewrite table_two_sorted. cbn. lia.
  - rewrite table_two_sorted. cbn. lra.
  - rewrite table_two_sorted. cbn. lra.
  - rewrite table_two_sorted. cbn. lra.
  - rewrite table_two_sorted. exact table_two_get_1.
  - rewrite table_two_sorted. exact table_two_get_10.
  - discriminate.
  - discriminate.
  - cbn. lra.
  - cbn. lra.
Defined.

(** ** Between two tabulated masses *)

Lemma two_tracks_blend (m1 m2 : R) (tr1 tr2 : StellarTracks.Track) (mass t : R)
      (p1 p2 : StellarTracks.Props) :
  StellarTracks.single_track tr1 t = Ok p1 ->
  StellarTracks.single_track tr2 t = Ok p2 ->
  StellarTracks.two_tracks m1 m2 tr1 tr2 mass t
  = Ok (blend ((m2 - mass) / (m2 - m1)) p1 ((mass - m1) / (m2 - m1)) p2).
Proof.
  unfold StellarTracks.single_track, StellarTracks.two_tracks. intros H1 H2.
  repeat match type of H1 with
         | context [StellarTracks.np_interp ?a ?b ?c] =>
             destruct (StellarTracks.np_interp a b c);
             cbn [bind] in H1; [|discriminate]
         end.
  repeat match type of H2 with
         | context [StellarTracks.np_interp ?a ?b ?c] =>
             destruct (StellarTracks.np_interp a b c);
             cbn [bind] in H2; [|discriminate]
         end.
  cbv zeta in H1, H2. cbn [bind]. cbv zeta.
  destruct (py_index (StellarTracks.stellar_type tr1) _) as [ty1|];
    cbn [bind] in H1; [|discriminate].
  destruct (py_index (StellarTracks.stellar_type tr2) _) as [ty2|];
    cbn [bind] in H2; [|discriminate].
  inversion H1. inversion H2. subst p1 p2. unfold blend.
  cbn [StellarTracks.p_luminosity StellarTracks.p_temperature StellarTracks.p_radius
       StellarTracks.p_mass_loss_rate StellarTracks.p_stellar_type].
  destruct (Rlt_dec 0.5 _); reflexivity.
Qed.

(** At a tabulated mass, whatever the age, the table answers with that
    mass's own track: the neighbour below has weight 0. *)
Lemma interpolate_in_tabulated (d : StellarTracks.mass_data) (mass t : R)
      (tr : StellarTracks.Track) :
  (forall k tr', StellarTracks.dict_get d k = Ok tr' -> track_ok tr') ->
  StellarTracks.dict_get d mass = Ok tr ->
  StellarTracks.interpolate_in d mass t = StellarTracks.single_track tr t.
Proof.
  intros Hall Hget.
  unfold StellarTracks.interpolate_in.
  set (masses := StellarTracks.py_sorted (StellarTracks.keys d)).
  assert (Hasc : ascending masses) by apply py_sorted_ascending.
  assert (Hin : In mass masses)
    by (apply py_sorted_in; eapply dict_get_key; exact Hget).
  assert (Hne : masses <> []) by (intros E; rewrite E in Hin; contradiction).
  destruct (searchsorted_finds masses mass Hasc Hin) as [Hk Hv].
  destruct (In_nth masses mass 0 Hin) as (p & Hp & Hpv).
  rewrite (py_index_first masses 0 Hne). cbn [bind].
  assert (Hlow : nth 0 masses 0 <= mass).
  { rewrite <- Hpv. apply Hasc; lia. }
  assert (Hhigh : mass <= last masses 0).
  { rewrite last_nth, <- Hpv. apply Hasc; lia. }
  destruct (Rle_dec mass (nth 0 masses 0)) as [Hle|Hgt].
  { replace (nth 0 masses 0) with mass by lra. rewrite Hget. reflexivity. }
  rewrite (py_index_last masses 0 Hne). cbn [bind].
  destruct (Rle_dec (last masses 0) mass) as [Hge|Hlt].
  { replace (last masses 0) with mass by lra. rewrite Hget. reflexivity. }
  set (k := np_searchsorted masses mass) in *.
  assert (Hk0 : (0 < k)%nat).
  { destruct (Nat.eq_dec k 0) as [E|E]; [|lia]. rewrite E in Hv. lra. }
  replace (Z.of_nat k - 1)%Z with (Z.of_nat (k - 1)) by lia.
  rewrite (py_index_nat masses (k - 1) 0) by lia.
  rewrite (py_index_nat masses k 0) by lia. cbn [bind]. rewrite Hv.
  assert (Hm1 : nth (k - 1) masses 0 < mass)
    by (apply searchsorted_below; fold k; lia).
  destruct (dict_get_in_keys d (nth (k - 1) masses 0)) as [tr1 Htr1].
  { apply py_sorted_in. apply nth_In. fold masses. lia. }
  rewrite Htr1, Hget. cbn [bind].
  destruct (single_track_total tr1 t (Hall _ _ Htr1)) as [p1 Hp1].
  destruct (single_track_total tr t (Hall _ _ Hget)) as [p2 Hp2].
  rewrite (two_tracks_blend _ _ tr1 tr mass t p1 p2 Hp1 Hp2), Hp2.
  f_equal. unfold blend. destruct p2 as [a b c e ty].
  cbn [StellarTracks.p_luminosity StellarTracks.p_temperature StellarTracks.p_radius
       StellarTracks.p_mass_loss_rate StellarTracks.p_stellar_type].
  replace ((mass - mass) / (mass - nth (k - 1) masses 0)) with 0
    by (unfold Rdiv; ring).
  replace ((mass - nth (k - 1) masses 0) / (mass - nth (k - 1) masses 0)) with 1
    by (field; lra).
  destruct (Rlt_dec 0.5 0); [lra|].
  f_equal; ring.
Qed.

Lemma weight_in_unit (a c : R) : 0 < c -> 0 <= a -> a <= c -> 0 <= a / c <= 1.
Proof.
  intros Hc Ha Hac. split.
  - apply Rmult_le_reg_r with c; [assumption|].
    unfold Rdiv. rewrite Rmult_assoc, Rinv_l by lra. lra.
  - apply Rmult_le_reg_r with c; [assumption|].
    unfold Rdiv. rewrite Rmult_assoc, Rinv_l by lra. lra.
Qed.

(** X15.  On a table whose tracks each have a row, for a mass strictly
    between two neighbouring tabulated masses [m1 < mass < m2] and any
    age, [interpolate_track] returns [w1 * v1 + w2 * v2] for each of the
    four continuous quantities, where [v1] and [v2] are what it returns
    at [m1] and at [m2] themselves, and the weights
    [w1 = (m2 - mass) / (m2 - m1)] and [w2 = (mass - m1) / (m2 - m1)] lie
    between 0 and 1.  The stellar type, which is not averaged, is that at
    [m1] when [w1 > 0.5] and that at [m2] otherwise. *)
Theorem interpolate_between_masses (d : StellarTracks.mass_data) (mass t : R)
        (i : nat) :
  let masses := StellarTracks.py_sorted (StellarTracks.keys d) in
  let m1 := nth i masses 0 in
  let m2 := nth (S i) masses 0 in
  let w1 := (m2 - mass) / (m2 - m1) in
  let w2 := (mass - m1) / (m2 - m1) in
  (S i < List.length masses)%nat ->
  (forall k tr, StellarTracks.dict_get d k = Ok tr -> track_ok tr) ->
  m1 < mass -> mass < m2 ->
  exists p1 p2,
    StellarTracks.interpolate_in d m1 t = Ok p1
    /\ StellarTracks.interpolate_in d m2 t = Ok p2
    /\ StellarTracks.interpolate_in d mass t
       = Ok (StellarTracks.mkProps
               (w1 * StellarTracks.p_luminosity p1 + w2 * StellarTracks.p_luminosity p2)
               (w1 * StellarTracks.p_temperature p1
                + w2 * StellarTracks.p_temperature p2)
               (w1 * StellarTracks.p_radius p1 + w2 * StellarTracks.p_radius p2)
               (w1 * StellarTracks.p_mass_loss_rate p1
                + w2 * StellarTracks.p_mass_loss_rate p2)
               (if Rlt_dec 0.5 w1 then StellarTracks.p_stellar_type p1
                else StellarTracks.p_stellar_type p2))
    /\ 0 <= w1 <= 1 /\ 0 <= w2 <= 1.
Proof.
  intros masses m1 m2 w1 w2 Hi Hall Hlo Hhi.
  assert (Hasc : ascending masses) by apply py_sorted_ascending.
  assert (Hne : masses <> []) by (intros E; rewrite E in Hi; cbn in Hi; lia).
  assert (H0 : nth 0 masses 0 <= m1) by (apply Hasc; lia).
  assert (HN : m2 <= last masses 0) by (rewrite last_nth; apply Hasc; lia).
  destruct (dict_get_in_keys d m1) as [tr1 Hg1].
  { apply py_sorted_in. apply nth_In. fold masses. lia. }
  destruct (dict_get_in_keys d m2) as [tr2 Hg2].
  { apply py_sorted_in. apply nth_In. fold masses. lia. }
  destruct (single_track_total tr1 t (Hall _ _ Hg1)) as [p1 Hp1].
  destruct (single_track_total tr2 t (Hall _ _ Hg2)) as [p2 Hp2].
  exists p1, p2.
  split; [rewrite (interpolate_in_tabulated d m1 t tr1 Hall Hg1); exact Hp1|].
  split; [rewrite (interpolate_in_tabulated d m2 t tr2 Hall Hg2); exact Hp2|].
  split.
  { unfold StellarTracks.interpolate_in. fold masses.
    rewrite (py_index_first masses 0 Hne). cbn [bind].
    destruct (Rle_dec mass (nth 0 masses 0)); [lra|].
    rewrite (py_index_last masses 0 Hne). cbn [bind].
    destruct (Rle_dec (last masses 0) mass); [lra|].
    rewrite (searchsorted_between masses mass i Hasc Hi) by (fold m1 m2; lra).
    replace (Z.of_nat (S i) - 1)%Z with (Z.of_nat i) by lia.
    rewrite (py_index_nat masses i 0) by lia.
    rewrite (py_index_nat masses (S i) 0) by lia. cbn [bind].
    fold m1 m2. rewrite Hg1, Hg2. cbn [bind].
    apply two_tracks_blend; assumption. }
  unfold w1, w2, m1, m2 in *. split; apply weight_in_unit; lra.
Qed.

(** Mass 4 between the masses 1 and 10 of [table_two], at age 5: the
    weights are [(10 - 4) / (10 - 1)] and [(4 - 1) / (10 - 1)], and the
    stellar type is that of mass 1. *)
Lemma interpolate_between_masses_witness :
  exists p1 p2,
    StellarTracks.interpolate_in table_two 1 5 = Ok p1
    /\ StellarTracks.interpolate_in table_two 10 5 = Ok p2
    /\ StellarTracks.interpolate_in table_two 4 5
       = Ok (StellarTracks.mkProps
               ((10 - 4) / (10 - 1) * StellarTracks.p_luminosity p1
                + (4 - 1) / (10 - 1) * StellarTracks.p_luminosity p2)
               ((10 - 4) / (10 - 1) * StellarTracks.p_temperature p1
                + (4 - 1) / (10 - 1) * StellarTracks.p_temperature p2)
               ((10 - 4) / (10 - 1) * StellarTracks.p_radius p1
                + (4 - 1) / (10 - 1) * StellarTracks.p_radius p2)
               ((10 - 4) / (10 - 1) * StellarTracks.p_mass_loss_rate p1
                + (4 - 1) / (10 - 1) * StellarTracks.p_mass_loss_rate p2)
               (StellarTracks.p_stellar_type p1)).
Proof.
  pose proof (interpolate_between_masses table_two 4 5 0) as H.
  rewrite table_two_sorted in H. cbn [nth] in H.
  destruct H as (p1 & p2 & H1 & H2 & H & _).
  - cbn. lia.
  - exact table_two_ok.
  - lra.
  - lra.
  - exists p1, p2. split; [exact H1|]. split; [exact H2|].
    rewrite H. destruct (Rlt_dec 0.5 ((10 - 4) / (10 - 1))) as [_|Hn];
      [reflexivity|].
    exfalso. apply Hn. apply Rmult_lt_reg_r with (10 - 1); [lra|].
    unfold Rdiv. rewrite Rmult_assoc, Rinv_l by lra. lra.
Defined.

(** ** Loading on demand *)

Lemma tracks_get_set (tb : list (string * StellarTracks.mass_data)) (k : string)
      (v : StellarTracks.mass_data) :
  StellarTracks.tracks_get (StellarTracks.tracks_set tb k v) k = Some v.
Proof.
  induction tb as [|[k' v'] tl IH]; cbn.
  - rewrite String.eqb_refl. reflexivity.
  - destruct (String.eqb k' k) eqn:E; cbn.
    + rewrite String.eqb_refl. reflexivity.
    + rewrite E. exact IH.
Qed.

(** X16.  The first query for a metallicity that is not loaded yet,
    whose track file exists and parses, loads the file (two records in the
    log) and answers from the parsed table.  Every later query on the
    object it returns, [interpolate_track] or [get_lifetime], answers from
    the same table without reading the disk and without logging: the
    result is the same on any file system, and the object and the log are
    left as they were. *)
Theorem first_query_loads_once (fs : StellarTracks.FileSystem)
        (self : StellarTracks.t) (metallicity : string)
        (d : StellarTracks.mass_data) (mass t : R) (l : Log) :
  let track_file := StellarTracks.data_dir self ++ "/" ++ metallicity ++ ".txt" in
  let loaded :=
    StellarTracks.mk (StellarTracks.data_dir self)
                     (StellarTracks.tracks_set (StellarTracks.tracks self) metallicity d)
                     (StellarTracks.metallicities self ++ [metallicity])%list in
  StellarTracks.tracks_get (StellarTracks.tracks self) metallicity = None ->
  StellarTracks.path_exists fs track_file = true ->
  StellarTracks.read_tracks fs track_file = Ok d ->
  StellarTracks.interpolate_track fs self mass t metallicity l
  = (p <- StellarTracks.interpolate_in d mass t ;; Ok (p, loaded),
     (l ++ [(INFO, ("Loading tracks from: " ++ track_file)%string);
            (INFO, ("Loaded " ++ str_int (Z.of_nat (List.length d))
                    ++ " mass tracks for " ++ metallicity)%string)])%list)
  /\ forall (fs' : StellarTracks.FileSystem) (mass' t' : R) (l' : Log),
       StellarTracks.interpolate_track fs' loaded mass' t' metallicity l'
       = (p <- StellarTracks.interpolate_in d mass' t' ;; Ok (p, loaded), l')
       /\ StellarTracks.get_lifetime fs' loaded mass' metallicity l'
          = (v <- StellarTracks.lifetime_in d mass' ;; Ok (v, loaded), l').
Proof.
  intros track_file loaded Hnone Hexists Hread.
  assert (Hloaded : StellarTracks.tracks_get (StellarTracks.tracks loaded) metallicity
                    = Some d) by apply tracks_get_set.
  split.
  - unfold StellarTracks.interpolate_track, mbind. rewrite Hnone.
    unfold StellarTracks.load_tracks. fold track_file. rewrite Hexists.
    cbn [negb]. unfold mbind, logger, lift, ret. rewrite Hread.
    fold loaded. rewrite Hloaded.
    rewrite <- app_assoc. cbn [app].
    destruct (StellarTracks.interpolate_in d mass t); reflexivity.
  - intros fs' mass' t' l'. split.
    + unfold StellarTracks.interpolate_track, mbind. rewrite Hloaded. cbn [ret].
      rewrite Hloaded. unfold lift.
      destruct (StellarTracks.interpolate_in d mass' t'); reflexivity.
    + unfold StellarTracks.get_lifetime, mbind. rewrite Hloaded. cbn [ret].
      rewrite Hloaded. unfold lift.
      destruct (StellarTracks.lifetime_in d mass'); reflexivity.
Qed.

Lemma first_query_loads_once_witness :
  let fs := StellarTracks.mkFS (fun _ => true) (fun _ => true)
                               (fun _ => Ok table_two) in
  let self := StellarTracks.mk "data/tracks" [] [] in
  let loaded := StellarTracks.mk "data/tracks" [("Z0140v00", table_two)] ["Z0140v00"] in
  StellarTracks.interpolate_track fs self 10 0 "Z0140v00" []
  = (p <- StellarTracks.interpolate_in table_two 10 0 ;; Ok (p, loaded),
     [(INFO, "Loading tracks from: data/tracks/Z0140v00.txt");
      (INFO, "Loaded 2 mass tracks for Z0140v00")])
  /\ forall (fs' : StellarTracks.FileSystem) (mass' t' : R) (l' : Log),
       StellarTracks.interpolate_track fs' loaded mass' t' "Z0140v00" l'
       = (p <- StellarTracks.interpolate_in table_two mass' t' ;; Ok (p, loaded), l')
       /\ StellarTracks.get_lifetime fs' loaded mass' "Z0140v00" l'
          = (v <- StellarTracks.lifetime_in table_two mass' ;; Ok (v, loaded), l').
Proof.
  intros fs self loaded.
  apply (first_query_loads_once fs self "Z0140v00" table_two 10 0 []);
    reflexivity.
Defined.

(** X17.  A query for a metallicity that is not loaded and whose track
    file does not exist fails with [FileNotFoundError] naming the file,
    after one error record in the log, for [interpolate_track] and for
    [get_lifetime] alike. *)
Theorem query_missing_file (fs : StellarTracks.FileSystem)
        (self : StellarTracks.t) (metallicity : string) (mass t : R) (l : Log) :
  let msg := "Track file not found: "
             ++ (StellarTracks.data_dir self ++ "/" ++ metallicity ++ ".txt") in
  StellarTracks.tracks_get (StellarTracks.tracks self) metallicity = None ->
  StellarTracks.path_exists fs (StellarTracks.data_dir self ++ "/" ++ metallicity
                                ++ ".txt") = false ->
  StellarTracks.interpolate_track fs self mass t metallicity l
  = (Raise (FileNotFoundError msg), (l ++ [(ERROR, msg)])%list)
  /\ StellarTracks.get_lifetime fs self mass metallicity l
     = (Raise (FileNotFoundError msg), (l ++ [(ERROR, msg)])%list).
Proof.
  intros msg Hnone Hmissing. split.
  - unfold StellarTracks.interpolate_track, mbind. rewrite Hnone.
    unfold StellarTracks.load_tracks. rewrite Hmissing. reflexivity.
  - unfold StellarTracks.get_lifetime, mbind. rewrite Hnone.
    unfold StellarTracks.load_tracks. rewrite Hmissing. reflexivity.
Qed.

Lemma query_missing_file_witness :
  StellarTracks.interpolate_track fs_empty (StellarTracks.mk "data/tracks" [] [])
                                  10 0 "Z0140v00" []
  = (Raise (FileNotFoundError "Track file not found: data/tracks/Z0140v00.txt"),
     [(ERROR, "Track file not found: data/tracks/Z0140v00.txt")])
  /\ StellarTracks.get_lifetime fs_empty (StellarTracks.mk "data/tracks" [] [])
                                10 "Z0140v00" []
     = (Raise (FileNotFoundError "Track file not found: data/tracks/Z0140v00.txt"),
        [(ERROR, "Track file not found: data/tracks/Z0140v00.txt")]).
Proof.
  apply (query_missing_file fs_empty (StellarTracks.mk "data/tracks" [] [])
                            "Z0140v00" 10 0 []); reflexivity.
Defined.


(** ** The main loop on the linear clock *)

Lemma running_succ_r (k : nat) :
  forall t step, running (S k) t step = running k t step + step.
Proof.
  induction k as [|k IH]; intros t step; [reflexivity|].
  change (running (S (S k)) t step) with (running (S k) (t + step) step).
  rewrite IH. reflexivity.
Qed.

Lemma linear_outputs_succ (k : nat) (t step : R) (c : Z) :
  linear_outputs (S k) t step c
  = (t, c) :: linear_outputs k (t + step) step (c + 1).
Proof.
  unfold linear_outputs. change (seq 0 (S k)) with (0%nat :: seq 1 k).
  cbn [map running]. f_equal; [f_equal; lia|].
  rewrite <- seq_shift, map_map. apply map_ext. intros j.
  cbn [running]. f_equal. lia.
Qed.

(** The clock after [k] turns on the linear scale. *)
Lemma linear_ticks (k : nat) :
  forall c : clock,
    c_jtime c = 0%Z ->
    c_time (ticks k c) = running k (c_time c) (c_tbiv c)
    /\ c_emitted (ticks k c)
       = (c_emitted c ++ linear_outputs k (c_time c) (c_tbiv c) (c_icount c))%list.
Proof.
  induction k as [|k IH]; intros c Hj.
  - cbn [ticks running linear_outputs seq map]. rewrite app_nil_r. auto.
  - rewrite ticks_succ.
    destruct (IH (fst (tick c))) as [Ht He].
    { cbn. exact Hj. }
    rewrite Ht, He, linear_outputs_succ.
    cbn [fst tick c_time c_tbiv c_emitted c_icount c_jtime].
    rewrite Hj. cbn [Z.eqb]. rewrite <- app_assoc. split; reflexivity.
Qed.

(** The test at the end of turn [k + 1] on the linear scale: the next
    value of the clock against [tmax]. *)
Lemma linear_test (k : nat) (c : clock) :
  c_jtime c = 0%Z ->
  snd (tick (ticks k c))
  = if Rlt_dec (c_tmax c) (running (S k) (c_time c) (c_tbiv c)) then false else true.
Proof.
  intros Hj.
  destruct (ticks_frame k c) as (H1 & _ & H3 & _ & H5 & _).
  destruct (linear_ticks k c Hj) as [Ht _].
  unfold tick. cbn [snd]. rewrite H1, H3, H5, Ht, Hj. cbn [Z.eqb].
  rewrite running_succ_r. reflexivity.
Qed.

(** The loop on the linear clock, once the turn is known at whose end
    the clock passes [tmax]. *)
Lemma linear_loop_outputs (env : Starburst99.Environment) (self : Starburst99.t)
      (K fuel : nat) (l : Log) :
  let g := Starburst99.galaxy self in
  let t j := running j (Starburst99.time self) (GalaxyModel.tbiv g) in
  steady self ->
  GalaxyModel.jtime g = 0%Z ->
  (forall j, (1 <= j <= K)%nat -> t j <= GalaxyModel.tmax g) ->
  GalaxyModel.tmax g < t (S K) ->
  (K < fuel)%nat ->
  exists self' l',
    Starburst99._main_calculation_loop env fuel self l = (Ok (Some self'), l')
    /\ Starburst99.emitted self'
       = (Starburst99.emitted self
          ++ linear_outputs (S K) (Starburst99.time self) (GalaxyModel.tbiv g)
                            (Starburst99.icount self))%list
    /\ Starburst99.time self' = t (S K)
    /\ Starburst99.icount self' = (Starburst99.icount self + Z.of_nat (S K))%Z
    /\ steady self'
    /\ last l' (INFO, "")
       = (INFO, "Evolution completed. Total steps: " ++ str_int (Z.of_nat (S K))).
Proof.
  intros g t Hs Hj Hin Hout Hfuel.
  assert (Hjc : c_jtime (clock_of self) = 0%Z) by exact Hj.
  rewrite main_calculation_loop_unfold.
  destruct (main_loop_stops env K fuel 0 self
              (l ++ [(INFO, "Beginning stellar population evolution...")])%list Hs)
    as (self' & l' & Hrun & Hclock & Hs' & Hlast).
  - intros j Hjk. rewrite (linear_test j _ Hjc).
    change (c_tmax (clock_of self)) with (GalaxyModel.tmax g).
    change (running (S j) (c_time (clock_of self)) (c_tbiv (clock_of self)))
      with (t (S j)).
    destruct (Rlt_dec (GalaxyModel.tmax g) (t (S j))) as [Hlt|]; [|reflexivity].
    specialize (Hin (S j) ltac:(lia)). lra.
  - rewrite (linear_test K _ Hjc).
    change (c_tmax (clock_of self)) with (GalaxyModel.tmax g).
    change (running (S K) (c_time (clock_of self)) (c_tbiv (clock_of self)))
      with (t (S K)).
    destruct (Rlt_dec (GalaxyModel.tmax g) (t (S K))); [reflexivity | contradiction].
  - exact Hfuel.
  - exists self', l'. split; [exact Hrun|].
    destruct (linear_ticks (S K) (clock_of self) Hjc) as [Ht He].
    destruct (ticks_frame (S K) (clock_of self)) as (_ & _ & _ & _ & _ & _ & Hi & _).
    rewrite <- Hclock in Ht, He, Hi.
    split; [exact He|]. split; [exact Ht|]. split; [exact Hi|].
    split; [exact Hs'|]. exact Hlast.
Qed.

(** X18.  On a driver whose galaxy has been initialised
    ([init_module()]) and that has no output writer, with the linear
    clock: let [t_j] be the clock after [j] additions of the step [tbiv]
    to the starting time, added one at a time as the loop does.  If
    [t_1 .. t_K] stay within [tmax] and [t_(K+1)] is beyond it, the main
    loop runs [K + 1] turns without raising and ends: it has handed the
    steps at the times [t_0 .. t_K] to the output, numbered from [icount]
    on, it leaves the clock at [t_(K+1)], and its last record counts
    [K + 1] steps. *)
Theorem linear_clock_steps (env : Starburst99.Environment) (self : Starburst99.t)
        (K fuel : nat) (l : Log) :
  let g := Starburst99.galaxy self in
  let t j := running j (Starburst99.time self) (GalaxyModel.tbiv g) in
  steady self ->
  GalaxyModel.jtime g = 0%Z ->
  (forall j, (1 <= j <= K)%nat -> t j <= GalaxyModel.tmax g) ->
  GalaxyModel.tmax g < t (S K) ->
  (K < fuel)%nat ->
  exists self' l',
    Starburst99._main_calculation_loop env fuel self l = (Ok (Some self'), l')
    /\ Starburst99.emitted self'
       = (Starburst99.emitted self
          ++ linear_outputs (S K) (Starburst99.time self) (GalaxyModel.tbiv g)
                            (Starburst99.icount self))%list
    /\ Starburst99.time self' = t (S K)
    /\ Starburst99.icount self' = (Starburst99.icount self + Z.of_nat (S K))%Z
    /\ last l' (INFO, "")
       = (INFO, "Evolution completed. Total steps: " ++ str_int (Z.of_nat (S K))).
Proof.
  intros g t Hs Hj Hin Hout Hfuel.
  destruct (linear_loop_outputs env self K fuel l Hs Hj Hin Hout Hfuel)
    as (self' & l' & H1 & H2 & H3 & H4 & _ & H6).
  exists self', l'. auto.
Qed.

(** A driver prepared with [init_module()] and the steps 0.5 up to 1:
    the outputs are at 0, 0.5 and 1, numbered 1 to 3. *)
Lemma linear_clock_steps_witness :
  exists self0 self' l',
    Starburst99._sync_parameters (prepared half_steps_parameters) = Ok self0
    /\ Starburst99._main_calculation_loop env_empty 3 self0 [] = (Ok (Some self'), l')
    /\ Starburst99.emitted self' = [(0, 1%Z); (0 + 0.5, 2%Z); (0 + 0.5 + 0.5, 3%Z)].
Proof.
  destruct (sync_steady (prepared half_steps_parameters)
              (prepared_steady half_steps_parameters))
    as (self0 & Hsync & Hsteady & Hclock); [cbn; lia|].
  cbn in Hclock.
  pose proof (f_equal c_jtime Hclock) as Hj.
  pose proof (f_equal c_tbiv Hclock) as Hb.
  pose proof (f_equal c_tmax Hclock) as Hm.
  pose proof (f_equal c_time Hclock) as Ht.
  pose proof (f_equal c_icount Hclock) as Hi.
  pose proof (f_equal c_emitted Hclock) as He.
  cbn in Hj, Hb, Hm, Ht, Hi, He.
  destruct (linear_clock_steps env_empty self0 2 3 [] Hsteady Hj)
    as (self' & l' & Hrun & Hem & _).
  - intros j Hjk. rewrite Ht, Hb, Hm.
    destruct j as [|[|[|j]]]; try lia; cbn; lra.
  - rewrite Ht, Hb, Hm. cbn. lra.
  - lia.
  - exists self0, self', l'. split; [exact Hsync|]. split; [exact Hrun|].
    rewrite Hem, He, Ht, Hb, Hi. reflexivity.
Defined.

(** Below a bound, a decidable property holds somewhere or nowhere. *)
Lemma bounded_search (P : nat -> Prop) (k : nat) :
  (forall j, {P j} + {~ P j}) ->
  (exists j, (j < k)%nat /\ P j) \/ (forall j, (j < k)%nat -> ~ P j).
Proof.
  intros Hdec. induction k as [|k [(j & Hj & Hp)|Hnone]].
  - right. intros j Hj. lia.
  - left. exists j. split; [lia | exact Hp].
  - destruct (Hdec k) as [Hp|Hn].
    + left. exists k. split; [lia | exact Hp].
    + right. intros j Hj. destruct (Nat.eq_dec j k) as [->|Hne]; [exact Hn|].
      apply Hnone. lia.
Qed.

(** The first step that passes a bound, when some step does. *)
Lemma first_passing (t : nat -> R) (tmax : R) (k : nat) :
  tmax < t (S k) ->
  exists K, (K <= k)%nat
            /\ (forall j, (1 <= j <= K)%nat -> t j <= tmax)
            /\ tmax < t (S K).
Proof.
  induction k as [k IH] using lt_wf_ind. intros Hk.
  destruct (bounded_search (fun j => tmax < t (S j)) k) as [(j & Hj & Hp)|Hnone].
  - intros j. apply Rlt_dec.
  - destruct (IH j Hj Hp) as (K & HK & Hin & Hout).
    exists K. split; [lia|]. auto.
  - exists k. split; [lia|]. split; [|exact Hk].
    intros [|j] Hj; [lia|]. specialize (Hnone j ltac:(lia)). lra.
Qed.

(** X19.  On a driver whose galaxy has been initialised and that has no
    output writer, with the linear clock: if the clock passes [tmax]
    after some number of additions of the step [tbiv], added one at a
    time as the loop does, then the main loop ends.  There is a number of
    turns after which, given at least that much fuel, it returns with the
    clock beyond [tmax] and at least one step handed to the output.
    (Over the real numbers a positive step always passes [tmax]; on
    doubles a step that the clock absorbs never does.) *)
Theorem linear_clock_terminates (env : Starburst99.Environment)
        (self : Starburst99.t) (k : nat) (l : Log) :
  let g := Starburst99.galaxy self in
  steady self ->
  GalaxyModel.jtime g = 0%Z ->
  GalaxyModel.tmax g < running (S k) (Starburst99.time self) (GalaxyModel.tbiv g) ->
  exists K : nat,
    (K <= k)%nat /\
    forall fuel, (K < fuel)%nat ->
      exists self' l',
        Starburst99._main_calculation_loop env fuel self l = (Ok (Some self'), l')
        /\ GalaxyModel.tmax g < Starburst99.time self'
        /\ List.length (Starburst99.emitted self')
           = (List.length (Starburst99.emitted self) + S K)%nat.
Proof.
  intros g Hs Hj Hk.
  destruct (first_passing
              (fun j => running j (Starburst99.time self) (GalaxyModel.tbiv g))
              (GalaxyModel.tmax g) k Hk) as (K & HK & Hin & Hout).
  exists K. split; [exact HK|]. intros fuel Hfuel.
  destruct (linear_loop_outputs env self K fuel l Hs Hj Hin Hout Hfuel)
    as (self' & l' & Hrun & Hem & Ht & _).
  exists self', l'. split; [exact Hrun|]. split.
  - rewrite Ht. exact Hout.
  - rewrite Hem, length_app. unfold linear_outputs.
    rewrite length_map, length_seq. reflexivity.
Qed.

(** The driver prepared with [init_module()] alone has step 1 and end
    100: the clock is beyond 100 after 101 additions, and the loop ends
    within 101 turns. *)
Lemma linear_clock_terminates_witness :
  exists K : nat,
    (K <= 100)%nat /\
    forall fuel, (K < fuel)%nat ->
      exists self' l',
        Starburst99._main_calculation_loop env_empty fuel
                                           (prepared ModelParameters.default) []
        = (Ok (Some self'), l')
        /\ 100 < Starburst99.time self'
        /\ List.length (Starburst99.emitted self') = (0 + S K)%nat.
Proof.
  apply (linear_clock_terminates env_empty (prepared ModelParameters.default) 100 []).
  - apply prepared_steady.
  - reflexivity.
  - change (100 < running 101 0 1).
    assert (H : forall j t, running j t 1 = t + INR j).
    { induction j as [|j IH]; intros t; [cbn; lra|].
      change (running (S j) t 1) with (running j (t + 1) 1).
      rewrite IH, S_INR. lra. }
    rewrite H, INR_IZR_INZ. cbn. lra.
Defined.

(** X20.  On a driver whose galaxy has been initialised and that has no
    output writer, with the linear clock, a step [tbiv] that is zero or
    negative and a start whose first step does not pass [tmax], the main
    loop never ends: whatever the number of turns allowed, it is still
    running after them. *)
Theorem linear_clock_runs_forever (env : Starburst99.Environment)
        (self : Starburst99.t) (fuel : nat) (l : Log) :
  let g := Starburst99.galaxy self in
  steady self ->
  GalaxyModel.jtime g = 0%Z ->
  GalaxyModel.tbiv g <= 0 ->
  Starburst99.time self + GalaxyModel.tbiv g <= GalaxyModel.tmax g ->
  exists l', Starburst99._main_calculation_loop env fuel self l = (Ok None, l').
Proof.
  intros g Hs Hj Hstep Hfirst.
  assert (Hjc : c_jtime (clock_of self) = 0%Z) by exact Hj.
  assert (Hle : forall j, running (S j) (Starburst99.time self) (GalaxyModel.tbiv g)
                          <= GalaxyModel.tmax g).
  { induction j as [|j IH]; [cbn; lra|].
    rewrite running_succ_r. lra. }
  rewrite main_calculation_loop_unfold.
  apply main_loop_runs_on; [exact Hs|].
  intros j _. rewrite (linear_test j _ Hjc).
  change (c_tmax (clock_of self)) with (GalaxyModel.tmax g).
  change (running (S j) (c_time (clock_of self)) (c_tbiv (clock_of self)))
    with (running (S j) (Starburst99.time self) (GalaxyModel.tbiv g)).
  destruct (Rlt_dec _ _) as [Hlt|]; [|reflexivity].
  specialize (Hle j). lra.
Qed.

(** A driver prepared with [init_module()] and a step of 0: after a
    thousand turns the loop is still running. *)
Lemma linear_clock_runs_forever_witness :
  exists self0 l',
    Starburst99._sync_parameters (prepared zero_step_parameters) = Ok self0
    /\ Starburst99._main_calculation_loop env_empty 1000 self0 [] = (Ok None, l').
Proof.
  destruct (sync_steady (prepared zero_step_parameters)
              (prepared_steady zero_step_parameters))
    as (self0 & Hsync & Hsteady & Hclock); [cbn; lia|].
  cbn in Hclock.
  pose proof (f_equal c_jtime Hclock) as Hj.
  pose proof (f_equal c_tbiv Hclock) as Hb.
  pose proof (f_equal c_tmax Hclock) as Hm.
  pose proof (f_equal c_time Hclock) as Ht.
  cbn in Hj, Hb, Hm, Ht.
  destruct (linear_clock_runs_forever env_empty self0 1000 [] Hsteady Hj) as [l' Hl'].
  - rewrite Hb. lra.
  - rewrite Ht, Hb, Hm. lra.
  - exists self0, l'. split; [exact Hsync | exact Hl'].
Defined.

(** ** The main loop on the logarithmic clock *)

Lemma log_test (k : nat) (c : clock) :
  c_jtime c <> 0%Z ->
  snd (tick (ticks k c))
  = if (c_icount c + Z.of_nat k >=? c_itbiv c)%Z then false else true.
Proof.
  intros Hj.
  destruct (ticks_frame k c) as (H1 & _ & _ & H4 & _ & _ & H7 & _).
  unfold tick. cbn [snd]. rewrite H1, H4, H7.
  destruct (Z.eqb_spec (c_jtime c) 0); [contradiction | reflexivity].
Qed.

Lemma ticks_numbers (k : nat) :
  forall c : clock,
    map snd (c_emitted (ticks k c))
    = (map snd (c_emitted c)
       ++ map (fun j => (c_icount c + Z.of_nat j)%Z) (seq 0 k))%list.
Proof.
  induction k as [|k IH]; intros c.
  - cbn [ticks seq map]. rewrite app_nil_r. reflexivity.
  - rewrite ticks_succ, IH.
    cbn [fst tick c_icount c_emitted].
    rewrite map_app, <- app_assoc. f_equal. cbn [map app snd].
    change (seq 0 (S k)) with (0%nat :: seq 1 k). cbn [map]. f_equal; [lia|].
    rewrite <- seq_shift, map_map. apply map_ext. intros j. lia.
Qed.

(** X21.  On a driver whose galaxy has been initialised and that has no
    output writer, with the logarithmic clock, the main loop ends,
    whatever the ratio [tstep] and the times: started at step number
    [icount], it runs without raising and hands the steps numbered
    [icount .. max(icount, itbiv)] to the output, one each, so
    [max(1, itbiv)] steps when it starts at step 1. *)
Theorem log_clock_step_count (env : Starburst99.Environment)
        (self : Starburst99.t) (fuel : nat) (l : Log) :
  let g := Starburst99.galaxy self in
  let K := Z.to_nat (GalaxyModel.itbiv g - Starburst99.icount self) in
  steady self ->
  GalaxyModel.jtime g <> 0%Z ->
  (K < fuel)%nat ->
  exists self' l',
    Starburst99._main_calculation_loop env fuel self l = (Ok (Some self'), l')
    /\ map snd (Starburst99.emitted self')
       = (map snd (Starburst99.emitted self)
          ++ map (fun j => (Starburst99.icount self + Z.of_nat j)%Z) (seq 0 (S K)))%list
    /\ Starburst99.icount self'
       = (Z.max (Starburst99.icount self) (GalaxyModel.itbiv g) + 1)%Z.
Proof.
  intros g K Hs Hj Hfuel.
  assert (Hjc : c_jtime (clock_of self) <> 0%Z) by exact Hj.
  rewrite main_calculation_loop_unfold.
  destruct (main_loop_stops env K fuel 0 self
              (l ++ [(INFO, "Beginning stellar population evolution...")])%list Hs)
    as (self' & l' & Hrun & Hclock & _ & _).
  - intros j Hjk. rewrite (log_test j _ Hjc).
    change (c_icount (clock_of self)) with (Starburst99.icount self).
    change (c_itbiv (clock_of self)) with (GalaxyModel.itbiv g).
    destruct (Z.geb_spec (Starburst99.icount self + Z.of_nat j) (GalaxyModel.itbiv g));
      [unfold K in Hjk; lia | reflexivity].
  - rewrite (log_test K _ Hjc).
    change (c_icount (clock_of self)) with (Starburst99.icount self).
    change (c_itbiv (clock_of self)) with (GalaxyModel.itbiv g).
    destruct (Z.geb_spec (Starburst99.icount self + Z.of_nat K) (GalaxyModel.itbiv g));
      [reflexivity | unfold K in *; lia].
  - exact Hfuel.
  - exists self', l'. split; [exact Hrun|].
    pose proof (ticks_numbers (S K) (clock_of self)) as Hn.
    destruct (ticks_frame (S K) (clock_of self)) as (_ & _ & _ & _ & _ & _ & Hi & _).
    rewrite <- Hclock in Hn, Hi.
    split; [exact Hn|].
    change (c_icount (clock_of self')) with (Starburst99.icount self') in Hi.
    rewrite Hi. change (c_icount (clock_of self)) with (Starburst99.icount self).
    unfold K. lia.
Qed.

(** A driver prepared with [init_module()] and a logarithmic clock of
    three steps: the loop hands the steps 1, 2 and 3 to the output. *)
Lemma log_clock_step_count_witness :
  exists self0 self' l',
    Starburst99._sync_parameters (prepared log_clock_parameters) = Ok self0
    /\ Starburst99._main_calculation_loop env_empty 5 self0 [] = (Ok (Some self'), l')
    /\ map snd (Starburst99.emitted self') = [1; 2; 3]%Z.
Proof.
  destruct (sync_steady (prepared log_clock_parameters)
              (prepared_steady log_clock_parameters))
    as (self0 & Hsync & Hsteady & Hclock); [cbn; lia|].
  cbn in Hclock.
  pose proof (f_equal c_jtime Hclock) as Hj.
  pose proof (f_equal c_itbiv Hclock) as Hn.
  pose proof (f_equal c_icount Hclock) as Hi.
  pose proof (f_equal c_emitted Hclock) as He.
  cbn in Hj, Hn, Hi, He.
  destruct (log_clock_step_count env_empty self0 5 [] Hsteady) as (self' & l' & Hrun & Hem & _).
  - rewrite Hj. lia.
  - rewrite Hn, Hi. cbn. lia.
  - exists self0, self', l'. split; [exact Hsync|]. split; [exact Hrun|].
    rewrite Hem, He, Hn, Hi. reflexivity.
Defined.


(** ** A run never completes *)

(** Whatever [_read_tracks] returns, it has replaced [galaxy.tracks] by
    the dummy table and left the output writer alone. *)
Lemma read_tracks_shape (fs : StellarTracks.FileSystem) (s s' : Starburst99.t)
      (l l' : Log) :
  Starburst99._read_tracks fs s l = (Ok s', l') ->
  Starburst99.galaxy s'
  = GalaxyModel.set_tracks (Starburst99.galaxy s) [zero_track_data]
  /\ Starburst99.output_writer s' = Starburst99.output_writer s.
Proof.
  unfold Starburst99._read_tracks, mbind, try_except, logger, ret, throw, lift.
  rewrite dummy_is_zero.
  destruct (negb (StellarTracks.path_exists fs _)); cbv beta iota;
    (destruct (negb (StellarTracks.path_exists fs _)); [discriminate|]);
    (destruct (StellarTracks.load_tracks fs _ _ _) as [[st|e] l1]);
    intros H; inversion H; subst; split; reflexivity.
Qed.

(** On a disk that has every file, [_read_tracks] returns. *)
Lemma read_tracks_returns (fs : StellarTracks.FileSystem) (s : Starburst99.t) (l : Log) :
  (forall p, StellarTracks.path_exists fs p = true) ->
  exists s' l', Starburst99._read_tracks fs s l = (Ok s', l').
Proof.
  intros Hall.
  unfold Starburst99._read_tracks, mbind, try_except, logger, ret, throw, lift.
  rewrite dummy_is_zero, !Hall. cbn [negb]. cbv beta iota. rewrite Hall. cbn [negb].
  destruct (StellarTracks.load_tracks fs _ _ _) as [[st|e] l1]; eauto.
Qed.

Lemma ready_set_tracks (g : GalaxyModel.t) (tr : list TrackData.t) :
  ready g -> ready (GalaxyModel.set_tracks g tr).
Proof. intros Hg. destruct Hg. constructor; cbn; assumption. Qed.

Lemma ready_set_critical_masses (g : GalaxyModel.t) :
  ready g -> ready (GalaxyModel.set_critical_masses g).
Proof. intros Hg. destruct Hg. constructor; cbn; assumption. Qed.

(** With an output writer at hand and an initialised galaxy, the turn
    gets as far as [_output]. *)
Lemma turn_reaches_output (self : Starburst99.t) (w : OutputWriter.t) :
  ready (Starburst99.galaxy self) ->
  Starburst99.output_writer self = Some w ->
  Starburst99.turn self
  = Raise (AttributeError "'OutputWriter' object has no attribute 'write_timestep'").
Proof.
  intros Hg Hw. unfold Starburst99.turn.
  destruct (keeps_calculators (Starburst99.time self) (Starburst99.galaxy self) Hg)
    as (g' & -> & _).
  cbn [bind]. unfold Starburst99._output.
  cbn [Starburst99.output_writer Starburst99.with_galaxy]. rewrite Hw. reflexivity.
Qed.

(** The first turn of the loop, with an output writer at hand. *)
Lemma main_loop_with_writer (env : Starburst99.Environment) (fuel : nat)
      (self : Starburst99.t) (w : OutputWriter.t) (l : Log) :
  Starburst99.output_writer self = Some w ->
  exists e,
    Starburst99._main_calculation_loop env (S fuel) self l
    = (Raise e, (l ++ [(INFO, "Beginning stellar population evolution...")])%list)
    /\ Starburst99.turn self = Raise e.
Proof.
  intros Hw. destruct (turn_with_writer self w Hw) as [e He].
  exists e. split; [|exact He].
  unfold Starburst99._main_calculation_loop. cbn [Starburst99.main_loop].
  unfold mbind, logger, ret, lift. cbn [Z.add Z.modulo Z.div_eucl Z.eqb].
  change ((0 + 1) mod 10 =? 0)%Z with false. cbv beta iota.
  rewrite He. reflexivity.
Qed.

(** What [run] does after it has read its parameters, up to the
    handler: every stage that follows either raises, or leads to the
    first turn of the main loop, whose call of [_output] raises. *)
Lemma run_body_raises (env : Starburst99.Environment) (fuel : nat)
      (self : Starburst99.t) (l : Log) :
  exists e l', Starburst99.run_body env (S fuel) self l = (Raise e, l').
Proof.
  unfold Starburst99.run_body, mbind, logger, lift, ret, GalaxyModel.init_module.
  cbv beta iota. unfold mbind, logger, ret. cbv beta iota.
  destruct (Starburst99.read_parameters env _) as [params|e]; [|eauto].
  cbv beta iota.
  destruct (Starburst99._sync_parameters _) as [s1|e]; [|eauto].
  cbv beta iota.
  destruct (OutputWriter.__init__ _ _) as [w|e]; [|eauto].
  cbv beta iota.
  destruct (IMF.__init__ _ _ _) as [new_imf|e]; [|eauto].
  cbv beta iota.
  match goal with
  | |- context [Starburst99._read_tracks ?fs ?s ?l0] =>
      destruct (Starburst99._read_tracks fs s l0) as [[s2|e] l2] eqn:Htracks;
      [|eauto]
  end.
  destruct (read_tracks_shape _ _ _ _ _ Htracks) as [_ Hw]. cbn in Hw.
  match goal with
  | |- context [Starburst99._read_atmosphere_data ?fs ?s ?l0] =>
      destruct (Starburst99._read_atmosphere_data fs s l0) as [[[]|e] l3];
      [|eauto]
  end.
  match goal with
  | |- context [Starburst99._main_calculation_loop env (S fuel) ?s ?l0] =>
      destruct (main_loop_with_writer env fuel s w l0) as (e & -> & _);
      [exact Hw|]
  end.
  eauto.
Qed.

(** A new driver whose parameters hold at most ten intervals, run
    where every stage before the main loop succeeds: the last record
    before the handler's is the one that opens the loop, and the error
    is that of [_output]. *)
Lemma run_body_first_output (env : Starburst99.Environment) (fuel : nat)
      (input_file : option string) (start_time : string) (l : Log)
      (params : ModelParameters.t) (new_imf : IMF.t) :
  let self := Starburst99.__init__ input_file start_time in
  Starburst99.read_parameters env self = Ok params ->
  (ModelParameters.num_intervals params <= 10)%Z ->
  Starburst99.mkdir env "output" = Ok tt ->
  IMF.__init__ (ModelParameters.num_intervals params)
               (ModelParameters.exponents params)
               (ModelParameters.mass_limits params) = Ok new_imf ->
  (forall p, StellarTracks.path_exists (Starburst99.disk env) p = true) ->
  (forall p, StellarTracks.can_open (Starburst99.disk env) p = true) ->
  exists l',
    Starburst99.run_body env (S fuel) self l
    = (Raise (AttributeError "'OutputWriter' object has no attribute 'write_timestep'"),
       (l' ++ [(INFO, "Beginning stellar population evolution...")])%list).
Proof.
  intros self Hread Hten Hmk Himf Hexists Hopen.
  assert (Hsteady : steady (entering self params)).
  { split; [|reflexivity]. cbn [entering Starburst99.galaxy].
    apply ready_set_model_params. exact allocate_ready. }
  destruct (sync_steady (entering self params) Hsteady Hten)
    as (s1 & Hsync & [Hready1 Hw1] & _).
  assert (Hp : GalaxyModel.model_params (Starburst99.galaxy s1) = params).
  { pose proof Hsync as H. unfold Starburst99._sync_parameters in H.
    destruct (for_range _ _ (GalaxyModel.xponent _)) as [xp|]; cbn [bind] in H;
      [|discriminate].
    destruct (for_range _ _ (GalaxyModel.xmaslim _)) as [xm|]; cbn [bind] in H;
      [|discriminate].
    inversion H. reflexivity. }
  unfold Starburst99.run_body, mbind, logger, lift, ret, GalaxyModel.init_module.
  cbv beta iota. unfold mbind, logger, ret. cbv beta iota.
  change (Starburst99.read_parameters env _)
    with (Starburst99.read_parameters env self).
  rewrite Hread. cbv beta iota.
  match goal with
  | |- context [Starburst99._sync_parameters ?x] =>
      change x with (entering self params)
  end.
  rewrite Hsync. cbv beta iota.
  unfold OutputWriter.__init__. cbn [String.eqb Ascii.eqb Bool.eqb].
  rewrite Hmk. cbn [bind]. cbv beta iota. cbn [Starburst99.galaxy].
  rewrite Hp, Himf. cbv beta iota.
  match goal with
  | |- context [Starburst99._read_tracks ?fs ?s ?l0] =>
      destruct (read_tracks_returns fs s l0 Hexists) as (s2 & l2 & Htracks);
      rewrite Htracks;
      destruct (read_tracks_shape _ _ _ _ _ Htracks) as [Hg2 Hw2]
  end.
  cbn [Starburst99.galaxy Starburst99.output_writer] in Hg2, Hw2.
  unfold Starburst99._read_atmosphere_data, mbind, logger, throw.
  rewrite Hexists, Hopen. cbn [negb]. cbv beta iota.
  match goal with
  | |- context [Starburst99._main_calculation_loop env (S fuel) ?s ?l0] =>
      destruct (main_loop_with_writer env fuel s (OutputWriter.mk "output") l0)
        as (e & Hloop & Hturn);
      [exact Hw2|];
      rewrite Hloop;
      rewrite turn_reaches_output with (w := OutputWriter.mk "output") in Hturn;
      [|cbn [Starburst99.galaxy Starburst99.with_galaxy
              Starburst99._set_metallicity_string];
        apply ready_set_critical_masses; rewrite Hg2;
        apply ready_set_tracks; exact Hready1
       |exact Hw2]
  end.
  inversion Hturn. eexists. reflexivity.
Qed.

(** X22.  [run()] never completes.  With at least one turn of the main
    loop allowed, it exits with status 1 for every driver, environment
    and log, and the record of its handler, [Error during execution:
    ...], is the last one in the log: whatever the stages before the loop
    do, the first turn ends in [_output], which asks the output writer
    for [write_timestep], a method [OutputWriter] does not have.  On a new
    driver whose parameters hold at most ten intervals and are accepted by
    [IMF(...)], with the output directory made and a disk that holds and
    opens every file, that [AttributeError] is the error reported, right
    after the record that opens the loop: no step is completed. *)
Theorem run_exits_with_status_1 (env : Starburst99.Environment) (fuel : nat) :
  (forall (self : Starburst99.t) (l : Log),
      exists e l', Starburst99.run env (S fuel) self l = exits l' e)
  /\ (forall (input_file : option string) (start_time : string) (l : Log)
             (params : ModelParameters.t) (new_imf : IMF.t),
         let self := Starburst99.__init__ input_file start_time in
         Starburst99.read_parameters env self = Ok params ->
         (ModelParameters.num_intervals params <= 10)%Z ->
         Starburst99.mkdir env "output" = Ok tt ->
         IMF.__init__ (ModelParameters.num_intervals params)
                      (ModelParameters.exponents params)
                      (ModelParameters.mass_limits params) = Ok new_imf ->
         (forall p, StellarTracks.path_exists (Starburst99.disk env) p = true) ->
         (forall p, StellarTracks.can_open (Starburst99.disk env) p = true) ->
         exists l',
           Starburst99.run env (S fuel) self l
           = exits (l' ++ [(INFO, "Beginning stellar population evolution...")])%list
                   (AttributeError
                      "'OutputWriter' object has no attribute 'write_timestep'")).
Proof.
  split.
  - intros self l. unfold Starburst99.run, exits.
    destruct (run_body_raises env fuel self (l ++ Starburst99.banner self)%list)
      as (e & l' & ->).
    exists e, l'. reflexivity.
  - intros input_file start_time l params new_imf self Hread Hten Hmk Himf Hex Hop.
    unfold Starburst99.run, exits.
    destruct (run_body_first_output env fuel input_file start_time
                (l ++ Starburst99.banner self)%list params new_imf
                Hread Hten Hmk Himf Hex Hop) as (l' & Hl').
    fold self in Hl'. rewrite Hl'. exists l'. reflexivity.
Qed.

(** A new driver without an input file, on a disk that holds and opens
    every file (no track file can be parsed, which [_read_tracks]
    forgives): the run gets to the loop and exits on its first call of
    [_output]. *)
Lemma run_exits_with_status_1_witness :
  exists l',
    Starburst99.run env_unreadable 1 fresh []
    = exits (l' ++ [(INFO, "Beginning stellar population evolution...")])%list
            (AttributeError "'OutputWriter' object has no attribute 'write_timestep'").
Proof.
  apply (proj2 (run_exits_with_status_1 env_unreadable 0) None "start" []
               InputParser.get_default_parameters
               (IMF.mk 1 [2.35] [1; 100]
                       (IMF._calculate_normalizations 1 [2.35] [1; 100]))).
  - reflexivity.
  - cbn. lia.
  - reflexivity.
  - unfold IMF.__init__, IMF._validate_parameters. pyeval. reflexivity.
  - reflexivity.
  - reflexivity.
Defined.

(** ** The clock of a prepared driver *)

(** X30.  A driver prepared with [init_module()] whose parameters select
    the linear clock and hold at most ten intervals starts its clock at
    0, whatever [initial_time] is: after [_sync_parameters], with [t_j]
    the sum of [j] steps [time_step] added to 0 one at a time, if
    [t_1 .. t_K] stay within [max_time] and [t_(K+1)] is beyond it, the
    main loop hands [K + 1] steps to the output, numbered 1 to [K + 1], at
    the times [t_0 = 0, t_1, ..., t_K]. *)
Theorem prepared_linear_clock_starts_at_zero
        (env : Starburst99.Environment) (params : ModelParameters.t)
        (K fuel : nat) (l : Log) :
  let t j := running j 0 (ModelParameters.time_step params) in
  ModelParameters.time_scale params = 0%Z ->
  (ModelParameters.num_intervals params <= 10)%Z ->
  (forall j, (1 <= j <= K)%nat -> t j <= ModelParameters.max_time params) ->
  ModelParameters.max_time params < t (S K) ->
  (K < fuel)%nat ->
  exists self0 self' l',
    Starburst99._sync_parameters (prepared params) = Ok self0
    /\ Starburst99._main_calculation_loop env fuel self0 l = (Ok (Some self'), l')
    /\ Starburst99.emitted self'
       = linear_outputs (S K) 0 (ModelParameters.time_step params) 1.
Proof.
  intros t Hscale Hten Hin Hout Hfuel.
  destruct (sync_steady (prepared params) (prepared_steady params))
    as (self0 & Hsync & Hsteady & Hclock); [exact Hten|].
  cbn in Hclock.
  pose proof (f_equal c_jtime Hclock) as Hj.
  pose proof (f_equal c_tbiv Hclock) as Hb.
  pose proof (f_equal c_tmax Hclock) as Hm.
  pose proof (f_equal c_time Hclock) as Ht.
  pose proof (f_equal c_icount Hclock) as Hi.
  pose proof (f_equal c_emitted Hclock) as He.
  cbn in Hj, Hb, Hm, Ht, Hi, He.
  destruct (linear_loop_outputs env self0 K fuel l Hsteady)
    as (self' & l' & Hrun & Hem & _).
  - rewrite Hj. exact Hscale.
  - intros j Hjk. rewrite Ht, Hb, Hm. apply Hin. exact Hjk.
  - rewrite Ht, Hb, Hm. exact Hout.
  - exact Hfuel.
  - exists self0, self', l'. split; [exact Hsync|]. split; [exact Hrun|].
    rewrite Hem, He, Ht, Hb, Hi. reflexivity.
Qed.

(** With [initial_time = 5], steps of 0.5 and [max_time = 1] the
    outputs are at 0, 0.5 and 1, not from 5 on. *)
Lemma prepared_linear_clock_starts_at_zero_witness :
  exists self0 self' l',
    Starburst99._sync_parameters (prepared half_steps_parameters) = Ok self0
    /\ Starburst99._main_calculation_loop env_empty 3 self0 [] = (Ok (Some self'), l')
    /\ Starburst99.emitted self' = [(0, 1%Z); (0 + 0.5, 2%Z); (0 + 0.5 + 0.5, 3%Z)].
Proof.
  apply (prepared_linear_clock_starts_at_zero env_empty half_steps_parameters 2 3 []).
  - reflexivity.
  - cbn. lia.
  - intros j Hj. destruct j as [|[|[|j]]]; try lia; cbn; lra.
  - cbn. lra.
  - lia.
Defined.


(** ** The density of each interval *)

(** A loop whose invariant counts the turns. *)
Lemma for_range_count {S : Type} (P : nat -> S -> Prop) (n : nat)
      (body : S -> nat -> result S) (s : S) :
  P 0%nat s ->
  (forall i s0, (i < n)%nat -> P i s0 ->
                exists s1, body s0 i = Ok s1 /\ P (Datatypes.S i) s1) ->
  exists s', for_range n body s = Ok s' /\ P n s'.
Proof.
  intros Hs Hbody. induction n as [|n IH].
  - exists s. split; [reflexivity | exact Hs].
  - destruct IH as (s1 & H1 & P1).
    { intros i s0 Hi. apply Hbody. lia. }
    rewrite for_range_succ, H1. cbn [bind]. apply Hbody; [lia | exact P1].
Qed.

Lemma set_dens_twice (g : GalaxyModel.t) (a b : option (list R)) :
  GalaxyModel.set_dens (GalaxyModel.set_dens g a) b = GalaxyModel.set_dens g b.
Proof. reflexivity. Qed.

(** The loop of [_density] after [k] intervals. *)
Lemma density_loop (scale : R) (g : GalaxyModel.t) (d : list R) (k : nat) :
  GalaxyModel.dens g = Some d ->
  (k <= List.length d)%nat ->
  (k < List.length (GalaxyModel.xmaslim g))%nat ->
  (k <= List.length (GalaxyModel.xponent g))%nat ->
  exists d',
    for_range k (Starburst99._density_step scale) g
    = Ok (GalaxyModel.set_dens g (Some d'))
    /\ List.length d' = List.length d
    /\ (forall i, (i < k)%nat ->
                  nth i d' 0
                  = Starburst99.density_value
                      scale (nth i (GalaxyModel.xmaslim g) 0)
                      (nth (S i) (GalaxyModel.xmaslim g) 0)
                      (nth i (GalaxyModel.xponent g) 0))
    /\ (forall i, (k <= i)%nat -> nth i d' 0 = nth i d 0).
Proof.
  intros Hd Hk Hl He.
  destruct (for_range_count
              (fun j g' =>
                 exists d', g' = GalaxyModel.set_dens g (Some d')
                            /\ List.length d' = List.length d
                            /\ (forall i, (i < j)%nat ->
                                          nth i d' 0
                                          = Starburst99.density_value
                                              scale (nth i (GalaxyModel.xmaslim g) 0)
                                              (nth (S i) (GalaxyModel.xmaslim g) 0)
                                              (nth i (GalaxyModel.xponent g) 0))
                            /\ (forall i, (j <= i)%nat -> nth i d' 0 = nth i d 0))
              k (Starburst99._density_step scale) g)
    as (g' & Hrun & d' & -> & Hlen & Hin & Hout).
  - exists d. split; [|split; [reflexivity|split; [intros; lia | reflexivity]]].
    destruct g; cbn in Hd |- *. rewrite Hd. reflexivity.
  - intros i g0 Hi (d0 & -> & Hlen & Hin & Hout).
    unfold Starburst99._density_step.
    cbn [GalaxyModel.xmaslim GalaxyModel.xponent GalaxyModel.dens GalaxyModel.set_dens].
    rewrite py_index_ok by lia. cbn [bind].
    replace (Z.of_nat i + 1)%Z with (Z.of_nat (S i)) by lia.
    rewrite py_index_ok by lia. cbn [bind].
    rewrite py_index_ok by lia. cbn [bind store].
    pose proof (set_item_ok d0 i
                  (Starburst99.density_value
                     scale (nth i (GalaxyModel.xmaslim g) 0)
                     (nth (S i) (GalaxyModel.xmaslim g) 0)
                     (nth i (GalaxyModel.xponent g) 0)) ltac:(lia)) as Hset.
    rewrite Hset. cbn [bind].
    destruct (set_item_nth _ _ _ _ 0 Hset) as (H1 & H2 & H3).
    eexists. split; [reflexivity|].
    eexists. split; [apply set_dens_twice|].
    split; [lia|]. split.
    + intros j Hj. destruct (Nat.eq_dec j i) as [->|Hne]; [exact H2|].
      rewrite H3 by exact Hne. apply Hin. lia.
    + intros j Hj. rewrite H3 by lia. apply Hout. lia.
  - exists d'. auto.
Qed.

(** X23.  With a density array, limits and exponents long enough for
    the [ninterv] intervals, and positive limits, [_density] does not
    raise.  It overwrites [dens[i]] for each interval [i] with the value
    of its formula, [scale * (upper**(e+1) - lower**(e+1)) / (e+1)], or
    [scale * log(upper/lower)] for [e = -1], where [scale] is [sfr * dt]
    for continuous star formation (with [dt = tbiv] on the linear clock,
    [tvar] otherwise) and [toma * 1e6] for a burst; it changes no other
    entry of [dens] and no other field of [galaxy]; and running it again
    changes nothing. *)
Theorem density_fills_intervals (g : GalaxyModel.t) (d : list R) :
  let n := Z.to_nat (GalaxyModel.ninterv g) in
  let scale :=
    if (GalaxyModel.isf g >? 0)%Z
    then GalaxyModel.sfr g
         * (if (GalaxyModel.jtime g =? 0)%Z then GalaxyModel.tbiv g
            else GalaxyModel.tvar g)
    else GalaxyModel.toma g * 1e6 in
  GalaxyModel.dens g = Some d ->
  (n <= List.length d)%nat ->
  (n < List.length (GalaxyModel.xmaslim g))%nat ->
  (n <= List.length (GalaxyModel.xponent g))%nat ->
  (forall i, (i <= n)%nat -> 0 < nth i (GalaxyModel.xmaslim g) 0) ->
  exists d',
    Starburst99._density g = Ok (GalaxyModel.set_dens g (Some d'))
    /\ List.length d' = List.length d
    /\ (forall i, (i < n)%nat ->
                  nth i d' 0
                  = Starburst99.density_value
                      scale (nth i (GalaxyModel.xmaslim g) 0)
                      (nth (S i) (GalaxyModel.xmaslim g) 0)
                      (nth i (GalaxyModel.xponent g) 0))
    /\ (forall i, (n <= i)%nat -> nth i d' 0 = nth i d 0)
    /\ Starburst99._density (GalaxyModel.set_dens g (Some d'))
       = Ok (GalaxyModel.set_dens g (Some d')).
Proof.
  intros n scale Hd Hn Hl He _.
  destruct (density_loop scale g d n Hd Hn Hl He) as (d' & Hrun & Hlen & Hin & Hout).
  exists d'. split; [exact Hrun|]. split; [exact Hlen|].
  split; [exact Hin|]. split; [exact Hout|].
  unfold Starburst99._density.
  cbn [GalaxyModel.isf GalaxyModel.sfr GalaxyModel.jtime GalaxyModel.tbiv
       GalaxyModel.tvar GalaxyModel.toma GalaxyModel.ninterv GalaxyModel.set_dens].
  fold scale. fold n.
  destruct (density_loop scale (GalaxyModel.set_dens g (Some d')) d' n eq_refl)
    as (d2 & Hrun2 & Hlen2 & Hin2 & Hout2); try (cbn; lia).
  change (for_range n (Starburst99._density_step scale)
                    (GalaxyModel.set_dens g (Some d'))
          = Ok (GalaxyModel.set_dens g (Some d'))).
  rewrite Hrun2, set_dens_twice. do 3 f_equal.
  apply (nth_ext d2 d' 0 0); [exact Hlen2|].
  intros i _. destruct (Nat.lt_ge_cases i n) as [Hi|Hi].
  - rewrite Hin2, Hin by exact Hi. reflexivity.
  - apply Hout2. exact Hi.
Qed.

(** After [init_module()] a new [GalaxyModel()] holds one interval, from
    1 to 100 with exponent 2.35, and a burst of mass 1: [_density] stores
    [1 * 1e6 * (100**3.35 - 1**3.35) / 3.35] in [dens[0]] and leaves
    [dens[1]] at 0. *)
Lemma density_fills_intervals_witness :
  exists d',
    Starburst99._density (GalaxyModel.allocate GalaxyModel.__init__)
    = Ok (GalaxyModel.set_dens (GalaxyModel.allocate GalaxyModel.__init__) (Some d'))
    /\ nth 0 d' 0
       = 1 * 1e6 * (np_pow 100 (2.35 + 1) - np_pow 1 (2.35 + 1)) / (2.35 + 1)
    /\ nth 1 d' 0 = 0.
Proof.
  destruct (density_fills_intervals (GalaxyModel.allocate GalaxyModel.__init__)
              (GalaxyModel.np_zeros GalaxyModel.NPGRID) eq_refl)
    as (d' & Hrun & _ & Hin & Hout & _).
  - rewrite np_zeros_length. cbn. lia.
  - cbn. lia.
  - cbn. lia.
  - intros [|[|i]] Hi; cbn in *; try lra; lia.
  - exists d'. split; [exact Hrun|]. split.
    + rewrite Hin by (cbn; lia).
      cbn [GalaxyModel.allocate GalaxyModel.__init__ GalaxyModel.isf GalaxyModel.toma
           GalaxyModel.xmaslim GalaxyModel.xponent Z.gtb Z.compare nth repeat].
      unfold Starburst99.density_value.
      destruct (Req_dec_T 2.35 (-1)); [lra | reflexivity].
    + rewrite Hout by (cbn; lia). apply np_zeros_nth.
Defined.

(** ** Counting stars by spectral type *)

Lemma bin_count_succ (d : list R) (s : list (list R)) (b k : nat) :
  bin_count d s b (S k)
  = (if Rlt_dec 0 (nth k d 0)
     then if (Starburst99.sp_bin (star_teff s k) =? b)%nat
          then bin_count d s b k + nth k d 0
          else bin_count d s b k
     else bin_count d s b k).
Proof.
  unfold bin_count. rewrite seq_S, fold_left_app. reflexivity.
Qed.

Lemma bin_count_nonneg (d : list R) (s : list (list R)) (b k : nat) :
  0 <= bin_count d s b k.
Proof.
  induction k as [|k IH]; [unfold bin_count; cbn; lra|].
  rewrite bin_count_succ.
  destruct (Rlt_dec 0 (nth k d 0)); [|exact IH].
  destruct (Starburst99.sp_bin _ =? b)%nat; lra.
Qed.

Lemma bin_count_zero (d : list R) (s : list (list R)) (b k : nat) :
  (7 <= b)%nat -> bin_count d s b k = 0.
Proof.
  intros Hb. induction k as [|k IH]; [reflexivity|].
  rewrite bin_count_succ.
  destruct (Rlt_dec 0 (nth k d 0)); [|exact IH].
  pose proof (sp_bin_range (star_teff s k)).
  destruct (Nat.eqb_spec (Starburst99.sp_bin (star_teff s k)) b); [lia | exact IH].
Qed.

(** The grid points from [k0] on that hold no star add nothing. *)
Lemma bin_count_tail (d : list R) (s : list (list R)) (b k0 k : nat) :
  (k0 <= k)%nat ->
  (forall i, (k0 <= i < k)%nat -> nth i d 0 <= 0) ->
  bin_count d s b k = bin_count d s b k0.
Proof.
  intros Hk Hd. induction k as [|k IH].
  - replace k0 with 0%nat by lia. reflexivity.
  - destruct (Nat.eq_dec k0 (S k)) as [->|Hne]; [reflexivity|].
    rewrite bin_count_succ.
    pose proof (Hd k ltac:(lia)).
    destruct (Rlt_dec 0 (nth k d 0)); [lra|].
    apply IH; [lia|]. intros i Hi. apply Hd. lia.
Qed.

Lemma add_at_nth (a : list R) (k : nat) (v : R) (j : nat) :
  (k < List.length a)%nat ->
  nth j (add_at a k v) 0 = if (k =? j)%nat then nth k a 0 + v else nth j a 0.
Proof.
  intros Hk.
  destruct (set_item_nth a (add_at a k v) k (nth k a 0 + v) 0 (set_item_ok a k _ Hk))
    as (_ & H2 & H3).
  destruct (Nat.eqb_spec k j) as [<-|Hne]; [exact H2|].
  apply H3. intros E. apply Hne. symmetry. exact E.
Qed.

(** X24.  With a density for every grid point, a row of at least two
    columns in [spectra] wherever the density is positive, and at least 20
    places in [sp_type_counts], [_spectype] does not raise.  It changes
    [sp_type_counts] alone, and there the first 20 places: place [b]
    receives the densities of the grid points that hold stars
    ([dens[i] > 0]) and whose temperature falls in bin [b], added in grid
    order starting from 0.  Only the seven bins O to M receive stars: bins
    7 to 19 are set to zero; and no count is negative. *)
Theorem spectype_counts_by_bin (g : GalaxyModel.t) (m d : list R)
        (s : list (list R)) (c : list R) :
  GalaxyModel.cmass g = Some m ->
  GalaxyModel.dens g = Some d ->
  GalaxyModel.spectra g = Some s ->
  GalaxyModel.sp_type_counts g = Some c ->
  (List.length m <= List.length d)%nat ->
  (forall i, (i < List.length m)%nat -> 0 < nth i d 0 ->
             (i < List.length s)%nat /\ (2 <= List.length (nth i s []))%nat) ->
  (20 <= List.length c)%nat ->
  exists c',
    Starburst99._spectype g = Ok (GalaxyModel.set_sp_type_counts g (Some c'))
    /\ List.length c' = List.length c
    /\ (forall b, (b < 20)%nat -> nth b c' 0 = bin_count d s b (List.length m))
    /\ (forall b, (7 <= b < 20)%nat -> nth b c' 0 = 0)
    /\ (forall b, (b < 20)%nat -> 0 <= nth b c' 0)
    /\ (forall b, (20 <= b)%nat -> nth b c' 0 = nth b c 0).
Proof.
  intros Hm Hd Hs Hc Hlen Hrows Hcounts.
  unfold Starburst99._spectype. rewrite Hm. cbn [py_len bind].
  destruct (for_range_count
              (fun k acc => List.length acc = 20%nat
                            /\ forall b, nth b acc 0 = bin_count d s b k)
              (List.length m) (Starburst99._spectype_step g)
              (GalaxyModel.np_zeros 20))
    as (acc & -> & Hacc & Hbins).
  - split; [apply repeat_length|]. intros b. apply np_zeros_nth.
  - intros i acc Hi [Hacc Hbins]. unfold Starburst99._spectype_step.
    rewrite Hd. cbn [subscript]. rewrite py_index_ok by lia. cbn [bind].
    destruct (Rlt_dec 0 (nth i d 0)) as [Hpos|Hnon].
    + destruct (Hrows i Hi Hpos) as [Hi_s Hcols].
      unfold subscript2. rewrite Hs. cbn [subscript].
      rewrite (py_index_nat s i []) by exact Hi_s. cbn [bind].
      change 1%Z with (Z.of_nat 1). rewrite py_index_ok by lia. cbn [bind].
      fold (star_teff s i).
      pose proof (sp_bin_range (star_teff s i)) as Hbin.
      eexists. split; [reflexivity|]. split.
      * rewrite add_at_length; lia.
      * intros b. rewrite add_at_nth by lia. rewrite bin_count_succ.
        destruct (Rlt_dec 0 (nth i d 0)); [|contradiction].
        destruct (Nat.eqb_spec (Starburst99.sp_bin (star_teff s i)) b) as [<-|Hne];
          rewrite Hbins; reflexivity.
    + exists acc. split; [reflexivity|]. split; [exact Hacc|].
      intros b. rewrite bin_count_succ.
      destruct (Rlt_dec 0 (nth i d 0)); [contradiction | apply Hbins].
  - cbn [bind]. rewrite Hc. unfold assign_prefix, assign_prefix_list.
    rewrite Hacc, Nat.min_l by lia. rewrite Nat.eqb_refl. cbn [bind].
    eexists. split; [reflexivity|].
    split; [rewrite length_app, length_skipn; lia|].
    split; [intros b Hb; rewrite app_nth1 by lia; apply Hbins|].
    split; [intros b Hb; rewrite app_nth1 by lia; rewrite Hbins;
            apply bin_count_zero; lia|].
    split; [intros b Hb; rewrite app_nth1 by lia; rewrite Hbins;
            apply bin_count_nonneg|].
    intros b Hb. rewrite app_nth2 by lia. rewrite Hacc, nth_skipn. f_equal. lia.
Qed.

(** After [init_module()], with 3 stars at grid point 0 and 5 at grid
    point 1 and a spectrum of zeros, both grid points are taken for 3000 K
    and counted as M stars: bin 6 holds [0 + 3 + 5], in that order. *)
Lemma spectype_counts_by_bin_witness :
  exists c',
    Starburst99._spectype galaxy_two_stars
    = Ok (GalaxyModel.set_sp_type_counts galaxy_two_stars (Some c'))
    /\ nth 6 c' 0 = 0 + 3 + 5.
Proof.
  destruct (spectype_counts_by_bin
              galaxy_two_stars (GalaxyModel.np_zeros GalaxyModel.NPGRID)
              (3 :: 5 :: repeat 0 2998)
              (GalaxyModel.np_zeros2 100 (Z.max GalaxyModel.NP GalaxyModel.NP1))
              (GalaxyModel.np_zeros 20) eq_refl eq_refl eq_refl eq_refl)
    as (c' & Hrun & _ & Hbins & _).
  - rewrite np_zeros_length. cbn [List.length]. rewrite repeat_length.
    unfold GalaxyModel.NPGRID. lia.
  - intros i Hi Hpos.
    assert (Hi2 : (i < 2)%nat).
    { destruct i as [|[|i]]; try lia. exfalso. cbn [nth] in Hpos.
      rewrite nth_repeat in Hpos. lra. }
    unfold GalaxyModel.np_zeros2. rewrite repeat_length. split; [lia|].
    rewrite nth_repeat_lt by lia. rewrite np_zeros_length.
    unfold GalaxyModel.NP, GalaxyModel.NP1. lia.
  - rewrite np_zeros_length. lia.
  - exists c'. split; [exact Hrun|].
    rewrite Hbins by lia.
    rewrite (bin_count_tail _ _ 6 2).
    + assert (Ht : forall i, (i < 2)%nat ->
                             star_teff (GalaxyModel.np_zeros2
                                          100 (Z.max GalaxyModel.NP GalaxyModel.NP1)) i
                             = 3000).
      { intros i Hi. unfold star_teff, GalaxyModel.np_zeros2.
        rewrite nth_repeat_lt by lia. rewrite np_zeros_nth.
        destruct (Rlt_dec 0 0); [lra | reflexivity]. }
      rewrite !bin_count_succ, (Ht 0%nat), (Ht 1%nat) by lia.
      assert (Hb : Starburst99.sp_bin 3000 = 6%nat).
      { unfold Starburst99.sp_bin. rdec. reflexivity. }
      rewrite Hb. cbn [nth Nat.eqb].
      destruct (Rlt_dec 0 3); [|lra]. destruct (Rlt_dec 0 5); [|lra].
      reflexivity.
    + rewrite np_zeros_length. unfold GalaxyModel.NPGRID. lia.
    + intros i Hi. destruct i as [|[|i]]; try lia. cbn [nth].
      rewrite nth_repeat. lra.
Defined.


(** ** Degenerate tables *)

Lemma interpolate_attrs_single (td : TrackData.t) (mass_idx : Z) (f : R)
      (names : list string) :
  row_ok td mass_idx 1 ->
  exists r,
    TrackData.interpolate_attrs td mass_idx 0 f names = Ok r
    /\ forall attr arr row,
         In attr names -> TrackData.getattr td attr = Some arr ->
         py_index arr mass_idx = Ok row ->
         In (attr, nth 0 row 0 + f * (nth 0 row 0 - nth 0 row 0)) r.
Proof.
  intros (Hn & Hm & Hrows).
  induction names as [|a tl (r & Hr & Hin)].
  - exists []. split; [reflexivity | intros ? ? ? []].
  - cbn [TrackData.interpolate_attrs].
    destruct (TrackData.getattr td a) as [arr|] eqn:Ha.
    + destruct (Hrows a arr Ha) as (row & Hrow & Hlen).
      rewrite Hrow. cbn [bind].
      assert (Hne : row <> []) by (intros E; rewrite E in Hlen; discriminate).
      change (0 - 1)%Z with (-1)%Z.
      rewrite (py_index_last row 0 Hne), (py_index_first row 0 Hne).
      cbn [bind]. rewrite Hr. cbn [bind].
      rewrite last_nth, Hlen. cbn [Nat.sub].
      eexists. split; [reflexivity|].
      intros attr arr' row' [<-|Hattr] Hg Hp.
      * left. rewrite Ha in Hg. inversion Hg; subst arr'.
        rewrite Hrow in Hp. inversion Hp; subst row'. reflexivity.
      * right. eapply Hin; eassumption.
    + exists r. split; [exact Hr|].
      intros attr arr' row' [<-|Hattr] Hg Hp; [congruence|].
      eapply Hin; eassumption.
Qed.

(** X25.  On a row that holds a single point, [interpolate_in_time]
    raises [IndexError] for every age at or before that point (it looks
    for a second point), and for every later age it returns the point
    itself, for every quantity that is set. *)
Theorem interpolate_in_time_single_point (td : TrackData.t) (mass_idx : Z)
        (ages2 : TrackData.array2) (a t : R) :
  TrackData.age td = Some ages2 -> py_index ages2 mass_idx = Ok [a] ->
  row_ok td mass_idx 1 ->
  (t <= a -> TrackData.interpolate_in_time td mass_idx t = Raise IndexError)
  /\ (a < t ->
      exists r,
        TrackData.interpolate_in_time td mass_idx t = Ok r
        /\ forall attr arr row,
             In attr TrackData.attrs -> TrackData.getattr td attr = Some arr ->
             py_index arr mass_idx = Ok row ->
             In (attr, nth 0 row 0) r).
Proof.
  intros Hage Hrow Hok.
  pose proof Hok as (Hnp & Hm & _).
  unfold TrackData.interpolate_in_time. rewrite Hage.
  destruct (Z.geb_spec mass_idx (TrackData.num_masses td)); [lia|].
  rewrite Hrow. cbn [bind np_searchsorted]. split; intros Ht.
  - destruct (Rlt_dec a t); [lra|]. reflexivity.
  - destruct (Rlt_dec a t) as [_|]; [|lra]. rewrite Hnp. cbv zeta.
    change (Z.of_nat 1 =? 0)%Z with false.
    change (Z.of_nat 1 >=? Z.of_nat 1)%Z with true. cbv iota.
    change (Z.of_nat 1 - 1)%Z with 0%Z. change (0 - 1)%Z with (-1)%Z.
    rewrite (py_index_last [a] 0), (py_index_first [a] 0) by discriminate.
    cbn [bind last nth].
    destruct (Rlt_dec a a) as [|_]; [lra|].
    destruct (interpolate_attrs_single td mass_idx 0 TrackData.attrs Hok)
      as (r & Hr & Hin).
    exists r. split; [exact Hr|]. intros attr arr row Ha Hg Hp.
    specialize (Hin attr arr row Ha Hg Hp).
    replace (nth 0 row 0 + 0 * (nth 0 row 0 - nth 0 row 0)) with (nth 0 row 0) in Hin
      by ring.
    exact Hin.
Qed.

Lemma track_data_one_rows : row_ok track_data_one 0 1.
Proof.
  split; [reflexivity|]. split; [reflexivity|].
  intros attr arr. unfold TrackData.getattr.
  repeat match goal with
         | |- context [String.eqb ?a ?b] => destruct (String.eqb a b)
         end;
    intros H; inversion H; subst; eexists; split; reflexivity.
Qed.

Lemma interpolate_in_time_single_point_witness :
  TrackData.interpolate_in_time track_data_one 0 4 = Raise IndexError.
Proof.
  refine (proj1 (interpolate_in_time_single_point track_data_one 0 [[5]] 5 4 _ _ _) _).
  - reflexivity.
  - reflexivity.
  - exact track_data_one_rows.
  - lra.
Defined.

(** X26.  On a table whose tracks each have a row, [interpolate_track]
    finds a state for every mass and age exactly when the table holds at
    least one mass.  On a table without any mass (a track file without a
    mass header loads as such) it raises [IndexError], and so does
    [get_lifetime]. *)
Theorem interpolate_succeeds_iff (d : StellarTracks.mass_data) (mass t : R) :
  (forall k tr, StellarTracks.dict_get d k = Ok tr -> track_ok tr) ->
  ((exists p, StellarTracks.interpolate_in d mass t = Ok p) <-> d <> [])
  /\ (d = [] ->
      StellarTracks.interpolate_in d mass t = Raise IndexError
      /\ StellarTracks.lifetime_in d mass = Raise IndexError).
Proof.
  intros Hall. split; [split|].
  - intros [p Hp] E. subst d. discriminate.
  - intros Hne. apply interpolate_in_total; assumption.
  - intros ->. split; reflexivity.
Qed.

Lemma interpolate_succeeds_iff_witness :
  (exists p, StellarTracks.interpolate_in table_two 4 5 = Ok p) <-> table_two <> [].
Proof.
  refine (proj1 (interpolate_succeeds_iff table_two 4 5 _)).
  exact table_two_ok.
Defined.

(** ** The density and the integral *)

Lemma derivable_pt_lim_local (f g : R -> R) (x l d0 : R) :
  0 < d0 -> (forall y, Rabs (y - x) < d0 -> f y = g y) ->
  derivable_pt_lim g x l -> derivable_pt_lim f x l.
Proof.
  intros Hd Heq Hg eps Heps. destruct (Hg eps Heps) as [delta Hdelta].
  assert (Hm : 0 < Rmin delta d0) by (apply Rmin_pos; [apply cond_pos | exact Hd]).
  exists (mkposreal (Rmin delta d0) Hm). intros h Hh Hlt. cbn [pos] in Hlt.
  rewrite (Heq (x + h)), (Heq x).
  - apply Hdelta; [exact Hh|].
    apply Rlt_le_trans with (Rmin delta d0); [exact Hlt | apply Rmin_l].
  - replace (x - x) with 0 by ring. rewrite Rabs_R0. exact Hd.
  - replace (x + h - x) with h by ring.
    apply Rlt_le_trans with (Rmin delta d0); [exact Hlt | apply Rmin_r].
Qed.

(** The closed form of an interval, as a function of its upper end,
    has the derivative [1 / m] for the exponents 1 and -1 and
    [m ** (-alpha)] for the others. *)
Lemma segment_term_derivative (alpha a b : R) :
  0 < a -> 0 < b ->
  derivable_pt_lim (fun m => IMF.segment_term alpha a m) b
                   (if Req_dec_T alpha (-1) then 1 / b
                    else if Req_dec_T alpha 1 then 1 / b
                         else Rpower b (- alpha)).
Proof.
  intros Ha Hb.
  assert (Hlog : derivable_pt_lim (fun m => np_log (m / a)) b (1 / b)).
  { apply (derivable_pt_lim_local _ (ln - fct_cte (ln a))%F b _ b Hb).
    - intros y Hy. unfold np_log, minus_fct, fct_cte.
      apply ln_quot; [|exact Ha].
      revert Hy. unfold Rabs. destruct (Rcase_abs _); lra.
    - replace (1 / b) with (/ b - 0) by (unfold Rdiv; ring).
      apply derivable_pt_lim_minus;
        [apply derivable_pt_lim_ln; exact Hb | apply derivable_pt_lim_const]. }
  unfold IMF.segment_term.
  destruct (Req_dec_T alpha (-1)); [exact Hlog|].
  destruct (Req_dec_T alpha 1); [exact Hlog|].
  set (p := - alpha + 1). assert (Hp : p <> 0) by (unfold p; lra).
  apply (derivable_pt_lim_local
           _ (mult_real_fct (/ p) ((fun m => Rpower m p) - fct_cte (Rpower a p))%F)
           b _ 1 Rlt_0_1).
  - intros y _. unfold np_pow, mult_real_fct, minus_fct, fct_cte. field. exact Hp.
  - replace (Rpower b (- alpha)) with (/ p * (p * Rpower b (p - 1) - 0)).
    + apply derivable_pt_lim_scal. apply derivable_pt_lim_minus;
        [apply derivable_pt_lim_power; exact Hb | apply derivable_pt_lim_const].
    + replace (p - 1) with (- alpha) by (unfold p; ring). field. exact Hp.
Qed.

(** X27.  For an IMF that [IMF(...)] has accepted and whose lowest mass
    limit is positive, at a mass [b] strictly inside an interval whose
    exponent is 1 or at least [1e-6] away from 1, [xi(b)] is the
    derivative of [integrate(a, m)] in its upper bound [m] at [b], for any
    lower bound [a < b] of the same interval: [integrate] is the integral
    of the density [xi]. *)
Theorem xi_is_derivative_of_integrate (n : Z) (exps lims : list R) (self : IMF.t)
        (i : nat) (a b : R) :
  IMF.__init__ n exps lims = Ok self ->
  0 < nth 0 lims 0 ->
  (i < Z.to_nat n)%nat ->
  nth i lims 0 <= a -> a < b -> b < nth (S i) lims 0 ->
  nth i exps 0 = 1 \/ 1e-6 <= Rabs (nth i exps 0 - 1) ->
  exists v,
    IMF.xi self b None = Ok v
    /\ derivable_pt_lim (fun m => IMF.integrate self a m) b v.
Proof.
  intros Hinit Hpos Hi Ha Hab Hb Halpha.
  destruct (imf_shape n exps lims self Hinit) as (Hn & He & Hl & Hlen & Hinc & Hlast).
  destruct (init_ok_fields _ _ _ _ Hinit) as (_ & _ & _ & Hle & _).
  assert (H0 : nth 0 lims 0 <= nth i lims 0)
    by (apply (limits_le n exps lims self Hinit); lia).
  assert (H1 : nth (S i) lims 0 <= last lims 0)
    by (rewrite Hlast; apply (limits_le n exps lims self Hinit); lia).
  assert (Hne : lims <> []) by (intros E; rewrite E in Hlen; discriminate).
  set (alpha := nth i exps 0) in *.
  exists (if Req_dec_T alpha (-1) then 1 / b
          else if Req_dec_T alpha 1 then 1 / b else Rpower b (- alpha)).
  split.
  - unfold IMF.xi. rewrite Hl, Hn.
    rewrite (py_index_first lims 0 Hne), (py_index_last lims 0 Hne). cbn [bind].
    destruct (Rlt_dec b (nth 0 lims 0)); [lra|].
    destruct (Rlt_dec (last lims 0) b); [lra|].
    rewrite (searchsorted_between lims b i) by
      (try (apply increasing_ascending; exact Hinc); try lia; lra).
    unfold np_clip.
    replace (Z.min (Z.max (Z.of_nat (S i) - 1) 0) (n - 1)) with (Z.of_nat i) by lia.
    unfold IMF.xi_at. rewrite He.
    rewrite (py_index_nat exps i 0) by lia. fold alpha. cbn [bind].
    unfold py_div, np_pow. destruct (Req_dec_T b 0); [lra|].
    destruct (Rlt_dec (Rabs (alpha - 1)) 1e-6) as [Hnear|Hfar].
    + destruct Halpha as [E|Hge]; [|lra].
      destruct (Req_dec_T alpha (-1)); [reflexivity|].
      destruct (Req_dec_T alpha 1); [reflexivity | contradiction].
    + destruct (Req_dec_T alpha (-1)); [reflexivity|].
      destruct (Req_dec_T alpha 1) as [E|]; [|reflexivity].
      exfalso. apply Hfar. rewrite E. replace (1 - 1) with 0 by ring.
      rewrite Rabs_R0. lra.
  - apply (derivable_pt_lim_local _ (fun m => IMF.segment_term alpha a m) b _
                                  (Rmin (b - a) (nth (S i) lims 0 - b))).
    + apply Rmin_pos; lra.
    + intros y Hy.
      assert (Hy1 : Rabs (y - b) < b - a)
        by (apply Rlt_le_trans with (1 := Hy); apply Rmin_l).
      assert (Hy2 : Rabs (y - b) < nth (S i) lims 0 - b)
        by (apply Rlt_le_trans with (1 := Hy); apply Rmin_r).
      apply (integrate_in_segment n exps lims self i a y Hinit Hi Ha).
      * revert Hy1. unfold Rabs. destruct (Rcase_abs _); lra.
      * revert Hy2. unfold Rabs. destruct (Rcase_abs _); lra.
    + apply segment_term_derivative; lra.
Qed.

Lemma xi_is_derivative_of_integrate_witness :
  exists v,
    IMF.xi imf_two 5 None = Ok v
    /\ derivable_pt_lim (fun m => IMF.integrate imf_two 2 m) 5 v.
Proof.
  apply (xi_is_derivative_of_integrate 2 [2.35; 1] [1; 10; 100] imf_two 0 2 5
                                       imf_two_init).
  - cbn. lra.
  - cbn. lia.
  - cbn. lra.
  - lra.
  - cbn. lra.
  - right. cbn [nth]. unfold Rabs. destruct (Rcase_abs _); lra.
Defined.

(** ** Between two tabulated ages *)

(** Strictly between two neighbouring sample points [np.interp] is on
    the chord, written with the slope first. *)
Lemma np_interp_inside (xp fp : list R) (j : nat) (x : R) :
  increasing xp -> List.length fp = List.length xp -> (S j < List.length xp)%nat ->
  nth j xp 0 < x -> x < nth (S j) xp 0 ->
  StellarTracks.np_interp x xp fp
  = Ok ((nth (S j) fp 0 - nth j fp 0) / (nth (S j) xp 0 - nth j xp 0)
        * (x - nth j xp 0) + nth j fp 0).
Proof.
  intros Hinc Hlen Hj Hlo Hhi.
  assert (H0 : nth 0 xp 0 <= nth j xp 0)
    by (apply increasing_le; [assumption | lia | lia]).
  assert (HN : nth (S j) xp 0 <= last xp 0)
    by (rewrite last_nth; apply increasing_le; [assumption | lia | lia]).
  unfold StellarTracks.np_interp.
  destruct xp as [|x0 xtl]; [cbn in Hj; lia|].
  rewrite Hlen, Nat.eqb_refl. cbn [negb].
  change (nth 0 (x0 :: xtl) 0) with x0 in H0.
  destruct (Rlt_dec x x0); [lra|].
  destruct (Rlt_dec (last (x0 :: xtl) 0) x); [lra|].
  rewrite (interp_scan_inside (x0 :: xtl) fp j x) by (try assumption; lra).
  reflexivity.
Qed.

(** X28.  On a table whose tracks each have a row, at a tabulated mass
    whose ages increase strictly, for an age [t] strictly between the
    ages [t0] of row [j] and [t1] of row [j + 1]: [interpolate_track]
    returns, for each of the four continuous quantities, the value
    [(v1 - v0) / (t1 - t0) * (t - t0) + v0] of [np.interp] on the chord
    between the two rows, and the stellar type of the later row, [j + 1],
    however close the age is to row [j]. *)
Theorem interpolate_between_ages (d : StellarTracks.mass_data) (mass t : R)
        (tr : StellarTracks.Track) (j : nat) :
  let t0 := nth j (StellarTracks.time tr) 0 in
  let t1 := nth (S j) (StellarTracks.time tr) 0 in
  let chord (column : list R) :=
    (nth (S j) column 0 - nth j column 0) / (t1 - t0) * (t - t0) + nth j column 0 in
  (forall k tr', StellarTracks.dict_get d k = Ok tr' -> track_ok tr') ->
  StellarTracks.dict_get d mass = Ok tr ->
  increasing (StellarTracks.time tr) ->
  (S j < List.length (StellarTracks.time tr))%nat ->
  t0 < t -> t < t1 ->
  StellarTracks.interpolate_in d mass t
  = Ok (StellarTracks.mkProps
          (chord (StellarTracks.luminosity tr))
          (chord (StellarTracks.temperature tr))
          (chord (StellarTracks.radius tr))
          (chord (StellarTracks.mass_loss_rate tr))
          (nth (S j) (StellarTracks.stellar_type tr) 0%Z)).
Proof.
  intros t0 t1 chord Hall Hget Hinc Hj Hlo Hhi.
  pose proof (Hall _ _ Hget) as (Hne & Hl1 & Hl2 & Hl3 & Hl4 & Hl5).
  rewrite (interpolate_in_tabulated d mass t tr Hall Hget).
  unfold StellarTracks.single_track.
  rewrite !(np_interp_inside (StellarTracks.time tr) _ j t) by assumption.
  cbn [bind]. cbv zeta.
  rewrite (searchsorted_between (StellarTracks.time tr) t j)
    by (try (apply increasing_ascending; exact Hinc); try assumption;
        unfold t1 in Hhi; lra).
  rewrite Hl5, clip_inside by exact Hj.
  rewrite (py_index_nat (StellarTracks.stellar_type tr) (S j) 0%Z) by lia.
  reflexivity.
Qed.

(** Mass 10 of [table_two] at age 1, between its ages 0 and 1e7: the
    luminosity is [(20 - 10) / (1e7 - 0) * (1 - 0) + 10] and the stellar
    type is 4, that of the second row. *)
Lemma interpolate_between_ages_witness :
  StellarTracks.interpolate_in table_two 10 1
  = Ok (StellarTracks.mkProps
          ((20 - 10) / (10000000 - 0) * (1 - 0) + 10)
          ((40 - 30) / (10000000 - 0) * (1 - 0) + 30)
          ((60 - 50) / (10000000 - 0) * (1 - 0) + 50)
          ((80 - 70) / (10000000 - 0) * (1 - 0) + 70)
          4%Z).
Proof.
  apply (interpolate_between_ages table_two 10 1 track_m10 0).
  - exact table_two_ok.
  - exact table_two_get_10.
  - apply increasing_two. lra.
  - cbn. lia.
  - cbn. lra.
  - cbn. lra.
Defined.

(** ** Masses outside the table *)

(** X29.  Both queries clamp in mass: for a mass at or below the lowest
    tabulated mass, [interpolate_track] and [get_lifetime] return what
    they return at the lowest tabulated mass, and for a mass at or above
    the highest tabulated mass what they return at the highest; nothing
    is extrapolated in mass, and an error at the boundary mass is the
    error outside. *)
Theorem queries_clamp_in_mass (d : StellarTracks.mass_data) (mass t : R) :
  let masses := StellarTracks.py_sorted (StellarTracks.keys d) in
  d <> [] ->
  (mass <= nth 0 masses 0 ->
   StellarTracks.interpolate_in d mass t
   = StellarTracks.interpolate_in d (nth 0 masses 0) t
   /\ StellarTracks.lifetime_in d mass = StellarTracks.lifetime_in d (nth 0 masses 0))
  /\ (last masses 0 <= mass ->
      StellarTracks.interpolate_in d mass t
      = StellarTracks.interpolate_in d (last masses 0) t
      /\ StellarTracks.lifetime_in d mass = StellarTracks.lifetime_in d (last masses 0)).
Proof.
  intros masses Hd.
  assert (Hasc : ascending masses) by apply py_sorted_ascending.
  assert (Hne : masses <> []).
  { destruct d as [|[k v] tl]; [congruence|]. intros E.
    assert (Hin : In k masses) by (apply py_sorted_in; left; reflexivity).
    rewrite E in Hin. contradiction. }
  assert (Hlen : (0 < List.length masses)%nat)
    by (destruct masses; [congruence | cbn; lia]).
  assert (H0N : nth 0 masses 0 <= last masses 0)
    by (rewrite last_nth; apply Hasc; lia).
  unfold StellarTracks.interpolate_in, StellarTracks.lifetime_in. fold masses.
  rewrite (py_index_first masses 0 Hne), (py_index_last masses 0 Hne). cbn [bind].
  split; intros Hm.
  - destruct (Rle_dec mass (nth 0 masses 0)); [|lra].
    destruct (Rle_dec (nth 0 masses 0) (nth 0 masses 0)); [|lra].
    split; reflexivity.
  - destruct (Rle_dec (last masses 0) mass); [|lra].
    destruct (Rle_dec (last masses 0) (last masses 0)); [|lra].
    destruct (Rle_dec mass (nth 0 masses 0)) as [Hle|Hgt];
      destruct (Rle_dec (last masses 0) (nth 0 masses 0)) as [Hle'|Hgt'];
      try (split; reflexivity).
    + exfalso. lra.
    + replace (nth 0 masses 0) with (last masses 0) by lra. split; reflexivity.
Qed.

Lemma queries_clamp_in_mass_witness :
  StellarTracks.interpolate_in table_two 0.5 5
  = StellarTracks.interpolate_in table_two
      (nth 0 (StellarTracks.py_sorted (StellarTracks.keys table_two)) 0) 5
  /\ StellarTracks.lifetime_in table_two 0.5
     = StellarTracks.lifetime_in table_two
         (nth 0 (StellarTracks.py_sorted (StellarTracks.keys table_two)) 0).
Proof.
  refine (proj1 (queries_clamp_in_mass table_two 0.5 5 _) _).
  - discriminate.
  - rewrite table_two_sorted. cbn. lra.
Defined.


